(* ===== verification/_CoqProject ===== *)
-Q . S2P
Prelude.v
CFloat.v
JsonBuf.v
JsonScan.v
JsonDoc.v
Telemetry.v
ShmRing.v
HopAlias.v
Logic.v
Icmp.v
Gatekeeper.v
GateSetup.v
System.v
Topology.v
Accounting.v
KeySlots.v
JsonRpc.v
RpcConn.v
Spawn.v
PluginConfig.v
PluginDocs.v
PluginHost.v
PluginLoad.v
Percentile.v
GeoIP.v
PluginSystem.v
Draw.v
TuiState.v
PluginRender.v
HostLink.v
PluginLink.v
PluginKeys.v
PluginHub.v
PluginAnswers.v
Annotations.v
PluginMgr.v
TreeOrder.v
TuiView.v
TuiInput.v
TuiColors.v
TuiSystem.v
Supervisor.v
MainLoop.v
Whole.v
TextBounds.v
ManagerUse.v
PluginProgram.v
Singular.v
OldTracer.v
Bench.v
