(* ===== verification/Prelude.v ===== *)
(** * Verification of NSR, the Net muShRoom tracer

    NSR (src/README.md, src/ARCHITECTURE.md) is a network tracer split into
    processes.  The main process (src/src/core/main.c) resolves the targets and starts
    two processes for each: a gatekeeper (src/src/io/gatekeeper.c), which owns the raw
    socket, sends the probes and recognises the replies, and a logic engine
    (src/src/io/logic.c), which decides what to probe and keeps the telemetry.  It then
    reaps and restarts them, reads their snapshots, rebuilds a topology
    (src/src/state/topology.c), runs the user interface (src/src/ui) and talks to
    plugins (src/src/plugin, src/src/json).  Intents and observations travel through
    two single-producer single-consumer rings in shared memory, snapshots through a
    third; plugins are child processes that exchange JSON-RPC lines with the host.

    ** Files

    - Prelude.v: machine integers, arrays, byte order, C strings, tactics and the
      hint database [nsr].  CFloat.v: [float] and [double] as IEEE 754 values.
    - JsonBuf.v, JsonScan.v, JsonDoc.v (src/src/json/json.c): the growable output
      buffer and its operations; the scanner; documents, their printed form and
      the round trips between the two.
    - Telemetry.v (src/include/nsr/telemetry.h): the shared records and the byte
      layout of those that cross the rings (class [Layout]).
    - ShmRing.v (src/include/nsr/shm_ring.h): the two rings on raw slots (class
      [SlotMem]), push and pop split into their atomic steps.
    - HopAlias.v, Logic.v (src/src/io/logic.c): the alias table of a hop; pacing,
      timeout sweep, probe bursts, observation handling, one loop iteration.
    - Icmp.v, Gatekeeper.v, GateSetup.v (src/src/io/gatekeeper.c): packets and
      checksums, reply classification on raw bytes; the table of probes in flight,
      sending, receiving, one loop iteration; the target address (class [Inet] with
      the laws of [inet_pton] and [inet_ntop]) and the reused message buffers.
    - System.v: logic engine, gatekeeper and rings composed.
    - Topology.v (src/src/state/topology.c): nodes, edges, health, rebuild.
    - Accounting.v: the pipeline with processes that crash and start again on the
      rings they left, and the account of every probe.
    - KeySlots.v (src/src/ui/key_slots.c): where built-in keys move when plugins
      reserve them.
    - JsonRpc.v, RpcConn.v, Spawn.v (src/src/json/json_rpc.c): the messages and how a
      plugin reads them; the connection to a plugin over a script of system call
      results; pipes and [fork] on tables of file descriptors.
    - PluginConfig.v, PluginDocs.v, PluginHost.v, PluginLoad.v, PluginRender.v,
      PluginMgr.v (src/src/plugin/plugin.c): the settings file and reserved keys; the
      documents sent to plugins; the registry, key queues, dispatch of keys and
      responses, start and stop; loading of directories and the editor command; the
      drawing of plugin panels; the manager as an interface (class [PluginManager]
      with its laws) against which the user interface is proved.
    - Percentile.v, GeoIP.v (src/plugins/percentile, src/plugins/geoip): the two
      plugins written in C.
    - PluginSystem.v: what the plugins understand of what the host writes.
    - HostLink.v, PluginLink.v, PluginKeys.v, PluginAnswers.v, Annotations.v: what the
      host does on its pipes; the host and a plugin process as one interleaved system on
      them (class [MessagePlugin] with its laws, of which the two plugins are instances);
      the keys on their way to a plugin; what the percentile panel and the GeoIP
      annotations show in it.  PluginHub.v: the registry, whose calls are
      sequences of pieces of work on its entries, with the processes behind it, which
      are loaded, switched off and on and fail to start.
    - Draw.v, TuiState.v, TreeOrder.v, TuiView.v, TuiInput.v, TuiColors.v, TuiSystem.v
      (src/src/ui/tui.c): drawing as the list of ncurses calls made (class [Ncurses]
      for the constants); navigation and the state; the order of the tree view; the
      four views, footer and notice; keys; attributes and colour pairs; runs of keys and
      frames.
    - Supervisor.v, MainLoop.v (src/src/core/main.c): options, paths, sessions,
      reaping and draining; the turns of the main loop composed with rings, topology,
      interface and plugin manager.
    - Whole.v: the main loop interleaved with the processes it starts, on the rings
      they share, with signals, crashes, restarts and the end.
    - TextBounds.v, ManagerUse.v, PluginProgram.v: the addresses the program holds fit
      their arrays; what the program does with its plugin manager, as a list of calls,
      which an instance of [PluginManager] writes down; the plugin processes behind
      these calls, from the load of the directories on.
    - Singular.v, OldTracer.v (src/src/io/singular_*.c, tracer.c, supervisor.c):
      earlier designs that are in the tree but not linked.
    - Bench.v (src/bench_nsr_e2e.c, src/bench_nsr.c): the benchmark programs.

    ** What the theorems show

    Rings.  Each ring refines a bounded queue; under every interleaving of the
    atomic steps of one producer and one consumer the consumer receives exactly
    what was sent, in order, and the two never touch the same slot
    ([ShmRing.spsc_fifo], [ring_refines_queue], [spsc_no_slot_race]).

    Engine and gatekeeper.  Every iteration is total, stays inside its arrays and
    keeps the invariants ([Logic.engine_iteration], [engine_invariant],
    [Gatekeeper.gatekeeper_iteration], [System.pipeline_safe]), also across restarts
    ([Accounting.restarts_are_safe]); no probe is counted twice, so that a snapshot
    never has more answers than probes ([Accounting.probes_are_conserved]); bursts follow the
    schedule, observations update their hop and nothing else, silent hops time out;
    the reused buffers carry exactly the probes of the current batch
    ([GateSetup.buffers_carry_probes]); every kind of reply to a probe is recognised
    as what it is, arbitrary packets are classified without reading out of bounds, a
    received reply is reported once and only for an outstanding probe
    ([Icmp.replies_recognised], [Icmp.classify_safe],
    [Gatekeeper.receive_reports_outstanding], [answer_is_reported]).

    Whole program.  From any accepted command line, however the main loop and all the
    processes interleave and whatever crashes, nothing is accessed out of bounds and
    every component keeps its invariant ([Whole.whole_program_safe]); the counts that
    are shown are sound ([shown_counts_are_sound]); a crashed process runs again on the
    rings it left ([crashed_process_runs_again]); at the end no process stays behind
    ([nothing_is_left_behind]).

    Main process.  Each turn shows the newest snapshots ([MainLoop.turn_is_fresh]);
    exits disable a session, crashes are restarted ([Supervisor.process_exits],
    [MainLoop.crashes_are_survived]); the program ends when its sessions have ended
    ([supervisor_stops]); each gatekeeper probes the address its argument resolved to
    ([targets_reach_gatekeeper]).

    Topology and keys.  The rebuild keeps identifiers unique and edges between
    existing nodes; the node table refines a registry keyed by address and target;
    remapped keys are found under their new letter.

    User interface.  The state is well formed in every run ([TuiSystem.ui_invariant]);
    which keys give which commands ([key_commands]); Escape leads back to the normal
    view ([TuiInput.escape_reaches_normal]); the grid highlights what the keys act on
    ([TuiView.grid_highlight_is_focus]); the tree lists every node once in order
    ([TreeOrder.tree_shows_every_node], by the equivalence of the insertion sort with
    a bucket sort); boxes, footer and notices stay on the screen; frames use defined
    colour pairs and switch off what they switch on ([TuiColors.frames_are_well_styled]); a panel shows the
    answer of its plugin ([PluginRender.panel_shows_answer]).

    JSON.  The encoder refines plain text and produces JSON; what is encoded is
    read back; the scanner terminates on every input and stays inside it.

    Plugins.  A directory is loaded completely and nothing else with it
    ([PluginLoad.directory_is_loaded]); who holds which end of which pipe
    ([Spawn.stdin_ends]); a message is written whole or the connection is given up;
    receiving loses and invents no byte; a call returns the answer to its own request;
    keys reach a plugin in order and one at a time; a key an active plugin reserves is
    never passed on; a switched plugin stays switched after a restart, and the switch
    leaves the settings the GeoIP plugin reads ([PluginSystem.switch_keeps_database]);
    a telemetry update reaches the plugins row by row; the statistics of the percentile
    plugin are those of the samples of its windows; the GeoIP cache is a finite map.
    Bytes, partial reads, request numbers and answer slots implement an exchange of
    messages ([PluginLink.link_delivers_messages]), for every plugin of a registry and
    under its calls as they are ([PluginHub.registry_delivers_messages]), and for the
    plugins that the whole program loads, calls and switches in any of its runs
    ([PluginProgram.program_serves_plugins]); in it the keys
    that were pressed reach the plugin in order and at most once
    ([PluginKeys.keys_reach_plugin]), the
    percentile panel follows the telemetry ([PluginAnswers.panel_follows_telemetry]) and
    the annotations of a hop come from lookups of its address
    ([Annotations.annotations_follow_lookups]).

    Some theorems pin down defects: wrong IPv4 checksums
    ([Icmp.ipv4_probe_checksum_wrong]), drains that never read
    ([RpcConn.zero_timeout_never_reads]), jitter that stays zero and destination
    marks that get lost ([Topology.jitter_never_measured],
    [Topology.destination_mark_lost]), key collisions
    ([KeySlots.first_slot_collides]), control characters
    ([JsonDoc.control_char_not_restored]), settings files that are unterminated or
    long ([PluginConfig.config_unterminated_lost], [long_file_loses_settings]), an
    uninitialised receive array ([GeoIP.empty_body_reads_stale]), a tree cursor below
    the screen ([TuiView.tree_cursor_hidden]), colours under the names of others
    ([TuiColors.plugin_colors_are_shifted]), interval keys without effect on the
    probing ([MainLoop.interval_stays_in_main]) and out of range
    ([Supervisor.interval_leaves_range]), answers counted by a logic process that did
    not send the probes ([Accounting.restart_counts_foreign_answers]), signals to
    processes that are gone and restarts that are not tried again
    ([Supervisor.reaped_gatekeeper_is_signalled], [failed_restart_is_final]), lost
    standard input
    ([Spawn.closed_stdin_is_lost]), unquoted and cut names
    ([PluginLoad.editor_text_is_not_quoted], [long_name_loads_twice]), and the
    measurements and timeouts of the earlier designs
    ([Singular.broker_prints_pipe_delay], [OldTracer.timeout_never_fires]).

    ** Modelling conventions

    A [w]-bit unsigned integer is a [Z] with its wrap-around written out ([u8],
    [u16], [u32], [u64]); arrays are lists of their fixed length; a C string is the
    list of its characters before the NUL; [None] stands for a null pointer or an
    out-of-range access.  The target is little-endian x86-64.  Memory allocation is
    assumed to succeed, as the code does.  Clocks, address printing and name
    resolution, sockets, process ids, the HTTP client, the IP2Location database and
    the ncurses constants are parameters with the documented behaviour the proofs need
    as hypotheses or class laws.  System calls on the plugin pipes are a finite script
    of results, after whose end every call fails; one turn of the main loop is given
    what it observes as a [turn_event].

    Fuel: the scanner uses twice the length of its input plus two (two calls per
    character at most), array iteration the length of the text, buffer growth 64
    doublings, IPv6 extension walks the length of the packet, receive budgets one
    round per millisecond, drain loops one round per byte still to be received, the
    drain of a snapshot ring 16 rounds for its 15 snapshots, the search for a free
    descriptor one more than there are open; the lemmas
    [scanner_total_and_in_bounds], [grow_loop_spec], [ext_loop_total],
    [recv_response_fuel], [drain_rounds], [ring_drain_spec] and [free_fd_fresh] show
    that this is enough.

    ** Not modelled

    ncurses, the kernel, libcurl, IP2Location and the ttak library themselves;
    [getopt_long]'s reading of the argument vector; socket options and buffer sizes;
    messages on the standard error stream; driver tables and wrappers that only
    forward a call; texts and pauses of the singular broker; times,
    texts and processor affinity in the benchmarks; the empty stubs; the Rust, Python
    and shell parts (sniffer, sparkline, template, installer).  In PluginLink.v a
    plugin that asks the host to start over (force_sync) is excluded by the laws of its
    class: the two C plugins never do.  In PluginProgram.v
    the script of system call results of the manager is given in advance, and the
    statement is about the plugin processes whose output agrees with it. *)

From Stdlib Require Import ZArith Lia.
From Stdlib Require Export Ascii String.
From stdpp Require Export base tactics numbers strings option list.

#[global] Open Scope Z_scope.

(** ** Notation and automation *)

Declare Scope nsr_scope.
Delimit Scope nsr_scope with nsr.

(** The hint database of the development: lemmas that discharge range and
    representation side conditions. *)
Create HintDb nsr discriminated.

(** Case analysis on the first boolean comparison or [decide] that blocks the
    goal, keeping the fact as an arithmetic hypothesis. *)
Ltac split_if :=
  match goal with
  | |- context [if ?b then _ else _] =>
      lazymatch type of b with
      | bool => destruct b eqn:?
      | _ => destruct b
      end
  end.

Ltac split_if_in H :=
  match type of H with
  | context [if ?b then _ else _] =>
      lazymatch type of b with
      | bool => destruct b eqn:?
      | _ => destruct b
      end
  end.

(** Turns boolean tests in the context into propositions. *)
Ltac bool_facts :=
  repeat match goal with
  | H : (_ && _)%bool = true |- _ => apply andb_true_iff in H as [? ?]
  | H : (_ || _)%bool = false |- _ => apply orb_false_iff in H as [? ?]
  | H : negb _ = true |- _ => apply negb_true_iff in H
  | H : negb _ = false |- _ => apply negb_false_iff in H
  | H : (_ =? _)%Z = true |- _ => apply Z.eqb_eq in H
  | H : (_ =? _)%Z = false |- _ => apply Z.eqb_neq in H
  | H : (_ <? _)%Z = true |- _ => apply Z.ltb_lt in H
  | H : (_ <? _)%Z = false |- _ => apply Z.ltb_ge in H
  | H : (_ <=? _)%Z = true |- _ => apply Z.leb_le in H
  | H : (_ <=? _)%Z = false |- _ => apply Z.leb_gt in H
  | H : bool_decide _ = true |- _ => apply bool_decide_eq_true in H
  | H : bool_decide _ = false |- _ => apply bool_decide_eq_false in H
  end.

(** Case analysis on all integer tests of the goal, innermost first. *)
Ltac split_ifs :=
  cbv zeta;
  repeat (match goal with
          | |- context [if ?b then _ else _] =>
              lazymatch b with
              | context [if _ then _ else _] => fail
              | _ => destruct b eqn:?
              end
          end; bool_facts).

(** ** Machine integers

    A [w]-bit unsigned value is a [Z] in [0, 2^w); every operation that can
    leave the range is followed by the wrap-around of its C type. *)

Definition wrap (w z : Z) : Z := z mod 2 ^ w.

Definition u8 : Z -> Z := wrap 8.
Definition u16 : Z -> Z := wrap 16.
Definition u32 : Z -> Z := wrap 32.
Definition u64 : Z -> Z := wrap 64.

(** Conversion of an [int]-valued result back to a signed 32-bit [int]. *)
Definition s32 (z : Z) : Z := (z + 2 ^ 31) mod 2 ^ 32 - 2 ^ 31.

Lemma wrap_range w z : 0 <= w -> 0 <= wrap w z < 2 ^ w.
Proof. intros Hw. apply Z.mod_pos_bound. lia. Qed.

Lemma wrap_small w z : 0 <= z < 2 ^ w -> wrap w z = z.
Proof. apply Z.mod_small. Qed.

Lemma u8_range z : 0 <= u8 z < 256.
Proof. apply (wrap_range 8). lia. Qed.

Lemma u16_range z : 0 <= u16 z < 65536.
Proof. apply (wrap_range 16). lia. Qed.

Lemma u32_range z : 0 <= u32 z < 2 ^ 32.
Proof. apply (wrap_range 32). lia. Qed.

Lemma u64_range z : 0 <= u64 z < 2 ^ 64.
Proof. apply (wrap_range 64). lia. Qed.

Lemma u16_small z : 0 <= z < 65536 -> u16 z = z.
Proof. apply (wrap_small 16). Qed.

Lemma u32_small z : 0 <= z < 2 ^ 32 -> u32 z = z.
Proof. apply (wrap_small 32). Qed.

Lemma u64_small z : 0 <= z < 2 ^ 64 -> u64 z = z.
Proof. apply (wrap_small 64). Qed.

Lemma u8_small z : 0 <= z < 256 -> u8 z = z.
Proof. apply (wrap_small 8). Qed.

#[export] Hint Resolve u8_range u16_range u32_range u64_range : nsr.
#[export] Hint Resolve u8_small u16_small u32_small u64_small : nsr.

(** A mask with an all-ones constant is a remainder. *)
Lemma land_mask z k : 0 <= k -> Z.land z (2 ^ k - 1) = z mod 2 ^ k.
Proof.
  intros Hk. rewrite <- Z.land_ones by done.
  by rewrite Z.ones_equiv, <- Z.sub_1_r.
Qed.

(** ** Lists as C arrays

    A fixed-size C array is a list; [aget] and [aset] fail (with [None]) on an
    index outside the array, which in C is undefined behaviour. *)

Definition aget {A} (l : list A) (i : Z) : option A :=
  if (0 <=? i) then l !! Z.to_nat i else None.

Definition aset {A} (l : list A) (i : Z) (x : A) : option (list A) :=
  if (0 <=? i) && (i <? Z.of_nat (length l)) then Some (<[Z.to_nat i := x]> l) else None.

Lemma aget_Some {A} (l : list A) i :
  0 <= i < Z.of_nat (length l) -> is_Some (aget l i).
Proof.
  intros Hi. unfold aget. rewrite (proj2 (Z.leb_le 0 i)) by lia.
  apply lookup_lt_is_Some. lia.
Qed.

Lemma aset_Some {A} (l : list A) i x :
  0 <= i < Z.of_nat (length l) -> aset l i x = Some (<[Z.to_nat i := x]> l).
Proof. intros Hi. unfold aset. split_if; [done|]. lia. Qed.

Lemma aset_length {A} (l l' : list A) i x :
  aset l i x = Some l' -> length l' = length l.
Proof. unfold aset. split_if; intros; simplify_eq. apply length_insert. Qed.

(** [memcpy]-style overwrite of the cells from [off] on. *)
Definition splice {A} (l : list A) (off : nat) (src : list A) : list A :=
  take off l ++ src ++ drop (off + length src) l.

Lemma splice_length {A} (l : list A) off src :
  (off + length src <= length l)%nat -> length (splice l off src) = length l.
Proof.
  intros H. unfold splice. rewrite !length_app, length_take, length_drop. lia.
Qed.

Lemma splice_app {A} (pre mid post src : list A) :
  length mid = length src ->
  splice (pre ++ mid ++ post) (length pre) src = pre ++ src ++ post.
Proof.
  intros H. unfold splice. rewrite take_app_length. do 2 f_equal.
  rewrite <- H, drop_app_add', drop_app_length; done.
Qed.

(** ** Little-endian words (the byte order of the x86-64 target) *)

Fixpoint le_split (n : nat) (z : Z) : list Z :=
  match n with
  | O => []
  | S n' => (z mod 256) :: le_split n' (z / 256)
  end.

Fixpoint le_join (bs : list Z) : Z :=
  match bs with
  | [] => 0
  | b :: bs' => b + 256 * le_join bs'
  end.

Lemma le_split_length n z : length (le_split n z) = n.
Proof. revert z. induction n; intros; simpl; auto. Qed.

Lemma le_join_split n z :
  0 <= z < 256 ^ Z.of_nat n -> le_join (le_split n z) = z.
Proof.
  revert z. induction n as [|n IH]; intros z Hz.
  - simpl in *. lia.
  - cbn [le_split le_join]. rewrite IH.
    + pose proof (Z.div_mod z 256). lia.
    + rewrite Nat2Z.inj_succ, Z.pow_succ_r in Hz by lia.
      split; [apply Z.div_pos; lia|]. apply Z.div_lt_upper_bound; lia.
Qed.

Lemma le_split_bytes n z : Forall (fun b => 0 <= b < 256) (le_split n z).
Proof.
  revert z. induction n as [|n IH]; intros z; constructor; auto.
  apply Z.mod_pos_bound. lia.
Qed.

(** ** C strings

    A [const char *] into a NUL-terminated text is the list of characters that
    remain before the terminator: [*p] is [deref p], [p + 1] is the tail. *)

Abbreviation cstr := (list ascii).

Definition NUL : ascii := "000"%char.
Definition QUOTE : ascii := "034"%char.
Definition BACKSLASH : ascii := "092"%char.

Definition str (s : string) : cstr := list_ascii_of_string s.

Definition deref (p : cstr) : ascii :=
  match p with [] => NUL | c :: _ => c end.

(** The value of a character as an unsigned byte. *)
Definition ord (c : ascii) : Z := Z.of_N (N_of_ascii c).
Definition chr (z : Z) : ascii := ascii_of_N (Z.to_N z).

Definition ceq (a b : ascii) : bool := Ascii.eqb a b.

Lemma ceq_true a b : ceq a b = true <-> a = b.
Proof. apply Ascii.eqb_eq. Qed.

Lemma ceq_false a b : ceq a b = false <-> a <> b.
Proof. apply Ascii.eqb_neq. Qed.

Lemma ceq_refl a : ceq a a = true.
Proof. by apply ceq_true. Qed.

Lemma ord_range c : 0 <= ord c < 256.
Proof. unfold ord. pose proof (N_ascii_bounded c). lia. Qed.

Lemma chr_ord c : chr (ord c) = c.
Proof. unfold chr, ord. by rewrite N2Z.id, ascii_N_embedding. Qed.

Lemma ord_chr z : 0 <= z < 256 -> ord (chr z) = z.
Proof. intros H. unfold chr, ord. rewrite N_ascii_embedding; lia. Qed.

(** The text before the first NUL of a character buffer. *)
Fixpoint c_content (l : cstr) : cstr :=
  match l with
  | [] => []
  | c :: l' => if ceq c NUL then [] else c :: c_content l'
  end.

Definition nul_free (s : cstr) : Prop := NUL ∉ s.

Lemma c_content_nul_free s : nul_free s -> c_content s = s.
Proof.
  induction s as [|c s IH]; intros H; [done|]. simpl.
  apply not_elem_of_cons in H as [Hc Hs].
  rewrite (proj2 (ceq_false c NUL)) by done. by rewrite IH.
Qed.

Lemma c_content_app_nul s t : nul_free s -> c_content (s ++ NUL :: t) = s.
Proof.
  induction s as [|c s IH]; intros H; [done|]. simpl.
  apply not_elem_of_cons in H as [Hc Hs].
  rewrite (proj2 (ceq_false c NUL)) by done. by rewrite IH.
Qed.

(** [strncpy(dst, src, n)] into a [char] array whose byte [n] is NUL: the
    array then holds the first [n] characters of [src]. *)
Definition strncpy (n : nat) (src : cstr) : cstr := take n src.

(** [strcmp(a, b) == 0]. *)
Definition streq (a b : cstr) : bool := bool_decide (a = b).

Lemma streq_true a b : streq a b = true <-> a = b.
Proof. apply bool_decide_eq_true. Qed.

Lemma streq_false a b : streq a b = false <-> a <> b.
Proof. apply bool_decide_eq_false. Qed.

(** [printf] field widths: [%ws] and [%-ws]. *)
Definition pad_left (w : nat) (s : cstr) : cstr := replicate (w - length s) " "%char ++ s.
Definition pad_right (w : nat) (s : cstr) : cstr := s ++ replicate (w - length s) " "%char.

(** [isspace] on the byte values of the C locale. *)
Definition isspace (c : ascii) : bool :=
  (ord c =? 32) || ((9 <=? ord c) && (ord c <=? 13)).

Definition is_digit (c : ascii) : bool := (48 <=? ord c) && (ord c <=? 57).
