(* ===== verification/CFloat.v ===== *)
(** * C floating point

    [float] and [double] are IEEE 754 binary32 and binary64, computed with the
    executable specification of the Standard Library ([SpecFloat]): round to
    nearest even, no extended precision and no contraction, which is what the
    project's build (x86-64, [-std=c2x]) gives. *)

From Stdlib Require Export SpecFloat.
From S2P Require Import Prelude.

Abbreviation cfloat := spec_float.

(** Conversion of an integer to [float]; a source literal such as [0.7f] is the
    correctly rounded quotient of two integers. *)
Definition f32_of_Z (z : Z) : cfloat := binary_normalize 24 128 z 0 false.
Definition f32_lit (num den : Z) : cfloat := SFdiv 24 128 (f32_of_Z num) (f32_of_Z den).
Definition f32_add : cfloat -> cfloat -> cfloat := SFadd 24 128.
Definition f32_sub : cfloat -> cfloat -> cfloat := SFsub 24 128.
Definition f32_mul : cfloat -> cfloat -> cfloat := SFmul 24 128.
Definition f32_div : cfloat -> cfloat -> cfloat := SFdiv 24 128.

Definition f64_of_Z (z : Z) : cfloat := binary_normalize 53 1024 z 0 false.
Definition f64_sub : cfloat -> cfloat -> cfloat := SFsub 53 1024.
Definition f64_div : cfloat -> cfloat -> cfloat := SFdiv 53 1024.

Definition f_zero : cfloat := S754_zero false.

(** Quotient of a non-negative integer by a positive one, rounded to nearest,
    ties to even. *)
Definition div_half_even (num den : Z) : Z :=
  let q := num / den in
  let r := num mod den in
  if 2 * r <? den then q
  else if den <? 2 * r then q + 1
  else if Z.even q then q else q + 1.

(** The magnitude of a finite value in millionths, rounded as [%.6f] does. *)
Definition micro_units (m : positive) (e : Z) : Z :=
  if 0 <=? e then Z.pos m * 2 ^ e * 1000000
  else div_half_even (Z.pos m * 1000000) (2 ^ (- e)).

Lemma div_half_even_spec num den :
  0 < den -> - den <= 2 * (num - den * div_half_even num den) <= den.
Proof.
  intros Hd. unfold div_half_even. pose proof (Z.div_mod num den).
  pose proof (Z.mod_pos_bound num den).
  repeat split_if; bool_facts; nia.
Qed.

(** Subtracting a finite value from itself gives positive zero. *)
Lemma f32_sub_self s m e : f32_sub (S754_finite s m e) (S754_finite s m e) = f_zero.
Proof. unfold f32_sub, SFsub. by rewrite Z.sub_diag. Qed.

(** ** Conversion of 64-bit integers does not overflow

    A [uint64_t] converted to [float] is zero or finite. *)

Definition finite (x : cfloat) : Prop :=
  match x with S754_zero _ | S754_finite _ _ _ => True | _ => False end.

Lemma digits2_log2 p : Z.pos (digits2_pos p) = Z.log2 (Z.pos p) + 1.
Proof.
  induction p as [p IH|p IH|]; simpl digits2_pos; [| |done].
  - rewrite Pos2Z.inj_succ, IH. rewrite Pos2Z.inj_xI, Z.log2_succ_double by lia. lia.
  - rewrite Pos2Z.inj_succ, IH. rewrite Pos2Z.inj_xO, Z.log2_double by lia. lia.
Qed.

Lemma Zdigits2_bound m k : 0 <= m < 2 ^ k -> 0 <= k -> Zdigits2 m <= k.
Proof.
  intros Hm Hk. destruct m as [|p|p]; simpl; [done| |lia].
  rewrite digits2_log2. assert (Z.log2 (Z.pos p) < k) by (apply Z.log2_lt_pow2; lia). lia.
Qed.

Lemma shr_1_bound mrs : 0 <= shr_m mrs -> 0 <= shr_m (shr_1 mrs) <= shr_m mrs.
Proof. destruct mrs as [[|[p|p|]|p] r s]; simpl; lia. Qed.

Lemma iter_shr_bound p mrs :
  0 <= shr_m mrs -> 0 <= shr_m (SpecFloat.iter_pos shr_1 p mrs) <= shr_m mrs.
Proof.
  revert mrs. induction p as [p IH|p IH|]; intros mrs H; simpl.
  - pose proof (shr_1_bound mrs H). pose proof (IH (shr_1 mrs)).
    pose proof (IH (SpecFloat.iter_pos shr_1 p (shr_1 mrs))). lia.
  - pose proof (IH mrs H). pose proof (IH (SpecFloat.iter_pos shr_1 p mrs)). lia.
  - by apply shr_1_bound.
Qed.

(** The shift of a rounding step: the mantissa does not grow, the exponent is
    the larger of the old one and the one the format asks for. *)
Lemma shr_fexp_bound m e l :
  0 <= m ->
  let '(mrs, e') := shr_fexp 24 128 m e l in
  0 <= shr_m mrs <= m /\ e' = Z.max e (fexp 24 128 (Zdigits2 m + e)).
Proof.
  intros Hm. unfold shr_fexp.
  assert (Hr : shr_m (shr_record_of_loc m l) = m) by (by destruct l as [|[]]).
  destruct (fexp 24 128 (Zdigits2 m + e) - e) as [|p|p] eqn:E; simpl.
  - rewrite Hr. lia.
  - pose proof (iter_shr_bound p (shr_record_of_loc m l)). rewrite Hr in *. lia.
  - rewrite Hr. lia.
Qed.

Lemma round_bound m l : 0 <= m -> 0 <= round_nearest_even m l <= m + 1.
Proof. intros H. destruct l as [|[]]; simpl; repeat split_if; lia. Qed.

Lemma round_aux_finite sx m e l :
  0 <= m < 2 ^ 64 -> e <= 0 -> finite (binary_round_aux 24 128 sx m e l).
Proof.
  intros Hm He. unfold binary_round_aux.
  pose proof (shr_fexp_bound m e l) as H1. destruct (shr_fexp 24 128 m e l) as [mrs1 e1].
  destruct H1 as [Hm1 He1]; [lia|].
  pose proof (round_bound (shr_m mrs1) (loc_of_shr_record mrs1)) as Hr.
  set (m2 := round_nearest_even (shr_m mrs1) (loc_of_shr_record mrs1)) in *.
  pose proof (shr_fexp_bound m2 e1 loc_Exact) as H2.
  destruct (shr_fexp 24 128 m2 e1 loc_Exact) as [mrs2 e2]. destruct H2 as [Hm2 He2]; [lia|].
  pose proof (Zdigits2_bound m 64). pose proof (Zdigits2_bound m2 65).
  assert (e2 <= 104) by (unfold fexp, SpecFloat.emin in *; lia).
  destruct (shr_m mrs2) as [|p|p] eqn:Ep; [done| |lia].
  destruct (e2 <=? 128 - 24) eqn:El; [done|]. bool_facts. lia.
Qed.

Lemma iter_xO p d : Z.pos (Pos.iter xO p d) = Z.pos p * 2 ^ Z.pos d.
Proof.
  induction d as [|d IH] using Pos.peano_ind; [simpl; lia|].
  rewrite Pos.iter_succ, Pos2Z.inj_xO, IH, Pos2Z.inj_succ, Z.pow_succ_r by lia. lia.
Qed.

Lemma f32_of_Z_finite z : 0 <= z < 2 ^ 64 -> finite (f32_of_Z z).
Proof.
  intros Hz. unfold f32_of_Z, binary_normalize. destruct z as [|p|p]; [done| |lia].
  unfold binary_round, shl_align. rewrite Z.add_0_r, Z.sub_0_r.
  pose proof (digits2_log2 p) as Hd.
  destruct (fexp 24 128 (Z.pos (digits2_pos p))) as [|q|q] eqn:Ef;
    [apply round_aux_finite; lia..|].
  apply round_aux_finite; [|lia]. rewrite iter_xO. split; [lia|].
  assert (Hq : Z.pos q = 24 - Z.pos (digits2_pos p)) by (unfold fexp, SpecFloat.emin in *; lia).
  assert (Hp : Z.pos p < 2 ^ Z.pos (digits2_pos p)) by (rewrite Hd; apply Z.log2_spec; lia).
  assert (Z.pos p * 2 ^ Z.pos q < 2 ^ 24).
  { replace 24 with (Z.pos (digits2_pos p) + Z.pos q) by lia. rewrite Z.pow_add_r by lia.
    apply Z.mul_lt_mono_pos_r; lia. }
  assert (2 ^ 24 < 2 ^ 64) by (apply Z.pow_lt_mono_r; lia). lia.
Qed.

Lemma f32_sub_same x : finite x -> f32_sub x x = f_zero \/ (exists s, x = S754_zero s).
Proof. destruct x as [s| | |s m e]; try done; [right; by exists s|left; apply f32_sub_self]. Qed.

(** The absolute difference of a finite value and itself is positive zero. *)
Lemma f32_abs_sub_same x : finite x -> SFabs (f32_sub x x) = f_zero.
Proof. intros Hx. destruct (f32_sub_same x Hx) as [->|[[] ->]]; done. Qed.
