(* ===== verification/JsonBuf.v ===== *)
(** * The JSON text buffer and encoder (src/json/json.c, encoder part)

    [nsr_json_buf_t] is modelled with its heap block: [buf] is [None] for a null
    pointer and otherwise the list of the [cap] cells of the block, a cell being
    [None] while its content is indeterminate (fresh memory from [realloc]).
    Allocation is assumed to succeed, as the code does.  [rep jb s] says that
    the buffer holds the text [s], terminated by a NUL, inside its block; every
    operation refines the corresponding operation on plain texts. *)

From S2P Require Import Prelude CFloat.

Record nsr_json_buf_t := mk_json_buf {
  buf : option (list (option ascii));
  len : Z;
  cap : Z;
}.

(** ** Growth *)

(** [while (new_cap < target) new_cap *= 2] on [size_t]; 64 rounds are enough
    for every positive start and every target up to 2^63 ([grow_loop_spec]). *)
Fixpoint grow_loop (fuel : nat) (new_cap target : Z) : Z :=
  match fuel with
  | O => new_cap
  | S f => if new_cap <? target then grow_loop f (u64 (new_cap * 2)) target else new_cap
  end.

(** [realloc]: the old cells are kept, the new ones are indeterminate. *)
Definition realloc_cells (old : option (list (option ascii))) (n : Z) : list (option ascii) :=
  let cells := match old with Some cells => cells | None => [] end in
  take (Z.to_nat n) cells ++ replicate (Z.to_nat n - length cells) None.

Definition jb_grow (jb : nsr_json_buf_t) (need : Z) : nsr_json_buf_t :=
  if len jb + need <? cap jb then jb
  else
    let new_cap := if cap jb =? 0 then 256 else u64 (cap jb * 2) in
    let new_cap := grow_loop 64 new_cap (u64 (len jb + need)) in
    {| buf := Some (realloc_cells (buf jb) new_cap); len := len jb; cap := new_cap |}.

(** Stores [bytes] from cell [off] on.  A store past the end of the block would
    make the cell list longer than [cap]. *)
Definition store (jb : nsr_json_buf_t) (off : Z) (bytes : cstr) : option (list (option ascii)) :=
  option_map (fun cells => splice cells (Z.to_nat off) (map Some bytes)) (buf jb).

Definition jb_append_raw (jb : nsr_json_buf_t) (s : cstr) : nsr_json_buf_t :=
  let n := Z.of_nat (length s) in
  let jb := jb_grow jb (n + 1) in
  let jb := {| buf := store jb (len jb) s; len := len jb + n; cap := cap jb |} in
  {| buf := store jb (len jb) [NUL]; len := len jb; cap := cap jb |}.

Definition jb_append_char (jb : nsr_json_buf_t) (c : ascii) : nsr_json_buf_t :=
  let jb := jb_grow jb 2 in
  let jb := {| buf := store jb (len jb) [c]; len := len jb + 1; cap := cap jb |} in
  {| buf := store jb (len jb) [NUL]; len := len jb; cap := cap jb |}.

(** Reading an indeterminate or missing cell yields NUL in this total reading;
    [rep] shows that the cells read are written ones. *)
Definition cell_at (jb : nsr_json_buf_t) (i : Z) : ascii :=
  default NUL (default None (default [] (buf jb) !! Z.to_nat i)).

Definition opens_value (c : ascii) : bool :=
  negb (ceq c "{") && negb (ceq c "[") && negb (ceq c ":") && negb (ceq c ",").

Definition needs_comma (jb : nsr_json_buf_t) : bool :=
  if len jb =? 0 then false else opens_value (cell_at jb (len jb - 1)).

(** ** Life cycle *)

Definition zeroed_buf : nsr_json_buf_t := {| buf := None; len := 0; cap := 0 |}.

Definition nsr_json_init : nsr_json_buf_t :=
  let jb := jb_grow zeroed_buf 1 in
  {| buf := store jb 0 [NUL]; len := len jb; cap := cap jb |}.

Definition nsr_json_reset (jb : nsr_json_buf_t) : nsr_json_buf_t :=
  let jb := {| buf := buf jb; len := 0; cap := cap jb |} in
  match buf jb with
  | Some _ => {| buf := store jb 0 [NUL]; len := len jb; cap := cap jb |}
  | None => jb
  end.

Definition nsr_json_free (jb : nsr_json_buf_t) : nsr_json_buf_t := zeroed_buf.

(** The text a reader of the C string sees: up to the first NUL. *)
Definition nsr_json_cstr (jb : nsr_json_buf_t) : cstr :=
  match buf jb with
  | Some cells => c_content (map (default NUL) cells)
  | None => []
  end.

(** ** Encoder *)

Definition comma_if_needed (jb : nsr_json_buf_t) : nsr_json_buf_t :=
  if needs_comma jb then jb_append_char jb "," else jb.

Definition nsr_json_obj_start (jb : nsr_json_buf_t) : nsr_json_buf_t :=
  jb_append_char (comma_if_needed jb) "{".

Definition nsr_json_obj_end (jb : nsr_json_buf_t) : nsr_json_buf_t :=
  jb_append_char jb "}".

Definition nsr_json_arr_start (jb : nsr_json_buf_t) : nsr_json_buf_t :=
  jb_append_char (comma_if_needed jb) "[".

Definition nsr_json_arr_end (jb : nsr_json_buf_t) : nsr_json_buf_t :=
  jb_append_char jb "]".

(** [%04x] of a byte below 0x20. *)
Definition hex_digit (d : Z) : ascii := if d <? 10 then chr (48 + d) else chr (87 + d).

Definition u_escape (c : ascii) : cstr :=
  [BACKSLASH; "u"%char; "0"%char; "0"%char; hex_digit (ord c / 16); hex_digit (ord c mod 16)].

(** The characters with a two-character escape, and its second character. *)
Definition short_escape (c : ascii) : option ascii :=
  if ceq c QUOTE then Some QUOTE
  else if ceq c BACKSLASH then Some BACKSLASH
  else if ceq c (chr 8) then Some "b"%char
  else if ceq c (chr 12) then Some "f"%char
  else if ceq c (chr 10) then Some "n"%char
  else if ceq c (chr 13) then Some "r"%char
  else if ceq c (chr 9) then Some "t"%char
  else None.

Fixpoint append_escaped_loop (jb : nsr_json_buf_t) (s : cstr) : nsr_json_buf_t :=
  match s with
  | [] => jb
  | c :: s' =>
      if ceq c NUL then jb
      else
        let jb :=
          match short_escape c with
          | Some e => jb_append_raw jb [BACKSLASH; e]
          | None => if ord c <? 32 then jb_append_raw jb (u_escape c) else jb_append_char jb c
          end in
        append_escaped_loop jb s'
  end.

Definition append_escaped (jb : nsr_json_buf_t) (s : cstr) : nsr_json_buf_t :=
  jb_append_char (append_escaped_loop (jb_append_char jb QUOTE) s) QUOTE.

Definition nsr_json_key (jb : nsr_json_buf_t) (key : cstr) : nsr_json_buf_t :=
  jb_append_char (append_escaped (comma_if_needed jb) key) ":".

(** [val] is [None] for a null pointer. *)
Definition nsr_json_string (jb : nsr_json_buf_t) (val : option cstr) : nsr_json_buf_t :=
  append_escaped (comma_if_needed jb) (default [] val).

(** [%lld]: 20 digits are enough for any 64-bit value. *)
Fixpoint dec_digits (fuel : nat) (n : Z) (acc : cstr) : cstr :=
  match fuel with
  | O => acc
  | S f =>
      let acc := chr (48 + n mod 10) :: acc in
      if n <? 10 then acc else dec_digits f (n / 10) acc
  end.

Definition fmt_u64 (n : Z) : cstr := dec_digits 20 n [].

Definition fmt_lld (z : Z) : cstr :=
  if z <? 0 then "-"%char :: fmt_u64 (- z) else fmt_u64 z.

Definition nsr_json_int (jb : nsr_json_buf_t) (val : Z) : nsr_json_buf_t :=
  jb_append_raw (comma_if_needed jb) (fmt_lld val).

(** [%.6f] of a [double], printed through the 64-byte scratch array. *)
Definition frac6 (n : Z) : cstr :=
  map (fun k => chr (48 + n / 10 ^ k mod 10)) [5; 4; 3; 2; 1; 0].

Definition fmt_f6 (x : cfloat) : cstr :=
  match x with
  | S754_zero s => (if s then str "-" else []) ++ str "0.000000"
  | S754_infinity s => (if s then str "-" else []) ++ str "inf"
  | S754_nan => str "nan"
  | S754_finite s m e =>
      let n := micro_units m e in
      (if s then str "-" else []) ++ dec_digits 310 (n / 1000000) []
        ++ str "." ++ frac6 (n mod 1000000)
  end.

Definition nsr_json_double (jb : nsr_json_buf_t) (val : cfloat) : nsr_json_buf_t :=
  jb_append_raw (comma_if_needed jb) (take 63 (fmt_f6 val)).

Definition nsr_json_bool (jb : nsr_json_buf_t) (val : bool) : nsr_json_buf_t :=
  jb_append_raw (comma_if_needed jb) (if val then str "true" else str "false").

Definition nsr_json_null (jb : nsr_json_buf_t) : nsr_json_buf_t :=
  jb_append_raw (comma_if_needed jb) (str "null").

Definition nsr_json_append_raw (jb : nsr_json_buf_t) (s : cstr) : nsr_json_buf_t :=
  jb_append_raw jb s.

(** ** The texts the operations produce *)

Definition fits (s : cstr) : Prop := Z.of_nat (length s) < 2 ^ 62.

Definition t_needs_comma (s : cstr) : bool :=
  match last s with None => false | Some c => opens_value c end.

Definition t_comma (s : cstr) : cstr := if t_needs_comma s then s ++ [","%char] else s.

Definition esc_char (c : ascii) : cstr :=
  match short_escape c with
  | Some e => [BACKSLASH; e]
  | None => if ord c <? 32 then u_escape c else [c]
  end.

Definition esc (s : cstr) : cstr := concat (map esc_char (c_content s)).

Definition quoted (s : cstr) : cstr := QUOTE :: esc s ++ [QUOTE].

(** The buffer holds the text [s] and its terminator inside its block. *)
Definition rep (jb : nsr_json_buf_t) (s : cstr) : Prop :=
  exists rest,
    buf jb = Some (map Some s ++ Some NUL :: rest) /\
    len jb = Z.of_nat (length s) /\
    cap jb = Z.of_nat (length s + 1 + length rest) /\
    cap jb <= 2 ^ 63.

(** ** Growth is sound *)

Lemma grow_loop_spec fuel c t :
  0 < c < 2 ^ 64 -> t <= 2 ^ 62 -> t <= c * 2 ^ Z.of_nat fuel ->
  let r := grow_loop fuel c t in
  t <= r /\ c <= r /\ (r = c \/ r < 2 * t).
Proof.
  revert c. induction fuel as [|f IH]; intros c Hc Ht Hf.
  - simpl in *. lia.
  - cbn [grow_loop]. split_if; bool_facts; [|simpl; lia].
    rewrite (u64_small (c * 2)) by lia.
    destruct (IH (c * 2)) as (H1 & H2 & H3); try lia.
    rewrite Nat2Z.inj_succ, Z.pow_succ_r in Hf by lia. lia.
Qed.

Lemma jb_grow_spec jb s need :
  rep jb s -> 0 <= need -> Z.of_nat (length s) + need <= 2 ^ 62 ->
  exists rest,
    buf (jb_grow jb need) = Some (map Some s ++ Some NUL :: rest) /\
    len (jb_grow jb need) = Z.of_nat (length s) /\
    cap (jb_grow jb need) = Z.of_nat (length s + 1 + length rest) /\
    cap (jb_grow jb need) <= 2 ^ 63 /\
    Z.of_nat (length s) + need <= cap (jb_grow jb need).
Proof.
  intros (rest & Hbuf & Hlen & Hcap & Hmax) Hneed Hfit.
  unfold jb_grow. split_if; bool_facts.
  { exists rest. rewrite Hlen in *. repeat split; try done; lia. }
  rewrite Hlen in *. rewrite (proj2 (Z.eqb_neq (cap jb) 0)) by lia.
  rewrite (u64_small (cap jb * 2)), (u64_small (_ + need)) by lia.
  destruct (grow_loop_spec 64 (cap jb * 2) (Z.of_nat (length s) + need)) as (H1 & H2 & H3);
    [lia..|].
  set (n := grow_loop 64 _ _) in *. rewrite Hbuf. cbn [buf len cap].
  exists (rest ++ replicate (Z.to_nat n - (length s + 1 + length rest)) None).
  unfold realloc_cells.
  assert (length (map Some s ++ Some NUL :: rest) = (length s + 1 + length rest)%nat) as Hl.
  { rewrite length_app, length_map. simpl. lia. }
  rewrite take_ge by (rewrite Hl; lia). rewrite Hl.
  repeat split; try lia.
  - f_equal. simpl. by rewrite <- app_assoc.
  - rewrite length_app, length_replicate. lia.
Qed.

(** Writing [t] and a terminator after [s] leaves the rest of the block alone. *)
Lemma write_tail (s t : cstr) (tail : list (option ascii)) :
  (length t < length tail)%nat ->
  splice (splice (map Some s ++ tail) (length s) (map Some t)) (length s + length t) [Some NUL]
  = map Some (s ++ t) ++ Some NUL :: drop (length t + 1) tail.
Proof.
  intros Ht.
  pose proof (splice_app (map Some s) (take (length t) tail) (drop (length t) tail) (map Some t)) as E.
  rewrite take_drop, !length_map in E. rewrite E by (rewrite length_take; lia). clear E.
  destruct (drop (length t) tail) as [|x rest] eqn:Hd.
  { apply (f_equal length) in Hd. rewrite length_drop in Hd. simpl in Hd. lia. }
  pose proof (splice_app (map Some (s ++ t)) [x] rest [Some NUL]) as E.
  rewrite map_app, length_app, !length_map, <- !app_assoc in E. cbn [app] in E.
  rewrite E by done.
  rewrite map_app, <- app_assoc. do 2 f_equal. simpl. f_equal.
  by rewrite <- drop_drop, Hd.
Qed.

(** ** Every operation refines its text operation *)

Lemma fits_app_l s t : fits (s ++ t) -> fits s.
Proof. unfold fits. rewrite length_app. lia. Qed.

Lemma jb_append_raw_rep jb s t :
  rep jb s -> fits (s ++ t) -> rep (jb_append_raw jb t) (s ++ t).
Proof.
  intros Hrep Hfit. unfold fits in Hfit. rewrite length_app in Hfit.
  destruct (jb_grow_spec jb s (Z.of_nat (length t) + 1) Hrep)
    as (rest & Hb & Hl & Hc & Hm & Hn); [lia..|].
  unfold jb_append_raw. cbn zeta.
  set (g := jb_grow jb _) in *.
  exists (drop (length t) rest). cbn [buf len cap]. unfold store. cbn [buf option_map].
  rewrite Hb, Hl, Hc. cbn [option_map buf].
  assert (length t <= length rest)%nat by lia.
  repeat split.
  - rewrite <- Nat2Z.inj_add, !Nat2Z.id.
    rewrite write_tail by (simpl; lia). do 2 f_equal. by rewrite Nat.add_1_r.
  - rewrite length_app. lia.
  - rewrite length_app, length_drop. lia.
  - lia.
Qed.

Lemma jb_append_char_rep jb s c :
  rep jb s -> fits (s ++ [c]) -> rep (jb_append_char jb c) (s ++ [c]).
Proof. apply (jb_append_raw_rep jb s [c]). Qed.

Lemma nsr_json_init_rep : rep nsr_json_init [].
Proof. by exists (replicate 255 None). Qed.

Lemma nsr_json_reset_rep jb s : rep jb s -> rep (nsr_json_reset jb) [].
Proof.
  intros (rest & Hb & Hl & Hc & Hm). unfold nsr_json_reset. cbn [buf]. rewrite Hb.
  exists (drop 1 (map Some s ++ Some NUL :: rest)). cbn [buf len cap]. unfold store.
  cbn [buf option_map]. repeat split; [..|done].
  rewrite Hc, length_drop, length_app, length_map. simpl. lia.
Qed.

(** A text without NUL characters is what a C reader of the buffer sees. *)
Lemma nsr_json_cstr_rep jb s : rep jb s -> nsr_json_cstr jb = c_content s.
Proof.
  intros (rest & Hb & _). unfold nsr_json_cstr. rewrite Hb, map_app, map_map. simpl.
  rewrite map_id. clear Hb. induction s as [|c s IH]; [done|]. simpl.
  by rewrite IH.
Qed.

Lemma needs_comma_rep jb s : rep jb s -> needs_comma jb = t_needs_comma s.
Proof.
  intros (rest & Hb & Hl & _). unfold needs_comma, t_needs_comma. rewrite Hl.
  destruct s as [|c s _] using rev_ind; [done|].
  rewrite last_snoc, length_app. simpl length.
  rewrite (proj2 (Z.eqb_neq _ 0)) by lia. unfold cell_at. rewrite Hb. cbn.
  replace (Z.to_nat _) with (length (map Some s)) by (rewrite length_map; lia).
  rewrite map_app, <- app_assoc. cbn [map app]. by rewrite list_lookup_middle.
Qed.

Lemma comma_rep jb s : rep jb s -> fits (t_comma s) -> rep (comma_if_needed jb) (t_comma s).
Proof.
  intros Hr. unfold comma_if_needed, t_comma. rewrite (needs_comma_rep _ _ Hr).
  split_if; eauto using jb_append_char_rep.
Qed.

Lemma esc_cons c s : c <> NUL -> esc (c :: s) = esc_char c ++ esc s.
Proof. intros H. unfold esc. simpl. by rewrite (proj2 (ceq_false c NUL) H). Qed.

Lemma append_escaped_loop_rep jb s t :
  rep jb s -> fits (s ++ esc t) -> rep (append_escaped_loop jb t) (s ++ esc t).
Proof.
  revert jb s. induction t as [|c t IH]; intros jb s Hr Hf.
  { unfold esc. simpl. by rewrite app_nil_r. }
  cbn [append_escaped_loop]. destruct (ceq c NUL) eqn:Hc.
  { unfold esc. simpl. rewrite Hc. simpl. by rewrite app_nil_r. }
  rewrite esc_cons, app_assoc in * by (by apply ceq_false). apply IH; [|done].
  apply fits_app_l in Hf. unfold esc_char in *.
  destruct (short_escape c); [by apply jb_append_raw_rep|].
  split_if; [by apply jb_append_raw_rep | by apply jb_append_char_rep].
Qed.

Lemma append_escaped_rep jb s t :
  rep jb s -> fits (s ++ quoted t) -> rep (append_escaped jb t) (s ++ quoted t).
Proof.
  intros Hr Hf. unfold quoted in *.
  change (QUOTE :: esc t ++ [QUOTE]) with ([QUOTE] ++ esc t ++ [QUOTE]) in *.
  rewrite !app_assoc in *. apply jb_append_char_rep; [|done].
  apply fits_app_l in Hf. apply append_escaped_loop_rep; [|done].
  apply fits_app_l in Hf. by apply jb_append_char_rep.
Qed.

(** ** Sequences of encoder calls

    The calls a client can make between [nsr_json_init] and [nsr_json_free],
    their run on a buffer and the text they denote. *)

Inductive json_call :=
| CObjStart | CObjEnd | CArrStart | CArrEnd
| CKey (key : cstr)
| CString (val : option cstr)
| CInt (val : Z)
| CDouble (val : cfloat)
| CBool (val : bool)
| CNull
| CRaw (s : cstr).

Definition run_call (jb : nsr_json_buf_t) (c : json_call) : nsr_json_buf_t :=
  match c with
  | CObjStart => nsr_json_obj_start jb
  | CObjEnd => nsr_json_obj_end jb
  | CArrStart => nsr_json_arr_start jb
  | CArrEnd => nsr_json_arr_end jb
  | CKey key => nsr_json_key jb key
  | CString val => nsr_json_string jb val
  | CInt val => nsr_json_int jb val
  | CDouble val => nsr_json_double jb val
  | CBool val => nsr_json_bool jb val
  | CNull => nsr_json_null jb
  | CRaw s => nsr_json_append_raw jb s
  end.

Definition call_text (s : cstr) (c : json_call) : cstr :=
  match c with
  | CObjStart => t_comma s ++ str "{"
  | CObjEnd => s ++ str "}"
  | CArrStart => t_comma s ++ str "["
  | CArrEnd => s ++ str "]"
  | CKey key => t_comma s ++ quoted key ++ str ":"
  | CString val => t_comma s ++ quoted (default [] val)
  | CInt val => t_comma s ++ fmt_lld val
  | CDouble val => t_comma s ++ take 63 (fmt_f6 val)
  | CBool val => t_comma s ++ (if val then str "true" else str "false")
  | CNull => t_comma s ++ str "null"
  | CRaw t => s ++ t
  end.

Definition run_calls : nsr_json_buf_t -> list json_call -> nsr_json_buf_t := foldl run_call.
Definition calls_text : cstr -> list json_call -> cstr := foldl call_text.

(** A call that appends a fixed text, as a single [jb_append_raw]. *)
Ltac append_rep :=
  match goal with |- rep _ (?s ++ ?t) => apply (jb_append_raw_rep _ s t) end.

Lemma run_call_rep jb s c : rep jb s -> fits (call_text s c) -> rep (run_call jb c) (call_text s c).
Proof.
  intros Hr Hf.
  assert (forall t, call_text s c = t_comma s ++ t -> rep (comma_if_needed jb) (t_comma s)) as Hc.
  { intros t E. rewrite E in Hf. apply comma_rep; eauto using fits_app_l. }
  destruct c; cbn [run_call call_text] in *;
    try (by append_rep); try specialize (Hc _ eq_refl);
    try (by append_rep); try (by apply append_escaped_rep).
  unfold nsr_json_key. rewrite app_assoc in *. apply jb_append_char_rep; [|done].
  apply append_escaped_rep; eauto using fits_app_l.
Qed.

Lemma calls_text_prefix s cs : exists t, calls_text s cs = s ++ t.
Proof.
  revert s. induction cs as [|c cs IH]; intros s; [by exists []; rewrite app_nil_r|].
  destruct (IH (call_text s c)) as [t Ht]. unfold calls_text in *. simpl. rewrite Ht.
  assert (exists d, call_text s c = s ++ d) as [d ->].
  { destruct c; cbn [call_text]; unfold t_comma; try split_if; rewrite <- ?app_assoc; eauto. }
  exists (d ++ t). by rewrite app_assoc.
Qed.

Lemma run_calls_rep jb s cs :
  rep jb s -> fits (calls_text s cs) -> rep (run_calls jb cs) (calls_text s cs).
Proof.
  revert jb s. induction cs as [|c cs IH]; intros jb s Hr Hf; [done|].
  apply IH; [|done]. apply run_call_rep; [done|].
  destruct (calls_text_prefix (call_text s c) cs) as [t Ht].
  unfold calls_text in *. simpl in Hf. rewrite Ht in Hf. eauto using fits_app_l.
Qed.

(** C39: after [nsr_json_init] and any sequence of encoder calls the buffer
    holds, inside its block and NUL-terminated, exactly the text those calls
    denote, and a C reader sees that text: no call writes outside the block,
    loses earlier output or drops a separator. *)
Theorem encoder_refines_text cs :
  fits (calls_text [] cs) ->
  rep (run_calls nsr_json_init cs) (calls_text [] cs) /\
  nsr_json_cstr (run_calls nsr_json_init cs) = c_content (calls_text [] cs).
Proof.
  intros Hf. pose proof (run_calls_rep _ _ _ nsr_json_init_rep Hf) as Hr.
  split; [done|]. by apply nsr_json_cstr_rep.
Qed.

Lemma encoder_refines_text_witness :
  nsr_json_cstr (run_calls nsr_json_init [CArrStart; CInt (-1); CBool true; CArrEnd])
  = str "[-1,true]".
Proof.
  destruct (encoder_refines_text [CArrStart; CInt (-1); CBool true; CArrEnd]) as [_ E].
  - vm_compute. reflexivity.
  - exact E.
Defined.
