(* ===== verification/JsonScan.v ===== *)
(** * The JSON scanner (src/json/json.c, decoder part)

    A [const char *] into the NUL-terminated input is the list of characters
    that remain before the terminator ([cstr]); a null result is [None].  The
    scanner of values is recursive and loops inside each level; it is written
    with fuel, and [skip_value_total] shows that twice the length of the input
    plus two is enough, so [skip_value] is the total function of the source. *)

From S2P Require Import Prelude JsonBuf.

(** ** Skipping *)

Fixpoint skip_ws (p : cstr) : cstr :=
  match p with
  | [] => []
  | c :: p' => if isspace c then skip_ws p' else p
  end.

(** The loop of [skip_str] after the opening quote. *)
Fixpoint skip_str_loop (p : cstr) : option cstr :=
  match p with
  | [] => None
  | c :: p' =>
      match p' with
      | d :: p'' =>
          if ceq c BACKSLASH then skip_str_loop p''
          else if ceq c QUOTE then Some p' else skip_str_loop p'
      | [] => if ceq c QUOTE then Some p' else skip_str_loop p'
      end
  end.

Definition skip_str (p : cstr) : option cstr :=
  if ceq (deref p) QUOTE then skip_str_loop (tail p) else None.

(** [while ( *p && *p != ',' && *p != '}' && *p != ']') p++]. *)
Fixpoint skip_scalar (p : cstr) : cstr :=
  match p with
  | [] => []
  | c :: p' => if ceq c "," || ceq c "}" || ceq c "]" then p else skip_scalar p'
  end.

(** [None]: out of fuel; [Some None]: a null result; [Some (Some q)]: the
    position after the value.  The two loops are the object and array branches
    of [skip_value]. *)
Fixpoint skip_value_f (fuel : nat) (p : cstr) : option (option cstr) :=
  match fuel with
  | O => None
  | S f =>
      let p := skip_ws p in
      if ceq (deref p) QUOTE then Some (skip_str p)
      else if ceq (deref p) "{" then skip_object_f f (tail p)
      else if ceq (deref p) "[" then skip_array_f f (tail p)
      else Some (Some (skip_scalar p))
  end
with skip_object_f (fuel : nat) (p : cstr) : option (option cstr) :=
  match fuel with
  | O => None
  | S f =>
      let p := skip_ws p in
      if ceq (deref p) "}" then Some (Some (tail p))
      else if ceq (deref p) QUOTE then
        match skip_str p with
        | None => Some None
        | Some p =>
            let p := skip_ws p in
            let p := if ceq (deref p) ":" then tail p else p in
            match skip_value_f f p with
            | Some (Some p) =>
                let p := skip_ws p in
                if ceq (deref p) "," then skip_object_f f (tail p)
                else if ceq (deref p) "}" then Some (Some (tail p))
                else Some None
            | r => r
            end
        end
      else Some None
  end
with skip_array_f (fuel : nat) (p : cstr) : option (option cstr) :=
  match fuel with
  | O => None
  | S f =>
      let p := skip_ws p in
      if ceq (deref p) "]" then Some (Some (tail p))
      else
        match skip_value_f f p with
        | Some (Some p) =>
            let p := skip_ws p in
            if ceq (deref p) "," then skip_array_f f (tail p)
            else if ceq (deref p) "]" then Some (Some (tail p))
            else Some None
        | r => r
        end
  end.

Definition value_fuel (p : cstr) : nat := 2 * length p + 2.

Definition skip_value (p : cstr) : option cstr :=
  default None (skip_value_f (value_fuel p) p).

(** ** Object members *)

(** The member loop of [nsr_json_obj_get]; the result is the position of the
    value and its length.  One round per member, so the length of the input is
    enough fuel. *)
Fixpoint obj_get_loop (fuel : nat) (p key : cstr) : option (option (cstr * Z)) :=
  match fuel with
  | O => None
  | S f =>
      let p := skip_ws p in
      if ceq (deref p) "}" then Some None
      else if negb (ceq (deref p) QUOTE) then Some None
      else
        let key_start := tail p in
        match skip_str p with
        | None => Some None
        | Some key_end =>
            let key_len := Z.of_nat (length key_start) - Z.of_nat (length key_end) - 1 in
            let is_match :=
              (Z.of_nat (length key) =? key_len)
              && streq (take (Z.to_nat key_len) key_start) (take (Z.to_nat key_len) key) in
            let p := skip_ws key_end in
            if negb (ceq (deref p) ":") then Some None
            else
              let val_start := skip_ws (tail p) in
              match skip_value val_start with
              | None => Some None
              | Some val_end =>
                  if is_match then
                    Some (Some (val_start,
                      Z.of_nat (length val_start) - Z.of_nat (length val_end)))
                  else
                    let p := skip_ws val_end in
                    if ceq (deref p) "," then obj_get_loop f (tail p) key
                    else Some None
              end
        end
  end.

Definition nsr_json_obj_get (json key : cstr) : option (cstr * Z) :=
  let p := skip_ws json in
  if ceq (deref p) "{" then default None (obj_get_loop (S (length p)) (tail p) key) else None.

(** ** Values *)

Definition unescape (c : ascii) : ascii :=
  if ceq c "b" then chr 8
  else if ceq c "f" then chr 12
  else if ceq c "n" then chr 10
  else if ceq c "r" then chr 13
  else if ceq c "t" then chr 9
  else c.

(** The characters stored in [out] from index [o] on; [limit] is
    [out_len - 1] as a [size_t]. *)
Fixpoint parse_str_loop (p : cstr) (o limit : Z) : cstr :=
  match p with
  | [] => []
  | c :: p' =>
      match p' with
      | d :: p'' =>
          if ceq c BACKSLASH then
            if o <? limit then unescape d :: parse_str_loop p'' (o + 1) limit
            else parse_str_loop p'' o limit
          else if o <? limit then c :: parse_str_loop p' (o + 1) limit
          else parse_str_loop p' o limit
      | [] => if o <? limit then [c] else []
      end
  end.

(** [None]: the function returns false and leaves [out] alone; [Some s]: it
    returns true and [out] holds [s] and a NUL. *)
Definition nsr_json_parse_str (val : cstr) (val_len out_len : Z) : option cstr :=
  let text := take (Z.to_nat val_len) val in
  if (val_len <? 2) || negb (ceq (deref text) QUOTE)
     || negb (ceq (default NUL (last text)) QUOTE)
  then None
  else
    Some (parse_str_loop (take (Z.to_nat (val_len - 2)) (tail text)) 0 (u64 (out_len - 1))).

(** [strtoll] in base 10: leading spaces, a sign, digits, saturation. *)
Definition digits_value (ds : cstr) : Z := foldl (fun n c => 10 * n + (ord c - 48)) 0 ds.

Fixpoint span_digits (p : cstr) : cstr * cstr :=
  match p with
  | [] => ([], [])
  | c :: p' => if is_digit c then let '(a, b) := span_digits p' in (c :: a, b) else ([], p)
  end.

Definition clamp_ll (z : Z) : Z := Z.max (- 2 ^ 63) (Z.min z (2 ^ 63 - 1)).

Definition strtoll (s : cstr) : Z * cstr :=
  let p := skip_ws s in
  let '(neg, p) :=
    if ceq (deref p) "-" then (true, tail p)
    else if ceq (deref p) "+" then (false, tail p) else (false, p) in
  let '(ds, rest) := span_digits p in
  match ds with
  | [] => (0, s)
  | _ => (clamp_ll (if neg : bool then - digits_value ds else digits_value ds), rest)
  end.

(** The result and the value of [*out] afterwards. *)
Definition nsr_json_parse_int (val : cstr) (val_len out : Z) : bool * Z :=
  if 32 <=? val_len then (false, out)
  else
    let tmp := c_content (take (Z.to_nat val_len) val) in
    let '(v, rest) := strtoll tmp in
    (Z.of_nat (length tmp) - Z.of_nat (length rest) =? val_len, v).

(** [strtod] gives a value and the rest of the text; [float] is the type of the
    values. *)
Definition nsr_json_parse_double {float : Type} (strtod : cstr -> float * cstr) (val : cstr) (val_len : Z)
    (out : float) : bool * float :=
  if 64 <=? val_len then (false, out)
  else
    let tmp := c_content (take (Z.to_nat val_len) val) in
    let '(v, rest) := strtod tmp in
    (Z.of_nat (length tmp) - Z.of_nat (length rest) =? val_len, v).

Definition nsr_json_parse_bool (val : cstr) (val_len : Z) (out : bool) : bool * bool :=
  let text := take (Z.to_nat val_len) val in
  if (val_len =? 4) && streq text (str "true") then (true, true)
  else if (val_len =? 5) && streq text (str "false") then (true, false)
  else (false, out).

(** ** Arrays: the element and the new value of [*next], when it is written *)

Definition nsr_json_arr_first (json : cstr) : option cstr * option cstr :=
  let p := skip_ws json in
  if negb (ceq (deref p) "[") then (None, None)
  else
    let p := skip_ws (tail p) in
    if ceq (deref p) "]" then (None, Some (tail p))
    else match skip_value p with
         | None => (None, None)
         | Some q => (Some p, Some q)
         end.

Definition nsr_json_arr_next (next : cstr) : option cstr * option cstr :=
  let p := skip_ws next in
  if ceq (deref p) "," then
    let elem := skip_ws (tail p) in
    match skip_value elem with
    | None => (None, None)
    | Some q => (Some elem, Some q)
    end
  else if ceq (deref p) "]" then (None, Some (tail p))
  else (None, None).

(** ** The scanner stays inside its input and terminates *)

Lemma suffix_tail (p q : cstr) : p `suffix_of` q -> tail p `suffix_of` q.
Proof.
  intros [k ->]. destruct p as [|c p]; [by exists k|].
  exists (k ++ [c]). by rewrite <- app_assoc.
Qed.

Lemma skip_ws_suffix p : skip_ws p `suffix_of` p.
Proof. induction p as [|c p IH]; simpl; [done|]. split_if; [by apply suffix_cons_r|done]. Qed.

Lemma skip_scalar_suffix p : skip_scalar p `suffix_of` p.
Proof. induction p as [|c p IH]; simpl; [done|]. split_if; [done|by apply suffix_cons_r]. Qed.

Lemma skip_str_loop_cons2 c d p :
  skip_str_loop (c :: d :: p) =
    if ceq c BACKSLASH then skip_str_loop p
    else if ceq c QUOTE then Some (d :: p) else skip_str_loop (d :: p).
Proof. done. Qed.

Lemma skip_str_loop_suffix n p q :
  (length p <= n)%nat -> skip_str_loop p = Some q -> q `suffix_of` p /\ (length q < length p)%nat.
Proof.
  revert p q. induction n as [|n IH]; intros p q Hn; destruct p as [|c [|d p]];
    try (simpl in Hn; lia); try done.
  - simpl. split_if; [|done]. intros. simplify_eq. split; [by apply suffix_cons_r|simpl; lia].
  - rewrite skip_str_loop_cons2. simpl in Hn. split_if; [|split_if]; intros Hq.
    + apply IH in Hq as [? ?]; [|lia]. split; [by do 2 apply suffix_cons_r|simpl; lia].
    + simplify_eq. split; [by apply suffix_cons_r|simpl; lia].
    + apply IH in Hq as [? ?]; [|simpl; lia]. split; [by apply suffix_cons_r|simpl in *; lia].
Qed.

Lemma skip_str_suffix p q :
  skip_str p = Some q -> q `suffix_of` p /\ (length q + 2 <= length p)%nat.
Proof.
  unfold skip_str. split_if; [|done]. destruct p as [|c p]; [done|]. intros H. simpl in H.
  apply (skip_str_loop_suffix (length p)) in H as [? ?]; [|done].
  split; [by apply suffix_cons_r|simpl; lia].
Qed.

Lemma deref_length c p : ceq (deref p) c = true -> c <> NUL -> (0 < length p)%nat.
Proof. destruct p; [|simpl; lia]. intros H%ceq_true Hc. by destruct Hc. Qed.

Lemma tail_length (p : cstr) : length (tail p) = (length p - 1)%nat.
Proof. destruct p; simpl; lia. Qed.

(** The result of a scan that has enough fuel: some suffix of the input. *)
Definition scans (p : cstr) (o : option (option cstr)) : Prop :=
  exists r, o = Some r /\ forall q, r = Some q -> q `suffix_of` p.

Lemma scans_suffix p p' o : scans p' o -> p' `suffix_of` p -> scans p o.
Proof. intros (r & -> & H) Hs. exists r. split; [done|]. intros q Hq.
  transitivity p'; auto.
Qed.

Lemma scans_none p : scans p (Some None).
Proof. by exists None. Qed.

Lemma scans_some p q : q `suffix_of` p -> scans p (Some (Some q)).
Proof. intros H. exists (Some q). split; [done|]. intros ? ?. by simplify_eq. Qed.

Lemma skip_ws_suffix_trans p q : p `suffix_of` q -> skip_ws p `suffix_of` q.
Proof. intros. transitivity p; [apply skip_ws_suffix|done]. Qed.

Lemma skip_scalar_suffix_trans p q : p `suffix_of` q -> skip_scalar p `suffix_of` q.
Proof. intros. transitivity p; [apply skip_scalar_suffix|done]. Qed.

(** Goals [p `suffix_of` q] where [p] is reached from [q] by scanning steps. *)
Ltac suffixes :=
  solve [repeat first
    [ assumption | reflexivity | apply suffix_tail | apply skip_ws_suffix_trans
    | apply skip_scalar_suffix_trans
    | match goal with H : ?a `suffix_of` ?b |- ?a `suffix_of` _ => transitivity b; [exact H|clear H] end ]].

#[export] Hint Resolve scans_none scans_some : nsr.
#[export] Hint Extern 1 (_ `suffix_of` _) => suffixes : nsr.

(** Bounds on the length of what is left after a separator. *)
Ltac shorter :=
  rewrite ?tail_length in *;
  repeat match goal with
  | H : _ `suffix_of` _ |- _ => apply suffix_length in H
  | H : ceq (deref ?p) ?c = true |- _ => apply deref_length in H; [|done]
  | |- context [length (skip_ws ?p)] =>
      lazymatch goal with
      | _ : (length (skip_ws p) <= length p)%nat |- _ => fail
      | _ => pose proof (suffix_length _ _ (skip_ws_suffix p))
      end
  end; lia.

Lemma skip_f_total n :
  (forall p, (2 * length p + 2 <= n)%nat -> scans p (skip_value_f n p)) /\
  (forall p, (2 * length p + 2 <= n)%nat -> scans p (skip_object_f n p)) /\
  (forall p, (2 * length p + 3 <= n)%nat -> scans p (skip_array_f n p)).
Proof.
  induction n as [|n (IHv & IHo & IHa)]; [repeat split; lia|].
  repeat split; intros p Hn; cbn [skip_value_f skip_object_f skip_array_f].
  - pose proof (suffix_length _ _ (skip_ws_suffix p)) as Hl.
    split_if; [|split_if; [|split_if]].
    + destruct (skip_str (skip_ws p)) as [q|] eqn:Hq; [|auto with nsr].
      apply skip_str_suffix in Hq as [? _]. apply scans_some. suffixes.
    + eapply scans_suffix; [apply IHo; shorter|auto with nsr].
    + eapply scans_suffix; [apply IHa; shorter|auto with nsr].
    + apply scans_some. suffixes.
  - pose proof (suffix_length _ _ (skip_ws_suffix p)) as Hl.
    split_if; [auto with nsr|split_if; [|auto with nsr]].
    destruct (skip_str (skip_ws p)) as [k|] eqn:Hk; [|auto with nsr].
    apply skip_str_suffix in Hk as [Hks Hkl].
    set (v := if ceq (deref (skip_ws k)) ":" then tail (skip_ws k) else skip_ws k).
    assert (v `suffix_of` k) as Hv by (unfold v; split_if; auto with nsr).
    pose proof (suffix_length _ _ Hv).
    destruct (IHv v) as (r & -> & Hr); [lia|]. destruct r as [q|]; [|auto with nsr].
    specialize (Hr q eq_refl).
    assert (q `suffix_of` p) by (suffixes).
    pose proof (suffix_length _ _ Hr). pose proof (suffix_length _ _ (skip_ws_suffix q)).
    split_if; [|split_if; [|auto with nsr]].
    + eapply scans_suffix; [apply IHo; shorter|]. suffixes.
    + apply scans_some. suffixes.
  - pose proof (suffix_length _ _ (skip_ws_suffix p)) as Hl.
    split_if; [auto with nsr|].
    destruct (IHv (skip_ws p)) as (r & -> & Hr); [lia|]. destruct r as [q|]; [|auto with nsr].
    specialize (Hr q eq_refl).
    assert (q `suffix_of` p) by (suffixes).
    pose proof (suffix_length _ _ Hr). pose proof (suffix_length _ _ (skip_ws_suffix q)).
    split_if; [|split_if; [|auto with nsr]].
    + eapply scans_suffix; [apply IHa; shorter|]. suffixes.
    + apply scans_some. suffixes.
Qed.

(** More fuel never changes a result. *)
Lemma skip_f_mono n :
  (forall p r m, skip_value_f n p = Some r -> (n <= m)%nat -> skip_value_f m p = Some r) /\
  (forall p r m, skip_object_f n p = Some r -> (n <= m)%nat -> skip_object_f m p = Some r) /\
  (forall p r m, skip_array_f n p = Some r -> (n <= m)%nat -> skip_array_f m p = Some r).
Proof.
  induction n as [|n (IHv & IHo & IHa)]; [done|].
  repeat split; intros p r [|m] H Hm; try lia;
    cbn [skip_value_f skip_object_f skip_array_f] in *.
  - repeat split_if; eauto with lia.
  - split_if; [done|]. split_if; [|done]. destruct (skip_str _); [|done].
    destruct (skip_value_f n _) as [r'|] eqn:Hv; [|done].
    rewrite (IHv _ _ m Hv) by lia. destruct r'; [|done]. repeat split_if; eauto with lia.
  - split_if; [done|]. destruct (skip_value_f n _) as [r'|] eqn:Hv; [|done].
    rewrite (IHv _ _ m Hv) by lia. destruct r'; [|done]. repeat split_if; eauto with lia.
Qed.

(** A run with some fuel that ends determines [skip_value]. *)
Lemma skip_value_intro n p r : skip_value_f n p = Some r -> skip_value p = r.
Proof.
  intros H. unfold skip_value.
  destruct (proj1 (skip_f_total (value_fuel p)) p) as (r' & Hr' & _); [done|].
  rewrite Hr'. simpl.
  pose proof (proj1 (skip_f_mono n) p r (max n (value_fuel p)) H ltac:(lia)).
  pose proof (proj1 (skip_f_mono (value_fuel p)) p r' (max n (value_fuel p)) Hr' ltac:(lia)).
  congruence.
Qed.

Lemma skip_value_suffix p q : skip_value p = Some q -> q `suffix_of` p.
Proof.
  unfold skip_value. destruct (proj1 (skip_f_total (value_fuel p)) p) as (r & -> & Hr); [done|].
  simpl. auto.
Qed.

Lemma obj_get_loop_total n p key :
  (length p < n)%nat ->
  exists r, obj_get_loop n p key = Some r /\
    forall v l, r = Some (v, l) -> v `suffix_of` p /\ 0 <= l <= Z.of_nat (length v).
Proof.
  revert p. induction n as [|n IH]; intros p Hn; [lia|]. cbn [obj_get_loop].
  split_if; [by exists None|]. split_if; [by exists None|].
  destruct (skip_str (skip_ws p)) as [k|] eqn:Hk; [|by exists None].
  apply skip_str_suffix in Hk as [Hks Hkl]. split_if; [by exists None|].
  set (v := skip_ws (tail (skip_ws k))).
  assert (v `suffix_of` k) as Hv by (unfold v; suffixes).
  destruct (skip_value v) as [q|] eqn:Hq; [|by exists None].
  apply skip_value_suffix in Hq. pose proof (suffix_length _ _ Hq).
  assert (v `suffix_of` p) by (suffixes).
  pose proof (suffix_length _ _ Hv). pose proof (suffix_length _ _ (skip_ws_suffix p)).
  split_if.
  { eexists. split; [done|]. intros ?? [= <- <-]. split; [done|]. lia. }
  split_if; [|by exists None].
  destruct (IH (tail (skip_ws q))) as (r & -> & Hr).
  { shorter. }
  exists r. split; [done|]. intros w l Hw. destruct (Hr w l Hw). split; [|done].
  suffixes.
Qed.

(** C40: on every input the value scanner and the member search end within the
    stated fuel, and every position and length they return lies inside the
    input text. *)
Theorem scanner_total_and_in_bounds json key :
  (exists r, skip_value_f (value_fuel json) json = Some r) /\
  (forall q, skip_value json = Some q -> q `suffix_of` json) /\
  (exists r, obj_get_loop (S (length (skip_ws json))) (tail (skip_ws json)) key = Some r) /\
  (forall v l, nsr_json_obj_get json key = Some (v, l) ->
     v `suffix_of` json /\ 0 <= l <= Z.of_nat (length v)).
Proof.
  destruct (proj1 (skip_f_total (value_fuel json)) json) as (r & Hr & _); [done|].
  destruct (obj_get_loop_total (S (length (skip_ws json))) (tail (skip_ws json)) key)
    as (o & Ho & Hin); [rewrite tail_length; lia|].
  split; [by exists r|]. split; [apply skip_value_suffix|]. split; [by exists o|].
  intros v l. unfold nsr_json_obj_get. split_if; [|done]. rewrite Ho. simpl.
  intros Hv. destruct (Hin v l Hv). split; [|done]. suffixes.
Qed.
