(* ===== verification/JsonDoc.v ===== *)
(** * JSON documents: what the encoder writes, the scanner reads back

    [json] is the type of the documents the program builds with the encoder,
    [doc_calls] the encoder calls that build one, [print] the reference
    concrete syntax.  The theorems relate the three: the calls produce exactly
    [print], and the scanner of [JsonScan] finds in a printed document the
    members, elements and values that were put in. *)

From S2P Require Import Prelude CFloat JsonBuf JsonScan.

Unset Elimination Schemes.

Inductive json :=
| JNull
| JBool (b : bool)
| JInt (z : Z)
| JDouble (x : cfloat)
| JStr (s : cstr)
| JArr (l : list json)
| JObj (m : list (cstr * json)).

Set Elimination Schemes.

Section json_induction.
  Variable P : json -> Prop.
  Hypothesis Hnull : P JNull.
  Hypothesis Hbool : forall b, P (JBool b).
  Hypothesis Hint : forall z, P (JInt z).
  Hypothesis Hdouble : forall x, P (JDouble x).
  Hypothesis Hstr : forall s, P (JStr s).
  Hypothesis Harr : forall l, Forall P l -> P (JArr l).
  Hypothesis Hobj : forall m, Forall (fun kv => P kv.2) m -> P (JObj m).

Fixpoint json_nested_ind (v : json) : P v :=
    match v with
    | JNull => Hnull
    | JBool b => Hbool b
    | JInt z => Hint z
    | JDouble x => Hdouble x
    | JStr s => Hstr s
    | JArr l =>
        Harr l ((fix go l : Forall P l := match l with
                 | [] => Forall_nil_2 _
                 | v :: l => Forall_cons_2 P _ _ (json_nested_ind v) (go l)
                 end) l)
    | JObj m =>
        Hobj m ((fix go m : Forall (fun kv => P kv.2) m := match m with
                 | [] => Forall_nil_2 _
                 | kv :: m => Forall_cons_2 (fun kv => P kv.2) kv m (json_nested_ind kv.2) (go m)
                 end) m)
    end.
End json_induction.

(** The encoder calls that emit a document. *)
Fixpoint doc_calls (v : json) : list json_call :=
  match v with
  | JNull => [CNull]
  | JBool b => [CBool b]
  | JInt z => [CInt z]
  | JDouble x => [CDouble x]
  | JStr s => [CString (Some s)]
  | JArr l => CArrStart :: concat (map doc_calls l) ++ [CArrEnd]
  | JObj m =>
      CObjStart :: concat (map (fun '(k, v) => CKey k :: doc_calls v) m) ++ [CObjEnd]
  end.

Fixpoint join (l : list cstr) : cstr :=
  match l with
  | [] => []
  | [x] => x
  | x :: l' => x ++ [","%char] ++ join l'
  end.

Definition print_member (p : json -> cstr) (kv : cstr * json) : cstr :=
  quoted kv.1 ++ [":"%char] ++ p kv.2.

Fixpoint print (v : json) : cstr :=
  match v with
  | JNull => str "null"
  | JBool b => if b then str "true" else str "false"
  | JInt z => fmt_lld z
  | JDouble x => take 63 (fmt_f6 x)
  | JStr s => quoted s
  | JArr l => ["["%char] ++ join (map print l) ++ ["]"%char]
  | JObj m => ["{"%char] ++ join (map (print_member print) m) ++ ["}"%char]
  end.

Lemma join_map_cons2 {A} (f : A -> cstr) x y l :
  join (map f (x :: y :: l)) = f x ++ [","%char] ++ join (map f (y :: l)).
Proof. done. Qed.

(** ** Scalars *)

Definition scalar_char (c : ascii) : bool :=
  negb (ceq c NUL) && negb (isspace c) && negb (ceq c QUOTE) && negb (ceq c "{") && negb (ceq c "}")
  && negb (ceq c "[") && negb (ceq c "]") && negb (ceq c ",") && negb (ceq c ":").

(** Uses a [scalar_char] fact to decide the character tests of the scanner. *)
Ltac scalar_facts H :=
  unfold scalar_char in H; bool_facts;
  repeat match goal with E : ceq _ _ = false |- _ => rewrite ?E; clear E end.

Definition scalar_text (s : cstr) : Prop := s <> [] /\ Forall (fun c => scalar_char c = true) s.

Lemma digit_cases d (P : Z -> Prop) :
  P 0 -> P 1 -> P 2 -> P 3 -> P 4 -> P 5 -> P 6 -> P 7 -> P 8 -> P 9 -> 0 <= d < 10 -> P d.
Proof.
  intros. assert (d = 0 \/ d = 1 \/ d = 2 \/ d = 3 \/ d = 4 \/ d = 5 \/ d = 6 \/ d = 7 \/ d = 8 \/ d = 9)
    as Hd by lia.
  repeat destruct Hd as [->|Hd]; subst; done.
Qed.

Lemma digit_facts d :
  0 <= d < 10 ->
  scalar_char (chr (48 + d)) = true /\ is_digit (chr (48 + d)) = true /\ ord (chr (48 + d)) = 48 + d.
Proof. revert d. intros d Hd. pattern d. by apply digit_cases. Qed.

Lemma mod10 n : 0 <= n mod 10 < 10.
Proof. apply Z.mod_pos_bound. lia. Qed.

(** The decimal printer puts a non-empty run of digits in front of [acc], and
    with enough fuel the run has the value of the number. *)
Lemma dec_digits_spec fuel n acc :
  (0 < fuel)%nat ->
  exists ds, dec_digits fuel n acc = ds ++ acc /\ ds <> [] /\
    Forall (fun c => is_digit c = true) ds /\
    (0 <= n < 10 ^ Z.of_nat fuel -> digits_value ds = n).
Proof.
  revert n acc. induction fuel as [|f IH]; intros n acc Hf; [lia|].
  cbn [dec_digits]. set (d := chr _).
  assert (is_digit d = true /\ ord d = 48 + n mod 10) as [Hd Ho].
  { unfold d. split; apply digit_facts, mod10. }
  assert (exists ds, ds ++ acc = d :: acc /\ ds <> [] /\ Forall (fun c => is_digit c = true) ds
    /\ (0 <= n < 10 -> digits_value ds = n)) as Hone.
  { exists [d]. repeat split; [done|by constructor|]. intros Hn. unfold digits_value. simpl.
    rewrite Ho, (Z.mod_small n 10) by lia. lia. }
  split_if; bool_facts.
  { destruct Hone as (ds & <- & ? & ? & Hv). exists ds. repeat split; auto. intros. apply Hv. lia. }
  destruct f as [|f].
  { destruct Hone as (ds & E & ? & ? & Hv). exists ds. simpl in *. repeat split; auto. }
  destruct (IH (n / 10) (d :: acc)) as (ds & -> & Hne & Hds & Hv); [lia|].
  exists (ds ++ [d]). repeat split.
  - by rewrite <- app_assoc.
  - by destruct ds.
  - apply Forall_app. split; [done|by constructor].
  - intros Hn. rewrite Nat2Z.inj_succ, Z.pow_succ_r in Hn by lia.
    unfold digits_value in *. rewrite foldl_app. simpl. rewrite Hv, Ho.
    + pose proof (Z.div_mod n 10). lia.
    + split; [apply Z.div_pos; lia|]. apply Z.div_lt_upper_bound; lia.
Qed.

Lemma is_digit_scalar c : is_digit c = true -> scalar_char c = true.
Proof.
  unfold is_digit. intros H. rewrite <- (chr_ord c). bool_facts.
  replace (ord c) with (48 + (ord c - 48)) by lia. apply digit_facts. lia.
Qed.

Lemma digits_scalar ds : Forall (fun c => is_digit c = true) ds -> Forall (fun c => scalar_char c = true) ds.
Proof. intros H. eapply Forall_impl; [exact H|]. apply is_digit_scalar. Qed.

Lemma fmt_u64_spec n :
  exists ds, fmt_u64 n = ds /\ ds <> [] /\ Forall (fun c => is_digit c = true) ds /\
    (0 <= n < 2 ^ 64 -> digits_value ds = n).
Proof.
  destruct (dec_digits_spec 20 n []) as (ds & E & Hne & Hds & Hv); [lia|].
  exists ds. rewrite app_nil_r in E. repeat split; auto. intros. apply Hv. simpl. lia.
Qed.

Lemma fmt_lld_scalar z : scalar_text (fmt_lld z).
Proof.
  unfold fmt_lld. split_if; [destruct (fmt_u64_spec (- z)) as (ds & -> & Hne & Hds & _)
                            |destruct (fmt_u64_spec z) as (ds & -> & Hne & Hds & _)].
  - split; [done|]. constructor; [done|]. by apply digits_scalar.
  - split; [done|]. by apply digits_scalar.
Qed.

Lemma scalar_take n s : (0 < n)%nat -> scalar_text s -> scalar_text (take n s).
Proof.
  intros Hn [Hne Hs]. split; [|by apply Forall_take]. destruct n; [lia|]. by destruct s.
Qed.

Lemma scalar_app s t :
  Forall (fun c => scalar_char c = true) s -> scalar_text t -> scalar_text (s ++ t).
Proof.
  intros Hs [Hne Ht]. split; [by destruct s|]. by apply Forall_app.
Qed.

Lemma fmt_f6_scalar x : scalar_text (fmt_f6 x).
Proof.
  assert (forall s : bool, Forall (fun c => scalar_char c = true) (if s then str "-" else [])) as Hsign.
  { intros []; repeat constructor. }
  destruct x as [s|s| |s m e]; cbn [fmt_f6]; try apply scalar_app; auto;
    try (split; [done|by repeat constructor]).
  destruct (dec_digits_spec 310 (micro_units m e / 1000000) []) as (ds & -> & _ & Hds & _); [lia|].
  rewrite app_nil_r. apply scalar_app; [by apply digits_scalar|].
  split; [done|]. constructor; [done|]. apply Forall_map, Forall_forall. intros k _.
  apply digit_facts, mod10.
Qed.

(** ** What the calls write *)

Lemma opens_after_scalar s t : scalar_text t -> t_needs_comma (s ++ t) = true.
Proof.
  intros [Hne Ht]. unfold t_needs_comma. destruct t as [|c t _] using rev_ind; [done|].
  rewrite app_assoc, last_snoc. apply Forall_app in Ht as [_ Hc]. inversion_clear Hc as [|? ? H _].
  unfold opens_value. by scalar_facts H.
Qed.

Lemma needs_comma_snoc s c : t_needs_comma (s ++ [c]) = opens_value c.
Proof. unfold t_needs_comma. by rewrite last_snoc. Qed.

(** After a printed value the encoder inserts a comma before the next one. *)
Lemma needs_comma_print s v : t_needs_comma (s ++ print v) = true.
Proof.
  destruct v; cbn [print].
  - apply opens_after_scalar. split; [done|by repeat constructor].
  - apply opens_after_scalar. destruct b; (split; [done|by repeat constructor]).
  - apply opens_after_scalar, fmt_lld_scalar.
  - apply opens_after_scalar, scalar_take; [lia|apply fmt_f6_scalar].
  - unfold quoted. rewrite app_comm_cons, app_assoc. apply needs_comma_snoc.
  - rewrite !app_assoc. apply needs_comma_snoc.
  - rewrite !app_assoc. apply needs_comma_snoc.
Qed.

Lemma t_comma_yes s : t_needs_comma s = true -> t_comma s = s ++ [","%char].
Proof. unfold t_comma. by intros ->. Qed.

Lemma t_comma_no s : t_needs_comma s = false -> t_comma s = s.
Proof. unfold t_comma. by intros ->. Qed.

Lemma calls_text_app s cs ds : calls_text s (cs ++ ds) = calls_text (calls_text s cs) ds.
Proof. apply foldl_app. Qed.

(** The separators of a sequence of items, each emitted by its own calls. *)
Lemma items_text {A} (calls : A -> list json_call) (text : A -> cstr) (l : list A) s :
  Forall (fun x => forall s, calls_text s (calls x) = t_comma s ++ text x) l ->
  Forall (fun x => forall s, t_needs_comma (s ++ text x) = true) l ->
  t_needs_comma s = false ->
  calls_text s (concat (map calls l)) = s ++ join (map text l).
Proof.
  intros Hc Hn Hs.
  assert (forall s, calls_text s (concat (map calls l))
            = match l with [] => s | _ => t_comma s ++ join (map text l) end) as E.
  { clear s Hs. induction l as [|x l IH]; intros s; [done|].
    inversion_clear Hc as [|? ? Hx Hl]. inversion_clear Hn as [|? ? Nx Nl].
    cbn [map concat]. rewrite calls_text_app, Hx, IH by done.
    destruct l as [|y l]; [done|].
    rewrite t_comma_yes by apply Nx. cbn [map join]. by rewrite <- !app_assoc. }
  rewrite E. destruct l; [by rewrite app_nil_r|]. by rewrite t_comma_no.
Qed.

Lemma doc_calls_text v : forall s, calls_text s (doc_calls v) = t_comma s ++ print v.
Proof.
  induction v as [| | | | |l IH|m IH] using json_nested_ind; intros s0; try done.
  - cbn [doc_calls print]. change (CArrStart :: ?x ++ ?y) with ([CArrStart] ++ x ++ y).
    rewrite !calls_text_app. cbn [calls_text foldl call_text].
    unfold calls_text at 1. cbn [foldl call_text].
    change (foldl call_text) with calls_text.
    rewrite (items_text doc_calls print l);
      [|done|by apply Forall_forall; intros; apply needs_comma_print|apply (needs_comma_snoc _ "[")].
    by rewrite <- !app_assoc.
  - cbn [doc_calls print]. change (CObjStart :: ?x ++ ?y) with ([CObjStart] ++ x ++ y).
    rewrite !calls_text_app. unfold calls_text at 1 3. cbn [foldl call_text].
    rewrite (items_text (fun '(k, v) => CKey k :: doc_calls v) (print_member print) m);
      [by rewrite <- !app_assoc| | |apply (needs_comma_snoc _ "{")].
    + eapply Forall_impl; [exact IH|]. intros [k v] Hv s. simpl in Hv.
      change (CKey k :: ?x) with ([CKey k] ++ x). rewrite calls_text_app, Hv.
      unfold calls_text. cbn [foldl call_text]. rewrite t_comma_no.
      * unfold print_member. by rewrite <- !app_assoc.
      * rewrite app_assoc. apply (needs_comma_snoc _ ":").
    + apply Forall_forall. intros [k v] _ s. unfold print_member. rewrite !app_assoc.
      apply needs_comma_print.
Qed.

(** ** The scanner on printed documents *)

(** What may follow a printed value: the end of the text or a closing mark. *)
Definition ends (rest : cstr) : Prop :=
  rest = [] \/ deref rest = ","%char \/ deref rest = "}"%char \/ deref rest = "]"%char.

Lemma esc_char_cases c :
  (exists e, esc_char c = [BACKSLASH; e]) \/
  esc_char c = u_escape c \/
  (esc_char c = [c] /\ c <> QUOTE /\ c <> BACKSLASH).
Proof.
  unfold esc_char. destruct (short_escape c) as [e|] eqn:He; [by left; eauto|].
  destruct (ord c <? 32); [by right; left|]. right; right. split; [done|].
  split; intros ->; vm_compute in He; done.
Qed.

Lemma skip_plain c t : c <> QUOTE -> c <> BACKSLASH -> skip_str_loop (c :: t) = skip_str_loop t.
Proof.
  intros Hq%ceq_false Hb%ceq_false. destruct t as [|d t].
  - simpl. by rewrite Hq.
  - by rewrite skip_str_loop_cons2, Hb, Hq.
Qed.

Lemma skip_backslash d t : skip_str_loop (BACKSLASH :: d :: t) = skip_str_loop t.
Proof. by rewrite skip_str_loop_cons2. Qed.

Lemma hex_digit_plain d : 0 <= d < 16 -> hex_digit d <> QUOTE /\ hex_digit d <> BACKSLASH.
Proof.
  intros Hd.
  assert (d = 10 \/ d = 11 \/ d = 12 \/ d = 13 \/ d = 14 \/ d = 15 \/ 0 <= d < 10) as Hc by lia.
  repeat destruct Hc as [->|Hc]; try done.
  by apply (digit_cases d (fun d => hex_digit d <> QUOTE /\ hex_digit d <> BACKSLASH)).
Qed.

Lemma nibbles c : 0 <= ord c / 16 < 16 /\ 0 <= ord c mod 16 < 16.
Proof.
  pose proof (ord_range c). split; [|apply Z.mod_pos_bound; lia].
  split; [apply Z.div_pos; lia|apply Z.div_lt_upper_bound; lia].
Qed.

Lemma skip_u_escape c t : skip_str_loop (u_escape c ++ t) = skip_str_loop t.
Proof.
  destruct (nibbles c) as [H1 H2]. apply hex_digit_plain in H1 as [? ?], H2 as [? ?].
  unfold u_escape. cbn [app]. rewrite skip_backslash. by rewrite !skip_plain.
Qed.

Lemma skip_str_loop_esc s rest : skip_str_loop (esc s ++ QUOTE :: rest) = Some rest.
Proof.
  unfold esc. induction (c_content s) as [|c t IH]; [by destruct rest|]. cbn [map concat].
  rewrite <- app_assoc. destruct (esc_char_cases c) as [[e ->]|[->|(-> & Hq & Hb)]].
  - cbn [app]. by rewrite skip_backslash.
  - by rewrite skip_u_escape.
  - cbn [app]. by rewrite skip_plain.
Qed.

Lemma skip_str_quoted s rest : skip_str (quoted s ++ rest) = Some rest.
Proof.
  unfold quoted, skip_str. cbn [app deref tail]. rewrite ceq_refl, <- app_assoc.
  apply skip_str_loop_esc.
Qed.

Lemma skip_ws_nonspace c p : isspace c = false -> skip_ws (c :: p) = c :: p.
Proof. intros H. simpl. by rewrite H. Qed.

Lemma skip_scalar_text s rest :
  Forall (fun c => scalar_char c = true) s -> ends rest -> skip_scalar (s ++ rest) = rest.
Proof.
  intros Hs Hr. induction Hs as [|c s Hc Hs IH]; cbn [app].
  - destruct rest as [|c rest]; [done|]. simpl.
    destruct Hr as [?|[E|[E|E]]]; [done|..]; simpl in E; by subst.
  - cbn [skip_scalar]. by scalar_facts Hc.
Qed.

(** One step of the value scanner on a scalar. *)
Lemma skip_value_scalar s rest :
  scalar_text s -> ends rest -> skip_value_f 1 (s ++ rest) = Some (Some rest).
Proof.
  intros [Hne Hs] Hr. destruct s as [|c s]; [done|].
  cbn [skip_value_f]. pose proof Hs as Hs'. inversion_clear Hs' as [|? ? Hc _].
  cbn [app]. rewrite skip_ws_nonspace by (unfold scalar_char in Hc; by bool_facts). cbn [deref].
  scalar_facts Hc.
  do 2 f_equal. by apply (skip_scalar_text (c :: s)).
Qed.

(** A printed value starts with a character that is neither a space nor a
    closing mark. *)
Lemma print_head v rest :
  exists c t, print v ++ rest = c :: t /\ isspace c = false /\ ceq c "]" = false.
Proof.
  assert (forall s, scalar_text s -> exists c t, s ++ rest = c :: t /\ isspace c = false
            /\ ceq c "]" = false) as Hsc.
  { intros [|c t] [Hne Hs]; [done|]. inversion_clear Hs as [|? ? H _]. unfold scalar_char in H.
    bool_facts. eexists _, _. cbn [app]. eauto. }
  destruct v; cbn [print].
  - eexists _, _. cbn. eauto.
  - destruct b; eexists _, _; cbn; eauto.
  - apply Hsc, fmt_lld_scalar.
  - apply Hsc, scalar_take; [lia|apply fmt_f6_scalar].
  - eexists _, _. cbn. eauto.
  - eexists _, _. cbn. eauto.
  - eexists _, _. cbn. eauto.
Qed.

Lemma skip_ws_print v rest : skip_ws (print v ++ rest) = print v ++ rest.
Proof. destruct (print_head v rest) as (c & t & -> & Hc & _). by apply skip_ws_nonspace. Qed.

Definition scanned (v : json) : Prop :=
  forall rest, ends rest -> exists n, skip_value_f n (print v ++ rest) = Some (Some rest).

Lemma scan_elements l rest :
  Forall scanned l ->
  exists n, skip_array_f n (join (map print l) ++ "]"%char :: rest) = Some (Some rest).
Proof.
  intros Hl. induction Hl as [|v l Hv Hl IH].
  { by exists 1%nat. }
  destruct l as [|w l].
  - cbn [map join]. destruct (Hv ("]"%char :: rest)) as [n Hn]; [by right; right; right|].
    exists (S n). cbn [skip_array_f]. rewrite skip_ws_print.
    destruct (print_head v ("]"%char :: rest)) as (c & t & E & _ & Hc).
    rewrite E at 1. cbn [deref]. by rewrite Hc, Hn.
  - destruct IH as [m Hm].
    rewrite join_map_cons2, <- !app_assoc. cbn [app]. set (tl := join _ ++ _) in *.
    destruct (Hv (","%char :: tl)) as [n Hn]; [by right; left|].
    exists (S (max n m)). cbn [skip_array_f]. rewrite skip_ws_print.
    destruct (print_head v (","%char :: tl)) as (c & t & E & _ & Hc).
    rewrite E at 1. cbn [deref]. rewrite Hc.
    rewrite (proj1 (skip_f_mono n) _ _ (max n m) Hn) by lia.
    rewrite skip_ws_nonspace by done. cbn [deref]. change (ceq "," ",") with true. cbn iota.
    apply (skip_f_mono m); [done|lia].
Qed.

Lemma scan_members (m : list (cstr * json)) rest :
  Forall (fun kv => scanned kv.2) m ->
  exists n, skip_object_f n (join (map (print_member print) m) ++ "}"%char :: rest) = Some (Some rest).
Proof.
  intros Hm. induction Hm as [|[k v] m Hv Hm IH].
  { by exists 1%nat. }
  cbn [snd] in Hv.
  assert (forall n rest', skip_value_f n (print v ++ rest') = Some (Some rest') ->
    ends rest' -> rest' <> [] ->
    skip_object_f (S n) (print_member print (k, v) ++ rest') =
      if ceq (deref rest') "," then skip_object_f n (tail rest')
      else if ceq (deref rest') "}" then Some (Some (tail rest')) else Some None) as Step.
  { intros n rest' Hn He Hne. cbn [skip_object_f]. unfold print_member. cbn [fst snd].
    rewrite <- !app_assoc. unfold quoted at 1 2 3 4. cbn [app]. rewrite skip_ws_nonspace by done.
    cbn [deref]. change (ceq QUOTE "}") with false. change (ceq QUOTE QUOTE) with true. cbn iota.
    pose proof (skip_str_quoted k (":"%char :: print v ++ rest')) as E. unfold quoted in E.
    cbn [app] in E. rewrite E. rewrite skip_ws_nonspace by done. cbn [deref tail].
    change (ceq ":" ":") with true. cbn iota. rewrite Hn.
    destruct He as [?|He]; [done|]. destruct rest' as [|c t]; [done|]. cbn [deref] in He.
    rewrite skip_ws_nonspace by (by destruct He as [->|[->| ->]]). done. }
  destruct m as [|kv m].
  - cbn [map join]. destruct (Hv ("}"%char :: rest)) as [n Hn]; [by right; right; left|].
    exists (S n). by rewrite Step; [..|right; right; left|].
  - destruct IH as [i Hi].
    rewrite join_map_cons2, <- !app_assoc. cbn [app]. set (tl := join _ ++ _) in *.
    destruct (Hv (","%char :: tl)) as [n Hn]; [by right; left|].
    exists (S (max n i)).
    rewrite Step; [|by apply (skip_f_mono n); [|lia]|by right; left|done].
    cbn [deref tail]. change (ceq "," ",") with true. cbn iota.
    apply (skip_f_mono i); [done|lia].
Qed.

Lemma skip_print v : scanned v.
Proof.
  induction v as [|b|z|x|s|l IH|m IH] using json_nested_ind; intros rest Hr.
  - exists 1%nat. apply (skip_value_scalar (str "null")); [|done]. split; [done|by repeat constructor].
  - exists 1%nat. apply skip_value_scalar; [|done].
    destruct b; (split; [done|by repeat constructor]).
  - exists 1%nat. apply skip_value_scalar; [apply fmt_lld_scalar|done].
  - exists 1%nat. apply skip_value_scalar; [|done]. apply scalar_take; [lia|apply fmt_f6_scalar].
  - exists 1%nat. cbn [skip_value_f print].
    pose proof (skip_str_quoted s rest) as E. unfold quoted in *. cbn [app] in *.
    rewrite skip_ws_nonspace by done. cbn [deref]. by rewrite ceq_refl, E.
  - destruct (scan_elements l rest IH) as [n Hn]. exists (S n). cbn [skip_value_f print].
    rewrite <- !app_assoc. cbn [app]. by rewrite skip_ws_nonspace.
  - destruct (scan_members m rest IH) as [n Hn]. exists (S n). cbn [skip_value_f print].
    rewrite <- !app_assoc. cbn [app]. by rewrite skip_ws_nonspace.
Qed.

Lemma skip_value_print v rest : ends rest -> skip_value (print v ++ rest) = Some rest.
Proof. intros H. destruct (skip_print v rest H) as [n Hn]. by apply (skip_value_intro n). Qed.

(** ** Reading members, elements and values back *)

(** The first member whose written key (with its escapes) is [key]. *)
Fixpoint find_member (m : list (cstr * json)) (key : cstr) : option json :=
  match m with
  | [] => None
  | (k, v) :: m' => if streq (esc k) key then Some v else find_member m' key
  end.

(** The position and length [nsr_json_obj_get] reports for a value. *)
Definition points_to (r : option (cstr * Z)) (o : option json) : Prop :=
  match o with
  | None => r = None
  | Some v => exists rest, r = Some (print v ++ rest, Z.of_nat (length (print v))) /\ ends rest
  end.

Lemma ends_nonspace rest : ends rest -> skip_ws rest = rest.
Proof.
  intros [->|H]; [done|]. destruct rest as [|c t]; [done|]. cbn [deref] in H.
  apply skip_ws_nonspace. by destruct H as [->|[->| ->]].
Qed.

(** One round of the member loop on a printed member. *)
Lemma obj_get_round n k v rest key :
  ends rest ->
  obj_get_loop (S n) (print_member print (k, v) ++ rest) key =
    if streq (esc k) key then Some (Some (print v ++ rest, Z.of_nat (length (print v))))
    else if ceq (deref rest) "," then obj_get_loop n (tail rest) key else Some None.
Proof.
  intros Hr. unfold print_member. cbn [fst snd obj_get_loop]. rewrite <- !app_assoc.
  pose proof (skip_str_quoted k ([":"%char] ++ print v ++ rest)) as E.
  unfold quoted in E |- *. cbn [app] in E |- *. rewrite <- app_assoc in E |- *.
  cbn [app] in E |- *. rewrite skip_ws_nonspace by done.
  cbn [deref tail]. rewrite ceq_refl. change (ceq QUOTE "}") with false. cbn [negb].
  rewrite E. rewrite (skip_ws_nonspace ":") by done. cbn [deref tail]. rewrite ceq_refl. cbn [negb].
  rewrite skip_ws_print, skip_value_print, ends_nonspace by done.
  set (after := ":"%char :: print v ++ rest).
  replace (Z.of_nat (length (esc k ++ QUOTE :: after)) - Z.of_nat (length after) - 1)
    with (Z.of_nat (length (esc k))) by (rewrite length_app; simpl; lia).
  rewrite Nat2Z.id, take_app_length.
  replace ((Z.of_nat (length key) =? Z.of_nat (length (esc k))) && streq (esc k) (take (length (esc k)) key))
    with (streq (esc k) key).
  - split_if; [|done]. do 3 f_equal. rewrite length_app. lia.
  - destruct (streq (esc k) key) eqn:Hs.
    + apply streq_true in Hs as <-. rewrite Z.eqb_refl, take_ge by done. symmetry. by apply streq_true.
    + symmetry. destruct (Z.eqb_spec (Z.of_nat (length key)) (Z.of_nat (length (esc k)))); [|done].
      rewrite take_ge by lia. done.
Qed.

Lemma obj_get_members m rest key :
  exists n r, obj_get_loop n (join (map (print_member print) m) ++ "}"%char :: rest) key = Some r /\
    points_to r (find_member m key).
Proof.
  induction m as [|[k v] m IH].
  { by exists 1%nat, None. }
  destruct m as [|kv m].
  - cbn [map join find_member]. exists 1%nat. rewrite obj_get_round by (by right; right; left).
    split_if; [|by exists None]. eexists. split; [done|]. eexists. split; [done|]. by right; right; left.
  - destruct IH as (n & r & Hn & Hr). exists (S n).
    rewrite join_map_cons2, <- !app_assoc. rewrite obj_get_round by (by right; left).
    cbn [find_member]. fold find_member. split_if.
    + eexists. split; [done|]. eexists. split; [done|]. by right; left.
    + by exists r.
Qed.

Lemma obj_get_loop_mono n p key r m :
  obj_get_loop n p key = Some r -> (n <= m)%nat -> obj_get_loop m p key = Some r.
Proof.
  revert p m. induction n as [|n IH]; intros p [|m] H Hm; try done; try lia.
  cbn [obj_get_loop] in *. repeat first [split_if; try done | case_match; try done].
  apply IH; [done|lia].
Qed.

Lemma obj_get_print m rest key :
  points_to (nsr_json_obj_get (print (JObj m) ++ rest) key) (find_member m key).
Proof.
  destruct (obj_get_members m rest key) as (n & r & Hn & Hr).
  unfold nsr_json_obj_get. cbn [print]. rewrite <- !app_assoc. cbn [app].
  rewrite skip_ws_nonspace by done. cbn [deref tail]. rewrite ceq_refl.
  set (p := join _ ++ _) in *.
  destruct (obj_get_loop_total (S (length ("{"%char :: p))) p key) as (r' & E & _); [simpl; lia|].
  rewrite E. simpl.
  pose proof (obj_get_loop_mono _ _ _ _ (max n (S (length ("{"%char :: p)))) Hn ltac:(lia)).
  pose proof (obj_get_loop_mono _ _ _ _ (max n (S (length ("{"%char :: p)))) E ltac:(lia)).
  by simplify_eq.
Qed.

(** What [nsr_json_parse_str] makes of one escaped character. *)
Definition reread (c : ascii) : cstr :=
  match short_escape c with
  | Some _ => [c]
  | None => if ord c <? 32 then tail (u_escape c) else [c]
  end.

(** The characters that survive a round trip. *)
Definition survives (c : ascii) : Prop := is_Some (short_escape c) \/ 32 <= ord c.

Lemma reread_survives c : survives c -> reread c = [c].
Proof.
  unfold reread. intros [[e ->]|H]; [done|]. destruct (short_escape c); [done|].
  by rewrite (proj2 (Z.ltb_ge _ _)).
Qed.

Lemma short_escape_unescape c e : short_escape c = Some e -> unescape e = c.
Proof.
  unfold short_escape. intros H.
  repeat (split_if_in H; [match goal with E : ceq _ _ = true |- _ => apply ceq_true in E; subst end;
    injection H as <-; reflexivity|]). done.
Qed.

(** [parse_str_loop] with unlimited room. *)
Fixpoint decode (p : cstr) : cstr :=
  match p with
  | [] => []
  | c :: p' =>
      match p' with
      | d :: p'' => if ceq c BACKSLASH then unescape d :: decode p'' else c :: decode p'
      | [] => [c]
      end
  end.

Lemma decode_cons2 c d p :
  decode (c :: d :: p) = if ceq c BACKSLASH then unescape d :: decode p else c :: decode (d :: p).
Proof. done. Qed.

Lemma parse_str_loop_cons2 c d p o limit :
  parse_str_loop (c :: d :: p) o limit =
    if ceq c BACKSLASH then
      if o <? limit then unescape d :: parse_str_loop p (o + 1) limit else parse_str_loop p o limit
    else if o <? limit then c :: parse_str_loop (d :: p) (o + 1) limit
    else parse_str_loop (d :: p) o limit.
Proof. done. Qed.

Lemma parse_str_loop_take n p o limit :
  (length p <= n)%nat -> parse_str_loop p o limit = take (Z.to_nat (limit - o)) (decode p).
Proof.
  assert (forall (x : ascii) (l : cstr) o, o < limit ->
    x :: take (Z.to_nat (limit - (o + 1))) l = take (Z.to_nat (limit - o)) (x :: l)) as Hin.
  { intros x l o' Ho. replace (Z.to_nat (limit - o')) with (S (Z.to_nat (limit - (o' + 1)))) by lia. done. }
  assert (forall (l : cstr) o, limit <= o -> take (Z.to_nat (limit - o)) l = []) as Hout.
  { intros l o' Ho. by replace (Z.to_nat (limit - o')) with 0%nat by lia. }
  revert p o. induction n as [|n IH]; intros p o Hn; destruct p as [|c [|d p]]; simpl in Hn; try lia;
    try (cbn [parse_str_loop decode]; by rewrite take_nil).
  - simpl. split_if; bool_facts; [by rewrite <- Hin, take_nil|by rewrite Hout].
  - rewrite parse_str_loop_cons2, decode_cons2.
    repeat split_if; bool_facts; rewrite ?IH by (simpl; lia); rewrite ?Hin by done; try done;
      by rewrite !Hout.
Qed.

Lemma decode_plain c t : c <> BACKSLASH -> decode (c :: t) = c :: decode t.
Proof. intros H%ceq_false. destruct t; [done|]. by rewrite decode_cons2, H. Qed.

Lemma decode_esc_char c t : decode (esc_char c ++ t) = reread c ++ decode t.
Proof.
  unfold esc_char, reread. destruct (short_escape c) as [e|] eqn:He.
  - cbn [app]. rewrite decode_cons2. change (ceq BACKSLASH BACKSLASH) with true. cbn iota.
    by rewrite (short_escape_unescape _ _ He).
  - split_if.
    + destruct (nibbles c) as [[_ ?]%hex_digit_plain [_ ?]%hex_digit_plain].
      unfold u_escape. cbn [app tail]. rewrite decode_cons2. by rewrite !decode_plain.
    + cbn [app]. apply decode_plain. intros ->. by vm_compute in He.
Qed.

Lemma decode_esc s : decode (esc s) = concat (map reread (c_content s)).
Proof.
  unfold esc. induction (c_content s) as [|c t IH]; [done|]. cbn [map concat].
  by rewrite decode_esc_char, IH.
Qed.

Lemma parse_str_quoted s rest out_len :
  0 < out_len < 2 ^ 64 ->
  nsr_json_parse_str (quoted s ++ rest) (Z.of_nat (length (quoted s))) out_len
  = Some (take (Z.to_nat (out_len - 1)) (concat (map reread (c_content s)))).
Proof.
  intros Ho. unfold nsr_json_parse_str. rewrite Nat2Z.id, take_app_length.
  assert (length (quoted s) = S (S (length (esc s)))) as Hl.
  { unfold quoted. simpl. rewrite length_app. simpl. lia. }
  rewrite (proj2 (Z.ltb_ge (Z.of_nat (length (quoted s))) 2)) by lia. unfold quoted at 1 2. cbn [deref].
  rewrite ceq_refl, app_comm_cons, last_snoc. cbn [negb orb default].
  change (ceq (default NUL (Some QUOTE)) QUOTE) with true. cbn [negb]. f_equal.
  rewrite (parse_str_loop_take (length (quoted s)) _ 0); [|rewrite length_take; simpl; lia].
  rewrite u64_small by lia. rewrite Z.sub_0_r. f_equal.
  rewrite <- decode_esc. f_equal.
  replace (Z.to_nat _) with (length (esc s)) by lia. apply take_app_length.
Qed.

(** A string written by the encoder and read back by
    [nsr_json_parse_str] comes back truncated to the room of the output buffer;
    it is the string itself when every character either has a two-character
    escape or is at least 0x20, and in general each other control character
    comes back as the five characters of its [u00xx] escape. *)
Theorem string_roundtrip s rest out_len :
  nul_free s -> 0 < out_len < 2 ^ 64 ->
  nsr_json_parse_str (quoted s ++ rest) (Z.of_nat (length (quoted s))) out_len
    = Some (take (Z.to_nat (out_len - 1)) (concat (map reread s))) /\
  (Forall survives s ->
   nsr_json_parse_str (quoted s ++ rest) (Z.of_nat (length (quoted s))) out_len
     = Some (take (Z.to_nat (out_len - 1)) s)).
Proof.
  intros Hs Ho. pose proof (parse_str_quoted s rest out_len Ho) as E.
  rewrite c_content_nul_free in E by done. split; [done|]. intros Hf. rewrite E. do 2 f_equal.
  clear E Hs. induction Hf as [|c s Hc Hf IH]; [done|]. cbn [map concat].
  by rewrite reread_survives, IH.
Qed.

Lemma string_roundtrip_witness :
  nsr_json_parse_str (quoted (str "a/b") ++ str ",1") 5 64 = Some (str "a/b").
Proof.
  apply (string_roundtrip (str "a/b") (str ",1") 64).
  - unfold nul_free. vm_compute. intros H. repeat (inversion H as [|? ? ? H']; subst; clear H; rename H' into H).
  - lia.
  - repeat first [apply Forall_nil_2 | apply Forall_cons_2; [right; vm_compute; discriminate|]].
Defined.

(** The witness of the previous theorem's restriction: a string made of
    the control character 0x01 is read back as the text [u0001]. *)
Theorem control_char_not_restored :
  nsr_json_parse_str (quoted [chr 1]) (Z.of_nat (length (quoted [chr 1]))) 64 = Some (str "u0001").
Proof. vm_compute. reflexivity. Qed.

(** ** Integers and booleans *)

Lemma span_digits_run ds rest :
  Forall (fun c => is_digit c = true) ds -> is_digit (deref rest) = false ->
  span_digits (ds ++ rest) = (ds, rest).
Proof.
  intros Hd Hr. induction Hd as [|c ds Hc Hd IH]; cbn [app].
  - destruct rest as [|c t]; [done|]. cbn [deref] in Hr. simpl. by rewrite Hr.
  - simpl. by rewrite Hc, IH.
Qed.

Lemma digit_not_sign c :
  is_digit c = true -> isspace c = false /\ ceq c "-" = false /\ ceq c "+" = false.
Proof.
  intros H. unfold is_digit in H. bool_facts. rewrite <- (chr_ord c).
  replace (ord c) with (48 + (ord c - 48)) by lia.
  by apply (digit_cases (ord c - 48) (fun d => isspace (chr (48 + d)) = false
    /\ ceq (chr (48 + d)) "-" = false /\ ceq (chr (48 + d)) "+" = false)); [..|lia].
Qed.

Lemma strtoll_fmt z : - 2 ^ 63 <= z < 2 ^ 63 -> strtoll (fmt_lld z) = (z, []).
Proof.
  intros Hz. unfold fmt_lld. split_if; bool_facts.
  - destruct (fmt_u64_spec (- z)) as (ds & -> & Hne & Hds & Hv). specialize (Hv ltac:(lia)).
    unfold strtoll. rewrite skip_ws_nonspace by done. cbn [deref tail]. rewrite ceq_refl.
    pose proof (span_digits_run ds [] Hds eq_refl) as E. rewrite app_nil_r in E. rewrite E.
    destruct ds as [|c ds]; [done|]. f_equal. unfold clamp_ll. lia.
  - destruct (fmt_u64_spec z) as (ds & -> & Hne & Hds & Hv). specialize (Hv ltac:(lia)).
    unfold strtoll. destruct ds as [|c ds]; [done|].
    destruct (digit_not_sign c) as (Hs & Hm & Hp); [by inversion Hds|].
    rewrite skip_ws_nonspace by done. cbn [deref]. rewrite Hm, Hp.
    pose proof (span_digits_run (c :: ds) [] Hds eq_refl) as E. rewrite app_nil_r in E. rewrite E.
    f_equal. unfold clamp_ll. lia.
Qed.

Lemma scalar_nul_free s : Forall (fun c => scalar_char c = true) s -> nul_free s.
Proof.
  intros Hs Hin. rewrite Forall_forall in Hs. specialize (Hs _ Hin). done.
Qed.

Lemma nul_free_app s t : nul_free s -> nul_free t -> nul_free (s ++ t).
Proof. unfold nul_free. rewrite elem_of_app. tauto. Qed.

Lemma nul_free_cons c s : c <> NUL -> nul_free s -> nul_free (c :: s).
Proof. unfold nul_free. rewrite elem_of_cons. intros ? ? [?|?]; auto. Qed.

Lemma dec_digits_length f n acc : (length (dec_digits f n acc) <= f + length acc)%nat.
Proof.
  revert n acc. induction f as [|f IH]; intros n acc; [done|]. cbn [dec_digits].
  split_if; [simpl; lia|]. etrans; [apply IH|]. simpl. lia.
Qed.

Lemma fmt_lld_length z : (length (fmt_lld z) < 32)%nat.
Proof.
  pose proof (dec_digits_length 20 (- z) []). pose proof (dec_digits_length 20 z []).
  unfold fmt_lld. change (fmt_u64 ?n) with (dec_digits 20 n []).
  destruct (z <? 0); cbn [length] in *; lia.
Qed.

Lemma parse_int_print z rest out :
  - 2 ^ 63 <= z < 2 ^ 63 ->
  nsr_json_parse_int (fmt_lld z ++ rest) (Z.of_nat (length (fmt_lld z))) out = (true, z).
Proof.
  intros Hz. unfold nsr_json_parse_int. pose proof (fmt_lld_length z).
  rewrite (proj2 (Z.leb_gt _ _)) by lia. rewrite Nat2Z.id, take_app_length.
  rewrite c_content_nul_free by apply scalar_nul_free, fmt_lld_scalar.
  rewrite strtoll_fmt by done. cbn [length]. by rewrite Z.sub_0_r, Z.eqb_refl.
Qed.

Lemma parse_bool_print b rest out :
  nsr_json_parse_bool (print (JBool b) ++ rest) (Z.of_nat (length (print (JBool b)))) out = (true, b).
Proof. by destruct b. Qed.

(** ** Printed documents contain no NUL *)

Lemma esc_nul_free s : nul_free (esc s).
Proof.
  unfold esc. assert (nul_free (c_content s)) as H.
  { induction s as [|c s IH]; [by apply not_elem_of_nil|]. simpl. split_if; [by apply not_elem_of_nil|].
    apply nul_free_cons; [by apply ceq_false|done]. }
  induction (c_content s) as [|c t IH]; [by apply not_elem_of_nil|]. cbn [map concat].
  apply not_elem_of_cons in H as [Hc Ht]. apply nul_free_app; [|by apply IH].
  unfold esc_char. destruct (short_escape c) as [e|] eqn:He.
  - apply nul_free_cons; [done|]. apply nul_free_cons; [|by apply not_elem_of_nil].
    intros ->. by apply short_escape_unescape in He as <-.
  - split_if; [|by apply nul_free_cons, not_elem_of_nil; congruence].
    destruct (nibbles c) as [H1 H2].
    assert (forall d, 0 <= d < 16 -> hex_digit d <> NUL) as Hh.
    { intros d Hd.
      assert (d = 10 \/ d = 11 \/ d = 12 \/ d = 13 \/ d = 14 \/ d = 15 \/ 0 <= d < 10) as Hx by lia.
      repeat destruct Hx as [->|Hx]; try done.
      by apply (digit_cases d (fun d => hex_digit d <> NUL)). }
    unfold u_escape. repeat apply nul_free_cons; auto; try done. by apply not_elem_of_nil.
Qed.

Lemma quoted_nul_free s : nul_free (quoted s).
Proof.
  unfold quoted. apply nul_free_cons; [done|]. apply nul_free_app; [apply esc_nul_free|].
  apply nul_free_cons; [done|by apply not_elem_of_nil].
Qed.

Lemma join_nul_free l : Forall nul_free l -> nul_free (join l).
Proof.
  induction 1 as [|x l Hx Hl IH]; [by apply not_elem_of_nil|].
  destruct l; [done|]. cbn [join] in *. apply nul_free_app; [done|]. by apply nul_free_cons.
Qed.

Lemma print_nul_free v : nul_free (print v).
Proof.
  induction v as [|b|z|x|s|l IH|m IH] using json_nested_ind; cbn [print].
  - apply scalar_nul_free. by repeat constructor.
  - apply scalar_nul_free. destruct b; by repeat constructor.
  - apply scalar_nul_free, fmt_lld_scalar.
  - apply scalar_nul_free. apply scalar_take; [lia|apply fmt_f6_scalar].
  - apply quoted_nul_free.
  - apply nul_free_cons; [done|]. apply nul_free_app; [|by apply nul_free_cons, not_elem_of_nil].
    by apply join_nul_free, Forall_map.
  - apply nul_free_cons; [done|]. apply nul_free_app; [|by apply nul_free_cons, not_elem_of_nil].
    apply join_nul_free, Forall_map. eapply Forall_impl; [exact IH|]. intros [k v] Hv.
    unfold print_member. apply nul_free_app; [apply quoted_nul_free|]. by apply nul_free_cons.
Qed.

(** ** Encode, then read *)

(** The text a plugin or the host receives for a document. *)
Definition encode (v : json) : cstr := nsr_json_cstr (run_calls nsr_json_init (doc_calls v)).

Lemma encode_print v : fits (print v) -> encode v = print v.
Proof.
  intros Hf. assert (calls_text [] (doc_calls v) = print v) as E by apply doc_calls_text.
  unfold encode. erewrite nsr_json_cstr_rep; [|apply run_calls_rep; [apply nsr_json_init_rep|by rewrite E]].
  rewrite E. apply c_content_nul_free, print_nul_free.
Qed.


Definition demo_members : list (cstr * json) :=
  [(str "id", JInt (-7)); (str "result", JObj [(str "handled", JBool true)])].


(** An integer or boolean member of an encoded object reads back as the
    value that was written, whatever the variable held before. *)
Theorem typed_member_roundtrip m key :
  fits (print (JObj m)) ->
  (forall z out, find_member m key = Some (JInt z) -> - 2 ^ 63 <= z < 2 ^ 63 ->
     exists v l, nsr_json_obj_get (encode (JObj m)) key = Some (v, l) /\
       nsr_json_parse_int v l out = (true, z)) /\
  (forall b out, find_member m key = Some (JBool b) ->
     exists v l, nsr_json_obj_get (encode (JObj m)) key = Some (v, l) /\
       nsr_json_parse_bool v l out = (true, b)).
Proof.
  intros Hf. rewrite encode_print by done.
  pose proof (obj_get_print m [] key) as Hp. rewrite app_nil_r in Hp.
  split; [intros z out E Hz|intros b out E]; rewrite E in Hp; destruct Hp as (rest & -> & _).
  - eexists _, _. split; [done|]. by apply parse_int_print.
  - eexists _, _. split; [done|]. apply parse_bool_print.
Qed.

Lemma typed_member_roundtrip_witness :
  exists v l, nsr_json_obj_get (encode (JObj demo_members)) (str "id") = Some (v, l) /\
    nsr_json_parse_int v l (-1) = (true, -7).
Proof.
  apply (proj1 (typed_member_roundtrip demo_members (str "id") ltac:(vm_compute; reflexivity)) (-7) (-1)).
  - vm_compute. reflexivity.
  - lia.
Defined.

(** ** Array iteration *)

(** The loop of every array reader: [elem = arr_first(json, &next); while (elem)
    { ...; elem = arr_next(next, &next); }]. *)
Fixpoint arr_collect (fuel : nat) (st : option cstr * option cstr) : list cstr :=
  match fuel with
  | O => []
  | S f =>
      match st with
      | (Some elem, Some next) => elem :: arr_collect f (nsr_json_arr_next next)
      | _ => []
      end
  end.

Definition arr_elements (json : cstr) : list cstr :=
  arr_collect (length json) (nsr_json_arr_first json).

(** What follows the first element of a printed array body. *)
Definition array_tail (l : list json) (rest : cstr) : cstr :=
  match l with
  | [] => "]"%char :: rest
  | _ => ","%char :: join (map print l) ++ "]"%char :: rest
  end.

Lemma array_body v l rest :
  join (map print (v :: l)) ++ "]"%char :: rest = print v ++ array_tail l rest.
Proof. destruct l as [|w l]; [done|]. rewrite join_map_cons2. by rewrite <- !app_assoc. Qed.

Lemma array_tail_ends l rest : ends (array_tail l rest).
Proof. destruct l; [by right; right; right|by right; left]. Qed.

Lemma arr_next_body v l rest :
  nsr_json_arr_next (array_tail (v :: l) rest)
  = (Some (print v ++ array_tail l rest), Some (array_tail l rest)).
Proof.
  unfold nsr_json_arr_next. rewrite ends_nonspace by apply array_tail_ends.
  cbn [array_tail deref tail]. rewrite ceq_refl. cbn zeta.
  rewrite array_body, skip_ws_print, skip_value_print by apply array_tail_ends. done.
Qed.

Lemma arr_first_body v l rest :
  nsr_json_arr_first (print (JArr (v :: l)) ++ rest)
  = (Some (print v ++ array_tail l rest), Some (array_tail l rest)).
Proof.
  unfold nsr_json_arr_first. cbn [print]. rewrite <- !app_assoc. cbn [app].
  rewrite skip_ws_nonspace by done. cbn [deref tail]. rewrite ceq_refl. cbn [negb]. cbn zeta.
  rewrite array_body, skip_ws_print, skip_value_print by apply array_tail_ends.
  destruct (print_head v (array_tail l rest)) as (c & t & E & _ & Hc).
  replace (deref (print v ++ array_tail l rest)) with c by (by rewrite E). by rewrite Hc.
Qed.

Lemma arr_collect_body v l rest f :
  (length (v :: l) <= f)%nat ->
  Forall2 (fun v e => exists r, e = print v ++ r /\ ends r) (v :: l)
    (arr_collect f (Some (print v ++ array_tail l rest), Some (array_tail l rest))).
Proof.
  revert v f. induction l as [|w l IH]; intros v [|f] Hf; try (simpl in Hf; lia);
    cbn [arr_collect].
  - constructor; [eexists; split; [done|apply array_tail_ends]|]. by destruct f.
  - constructor; [eexists; split; [done|apply array_tail_ends]|].
    rewrite arr_next_body. apply IH. simpl in *. lia.
Qed.

Lemma join_print_length l : (length l <= length (join (map print l)))%nat.
Proof.
  induction l as [|v l IH]; [done|]. destruct l as [|w l].
  - cbn [map join]. destruct (print_head v []) as (c & t & E & _). rewrite app_nil_r in E.
    rewrite E. simpl. lia.
  - rewrite join_map_cons2, !length_app. simpl length in *. lia.
Qed.

(** Iterating over an encoded array visits every element once, in order,
    each position starting with exactly the text of that element. *)
Theorem array_iteration l :
  fits (print (JArr l)) ->
  Forall2 (fun v e => exists rest, e = print v ++ rest /\ ends rest) l (arr_elements (encode (JArr l))).
Proof.
  intros Hf. rewrite encode_print by done. unfold arr_elements.
  destruct l as [|v l]; [by constructor|].
  rewrite <- (app_nil_r (print (JArr (v :: l)))) at 2. rewrite arr_first_body.
  apply arr_collect_body. pose proof (join_print_length (v :: l)) as H.
  cbn [print]. rewrite !length_app. lia.
Qed.

Lemma array_iteration_witness :
  length (arr_elements (encode (JArr [JInt 1; JStr (str "x,]"); JArr []]))) = 3%nat.
Proof.
  symmetry.
  apply (Forall2_length _ _ _ (array_iteration [JInt 1; JStr (str "x,]"); JArr []] ltac:(vm_compute; reflexivity))).
Defined.
