(* ===== verification/Telemetry.v ===== *)
(** * Shared data types (include/nsr/telemetry.h)

    The records that travel between the logic engine, the gatekeeper and the
    user interface, and the byte layout of the two that cross the shared-memory
    rings (x86-64 layout: 24 bytes for [nsr_intent_t], 40 for
    [nsr_observation_t]).  [Layout] is what the rings rely on: an encoding of
    fixed size that fits a 128-byte slot and decodes to the value written. *)

From S2P Require Import Prelude.

Definition NSR_MAX_HOPS : Z := 64.
Definition NSR_GK_MAX_INFLIGHT : Z := 65536.
Definition NSR_MAX_HOP_ALIASES : Z := 3.

Inductive nsr_obs_type_t :=
| NSR_OBS_NONE | NSR_OBS_REPLY | NSR_OBS_EXCEEDED | NSR_OBS_UNREACH | NSR_OBS_TIMEOUT | NSR_OBS_ERROR.

#[export] Instance obs_type_eq_dec : EqDecision nsr_obs_type_t.
Proof. solve_decision. Defined.

Definition obs_code (t : nsr_obs_type_t) : Z :=
  match t with
  | NSR_OBS_NONE => 0 | NSR_OBS_REPLY => 1 | NSR_OBS_EXCEEDED => 2
  | NSR_OBS_UNREACH => 3 | NSR_OBS_TIMEOUT => 4 | NSR_OBS_ERROR => 5
  end.

Definition obs_of_code (z : Z) : nsr_obs_type_t :=
  if z =? 1 then NSR_OBS_REPLY else if z =? 2 then NSR_OBS_EXCEEDED
  else if z =? 3 then NSR_OBS_UNREACH else if z =? 4 then NSR_OBS_TIMEOUT
  else if z =? 5 then NSR_OBS_ERROR else NSR_OBS_NONE.

Record nsr_intent_t := mk_intent {
  in_ttl : Z;
  in_seq : Z;
  in_action : Z;
  in_timestamp_us : Z;
  in_integrity : Z;
}.

Record nsr_observation_t := mk_observation {
  ob_ttl : Z;
  ob_seq : Z;
  ob_rtt_us : Z;
  ob_type : nsr_obs_type_t;
  ob_addr_bin : list Z;
  ob_is_v6 : bool;
}.

Record nsr_hop_alias_t := mk_alias {
  al_addr : cstr;
  al_recv : Z;
}.

(** [aliases] lists the 3 alias slots; the first [alias_count] are in use. *)
Record nsr_hop_info_t := mk_hop {
  addr : cstr;
  rtt_us : Z;
  sent : Z;
  recv : Z;
  primary_recv : Z;
  last_status : nsr_obs_type_t;
  alias_count : Z;
  aliases : list nsr_hop_alias_t;
}.

Record nsr_telemetry_state_t := mk_telemetry {
  hops : list nsr_hop_info_t;
  target_ip : cstr;
  target_host : cstr;
  start_time_us : Z;
  interval_ms : Z;
}.

Record nsr_config_t := mk_config {
  cf_interval_ms : Z;
  cf_target_ip : cstr;
  cf_target_host : cstr;
}.

Definition zero_alias : nsr_hop_alias_t := {| al_addr := []; al_recv := 0 |}.

Definition zero_hop : nsr_hop_info_t :=
  {| addr := []; rtt_us := 0; sent := 0; recv := 0; primary_recv := 0;
     last_status := NSR_OBS_NONE; alias_count := 0; aliases := replicate 3 zero_alias |}.

Definition zero_telemetry : nsr_telemetry_state_t :=
  {| hops := replicate 64 zero_hop; target_ip := []; target_host := [];
     start_time_us := 0; interval_ms := 0 |}.

(** ** Byte layouts *)

Definition SLOT_BYTES : nat := 128.

Class Layout (A : Type) := {
  sizeof : nat;
  to_bytes : A -> list Z;
  of_bytes : list Z -> A;
  in_range : A -> Prop;
  sizeof_fits : (sizeof <= SLOT_BYTES)%nat;
  to_bytes_length : forall x, in_range x -> length (to_bytes x) = sizeof;
  of_to_bytes : forall x, in_range x -> of_bytes (to_bytes x) = x;
}.

(** The little-endian field of [n] bytes at offset [off]. *)
Definition field (off n : nat) (bs : list Z) : Z := le_join (take n (drop off bs)).

Definition intent_to_bytes (i : nsr_intent_t) : list Z :=
  le_split 1 (in_ttl i) ++ [0] ++ le_split 2 (in_seq i) ++ le_split 4 (in_action i)
  ++ le_split 8 (in_timestamp_us i) ++ le_split 8 (in_integrity i).

Definition intent_of_bytes (bs : list Z) : nsr_intent_t :=
  {| in_ttl := field 0 1 bs; in_seq := field 2 2 bs; in_action := field 4 4 bs;
     in_timestamp_us := field 8 8 bs; in_integrity := field 16 8 bs |}.

Definition intent_in_range (i : nsr_intent_t) : Prop :=
  0 <= in_ttl i < 256 /\ 0 <= in_seq i < 65536 /\ 0 <= in_action i < 2 ^ 32 /\
  0 <= in_timestamp_us i < 2 ^ 64 /\ 0 <= in_integrity i < 2 ^ 64.

Definition observation_to_bytes (o : nsr_observation_t) : list Z :=
  le_split 1 (ob_ttl o) ++ [0] ++ le_split 2 (ob_seq o) ++ [0; 0; 0; 0]
  ++ le_split 8 (ob_rtt_us o) ++ le_split 4 (obs_code (ob_type o))
  ++ ob_addr_bin o ++ [if ob_is_v6 o then 1 else 0] ++ [0; 0; 0].

Definition observation_of_bytes (bs : list Z) : nsr_observation_t :=
  {| ob_ttl := field 0 1 bs; ob_seq := field 2 2 bs; ob_rtt_us := field 8 8 bs;
     ob_type := obs_of_code (field 16 4 bs);
     ob_addr_bin := take 16 (drop 20 bs);
     ob_is_v6 := negb (field 36 1 bs =? 0) |}.

Definition observation_in_range (o : nsr_observation_t) : Prop :=
  0 <= ob_ttl o < 256 /\ 0 <= ob_seq o < 65536 /\ 0 <= ob_rtt_us o < 2 ^ 64 /\
  length (ob_addr_bin o) = 16%nat.

(** A field written between [pre] and [post] reads back. *)
Lemma field_app pre n z post :
  0 <= z < 256 ^ Z.of_nat n -> field (length pre) n (pre ++ le_split n z ++ post) = z.
Proof.
  intros Hz. unfold field. rewrite drop_app_length, take_app_length' by (by rewrite le_split_length).
  by apply le_join_split.
Qed.

Lemma obs_code_roundtrip t : obs_of_code (obs_code t) = t.
Proof. by destruct t. Qed.

Lemma intent_roundtrip i : intent_in_range i -> intent_of_bytes (intent_to_bytes i) = i.
Proof.
  destruct i as [ttl seq act ts ig]. intros (H1 & H2 & H3 & H4 & H5). simpl in *.
  unfold intent_of_bytes, intent_to_bytes. cbn [in_ttl in_seq in_action in_timestamp_us in_integrity].
  f_equal.
  - apply (field_app []). simpl. lia.
  - apply (field_app (le_split 1 ttl ++ [0]) 2 seq). simpl. lia.
  - apply (field_app (le_split 1 ttl ++ [0] ++ le_split 2 seq) 4 act). simpl. lia.
  - apply (field_app (le_split 1 ttl ++ [0] ++ le_split 2 seq ++ le_split 4 act) 8 ts). simpl. lia.
  - rewrite <- (app_nil_r (le_split 8 ig)).
    apply (field_app (le_split 1 ttl ++ [0] ++ le_split 2 seq ++ le_split 4 act ++ le_split 8 ts) 8 ig).
    simpl. lia.
Qed.

Lemma observation_roundtrip o :
  observation_in_range o -> observation_of_bytes (observation_to_bytes o) = o.
Proof.
  destruct o as [ttl seq rtt ty ab v6]. intros (H1 & H2 & H3 & H4). simpl in *.
  unfold observation_of_bytes, observation_to_bytes.
  cbn [ob_ttl ob_seq ob_rtt_us ob_type ob_addr_bin ob_is_v6].
  set (pre := le_split 1 ttl ++ [0] ++ le_split 2 seq ++ [0; 0; 0; 0]).
  f_equal.
  - apply (field_app []). simpl. lia.
  - apply (field_app (le_split 1 ttl ++ [0]) 2 seq). simpl. lia.
  - apply (field_app pre 8 rtt). simpl. lia.
  - rewrite <- (obs_code_roundtrip ty) at 2. f_equal.
    apply (field_app (pre ++ le_split 8 rtt) 4 (obs_code ty)). simpl. destruct ty; simpl; lia.
  - change 20%nat with (length (pre ++ le_split 8 rtt ++ le_split 4 (obs_code ty))).
    change (?a ++ ?b ++ ?c ++ ?d ++ ?e ++ ?f ++ ?t)
      with ((pre ++ le_split 8 rtt ++ le_split 4 (obs_code ty)) ++ t).
    rewrite drop_app_length. by apply take_app_length'.
  - replace (field 36 1 _) with (if v6 then 1 else 0); [by destruct v6|].
    symmetry. unfold field.
    replace (le_split 1 ttl ++ _) with
      ((pre ++ le_split 8 rtt ++ le_split 4 (obs_code ty) ++ ab) ++ [if v6 then 1 else 0] ++ [0; 0; 0])
      by (unfold pre; by rewrite <- !app_assoc).
    rewrite drop_app_length' by (rewrite !length_app, H4; reflexivity). by destruct v6.
Qed.

#[export] Program Instance intent_layout : Layout nsr_intent_t := {|
  sizeof := 24; to_bytes := intent_to_bytes; of_bytes := intent_of_bytes;
  in_range := intent_in_range; of_to_bytes := intent_roundtrip |}.
Next Obligation. unfold SLOT_BYTES. lia. Qed.
Next Obligation. reflexivity. Qed.

#[export] Program Instance observation_layout : Layout nsr_observation_t := {|
  sizeof := 40; to_bytes := observation_to_bytes; of_bytes := observation_of_bytes;
  in_range := observation_in_range; of_to_bytes := observation_roundtrip |}.
Next Obligation. unfold SLOT_BYTES. lia. Qed.
Next Obligation.
  intros o (_ & _ & _ & H). unfold observation_to_bytes. rewrite !length_app, H. reflexivity.
Qed.
