(* ===== verification/ShmRing.v ===== *)
(** * Shared-memory rings (include/nsr/shm_ring.h)

    The single-producer single-consumer rings between the processes: the
    131072-slot ring of 128-byte items ([nsr_shm_ring_t]) and the 16-slot ring
    of telemetry snapshots ([nsr_shm_ring_large_t]).

    [SlotMem] is what a ring promises its client about one slot: an item copied
    in with [memcpy] is the item copied out.  It is discharged for every
    [Layout] (byte slots) and, trivially, for slots that hold one struct.

    The operations are first proved to refine a bounded FIFO queue when each
    call runs alone.  The section [Interleaving] then splits every call into
    its loads, item copies and store, and lets the two processes interleave
    freely. *)

From stdpp Require Import gmap.
From S2P Require Import Prelude Telemetry.

Class SlotMem (slot item : Type) := {
  slot_zero : slot;
  slot_write : item -> slot -> slot;
  slot_read : slot -> item;
  item_ok : item -> Prop;
  slot_read_write : forall x s, item_ok x -> slot_read (slot_write x s) = x;
}.

(** A 128-byte slot receives the [sizeof] bytes of the item and keeps the rest. *)
#[export] Program Instance layout_slot {A} (L : Layout A) : SlotMem (list Z) A := {|
  slot_zero := replicate SLOT_BYTES 0;
  slot_write := fun x s => splice s 0 (to_bytes x);
  slot_read := fun s => of_bytes (take sizeof s);
  item_ok := in_range |}.
Next Obligation.
  intros A L x s Hx. unfold splice. simpl.
  rewrite take_app_length' by (by rewrite to_bytes_length). by apply of_to_bytes.
Qed.

#[export] Program Instance telemetry_slot : SlotMem nsr_telemetry_state_t nsr_telemetry_state_t := {|
  slot_zero := zero_telemetry;
  slot_write := fun x _ => x;
  slot_read := fun s => s;
  item_ok := fun _ => True |}.
Next Obligation. done. Qed.

(** ** Positions modulo the size of a ring *)

Section Positions.
  Context (size : Z) (Hsize : 0 < size).

Definition dist (h t : Z) : Z := (h - t) mod size.

Lemma dist_range h t : 0 <= dist h t < size.
Proof. by apply Z.mod_pos_bound. Qed.

Lemma dist_reach h t : 0 <= h < size -> (t + dist h t) mod size = h.
Proof.
  intros Hh. unfold dist. rewrite Zplus_mod_idemp_r.
  replace (t + (h - t)) with h by lia. by apply Z.mod_small.
Qed.

Lemma dist_same t : dist t t = 0.
Proof. unfold dist. by rewrite Z.sub_diag, Zmod_0_l. Qed.

Lemma dist_zero h t : 0 <= h < size -> 0 <= t < size -> dist h t = 0 -> h = t.
Proof.
  intros Hh Ht H. rewrite <- (dist_reach h t) by done. rewrite H, Z.add_0_r. by apply Z.mod_small.
Qed.

Lemma dist_push h t k : 0 <= k -> dist h t + k < size -> dist ((h + k) mod size) t = dist h t + k.
Proof.
  intros Hk H. pose proof (dist_range h t). unfold dist in *. rewrite Zminus_mod_idemp_l.
  replace (h + k - t) with (h - t + k) by lia.
  rewrite <- Zplus_mod_idemp_l. apply Z.mod_small. lia.
Qed.

Lemma dist_pop h t k : 0 <= k <= dist h t -> dist h ((t + k) mod size) = dist h t - k.
Proof.
  intros Hk. pose proof (dist_range h t). unfold dist in *. rewrite Zminus_mod_idemp_r.
  replace (h - (t + k)) with (h - t - k) by lia.
  rewrite <- Zminus_mod_idemp_l. apply Z.mod_small. lia.
Qed.

Lemma mod_offset_inj t i j :
  0 <= i < size -> 0 <= j < size -> (t + i) mod size = (t + j) mod size -> i = j.
Proof.
  intros Hi Hj H. pose proof (Z.div_mod (t + i) size). pose proof (Z.div_mod (t + j) size).
  assert ((t + i) / size = (t + j) / size); nia.
Qed.

(** *** The [n] slots from position [t] on *)

  Context {A : Type}.

Definition window (get : Z -> A) (t : Z) (n : nat) : list A :=
  map (fun i => get ((t + Z.of_nat i) mod size)) (seq 0 n).

Lemma window_length get t n : length (window get t n) = n.
Proof. unfold window. by rewrite length_map, length_seq. Qed.

Lemma window_ext get get' t n :
  (forall i, (i < n)%nat -> get ((t + Z.of_nat i) mod size) = get' ((t + Z.of_nat i) mod size)) ->
  window get t n = window get' t n.
Proof. intros H. apply map_ext_in. intros i Hi%List.in_seq. apply H. lia. Qed.

Lemma window_app get t n m :
  window get t (n + m) = window get t n ++ window get ((t + Z.of_nat n) mod size) m.
Proof.
  unfold window. rewrite seq_app, map_app. f_equal. simpl.
  rewrite <- (Nat.add_0_r n) at 1. rewrite <- fmap_add_seq.
  rewrite <- list_fmap_compose. apply map_ext. intros i. simpl.
  rewrite Zplus_mod_idemp_l. do 2 f_equal. lia.
Qed.

Lemma window_snoc get t n :
  window get t (S n) = window get t n ++ [get ((t + Z.of_nat n) mod size)].
Proof.
  rewrite <- Nat.add_1_r, window_app. unfold window at 2. simpl.
  by rewrite Z.add_0_r, Zmod_mod.
Qed.

Lemma window_lookup get t n i :
  (i < n)%nat -> window get t n !! i = Some (get ((t + Z.of_nat i) mod size)).
Proof.
  intros Hi. unfold window. change (map ?f ?l) with (f <$> l).
  rewrite list_lookup_fmap, lookup_seq_lt by done. done.
Qed.

Lemma window_drop get t n m :
  (m <= n)%nat -> drop m (window get t n) = window get ((t + Z.of_nat m) mod size) (n - m).
Proof.
  intros H. replace n with (m + (n - m))%nat at 1 by lia.
  rewrite window_app, drop_app_length'; [done|by rewrite window_length].
Qed.

Lemma window_take get t n m :
  (m <= n)%nat -> take m (window get t n) = window get t m.
Proof.
  intros H. replace n with (m + (n - m))%nat at 1 by lia.
  rewrite window_app, take_app_length'; [done|by rewrite window_length].
Qed.

(** Writing a slot past the window does not disturb it. *)
Lemma window_write_outside get get' t n k :
  Z.of_nat n <= k < size ->
  (forall j, 0 <= j < size -> j <> (t + k) mod size -> get' j = get j) ->
  window get' t n = window get t n.
Proof.
  intros Hk Hg. apply window_ext. intros i Hi. apply Hg; [by apply Z.mod_pos_bound|].
  intros He. apply mod_offset_inj in He; lia.
Qed.

End Positions.

(** ** The ring of 131072 slots *)

Definition SHM_RING_SIZE : Z := 131072.

Lemma size_pos : 0 < SHM_RING_SIZE.
Proof. unfold SHM_RING_SIZE. lia. Qed.

(** The index expression [(x) & (SHM_RING_SIZE - 1)] on [uint32_t]. *)
Definition ring_index (x : Z) : Z := Z.land (u32 x) (SHM_RING_SIZE - 1).

Lemma ring_index_mod x : ring_index x = x mod SHM_RING_SIZE.
Proof.
  unfold ring_index. change (SHM_RING_SIZE - 1) with (2 ^ 17 - 1).
  rewrite land_mask by lia. unfold u32, wrap. change SHM_RING_SIZE with (2 ^ 17).
  apply Z.mod_mod_divide. by exists (2 ^ 15).
Qed.

Section Ring.
  Context {slot item : Type} {SM : SlotMem slot item}.

(** The mapping is zero-filled when it is created, so a slot that was never
    written reads as zeros. *)
Record nsr_shm_ring_t := mk_ring {
  head : Z;
  tail : Z;
  data : gmap Z slot;
}.

Definition empty_ring : nsr_shm_ring_t := {| head := 0; tail := 0; data := ∅ |}.

Definition slot_at (d : gmap Z slot) (k : Z) : slot := default slot_zero (d !! k).

Definition item_at (d : gmap Z slot) (k : Z) : item := slot_read (slot_at d k).

(** [memcpy] of one item into the slot of position [pos]. *)
Definition copy_in (d : gmap Z slot) (pos : Z) (x : item) : gmap Z slot :=
  <[ring_index pos := slot_write x (slot_at d (ring_index pos))]> d.

Fixpoint copy_in_all (d : gmap Z slot) (h i : Z) (items : list item) : gmap Z slot :=
  match items with
  | [] => d
  | x :: items' => copy_in_all (copy_in d (h + i) x) h (i + 1) items'
  end.

(** [used + count >= SHM_RING_SIZE - 1], the overflow test of a push. *)
Definition ring_full (h t count : Z) : bool :=
  SHM_RING_SIZE - 1 <=? u32 (ring_index (h - t) + count).

Definition nsr_shm_ring_push_batch (r : nsr_shm_ring_t) (items : list item) : bool * nsr_shm_ring_t :=
  let h := head r in
  let t := tail r in
  let count := Z.of_nat (length items) in
  let next := ring_index (h + count) in
  if ring_full h t count then (false, r)
  else (true, {| head := next; tail := t; data := copy_in_all (data r) h 0 items |}).

Definition nsr_shm_ring_push (r : nsr_shm_ring_t) (x : item) : bool * nsr_shm_ring_t :=
  nsr_shm_ring_push_batch r [x].

Fixpoint copy_out_all (d : gmap Z slot) (t i : Z) (count : nat) : list item :=
  match count with
  | O => []
  | S n => item_at d (ring_index (t + i)) :: copy_out_all d t (i + 1) n
  end.

(** The number of items a pop takes: [min(available, max_count)]. *)
Definition pop_count (available max_count : Z) : Z :=
  if available <? u32 max_count then available else max_count.

(** The result is the list of items copied out; the C function returns its
    length. *)
Definition nsr_shm_ring_pop_batch (r : nsr_shm_ring_t) (max_count : Z) : list item * nsr_shm_ring_t :=
  let t := tail r in
  let h := head r in
  let available := ring_index (h - t) in
  if available =? 0 then ([], r)
  else
    let count := pop_count available max_count in
    (copy_out_all (data r) t 0 (Z.to_nat count),
     {| head := h; tail := ring_index (t + count); data := data r |}).

Definition nsr_shm_ring_pop (r : nsr_shm_ring_t) : option item * nsr_shm_ring_t :=
  let '(out, r') := nsr_shm_ring_pop_batch r 1 in
  (match out with [x] => Some x | _ => None end, r').

(** *** Abstraction to a queue *)

Definition in_ring (p : Z) : Prop := 0 <= p < SHM_RING_SIZE.

Definition used (r : nsr_shm_ring_t) : Z := dist SHM_RING_SIZE (head r) (tail r).

Definition items_from (d : gmap Z slot) (t n : Z) : list item :=
  window SHM_RING_SIZE (item_at d) t (Z.to_nat n).

Definition contents (r : nsr_shm_ring_t) : list item := items_from (data r) (tail r) (used r).

Definition ring_wf (r : nsr_shm_ring_t) : Prop :=
  in_ring (head r) /\ in_ring (tail r) /\ used r <= SHM_RING_SIZE - 2.

(** The specification: a FIFO queue that refuses a batch that would bring it to
    [SHM_RING_SIZE - 1] items or more. *)
Definition queue_push (q items : list item) : bool * list item :=
  if SHM_RING_SIZE - 1 <=? Z.of_nat (length q + length items) then (false, q)
  else (true, q ++ items).

Definition queue_pop (q : list item) (max_count : nat) : list item * list item :=
  (take max_count q, drop max_count q).

Lemma ring_index_range x : in_ring (ring_index x).
Proof. rewrite ring_index_mod. apply Z.mod_pos_bound, size_pos. Qed.

Lemma ring_index_small x : in_ring x -> ring_index x = x.
Proof. rewrite ring_index_mod. apply Z.mod_small. Qed.

Lemma items_from_length d t n : 0 <= n -> Z.of_nat (length (items_from d t n)) = n.
Proof. intros H. unfold items_from. rewrite window_length. lia. Qed.

Lemma contents_length r : Z.of_nat (length (contents r)) = used r.
Proof. apply items_from_length, dist_range, size_pos. Qed.

Lemma copy_in_here d pos x : item_ok x -> item_at (copy_in d pos x) (pos mod SHM_RING_SIZE) = x.
Proof.
  intros Hx. unfold item_at, slot_at, copy_in. rewrite ring_index_mod, lookup_insert_eq. simpl.
  by apply slot_read_write.
Qed.

Lemma copy_in_elsewhere d pos x k :
  k <> pos mod SHM_RING_SIZE -> item_at (copy_in d pos x) k = item_at d k.
Proof.
  intros Hk. unfold item_at, slot_at, copy_in. by rewrite ring_index_mod, lookup_insert_ne.
Qed.

(** Copying a batch behind [n] items appends it to them. *)
Lemma copy_in_all_window d h i items t n :
  Forall item_ok items -> 0 <= n -> n + Z.of_nat (length items) < SHM_RING_SIZE ->
  (t + n) mod SHM_RING_SIZE = (h + i) mod SHM_RING_SIZE ->
  items_from (copy_in_all d h i items) t (n + Z.of_nat (length items)) = items_from d t n ++ items.
Proof.
  revert d i n. induction items as [|x items IH]; intros d i n Hok Hn Hlen Hpos; simpl.
  - by rewrite Z.add_0_r, app_nil_r.
  - apply Forall_cons in Hok as [Hx Hok]. simpl in Hlen.
    replace (n + Z.of_nat (S (length items))) with (n + 1 + Z.of_nat (length items)) by lia.
    rewrite IH; [|done|lia|lia|].
    + replace (x :: items) with ([x] ++ items) by done. rewrite app_assoc. f_equal.
      unfold items_from. replace (Z.to_nat (n + 1)) with (S (Z.to_nat n)) by lia.
      rewrite window_snoc. f_equal.
      * apply (window_write_outside _ size_pos _ _ _ _ n); [lia|].
        intros j _ Hj. apply copy_in_elsewhere. by rewrite <- Hpos.
      * rewrite Z2Nat.id, Hpos by lia. by rewrite copy_in_here.
    + rewrite (Z.add_assoc h), (Z.add_assoc t), <- (Zplus_mod_idemp_l (t + n)), Hpos.
      by rewrite Zplus_mod_idemp_l.
Qed.

Lemma copy_out_all_window d t i n :
  copy_out_all d t i n = window SHM_RING_SIZE (item_at d) (t + i) n.
Proof.
  revert i. induction n as [|n IH]; intros i; [done|]. simpl.
  rewrite IH, ring_index_mod. unfold window. simpl. rewrite Z.add_0_r. f_equal.
  rewrite <- seq_shift, map_map. apply map_ext. intros j. do 2 f_equal. lia.
Qed.

Lemma ring_full_spec h t count :
  0 <= count < 2 ^ 31 ->
  ring_full h t count = (SHM_RING_SIZE - 1 <=? dist SHM_RING_SIZE h t + count).
Proof.
  intros Hc. unfold ring_full. rewrite ring_index_mod. fold (dist SHM_RING_SIZE h t).
  pose proof (dist_range SHM_RING_SIZE size_pos h t) as Hd. rewrite u32_small; [done|].
  unfold SHM_RING_SIZE in *. lia.
Qed.

Lemma pop_count_spec available max_count :
  0 <= available -> 0 <= max_count < 2 ^ 31 -> pop_count available max_count = Z.min available max_count.
Proof.
  intros Ha Hm. unfold pop_count. rewrite u32_small by lia. split_if; bool_facts; lia.
Qed.

Lemma push_batch_spec r items :
  ring_wf r -> Forall item_ok items -> Z.of_nat (length items) < 2 ^ 31 ->
  let '(ok, r') := nsr_shm_ring_push_batch r items in
  ring_wf r' /\ (ok, contents r') = queue_push (contents r) items.
Proof.
  intros (Hh & Ht & Hu) Hok Hlen. unfold nsr_shm_ring_push_batch, queue_push.
  rewrite ring_full_spec by lia. fold (used r). rewrite Nat2Z.inj_add, contents_length.
  split_if; bool_facts; [done|].
  assert (Hused : dist SHM_RING_SIZE (ring_index (head r + Z.of_nat (length items))) (tail r)
                  = used r + Z.of_nat (length items)).
  { rewrite ring_index_mod. apply dist_push; unfold used in *; first apply size_pos; lia. }
  split.
  - split_and!; simpl; [apply ring_index_range|done|]. unfold used at 1. simpl. rewrite Hused. lia.
  - f_equal. unfold contents at 1, used at 1. simpl. rewrite Hused.
    apply copy_in_all_window; [done| |lia|].
    + apply dist_range, size_pos.
    + rewrite Z.add_0_r. unfold used. rewrite dist_reach by (apply size_pos || done).
      symmetry. by apply Z.mod_small.
Qed.

Lemma pop_batch_spec r max_count :
  ring_wf r -> 0 <= max_count < 2 ^ 31 ->
  let '(out, r') := nsr_shm_ring_pop_batch r max_count in
  ring_wf r' /\ (out, contents r') = queue_pop (contents r) (Z.to_nat max_count).
Proof.
  intros (Hh & Ht & Hu) Hm. unfold nsr_shm_ring_pop_batch, queue_pop.
  rewrite ring_index_mod. fold (dist SHM_RING_SIZE (head r) (tail r)). fold (used r).
  pose proof (dist_range SHM_RING_SIZE size_pos (head r) (tail r)) as Hd. fold (used r) in Hd.
  split_if; bool_facts.
  - pose proof (contents_length r) as Hl. destruct (contents r) eqn:E; simpl in Hl; [|lia].
    by rewrite take_nil, drop_nil.
  - rewrite pop_count_spec by lia. remember (Z.min (used r) max_count) as c eqn:Ec.
    assert (Hused : dist SHM_RING_SIZE (head r) (ring_index (tail r + c)) = used r - c).
    { rewrite ring_index_mod. apply dist_pop; [apply size_pos|]. fold (used r). lia. }
    split.
    + split_and!; simpl; [done|apply ring_index_range|]. unfold used at 1. simpl. lia.
    + f_equal.
      * rewrite copy_out_all_window, Z.add_0_r. unfold contents, items_from.
        replace (take (Z.to_nat max_count) _) with
          (take (Z.to_nat c) (window SHM_RING_SIZE (item_at (data r)) (tail r) (Z.to_nat (used r)))).
        -- by rewrite window_take by lia.
        -- destruct (decide (max_count <= used r)); [by replace c with max_count by lia|].
           rewrite !take_ge; rewrite ?window_length; [done|lia..].
      * unfold contents at 1, used at 1. simpl. rewrite Hused. unfold contents, items_from.
        destruct (decide (max_count <= used r)).
        -- replace c with max_count by lia. rewrite window_drop by lia.
           rewrite ring_index_mod, Z2Nat.id by lia. f_equal. lia.
        -- replace (used r - c) with 0 by lia. rewrite drop_ge by (rewrite window_length; lia). done.
Qed.

(** *** Sequences of calls *)

Inductive ring_call :=
| CallPush (items : list item)
| CallPop (max_count : Z).

Inductive ring_result :=
| DidPush (ok : bool)
| DidPop (out : list item).

Definition call_ok (c : ring_call) : Prop :=
  match c with
  | CallPush items => Forall item_ok items /\ Z.of_nat (length items) < 2 ^ 31
  | CallPop max_count => 0 <= max_count < 2 ^ 31
  end.

Fixpoint run_ring (r : nsr_shm_ring_t) (cs : list ring_call) : list ring_result * nsr_shm_ring_t :=
  match cs with
  | [] => ([], r)
  | CallPush items :: cs' =>
      let '(ok, r1) := nsr_shm_ring_push_batch r items in
      let '(res, r2) := run_ring r1 cs' in (DidPush ok :: res, r2)
  | CallPop n :: cs' =>
      let '(out, r1) := nsr_shm_ring_pop_batch r n in
      let '(res, r2) := run_ring r1 cs' in (DidPop out :: res, r2)
  end.

Fixpoint run_queue (q : list item) (cs : list ring_call) : list ring_result * list item :=
  match cs with
  | [] => ([], q)
  | CallPush items :: cs' =>
      let '(ok, q1) := queue_push q items in
      let '(res, q2) := run_queue q1 cs' in (DidPush ok :: res, q2)
  | CallPop n :: cs' =>
      let '(out, q1) := queue_pop q (Z.to_nat n) in
      let '(res, q2) := run_queue q1 cs' in (DidPop out :: res, q2)
  end.

Lemma empty_ring_wf : ring_wf empty_ring.
Proof. unfold ring_wf, in_ring, used. simpl. rewrite dist_same. unfold SHM_RING_SIZE. lia. Qed.

Lemma empty_ring_contents : contents empty_ring = [].
Proof. unfold contents, used. simpl. by rewrite dist_same. Qed.

Lemma run_ring_spec r cs :
  ring_wf r -> Forall call_ok cs ->
  let '(res, r') := run_ring r cs in
  ring_wf r' /\ (res, contents r') = run_queue (contents r) cs.
Proof.
  revert r. induction cs as [|[items|n] cs IH]; intros r Hr Hcs; simpl; [done|..];
    apply Forall_cons in Hcs as [Hc Hcs].
  - destruct Hc as [Hok Hlen]. pose proof (push_batch_spec r items Hr Hok Hlen) as Hp.
    destruct (nsr_shm_ring_push_batch r items) as [ok r1]. destruct Hp as [Hr1 <-].
    specialize (IH r1 Hr1 Hcs). destruct (run_ring r1 cs) as [res r2].
    by destruct IH as [? <-].
  - pose proof (pop_batch_spec r n Hr Hc) as Hp.
    destruct (nsr_shm_ring_pop_batch r n) as [out r1]. destruct Hp as [Hr1 Hq]. simpl in Hc.
    unfold queue_pop in *. injection Hq as -> <-.
    specialize (IH r1 Hr1 Hcs). destruct (run_ring r1 cs) as [res r2].
    by destruct IH as [? <-].
Qed.

(** C21: any sequence of batch pushes and batch pops on the shared-memory ring,
    from the zero-filled ring, returns exactly what a bounded FIFO queue
    returns, and leaves the ring holding the queue's items: no item is lost,
    duplicated, reordered or altered, and a push is refused only when the queue
    would reach [SHM_RING_SIZE - 1] items. *)
Theorem ring_refines_queue cs :
  Forall call_ok cs ->
  let '(res, r) := run_ring empty_ring cs in
  ring_wf r /\ (res, contents r) = run_queue [] cs.
Proof.
  intros Hcs. rewrite <- empty_ring_contents. by apply run_ring_spec; [apply empty_ring_wf|].
Qed.

(** ** Interleaving of the two processes

    Every load, item copy and store of a push and of a pop is one step; the
    release store of an index is the step that publishes it and the acquire
    load the step that reads it.  [published] and [returned] are the histories of
    published and returned items. *)

Inductive producer :=
| PIdle
| PHead (items : list item) (h : Z)
| PTail (items : list item) (h t : Z)
| PCopy (items : list item) (h : Z) (i : nat).

Inductive consumer :=
| CIdle
| CTail (max_count t : Z)
| CHead (max_count t h : Z)
| CCopy (count t : Z) (acc : list item).

Record system := mk_system {
  ring : nsr_shm_ring_t;
  pusher : producer;
  popper : consumer;
  published : list item;
  returned : list item;
}.

Definition set_head (r : nsr_shm_ring_t) (h : Z) : nsr_shm_ring_t :=
  {| head := h; tail := tail r; data := data r |}.
Definition set_tail (r : nsr_shm_ring_t) (t : Z) : nsr_shm_ring_t :=
  {| head := head r; tail := t; data := data r |}.
Definition set_data (r : nsr_shm_ring_t) (d : gmap Z slot) : nsr_shm_ring_t :=
  {| head := head r; tail := tail r; data := d |}.

Inductive step : system -> system -> Prop :=
| push_load_head r c s v items :
    Forall item_ok items -> Z.of_nat (length items) < 2 ^ 31 ->
    step (mk_system r PIdle c s v) (mk_system r (PHead items (head r)) c s v)
| push_load_tail r c s v items h :
    step (mk_system r (PHead items h) c s v) (mk_system r (PTail items h (tail r)) c s v)
| push_refused r c s v items h t :
    ring_full h t (Z.of_nat (length items)) = true ->
    step (mk_system r (PTail items h t) c s v) (mk_system r PIdle c s v)
| push_accepted r c s v items h t :
    ring_full h t (Z.of_nat (length items)) = false ->
    step (mk_system r (PTail items h t) c s v) (mk_system r (PCopy items h 0) c s v)
| push_copy r c s v items h i x :
    items !! i = Some x ->
    step (mk_system r (PCopy items h i) c s v)
         (mk_system (set_data r (copy_in (data r) (h + Z.of_nat i) x)) (PCopy items h (S i)) c s v)
| push_store_head r c s v items h :
    step (mk_system r (PCopy items h (length items)) c s v)
         (mk_system (set_head r (ring_index (h + Z.of_nat (length items)))) PIdle c (s ++ items) v)
| pop_load_tail r p s v n :
    0 <= n < 2 ^ 31 ->
    step (mk_system r p CIdle s v) (mk_system r p (CTail n (tail r)) s v)
| pop_load_head r p s v n t :
    step (mk_system r p (CTail n t) s v) (mk_system r p (CHead n t (head r)) s v)
| pop_empty r p s v n t h :
    ring_index (h - t) = 0 ->
    step (mk_system r p (CHead n t h) s v) (mk_system r p CIdle s v)
| pop_nonempty r p s v n t h :
    ring_index (h - t) <> 0 ->
    step (mk_system r p (CHead n t h) s v)
         (mk_system r p (CCopy (pop_count (ring_index (h - t)) n) t []) s v)
| pop_copy r p s v count t acc :
    Z.of_nat (length acc) < count ->
    step (mk_system r p (CCopy count t acc) s v)
         (mk_system r p
            (CCopy count t (acc ++ [item_at (data r) (ring_index (t + Z.of_nat (length acc)))])) s v)
| pop_store_tail r p s v count t acc :
    Z.of_nat (length acc) = count ->
    step (mk_system r p (CCopy count t acc) s v)
         (mk_system (set_tail r (ring_index (t + count))) p CIdle s (v ++ acc)).

Definition initial : system := mk_system empty_ring PIdle CIdle [] [].

Definition reachable (s : system) : Prop := rtc step initial s.

(** *** The invariant

    A process's snapshot of the other side's index may be stale, but only in
    the safe direction: the producer sees at least the occupied slots, the
    consumer at most. *)

Definition producer_inv (r : nsr_shm_ring_t) (p : producer) : Prop :=
  match p with
  | PIdle => True
  | PHead items h => h = head r /\ Forall item_ok items /\ Z.of_nat (length items) < 2 ^ 31
  | PTail items h t =>
      h = head r /\ Forall item_ok items /\ Z.of_nat (length items) < 2 ^ 31 /\
      used r <= dist SHM_RING_SIZE h t
  | PCopy items h i =>
      h = head r /\ Forall item_ok items /\ (i <= length items)%nat /\
      used r + Z.of_nat (length items) <= SHM_RING_SIZE - 2 /\
      items_from (data r) h (Z.of_nat i) = take i items
  end.

Definition consumer_inv (r : nsr_shm_ring_t) (c : consumer) : Prop :=
  match c with
  | CIdle => True
  | CTail n t => t = tail r /\ 0 <= n < 2 ^ 31
  | CHead n t h => t = tail r /\ 0 <= n < 2 ^ 31 /\ dist SHM_RING_SIZE h t <= used r
  | CCopy count t acc =>
      t = tail r /\ Z.of_nat (length acc) <= count <= used r /\
      acc = items_from (data r) t (Z.of_nat (length acc))
  end.

Definition system_inv (s : system) : Prop :=
  ring_wf (ring s) /\ published s = returned s ++ contents (ring s) /\
  producer_inv (ring s) (pusher s) /\ consumer_inv (ring s) (popper s).

Lemma used_range r : 0 <= used r < SHM_RING_SIZE.
Proof. apply dist_range, size_pos. Qed.

(** The position [k] slots past the occupied ones, seen from both ends. *)
Lemma tail_used_head r k :
  in_ring (head r) -> (tail r + (used r + k)) mod SHM_RING_SIZE = (head r + k) mod SHM_RING_SIZE.
Proof.
  intros Hh. rewrite Z.add_assoc, <- Zplus_mod_idemp_l. unfold used.
  by rewrite dist_reach by (apply size_pos || done).
Qed.

(** A copy past the occupied slots disturbs none of them. *)
Lemma copy_keeps_items r k x n :
  in_ring (head r) -> 0 <= k -> used r + k < SHM_RING_SIZE -> n <= used r ->
  items_from (copy_in (data r) (head r + k) x) (tail r) n = items_from (data r) (tail r) n.
Proof.
  intros Hh Hk Hu Hn. apply (window_write_outside _ size_pos _ _ _ _ (used r + k)).
  - pose proof (used_range r). lia.
  - intros j _ Hj. apply copy_in_elsewhere. by rewrite <- tail_used_head.
Qed.

Lemma copy_preserves r p c items h i x :
  ring_wf r -> p = PCopy items h i -> producer_inv r p -> consumer_inv r c -> items !! i = Some x ->
  let r' := set_data r (copy_in (data r) (h + Z.of_nat i) x) in
  contents r' = contents r /\ producer_inv r' (PCopy items h (S i)) /\ consumer_inv r' c.
Proof.
  intros (Hh & Ht & Hu) -> (-> & Hok & Hi & Hroom & Hcopied) Hc Hx. cbv zeta.
  pose proof (lookup_lt_Some _ _ _ Hx) as Hlt.
  assert (Hkeep : forall n, n <= used r ->
    items_from (copy_in (data r) (head r + Z.of_nat i) x) (tail r) n = items_from (data r) (tail r) n).
  { intros n Hn. apply copy_keeps_items; [done|lia|lia|done]. }
  split_and!.
  - by apply Hkeep.
  - split_and!; [done|done|lia|done|]. unfold items_from in *.
    rewrite Nat2Z.id in *.
    rewrite window_snoc, (take_S_r _ _ x) by done. f_equal.
    + rewrite <- Hcopied. apply (window_write_outside _ size_pos _ _ _ _ (Z.of_nat i)).
      * pose proof (used_range r). lia.
      * intros j _ Hj. by apply copy_in_elsewhere.
    + f_equal. apply copy_in_here. by eapply Forall_lookup_1.
  - destruct c as [|n t|n t h'|count t acc]; try done. destruct Hc as (-> & Hacc & Heq).
    split_and!; [done|simpl; unfold used in *; simpl; lia..|]. by rewrite Hkeep by lia.
Qed.

Lemma store_head_preserves r c items h :
  ring_wf r -> producer_inv r (PCopy items h (length items)) -> consumer_inv r c ->
  let r' := set_head r (ring_index (h + Z.of_nat (length items))) in
  ring_wf r' /\ contents r' = contents r ++ items /\ consumer_inv r' c.
Proof.
  intros (Hh & Ht & Hu) (-> & Hok & Hi & Hroom & Hcopied) Hc. cbv zeta.
  pose proof (used_range r) as Hur.
  assert (Hused : used (set_head r (ring_index (head r + Z.of_nat (length items))))
                  = used r + Z.of_nat (length items)).
  { unfold used at 1. simpl. rewrite ring_index_mod. apply dist_push; [apply size_pos|lia|].
    fold (used r). lia. }
  split_and!.
  - split_and!; simpl; [apply ring_index_range|done|lia].
  - unfold contents at 1. rewrite Hused. simpl. unfold items_from in *.
    rewrite Z2Nat.inj_add, window_app by lia. unfold contents, items_from. f_equal.
    rewrite Z2Nat.id by lia. unfold used. rewrite dist_reach by (apply size_pos || done).
    by rewrite Hcopied, firstn_all.
  - destruct c as [|n t|n t h'|count t acc]; try done; simpl; rewrite Hused.
    + destruct Hc as (-> & Hn & Hle). split_and!; [done|lia..].
    + destruct Hc as (-> & Hacc & Heq). split_and!; [done|lia..|done].
Qed.

Lemma store_tail_preserves r p count t acc :
  ring_wf r -> producer_inv r p -> consumer_inv r (CCopy count t acc) ->
  Z.of_nat (length acc) = count ->
  let r' := set_tail r (ring_index (t + count)) in
  ring_wf r' /\ contents r = acc ++ contents r' /\ producer_inv r' p.
Proof.
  intros (Hh & Ht & Hu) Hp (-> & Hacc & Heq) Hcount. cbv zeta.
  pose proof (used_range r) as Hur.
  assert (Hused : used (set_tail r (ring_index (tail r + count))) = used r - count).
  { unfold used at 1. simpl. rewrite ring_index_mod. apply dist_pop; [apply size_pos|].
    fold (used r). lia. }
  split_and!.
  - split_and!; simpl; [done|apply ring_index_range|lia].
  - unfold contents at 2. rewrite Hused, ring_index_mod. simpl. rewrite Heq at 1.
    unfold contents, items_from. rewrite <- Hcount, Nat2Z.id.
    replace (Z.to_nat (used r)) with (length acc + Z.to_nat (used r - Z.of_nat (length acc)))%nat by lia.
    by rewrite window_app.
  - destruct p as [|items h|items h t|items h i]; try done; simpl; rewrite Hused.
    + destruct Hp as (? & ? & ? & ?). split_and!; [done..|lia].
    + destruct Hp as (? & ? & ? & ? & ?). split_and!; [done..|lia|done].
Qed.

Lemma full_false_room r items h t :
  producer_inv r (PTail items h t) -> ring_full h t (Z.of_nat (length items)) = false ->
  producer_inv r (PCopy items h 0).
Proof.
  intros (-> & Hok & Hlen & Hstale) Hfull. rewrite ring_full_spec in Hfull by lia. bool_facts.
  split_and!; [done|done|lia|lia|done].
Qed.

Lemma nonempty_count r n t h :
  consumer_inv r (CHead n t h) -> ring_index (h - t) <> 0 ->
  consumer_inv r (CCopy (pop_count (ring_index (h - t)) n) t []).
Proof.
  intros (-> & Hn & Hstale) Hne. rewrite ring_index_mod in *. fold (dist SHM_RING_SIZE h (tail r)) in *.
  pose proof (dist_range SHM_RING_SIZE size_pos h (tail r)).
  rewrite pop_count_spec by lia. simpl. split_and!; [done|lia..|done].
Qed.

Lemma pop_copy_preserves r count t acc :
  consumer_inv r (CCopy count t acc) -> Z.of_nat (length acc) < count ->
  consumer_inv r (CCopy count t (acc ++ [item_at (data r) (ring_index (t + Z.of_nat (length acc)))])).
Proof.
  intros (-> & Hacc & Heq) Hlt. simpl. rewrite length_app. simpl.
  split_and!; [done|lia..|]. rewrite ring_index_mod. unfold items_from.
  replace (Z.to_nat _) with (S (length acc)) by lia. rewrite window_snoc. f_equal.
  rewrite Heq at 1. unfold items_from. by rewrite Nat2Z.id.
Qed.

Lemma step_inv s s' : step s s' -> system_inv s -> system_inv s'.
Proof.
  intros Hs (Hwf & Hhist & Hp & Hc). inversion Hs; subst; unfold system_inv; simpl in *.
  - done.
  - destruct Hp as (-> & ? & ?). by split_and!.
  - done.
  - refine (conj Hwf (conj Hhist (conj _ Hc))). by eapply full_false_room.
  - destruct (copy_preserves r _ c items h i x Hwf eq_refl Hp Hc H) as (-> & ? & ?). done.
  - destruct (store_head_preserves r c items h Hwf Hp Hc) as (? & -> & ?).
    split_and!; [done| |done|done]. by rewrite app_assoc, <- Hhist.
  - done.
  - destruct Hc as (-> & ?). refine (conj Hwf (conj Hhist (conj Hp _))). split; [done|]. by split; [|apply Z.le_refl].
  - done.
  - refine (conj Hwf (conj Hhist (conj Hp _))). by eapply nonempty_count.
  - refine (conj Hwf (conj Hhist (conj Hp _))). by apply pop_copy_preserves.
  - destruct (store_tail_preserves r p _ t acc Hwf Hp Hc eq_refl) as (? & Hq & ?).
    split_and!; [done| |done|done]. by rewrite Hhist, Hq, app_assoc.
Qed.

Lemma reachable_inv s : reachable s -> system_inv s.
Proof.
  intros Hr. apply (rtc_ind_r system_inv initial) in Hr; [done| |].
  - refine (conj empty_ring_wf (conj _ (conj I I))). simpl. by rewrite empty_ring_contents.
  - intros y z _ Hstep. by apply step_inv.
Qed.

(** C1: whatever the interleaving of the producer's and the consumer's steps,
    the items the consumer has returned, followed by the items in the ring, are
    exactly the items the producer has published, in order: nothing is lost,
    duplicated, reordered or torn. *)
Theorem spsc_fifo s :
  reachable s -> published s = returned s ++ contents (ring s).
Proof. intros Hr. apply (reachable_inv s Hr). Qed.

(** No data race on the slots: while the producer copies an item in and the
    consumer copies one out, they are on different slots. *)
Theorem spsc_no_slot_race s items h i count t acc :
  reachable s -> pusher s = PCopy items h i -> popper s = CCopy count t acc ->
  (i < length items)%nat -> Z.of_nat (length acc) < count ->
  ring_index (h + Z.of_nat i) <> ring_index (t + Z.of_nat (length acc)).
Proof.
  intros Hr Hp Hc Hi Hacc.
  destruct (reachable_inv s Hr) as ((Hh & _) & _ & HP & HC).
  rewrite Hp in HP. rewrite Hc in HC.
  destruct HP as (-> & _ & _ & Hroom & _). destruct HC as (-> & Hcount & _).
  rewrite !ring_index_mod, <- tail_used_head by done. intros He.
  pose proof (used_range (ring s)). pose proof size_pos. apply mod_offset_inj in He; lia.
Qed.

End Ring.

#[global] Arguments nsr_shm_ring_t : clear implicits.
#[global] Arguments ring_call : clear implicits.
#[global] Arguments ring_result : clear implicits.
#[global] Arguments system : clear implicits.

(** ** Concrete runs *)

Definition sample_intent (n : Z) : nsr_intent_t :=
  {| in_ttl := n; in_seq := n; in_action := 0; in_timestamp_us := 1000 * n; in_integrity := 7 |}.

Lemma sample_intent_ok n : 0 <= n < 256 -> item_ok (sample_intent n).
Proof. intros H. unfold item_ok. simpl. unfold intent_in_range. simpl. lia. Qed.

Definition sample_calls : list (ring_call nsr_intent_t) :=
  [CallPush [sample_intent 1; sample_intent 2]; CallPop 1; CallPop 5].

Lemma sample_calls_ok : Forall call_ok sample_calls.
Proof. repeat constructor; simpl; try lia; apply sample_intent_ok; lia. Qed.

Lemma ring_refines_queue_witness :
  (let '(res, r) := run_ring empty_ring sample_calls in
   ring_wf r /\ (res, contents r) = run_queue [] sample_calls) /\
  run_queue [] sample_calls =
    ([DidPush true; DidPop [sample_intent 1]; DidPop [sample_intent 2]], []).
Proof.
  split; [exact (ring_refines_queue sample_calls sample_calls_ok)|reflexivity].
Defined.

(** A run in which the consumer returns the first of two published intents
    while the producer is in the middle of its second push. *)
Definition sample_run : system (list Z) nsr_intent_t :=
  let d1 := copy_in ∅ 0 (sample_intent 1) in
  let d2 := copy_in d1 1 (sample_intent 2) in
  mk_system {| head := 2; tail := 1; data := copy_in d2 2 (sample_intent 3) |}
    (PCopy [sample_intent 3; sample_intent 4] 2 1) (CCopy 1 1 [])
    [sample_intent 1; sample_intent 2] [sample_intent 1].

Lemma sample_run_reachable : reachable sample_run.
Proof.
  unfold reachable, initial.
  eapply rtc_l; [apply (push_load_head _ _ _ _ [sample_intent 1; sample_intent 2])|].
  { repeat constructor; simpl; lia. }
  { simpl; lia. }
  eapply rtc_l; [apply push_load_tail|]. eapply rtc_l; [by apply push_accepted|].
  eapply rtc_l; [by eapply push_copy|]. eapply rtc_l; [by eapply push_copy|].
  eapply rtc_l; [apply (push_store_head _ _ _ _ [sample_intent 1; sample_intent 2])|].
  eapply rtc_l; [apply (pop_load_tail _ _ _ _ 1); lia|].
  eapply rtc_l; [apply pop_load_head|]. eapply rtc_l; [by apply pop_nonempty|].
  eapply rtc_l; [by apply pop_copy|].
  eapply rtc_l; [apply (push_load_head _ _ _ _ [sample_intent 3; sample_intent 4])|].
  { repeat constructor; simpl; lia. }
  { simpl; lia. }
  eapply rtc_l; [apply push_load_tail|]. eapply rtc_l; [by apply pop_store_tail|].
  eapply rtc_l; [by apply push_accepted|]. eapply rtc_l; [by eapply push_copy|].
  eapply rtc_l; [apply (pop_load_tail _ _ _ _ 1); lia|].
  eapply rtc_l; [apply pop_load_head|]. eapply rtc_l; [by apply pop_nonempty|].
  apply rtc_refl.
Qed.

Lemma spsc_fifo_witness :
  published sample_run = returned sample_run ++ contents (ring sample_run).
Proof. apply spsc_fifo. apply sample_run_reachable. Defined.

Lemma spsc_no_slot_race_witness : ring_index (2 + 1) <> ring_index (1 + 0).
Proof.
  apply (spsc_no_slot_race sample_run [sample_intent 3; sample_intent 4] 2 1 1 1 []);
    [apply sample_run_reachable|reflexivity|reflexivity|simpl; lia|simpl; lia].
Defined.

(** ** The ring of 16 telemetry snapshots

    Here the source indexes [data] with the stored index itself, unmasked, so
    the operations are partial: [None] is an access outside the array. *)

Section LargeRing.
  Context {slot item : Type} {SM : SlotMem slot item}.

Record nsr_shm_ring_large_t := mk_large {
  lhead : Z;
  ltail : Z;
  ldata : list slot;
}.

Definition empty_large : nsr_shm_ring_large_t :=
  {| lhead := 0; ltail := 0; ldata := replicate 16 slot_zero |}.

Definition nsr_shm_ring_large_push (r : nsr_shm_ring_large_t) (x : item)
  : option (bool * nsr_shm_ring_large_t) :=
  let h := lhead r in
  let t := ltail r in
  if Z.land (u32 (h + 1)) 15 =? t then Some (false, r)
  else
    old ← aget (ldata r) h;
    d ← aset (ldata r) h (slot_write x old);
    Some (true, {| lhead := Z.land (u32 (h + 1)) 15; ltail := t; ldata := d |}).

Definition nsr_shm_ring_large_pop (r : nsr_shm_ring_large_t)
  : option (option item * nsr_shm_ring_large_t) :=
  let t := ltail r in
  let h := lhead r in
  if t =? h then Some (None, r)
  else
    s ← aget (ldata r) t;
    Some (Some (slot_read s), {| lhead := h; ltail := Z.land (u32 (t + 1)) 15; ldata := ldata r |}).

Definition lused (r : nsr_shm_ring_large_t) : Z := dist 16 (lhead r) (ltail r).

Definition litem_at (d : list slot) (k : Z) : item :=
  slot_read (default slot_zero (d !! Z.to_nat k)).

Definition lcontents (r : nsr_shm_ring_large_t) : list item :=
  window 16 (litem_at (ldata r)) (ltail r) (Z.to_nat (lused r)).

Definition large_wf (r : nsr_shm_ring_large_t) : Prop :=
  0 <= lhead r < 16 /\ 0 <= ltail r < 16 /\ length (ldata r) = 16%nat.

Lemma mask15 x : Z.land (u32 x) 15 = x mod 16.
Proof.
  change 15 with (2 ^ 4 - 1). rewrite land_mask by lia. unfold u32, wrap.
  change 16 with (2 ^ 4). apply Z.mod_mod_divide. by exists (2 ^ 28).
Qed.

(** The index test of a push is a test of the number of snapshots held. *)
Lemma large_full_spec r :
  large_wf r -> (Z.land (u32 (lhead r + 1)) 15 =? ltail r) = (lused r =? 15).
Proof.
  intros (Hh & Ht & _). rewrite mask15. unfold lused, dist.
  apply eq_true_iff_eq. rewrite !Z.eqb_eq.
  pose proof (Z.mod_pos_bound (lhead r - ltail r) 16).
  pose proof (Z.div_mod (lhead r - ltail r) 16).
  pose proof (Z.mod_pos_bound (lhead r + 1) 16).
  pose proof (Z.div_mod (lhead r + 1) 16). split; lia.
Qed.

Lemma large_push_spec r x :
  large_wf r -> item_ok x ->
  exists ok r', nsr_shm_ring_large_push r x = Some (ok, r') /\ large_wf r' /\
    (ok, lcontents r') =
      (if Z.of_nat (length (lcontents r)) =? 15 then (false, lcontents r)
       else (true, lcontents r ++ [x])).
Proof.
  intros Hwf Hx. pose proof Hwf as (Hh & Ht & Hd).
  pose proof (dist_range 16 ltac:(lia) (lhead r) (ltail r)) as Hu. fold (lused r) in Hu.
  unfold nsr_shm_ring_large_push. rewrite large_full_spec by done.
  unfold lcontents at 2 3. rewrite window_length, Z2Nat.id by lia.
  split_if; bool_facts; [by eexists _, _|].
  destruct (aget_Some (ldata r) (lhead r)) as [old ->]; [lia|]. simpl.
  rewrite aset_Some by lia. simpl. eexists _, _. split; [done|]. split.
  - split_and!; simpl; rewrite ?length_insert, ?mask15; try lia; apply Z.mod_pos_bound; lia.
  - f_equal. rewrite mask15. unfold lcontents, lused. simpl. rewrite dist_push by (fold (lused r); lia).
    fold (lused r). replace (Z.to_nat (lused r + 1)) with (S (Z.to_nat (lused r))) by lia.
    assert (Hpos : (ltail r + lused r) mod 16 = lhead r) by (unfold lused; apply dist_reach; lia).
    rewrite window_snoc. f_equal.
    + apply (window_write_outside 16 ltac:(lia) _ _ _ _ (lused r)); [lia|].
      intros j Hr Hj. rewrite Hpos in Hj. unfold litem_at. by rewrite list_lookup_insert_ne by lia.
    + rewrite Z2Nat.id, Hpos by lia. unfold litem_at. rewrite list_lookup_insert_eq by lia. simpl.
      by rewrite slot_read_write.
Qed.

Lemma large_pop_spec r :
  large_wf r ->
  exists out r', nsr_shm_ring_large_pop r = Some (out, r') /\ large_wf r' /\
    out = hd_error (lcontents r) /\ lcontents r' = drop 1 (lcontents r).
Proof.
  intros (Hh & Ht & Hd).
  pose proof (dist_range 16 ltac:(lia) (lhead r) (ltail r)) as Hu. fold (lused r) in Hu.
  unfold nsr_shm_ring_large_pop. split_if; bool_facts.
  - eexists _, _. split; [done|]. unfold lcontents, lused.
    replace (lhead r) with (ltail r) by lia. by rewrite dist_same.
  - assert (Hn : 0 < lused r).
    { destruct (decide (lused r = 0)); [|lia].
      assert (lhead r = ltail r) by (by apply (dist_zero 16)). lia. }
    destruct (aget_Some (ldata r) (ltail r)) as [s Hs]; [lia|]. rewrite Hs. simpl.
    eexists _, _. split; [done|]. unfold aget in Hs. split_if_in Hs; [|done].
    rewrite mask15. split; [split_and!; simpl; try lia; apply Z.mod_pos_bound; lia|]. split.
    + unfold lcontents. destruct (Z.to_nat (lused r)) as [|n] eqn:E; [lia|].
      unfold window. cbn [seq map hd_error]. change (Z.of_nat 0) with 0.
      rewrite Z.add_0_r, Z.mod_small by lia. unfold litem_at. by rewrite Hs.
    + unfold lcontents, lused. simpl. rewrite dist_pop by (fold (lused r); lia). fold (lused r).
      rewrite (window_drop 16) by lia. f_equal. lia.
Qed.

(** *** Sequences of publications and refreshes *)

Inductive large_call := LPush (x : item) | LPop.

Inductive large_result := LPushed (ok : bool) | LPopped (out : option item).

Definition lcall_ok (c : large_call) : Prop :=
  match c with LPush x => item_ok x | LPop => True end.

Fixpoint run_large (r : nsr_shm_ring_large_t) (cs : list large_call)
  : option (list large_result * nsr_shm_ring_large_t) :=
  match cs with
  | [] => Some ([], r)
  | LPush x :: cs' =>
      p ← nsr_shm_ring_large_push r x;
      q ← run_large (snd p) cs'; Some (LPushed (fst p) :: fst q, snd q)
  | LPop :: cs' =>
      p ← nsr_shm_ring_large_pop r;
      q ← run_large (snd p) cs'; Some (LPopped (fst p) :: fst q, snd q)
  end.

(** The specification: a FIFO queue of at most 15 snapshots that refuses a
    snapshot when it is full. *)
Fixpoint run_snapshots (q : list item) (cs : list large_call) : list large_result * list item :=
  match cs with
  | [] => ([], q)
  | LPush x :: cs' =>
      let full := (length q =? 15)%nat in
      let res := run_snapshots (if full then q else q ++ [x]) cs' in
      (LPushed (negb full) :: res.1, res.2)
  | LPop :: cs' =>
      let res := run_snapshots (drop 1 q) cs' in (LPopped (hd_error q) :: res.1, res.2)
  end.

Lemma run_large_spec r cs :
  large_wf r -> Forall lcall_ok cs ->
  exists res r', run_large r cs = Some (res, r') /\ large_wf r' /\
    (res, lcontents r') = run_snapshots (lcontents r) cs.
Proof.
  revert r. induction cs as [|[x|] cs IH]; intros r Hwf Hok; simpl; [by eexists _, _|..];
    apply Forall_cons in Hok as [Hc Hok].
  - destruct (large_push_spec r x Hwf Hc) as (ok & r1 & -> & Hwf1 & Heq). simpl.
    destruct (IH r1 Hwf1 Hok) as (res & r2 & -> & Hwf2 & Hq). simpl. eexists _, _.
    split; [done|]. split; [done|].
    destruct (Nat.eqb_spec (length (lcontents r)) 15) as [Hl|Hl].
    + rewrite (proj2 (Z.eqb_eq _ _)) in Heq by lia. injection Heq as -> He. rewrite He in Hq.
      by rewrite <- Hq.
    + rewrite (proj2 (Z.eqb_neq _ _)) in Heq by lia. injection Heq as -> He. rewrite He in Hq.
      by rewrite <- Hq.
  - destruct (large_pop_spec r Hwf) as (out & r1 & -> & Hwf1 & -> & He). simpl.
    destruct (IH r1 Hwf1 Hok) as (res & r2 & -> & Hwf2 & Hq). simpl. eexists _, _.
    split; [done|]. split; [done|]. rewrite He in Hq. by rewrite <- Hq.
Qed.

Lemma empty_large_wf : large_wf empty_large.
Proof. unfold large_wf. simpl. lia. Qed.

(** Any sequence of publications and refreshes on the 16-slot ring stays
    inside the 16 slots although the index is not masked at the access, and
    returns what a FIFO queue of at most 15 snapshots returns. *)
Theorem large_ring_refines_queue cs :
  Forall lcall_ok cs ->
  exists res r, run_large empty_large cs = Some (res, r) /\ large_wf r /\
    (res, lcontents r) = run_snapshots [] cs.
Proof. intros Hok. apply (run_large_spec empty_large cs empty_large_wf Hok). Qed.

End LargeRing.

#[global] Arguments nsr_shm_ring_large_t : clear implicits.
#[global] Arguments large_call : clear implicits.

Definition sample_snapshots : list (large_call nsr_telemetry_state_t) :=
  replicate 16 (LPush zero_telemetry) ++ [LPop].

Lemma sample_snapshots_ok : Forall lcall_ok sample_snapshots.
Proof. repeat constructor. Qed.

Lemma large_ring_refines_queue_witness :
  exists res r, run_large empty_large sample_snapshots = Some (res, r) /\ large_wf r /\
    (res, lcontents r) = run_snapshots [] sample_snapshots.
Proof. exact (large_ring_refines_queue sample_snapshots sample_snapshots_ok). Defined.
