(* ===== verification/HopAlias.v ===== *)
(** * Aliases of a hop (src/io/logic.c, [add_or_update_alias])

    Several routers may answer for one TTL.  A hop keeps a primary address and
    up to three aliases, each with the number of times it was seen; this file
    models the update of that table and proves it against a map from addresses
    to counts. *)

From stdpp Require Import gmap.
From S2P Require Import Prelude Telemetry.

(** ** The update *)

Definition with_primary (h : nsr_hop_info_t) (a : cstr) (n : Z) : nsr_hop_info_t :=
  {| addr := a; rtt_us := rtt_us h; sent := sent h; recv := recv h; primary_recv := n;
     last_status := last_status h; alias_count := alias_count h; aliases := aliases h |}.

Definition with_aliases (h : nsr_hop_info_t) (n : Z) (als : list nsr_hop_alias_t) : nsr_hop_info_t :=
  {| addr := addr h; rtt_us := rtt_us h; sent := sent h; recv := recv h;
     primary_recv := primary_recv h; last_status := last_status h; alias_count := n; aliases := als |}.

(** The first of the aliases [i .. i + n - 1] with address [s]. *)
Fixpoint alias_loop (als : list nsr_hop_alias_t) (i : Z) (n : nat) (s : cstr) : option (option Z) :=
  match n with
  | O => Some None
  | S n' =>
      a ← aget als i;
      if streq (al_addr a) s then Some (Some i) else alias_loop als (i + 1) n' s
  end.

(** The least-seen alias among [min_idx] and [i .. i + n - 1]. *)
Fixpoint min_loop (als : list nsr_hop_alias_t) (i : Z) (n : nat) (min_recv min_idx : Z) : option Z :=
  match n with
  | O => Some min_idx
  | S n' =>
      a ← aget als i;
      if al_recv a <? min_recv then min_loop als (i + 1) n' (al_recv a) i
      else min_loop als (i + 1) n' min_recv min_idx
  end.

Definition add_or_update_alias (h : nsr_hop_info_t) (s : cstr) : option nsr_hop_info_t :=
  if ceq (deref (addr h)) NUL then Some (with_primary h (strncpy 47 s) 1)
  else if streq (addr h) s then Some (with_primary h (addr h) (u32 (primary_recv h + 1)))
  else
    found ← alias_loop (aliases h) 0 (Z.to_nat (alias_count h)) s;
    match found with
    | Some i =>
        a ← aget (aliases h) i;
        als ← aset (aliases h) i {| al_addr := al_addr a; al_recv := u32 (al_recv a + 1) |};
        Some (with_aliases h (alias_count h) als)
    | None =>
        if alias_count h <? NSR_MAX_HOP_ALIASES then
          als ← aset (aliases h) (alias_count h) {| al_addr := strncpy 47 s; al_recv := 1 |};
          Some (with_aliases h (u8 (alias_count h + 1)) als)
        else
          a0 ← aget (aliases h) 0;
          min_idx ← min_loop (aliases h) 1 2 (al_recv a0) 0;
          als ← aset (aliases h) min_idx {| al_addr := strncpy 47 s; al_recv := 1 |};
          Some (with_aliases h (alias_count h) als)
    end.

(** *** The alias table as a map from addresses to counts *)

Definition hop_counts (h : nsr_hop_info_t) : list (cstr * Z) :=
  match addr h with
  | [] => []
  | _ => (addr h, primary_recv h)
           :: map (fun a => (al_addr a, al_recv a)) (take (Z.to_nat (alias_count h)) (aliases h))
  end.

Definition seen (h : nsr_hop_info_t) : gmap cstr Z := list_to_map (hop_counts h).

Definition seen_total (h : nsr_hop_info_t) : Z := foldr Z.add 0 (map snd (hop_counts h)).

Definition text_ok (s : cstr) : Prop := s <> [] /\ nul_free s /\ (length s <= 47)%nat.

(** Well-formed hop: at most three aliases, the addresses shown are distinct
    non-empty texts, the counters are non-negative. *)
Definition hop_wf (h : nsr_hop_info_t) : Prop :=
  length (aliases h) = 3%nat /\ 0 <= alias_count h <= 3 /\
  (addr h = [] -> alias_count h = 0) /\
  NoDup (map fst (hop_counts h)) /\
  Forall (fun p => text_ok p.1 /\ 0 <= p.2) (hop_counts h).

(** What one sighting of [s] may do to the table. *)
Inductive sighting (s : cstr) (h h' : nsr_hop_info_t) : Prop :=
| seen_again n :
    seen h !! s = Some n -> seen h' = <[s := u32 (n + 1)]> (seen h) -> sighting s h h'
| seen_first :
    seen h !! s = None -> (length (hop_counts h) < 4)%nat -> seen h' = <[s := 1]> (seen h) ->
    sighting s h h'
| seen_evicts v n :
    seen h !! s = None -> length (hop_counts h) = 4%nat ->
    v <> addr h -> seen h !! v = Some n ->
    (forall v' n', v' <> addr h -> seen h !! v' = Some n' -> n <= n') ->
    seen h' = <[s := 1]> (delete v (seen h)) -> sighting s h h'.

(** Equality of finite maps given by explicit insertions. *)
Ltac map_cases :=
  apply map_eq; let k := fresh "k" in intros k;
  rewrite ?lookup_insert, ?lookup_delete, ?lookup_insert, ?lookup_empty;
  repeat (case_decide; subst; try done; try congruence).

Lemma strncpy_id s : (length s <= 47)%nat -> strncpy 47 s = s.
Proof. intros H. unfold strncpy. by apply take_ge. Qed.

Lemma deref_nonempty s : nul_free s -> s <> [] -> ceq (deref s) NUL = false.
Proof.
  intros Hn Hs. destruct s as [|c s]; [done|]. apply ceq_false. simpl.
  intros ->. apply Hn. by left.
Qed.

(** The shape of a well-formed hop: nothing seen, or an address and three
    alias slots. *)
Lemma hop_shape h :
  hop_wf h ->
  (addr h = [] /\ alias_count h = 0) \/
  (exists a b c, aliases h = [a; b; c] /\ addr h <> [] /\ nul_free (addr h) /\
     (alias_count h = 0 \/ alias_count h = 1 \/ alias_count h = 2 \/ alias_count h = 3)).
Proof.
  intros (Hl & Hc & He & _ & Hf). unfold hop_counts in Hf.
  destruct (aliases h) as [|a [|b [|c [|]]]] eqn:E; try done.
  destruct (addr h) as [|x s]; [left; auto|]. right. exists a, b, c.
  apply Forall_cons in Hf as [[(_ & Hn & _) _] _]. simpl in Hn. split_and!; [done..|lia].
Qed.

(** Case analysis on the address tests of [add_or_update_alias]. *)
Ltac alias_cases :=
  repeat match goal with
  | |- context [streq ?a ?b] =>
      let E := fresh "E" in destruct (streq a b) eqn:E;
      [apply streq_true in E | apply streq_false in E]; simpl
  | |- context [?a <? ?b] =>
      let E := fresh "E" in destruct (a <? b) eqn:E;
      [apply Z.ltb_lt in E | apply Z.ltb_ge in E]; simpl
  end.

(** Well-formedness of an updated alias table whose slots are explicit. *)
Ltac alias_table_wf :=
  unfold hop_wf, hop_counts, text_ok in *; simpl in *;
  rewrite ?NoDup_cons, ?not_elem_of_cons, ?Forall_cons in *; simpl in *;
  destruct_and?; split_and!; simpl; try done; try lia; try congruence;
  try apply not_elem_of_nil; try (by constructor); try apply u32_range.

(** Look-up of an address in an explicit table. *)
Ltac table_lookup :=
  unfold seen, hop_counts; simpl; rewrite ?lookup_insert, ?lookup_empty;
  repeat (case_decide; subst; try done; try congruence).

Ltac distinct_addresses Hd :=
  unfold hop_counts in Hd; simpl in Hd;
  rewrite ?NoDup_cons, ?not_elem_of_cons in Hd; destruct_and? Hd.

Ltac evicts a :=
  apply (seen_evicts _ _ _ (al_addr a) (al_recv a));
  [table_lookup|done|simpl; congruence|table_lookup| |unfold seen, hop_counts; simpl; map_cases];
  let v' := fresh "v'" in let n' := fresh "n'" in
  simpl; intros v' n' ?; unfold seen, hop_counts; simpl; rewrite ?lookup_insert, ?lookup_empty;
  repeat case_decide; intros; simplify_eq; lia.

Ltac bumps n :=
  apply (seen_again _ _ _ n); [table_lookup|unfold seen, hop_counts; simpl; map_cases].

(** The kind of sighting, read off the slot that was written. *)
Ltac sighting_tac :=
  lazymatch goal with
  | |- sighting _ _ (with_primary _ _ (u32 (?n + 1))) => bumps n
  | |- context [u32 (al_recv ?a + 1)] => bumps (al_recv a)
  | |- sighting ?s (mk_hop _ _ _ _ _ _ 3 [?a; ?b; ?c]) (with_aliases _ _ ?l) =>
      lazymatch l with
      | [mk_alias s 1; _; _] => evicts a
      | [_; mk_alias s 1; _] => evicts b
      | _ => evicts c
      end
  | _ => apply seen_first; [table_lookup|simpl; lia|unfold seen, hop_counts; simpl; map_cases]
  end.

Lemma add_alias_spec h s :
  hop_wf h -> text_ok s ->
  exists h', add_or_update_alias h s = Some h' /\ hop_wf h' /\ sighting s h h'.
Proof.
  intros Hwf (Hs & Hn & Hlen). unfold add_or_update_alias. rewrite strncpy_id by done.
  destruct (hop_shape h Hwf) as [[Ha Hc]|(a & b & c & Hal & Ha & Hna & Hc)];
    destruct h as [ad rt se re pr ls ac als]; simpl in *; subst.
  - eexists. split; [done|]. split; [destruct s; [done|]; alias_table_wf|].
    apply seen_first; [done|simpl; lia|]. destruct s; [done|]. done.
  - rewrite deref_nonempty by done. destruct ad as [|x0 ad0]; [done|].
    pose proof Hwf as (_ & _ & _ & Hd & _).
    destruct Hc as [->|[->|[->| ->]]]; distinct_addresses Hd; simpl; alias_cases;
      (eexists; split; [done|split; [alias_table_wf|sighting_tac]]).
Qed.

Lemma u32_le z : 0 <= z -> u32 z <= z.
Proof. intros H. apply Z.mod_le; lia. Qed.

(** A sighting adds at most one to the sum of the counts. *)
Lemma add_alias_total h s h' :
  hop_wf h -> text_ok s -> add_or_update_alias h s = Some h' ->
  seen_total h' <= seen_total h + 1.
Proof.
  intros Hwf (Hs & Hn & Hlen). unfold add_or_update_alias. rewrite strncpy_id by done.
  destruct (hop_shape h Hwf) as [[Ha Hc]|(a & b & c & Hal & Ha & Hna & Hc)];
    destruct h as [ad rt se re pr ls ac als]; simpl in *; subst.
  - change (ceq (deref []) NUL) with true. intros H. cbv iota in H. simplify_eq. destruct s; [done|].
    unfold seen_total, hop_counts. simpl. lia.
  - rewrite deref_nonempty by done. destruct ad as [|x0 ad0]; [done|].
    destruct Hwf as (_ & _ & _ & _ & Hf). unfold hop_counts in Hf. simpl in Hf.
    destruct Hc as [->|[->|[->| ->]]]; simpl in *; rewrite ?Forall_cons in Hf; simpl in Hf;
      destruct_and? Hf; alias_cases; intros; simplify_eq; unfold seen_total, hop_counts; simpl;
      repeat match goal with |- context [u32 (?n + 1)] =>
        let H := fresh in pose proof (u32_le (n + 1)) as H; generalize dependent (u32 (n + 1)); intros
      end; lia.
Qed.

(** C23: one sighting of an address updates the alias table as a map of counts:
    a known address is counted once more, a new one enters with count 1, and
    only when the primary and all three aliases are taken does it replace an
    alias, one with the smallest count, never the primary.  The update stays
    inside the three slots and keeps the addresses distinct. *)
Theorem alias_table_update h s :
  hop_wf h -> text_ok s ->
  exists h', add_or_update_alias h s = Some h' /\ hop_wf h' /\ sighting s h h'.
Proof. exact (add_alias_spec h s). Qed.

Definition full_hop : nsr_hop_info_t :=
  {| addr := str "10.0.0.1"; rtt_us := 0; sent := 9; recv := 9; primary_recv := 2;
     last_status := NSR_OBS_EXCEEDED; alias_count := 3;
     aliases := [mk_alias (str "10.0.0.2") 3; mk_alias (str "10.0.0.3") 1;
                 mk_alias (str "10.0.0.4") 2] |}.

Lemma full_hop_wf : hop_wf full_hop.
Proof.
  split; [done|]. split; [simpl; lia|]. split; [done|]. split.
  - apply (bool_decide_unpack _). by vm_compute.
  - repeat constructor; try done; simpl; try lia; by apply (bool_decide_unpack _).
Qed.

Lemma alias_table_update_witness :
  exists h', add_or_update_alias full_hop (str "10.0.0.9") = Some h' /\ hop_wf h' /\
    sighting (str "10.0.0.9") full_hop h'.
Proof.
  apply (alias_table_update full_hop (str "10.0.0.9") full_hop_wf).
  split; [done|]. split; [by apply (bool_decide_unpack _)|simpl; lia].
Defined.

(** The least-seen alias (10.0.0.3) makes room. *)
Example full_hop_evicts :
  option_map (fun h => map al_addr (aliases h)) (add_or_update_alias full_hop (str "10.0.0.9"))
  = Some [str "10.0.0.2"; str "10.0.0.9"; str "10.0.0.4"].
Proof. reflexivity. Qed.
