(* ===== verification/Logic.v ===== *)
(** * The logic engine (src/io/logic.c)

    TTL scheduling with AIMD burst pacing, observation handling, the timeout
    sweep, and one iteration of the engine's loop with its three rings.

    The clock ([ttak_get_tick_count_ns]) and [inet_ntop] are not part of the
    sources: [clock n] is the value of the clock's [n]-th reading and
    [inet_ntop v6 bytes] the text of an address; what the engine relies on is
    stated where it is used.  Accesses to the hop and alias arrays are partial
    operations, so that "no access outside an array" is a theorem. *)

From stdpp Require Import gmap.
From S2P Require Import Prelude CFloat Telemetry ShmRing HopAlias.

Record nsr_pacing_t := mk_pacing {
  current_burst : Z;
  max_burst : Z;
  min_burst : Z;
  last_adjust_us : Z;
  last_sent : Z;
  last_recv : Z;
  ewma_loss : cfloat;
}.

(** The engine's static variables and the local state of its loop; [ticks]
    counts the clock readings so far. *)
Record logic_t := mk_logic {
  g_state : nsr_telemetry_state_t;
  g_last_recv_us : list Z;
  g_paused : bool;
  g_pacing : nsr_pacing_t;
  current_ttl : Z;
  current_seq : Z;
  last_probe_us : Z;
  last_tui_us : Z;
  ticks : nat;
}.

Definition pacing_init : nsr_pacing_t :=
  {| current_burst := 28; max_burst := 64; min_burst := 1; last_adjust_us := 0;
     last_sent := 0; last_recv := 0; ewma_loss := f_zero |}.

Definition LOGIC_BATCH : Z := 1024.
Definition MAX_BURST : Z := 64.

(** *** Field updates *)

Definition with_hops (s : nsr_telemetry_state_t) (hs : list nsr_hop_info_t) : nsr_telemetry_state_t :=
  {| hops := hs; target_ip := target_ip s; target_host := target_host s;
     start_time_us := start_time_us s; interval_ms := interval_ms s |}.

Definition with_interval (s : nsr_telemetry_state_t) (ms : Z) : nsr_telemetry_state_t :=
  {| hops := hops s; target_ip := target_ip s; target_host := target_host s;
     start_time_us := start_time_us s; interval_ms := ms |}.

Definition with_state (st : logic_t) (s : nsr_telemetry_state_t) : logic_t :=
  {| g_state := s; g_last_recv_us := g_last_recv_us st; g_paused := g_paused st;
     g_pacing := g_pacing st; current_ttl := current_ttl st; current_seq := current_seq st;
     last_probe_us := last_probe_us st; last_tui_us := last_tui_us st; ticks := ticks st |}.

Definition with_last_recv (st : logic_t) (l : list Z) : logic_t :=
  {| g_state := g_state st; g_last_recv_us := l; g_paused := g_paused st;
     g_pacing := g_pacing st; current_ttl := current_ttl st; current_seq := current_seq st;
     last_probe_us := last_probe_us st; last_tui_us := last_tui_us st; ticks := ticks st |}.

Definition with_pacing (st : logic_t) (p : nsr_pacing_t) : logic_t :=
  {| g_state := g_state st; g_last_recv_us := g_last_recv_us st; g_paused := g_paused st;
     g_pacing := p; current_ttl := current_ttl st; current_seq := current_seq st;
     last_probe_us := last_probe_us st; last_tui_us := last_tui_us st; ticks := ticks st |}.

Definition with_schedule (st : logic_t) (ttl seq : Z) : logic_t :=
  {| g_state := g_state st; g_last_recv_us := g_last_recv_us st; g_paused := g_paused st;
     g_pacing := g_pacing st; current_ttl := ttl; current_seq := seq;
     last_probe_us := last_probe_us st; last_tui_us := last_tui_us st; ticks := ticks st |}.

Definition with_times (st : logic_t) (probe tui : Z) : logic_t :=
  {| g_state := g_state st; g_last_recv_us := g_last_recv_us st; g_paused := g_paused st;
     g_pacing := g_pacing st; current_ttl := current_ttl st; current_seq := current_seq st;
     last_probe_us := probe; last_tui_us := tui; ticks := ticks st |}.

Definition tick (st : logic_t) : logic_t :=
  {| g_state := g_state st; g_last_recv_us := g_last_recv_us st; g_paused := g_paused st;
     g_pacing := g_pacing st; current_ttl := current_ttl st; current_seq := current_seq st;
     last_probe_us := last_probe_us st; last_tui_us := last_tui_us st; ticks := S (ticks st) |}.

Definition handle_sigusr1 (st : logic_t) : logic_t :=
  {| g_state := g_state st; g_last_recv_us := g_last_recv_us st; g_paused := negb (g_paused st);
     g_pacing := g_pacing st; current_ttl := current_ttl st; current_seq := current_seq st;
     last_probe_us := last_probe_us st; last_tui_us := last_tui_us st; ticks := ticks st |}.

Definition compute_integrity_fast (ttl seq : Z) : Z := Z.lor (Z.shiftl ttl 16) seq.

(** ** Pacing *)

Definition total_sent (hs : list nsr_hop_info_t) : Z :=
  foldl (fun acc h => u32 (acc + sent h)) 0 (drop 1 hs).

Definition total_recv (hs : list nsr_hop_info_t) : Z :=
  foldl (fun acc h => u32 (acc + recv h)) 0 (drop 1 hs).

(** [ewma_loss] after a period in which [delta_recv] of [delta_sent] probes were
    answered. *)
Definition next_loss (loss : cfloat) (delta_sent delta_recv : Z) : cfloat :=
  let instant_loss :=
    f32_sub (f32_of_Z 1) (f32_div (f32_of_Z delta_recv) (f32_of_Z delta_sent)) in
  f32_add (f32_mul loss (f32_lit 7 10)) (f32_mul instant_loss (f32_lit 3 10)).

(** The additive-increase, multiplicative-decrease rule. *)
Definition next_burst (p : nsr_pacing_t) (loss : cfloat) : Z :=
  if SFltb (f32_lit 35 100) loss then
    let b := u32 (current_burst p * 3) / 4 in
    if b <? min_burst p then min_burst p else b
  else if SFltb loss (f32_lit 10 100) then
    if current_burst p <? max_burst p then u32 (current_burst p + 1) else current_burst p
  else current_burst p.

Definition adjust_pacing (p : nsr_pacing_t) (hs : list nsr_hop_info_t) (now_us : Z) : nsr_pacing_t :=
  if u64 (now_us - last_adjust_us p) <? 250000 then p
  else
    let delta_sent := u32 (total_sent hs - last_sent p) in
    let delta_recv := u32 (total_recv hs - last_recv p) in
    if delta_sent =? 0 then
      {| current_burst := current_burst p; max_burst := max_burst p; min_burst := min_burst p;
         last_adjust_us := now_us; last_sent := total_sent hs; last_recv := total_recv hs;
         ewma_loss := ewma_loss p |}
    else
      let loss := next_loss (ewma_loss p) delta_sent delta_recv in
      {| current_burst := next_burst p loss; max_burst := max_burst p; min_burst := min_burst p;
         last_adjust_us := now_us; last_sent := total_sent hs; last_recv := total_recv hs;
         ewma_loss := loss |}.

(** ** Timeout sweep *)

Definition with_status (h : nsr_hop_info_t) (s : nsr_obs_type_t) : nsr_hop_info_t :=
  {| addr := addr h; rtt_us := rtt_us h; sent := sent h; recv := recv h;
     primary_recv := primary_recv h; last_status := s; alias_count := alias_count h;
     aliases := aliases h |}.

Definition sweep_hop (start_us now_us : Z) (h : nsr_hop_info_t) (last_recv_us : Z) : nsr_hop_info_t :=
  if sent h =? 0 then h
  else if bool_decide (last_status h = NSR_OBS_REPLY) || bool_decide (last_status h = NSR_OBS_UNREACH)
  then h
  else
    let last_activity := if last_recv_us =? 0 then start_us else last_recv_us in
    if 1500000 <? u64 (now_us - last_activity) then with_status h NSR_OBS_TIMEOUT else h.

(** The loop runs over the hops 1 to 63; hop 0 is not used. *)
Definition sweep_timeouts (st : logic_t) (now_us : Z) : logic_t :=
  let s := g_state st in
  with_state st (with_hops s
    (take 1 (hops s) ++
     zip_with (sweep_hop (start_time_us s) now_us) (drop 1 (hops s)) (drop 1 (g_last_recv_us st)))).

(** ** Probe bursts *)

Definition with_sent (h : nsr_hop_info_t) (n : Z) : nsr_hop_info_t :=
  {| addr := addr h; rtt_us := rtt_us h; sent := n; recv := recv h;
     primary_recv := primary_recv h; last_status := last_status h; alias_count := alias_count h;
     aliases := aliases h |}.

Definition next_ttl (ttl : Z) : Z :=
  let t := u8 (ttl + 1) in if 30 <? t then 1 else t.

Definition make_intent (ttl seq now_us : Z) : nsr_intent_t :=
  {| in_ttl := ttl; in_seq := seq; in_action := 0; in_timestamp_us := now_us;
     in_integrity := compute_integrity_fast ttl seq |}.

(** [n] intents from the current TTL and sequence number on, with the send
    counters they increment. *)
Fixpoint burst_loop (n : nat) (now_us : Z) (hs : list nsr_hop_info_t) (ttl seq : Z)
  : option (list nsr_intent_t * list nsr_hop_info_t * Z * Z) :=
  match n with
  | O => Some ([], hs, ttl, seq)
  | S n' =>
      h ← aget hs ttl;
      hs' ← aset hs ttl (with_sent h (u32 (sent h + 1)));
      '(intents, hs'', ttl', seq') ← burst_loop n' now_us hs' (next_ttl ttl) (u16 (seq + 1));
      Some (make_intent ttl seq now_us :: intents, hs'', ttl', seq')
  end.

(** Pushes the intents one by one; stops with the intents left over when the
    ring is full, where the source spins until the gatekeeper makes room. *)
Fixpoint push_intents (r : nsr_shm_ring_t (list Z)) (intents : list nsr_intent_t)
  : list nsr_intent_t * nsr_shm_ring_t (list Z) :=
  match intents with
  | [] => ([], r)
  | i :: intents' =>
      match nsr_shm_ring_push_batch r [i] with
      | (true, r') => push_intents r' intents'
      | (false, _) => (i :: intents', r)
      end
  end.

(** ** One iteration *)

Record rings_t := mk_rings {
  g2l : nsr_shm_ring_t (list Z);
  l2g : nsr_shm_ring_t (list Z);
  l2t : nsr_shm_ring_large_t nsr_telemetry_state_t;
}.

(** [Spinning]: the engine waits for room in [l2g].  [Fault]: an access outside
    an array. *)
Inductive outcome (A : Type) :=
| Done (a : A)
| Spinning (pending : list nsr_intent_t)
| Fault.
Arguments Done {A} a.
Arguments Spinning {A} pending.
Arguments Fault {A}.

(** *** Facts about the clock-free parts *)

Lemma integrity_arith ttl seq :
  0 <= ttl -> 0 <= seq < 65536 -> compute_integrity_fast ttl seq = ttl * 65536 + seq.
Proof.
  intros Ht Hs. unfold compute_integrity_fast.
  assert (Hdisj : Z.land (Z.shiftl ttl 16) seq = 0).
  { apply Z.bits_inj'. intros n Hn. rewrite Z.land_spec, Z.bits_0.
    destruct (decide (n < 16)); [by rewrite Z.shiftl_spec_low by lia|].
    replace seq with (seq mod 2 ^ 16) by (apply Z.mod_small; lia).
    rewrite Z.mod_pow2_bits_high by lia. apply andb_false_r. }
  rewrite <- Z.lxor_lor, <- Z.add_nocarry_lxor by done.
  by rewrite Z.shiftl_mul_pow2 by lia.
Qed.

Definition pacing_wf (p : nsr_pacing_t) : Prop :=
  min_burst p = 1 /\ max_burst p = 64 /\ 1 <= current_burst p <= 64.

Lemma next_burst_bounds p loss : pacing_wf p -> 1 <= next_burst p loss <= 64.
Proof.
  intros (Hmin & Hmax & Hc). unfold next_burst. rewrite Hmin, Hmax.
  repeat split_if; bool_facts; rewrite ?u32_small in * by lia; try lia.
  - split; [done|]. apply Z.div_le_upper_bound; lia.
Qed.

Lemma adjust_pacing_wf p hs now : pacing_wf p -> pacing_wf (adjust_pacing p hs now).
Proof.
  intros Hp. unfold adjust_pacing. repeat split_if; [done|by destruct Hp|].
  destruct Hp as (? & ? & ?). split_and!; simpl; [done..| |]; by apply next_burst_bounds.
Qed.

Lemma next_ttl_cycle ttl : 1 <= ttl <= 30 -> next_ttl ttl = ttl mod 30 + 1.
Proof.
  intros H. unfold next_ttl. rewrite u8_small by lia. split_if; bool_facts.
  - replace ttl with 30 by lia. done.
  - rewrite Z.mod_small; lia.
Qed.

(** The TTL and sequence number of the [i]-th probe of a burst. *)
Definition ttl_at (ttl : Z) (i : nat) : Z := (ttl - 1 + Z.of_nat i) mod 30 + 1.
Definition seq_at (sq : Z) (i : nat) : Z := (sq + Z.of_nat i) mod 65536.

Definition schedule (now ttl sq : Z) (n : nat) : list nsr_intent_t :=
  map (fun i => make_intent (ttl_at ttl i) (seq_at sq i) now) (seq 0 n).

Definition probes_to (k : nat) (intents : list nsr_intent_t) : Z :=
  Z.of_nat (length (filter (fun i => in_ttl i = Z.of_nat k) intents)).

Lemma ttl_at_0 ttl : 1 <= ttl <= 30 -> ttl_at ttl 0 = ttl.
Proof. intros H. unfold ttl_at. rewrite Z.mod_small; lia. Qed.

Lemma ttl_at_S ttl i : 1 <= ttl <= 30 -> ttl_at (next_ttl ttl) i = ttl_at ttl (S i).
Proof.
  intros H. unfold ttl_at. rewrite next_ttl_cycle by done.
  replace (ttl mod 30 + 1 - 1 + Z.of_nat i) with (ttl mod 30 + Z.of_nat i) by lia.
  rewrite Zplus_mod_idemp_l. do 2 f_equal. lia.
Qed.

Lemma seq_at_S sq i : seq_at (u16 (sq + 1)) i = seq_at sq (S i).
Proof. unfold seq_at, u16, wrap. rewrite Zplus_mod_idemp_l. f_equal. lia. Qed.

Lemma schedule_S now ttl sq n :
  1 <= ttl <= 30 -> 0 <= sq < 65536 ->
  schedule now ttl sq (S n) = make_intent ttl sq now :: schedule now (next_ttl ttl) (u16 (sq + 1)) n.
Proof.
  intros Ht Hs. unfold schedule. cbn [seq map]. f_equal.
  - rewrite ttl_at_0 by done. unfold seq_at. by rewrite Z.add_0_r, Z.mod_small.
  - rewrite <- seq_shift, map_map. apply map_ext. intros i. by rewrite ttl_at_S, seq_at_S.
Qed.

(** Every hop's send counter after [intents] were scheduled. *)
Definition sent_after (hs hs' : list nsr_hop_info_t) (intents : list nsr_intent_t) : Prop :=
  length hs' = length hs /\
  forall k h, hs !! k = Some h -> hs' !! k = Some (with_sent h (u32 (sent h + probes_to k intents))).

Definition sent_range (hs : list nsr_hop_info_t) : Prop := Forall (fun h => 0 <= sent h < 2 ^ 32) hs.

Lemma with_sent_id h : 0 <= sent h < 2 ^ 32 -> with_sent h (u32 (sent h + 0)) = h.
Proof. intros H. rewrite Z.add_0_r, u32_small by done. by destruct h. Qed.

Lemma burst_loop_spec n now hs ttl sq :
  length hs = 64%nat -> sent_range hs -> 1 <= ttl <= 30 -> 0 <= sq < 65536 ->
  exists hs', burst_loop n now hs ttl sq =
      Some (schedule now ttl sq n, hs', ttl_at ttl n, seq_at sq n) /\
    sent_after hs hs' (schedule now ttl sq n).
Proof.
  revert hs ttl sq. induction n as [|n IH]; intros hs ttl sq Hl Hr Ht Hs.
  - exists hs. split.
    + simpl. rewrite ttl_at_0 by done. unfold seq_at. by rewrite Z.add_0_r, Z.mod_small.
    + split; [done|]. intros k h Hk. rewrite with_sent_id; [done|]. exact (Forall_lookup_1 _ _ _ _ Hr Hk).
  - simpl. destruct (aget_Some hs ttl) as [h Hh]; [lia|]. rewrite Hh. simpl.
    rewrite aset_Some by lia. simpl.
    unfold aget in Hh. split_if_in Hh; [|done].
    destruct (IH (<[Z.to_nat ttl := with_sent h (u32 (sent h + 1))]> hs) (next_ttl ttl) (u16 (sq + 1)))
      as (hs' & -> & Hlen & Hsent).
    + by rewrite length_insert.
    + apply Forall_insert; [done|]. apply u32_range.
    + rewrite next_ttl_cycle by done. pose proof (Z.mod_pos_bound ttl 30). lia.
    + apply u16_range.
    + exists hs'. simpl. rewrite schedule_S by done. rewrite ttl_at_S, seq_at_S by done.
      split; [done|]. rewrite length_insert in Hlen. split; [done|]. intros k h0 Hk.
      unfold probes_to. rewrite filter_cons. cbn [in_ttl make_intent].
      destruct (decide (ttl = Z.of_nat k)) as [->|Hne].
      * rewrite Nat2Z.id in *. rewrite Hk in Hh. simplify_eq.
        rewrite (Hsent k (with_sent h (u32 (sent h + 1)))).
        -- f_equal. unfold with_sent. simpl. f_equal. unfold u32, wrap. rewrite Zplus_mod_idemp_l.
           unfold probes_to. f_equal. lia.
        -- apply list_lookup_insert_eq. lia.
      * apply Hsent. rewrite list_lookup_insert_ne; [done|lia].
Qed.

Section Engine.
  Context (clock : nat -> Z) (inet_ntop : bool -> list Z -> cstr).

Definition clock_us (st : logic_t) : Z := clock (ticks st) / 1000.

Definition addr_bin_to_str (addr_bin : list Z) (is_v6 : bool) : cstr :=
  if is_v6 then inet_ntop true addr_bin else inet_ntop false (take 4 addr_bin).

Definition with_reply (h : nsr_hop_info_t) (rtt : Z) (s : nsr_obs_type_t) : nsr_hop_info_t :=
  {| addr := addr h; rtt_us := rtt; sent := sent h; recv := u32 (recv h + 1);
     primary_recv := primary_recv h; last_status := s; alias_count := alias_count h;
     aliases := aliases h |}.

(** The branch for an answer from hop [h]. *)
Definition record_reply (st : logic_t) (ttl : Z) (obs : nsr_observation_t) (h : nsr_hop_info_t)
  : option logic_t :=
  lr ← aset (g_last_recv_us st) ttl (clock_us st);
  h' ← add_or_update_alias (with_reply h (ob_rtt_us obs) (ob_type obs))
         (addr_bin_to_str (ob_addr_bin obs) (ob_is_v6 obs));
  hs ← aset (hops (g_state st)) ttl h';
  Some (with_last_recv (with_state (tick st) (with_hops (g_state st) hs)) lr).

Definition update_state (st : logic_t) (ttl : Z) (obs : nsr_observation_t) : option logic_t :=
  if (NSR_MAX_HOPS <=? ttl) || (ttl =? 0) then Some st
  else
    h ← aget (hops (g_state st)) ttl;
    match ob_type obs with
    | NSR_OBS_REPLY | NSR_OBS_EXCEEDED | NSR_OBS_UNREACH => record_reply st ttl obs h
    | NSR_OBS_TIMEOUT =>
        hs ← aset (hops (g_state st)) ttl (with_status h NSR_OBS_TIMEOUT);
        Some (with_state st (with_hops (g_state st) hs))
    | NSR_OBS_NONE | NSR_OBS_ERROR => Some st
    end.

Fixpoint update_all (st : logic_t) (obs : list nsr_observation_t) : option logic_t :=
  match obs with
  | [] => Some st
  | o :: obs' => st' ← update_state st (ob_ttl o) o; update_all st' obs'
  end.

(** The inner loop that empties [g2l]; each turn takes at least one item, so
    one more than the items available is enough fuel. *)
Fixpoint drain_loop (fuel : nat) (st : logic_t) (r : nsr_shm_ring_t (list Z))
  : option (logic_t * nsr_shm_ring_t (list Z)) :=
  match fuel with
  | O => None
  | S fuel' =>
      match nsr_shm_ring_pop_batch r LOGIC_BATCH with
      | ([], r') => Some (st, r')
      | (obs, r') => st' ← update_all st obs; drain_loop fuel' st' r'
      end
  end.

Definition drain (st : logic_t) (r : nsr_shm_ring_t (list Z)) :=
  drain_loop (S (Z.to_nat (ring_index (head r - tail r)))) st r.

(** Publishes the state to the renderer at most every 16.7 ms; a full ring drops
    the snapshot. *)
Definition publish (st : logic_t) (now_us : Z) (r : nsr_shm_ring_large_t nsr_telemetry_state_t)
  : option (logic_t * nsr_shm_ring_large_t nsr_telemetry_state_t) :=
  if 16666 <? u64 (now_us - last_tui_us st) then
    '(_, r') ← nsr_shm_ring_large_push r (g_state st);
    Some (with_times st (last_probe_us st) now_us, r')
  else Some (st, r).

Definition probe_due (st : logic_t) (now_us interval : Z) : bool :=
  negb (g_paused st) && (interval * 1000 <=? u64 (now_us - last_probe_us st)).

Definition burst_size (p : nsr_pacing_t) : Z :=
  if MAX_BURST <? current_burst p then MAX_BURST else current_burst p.

(** The probing half of an iteration. *)
Definition probe (st : logic_t) (now_us interval : Z) (r : nsr_shm_ring_t (list Z))
  : outcome (logic_t * nsr_shm_ring_t (list Z)) :=
  if probe_due st now_us interval then
    match burst_loop (Z.to_nat (burst_size (g_pacing st))) now_us
            (hops (g_state st)) (current_ttl st) (current_seq st) with
    | None => Fault
    | Some (intents, hs, ttl, seq) =>
        let st1 := with_schedule (with_state st (with_hops (g_state st) hs)) ttl seq in
        match push_intents r intents with
        | ([], r') => Done (with_times st1 now_us (last_tui_us st), r')
        | (pending, _) => Spinning pending
        end
    end
  else Done (st, r).

(** The first lines of the loop body: read the clock and the interval, adjust
    the pacing and sweep the timeouts. *)
Definition begin_iteration (st : logic_t) (interval : Z) : logic_t :=
  let now_us := clock_us st in
  let st1 := with_state (tick st) (with_interval (g_state st) interval) in
  let st2 := with_pacing st1 (adjust_pacing (g_pacing st1) (hops (g_state st1)) now_us) in
  sweep_timeouts st2 now_us.

Definition logic_iteration (st : logic_t) (interval : Z) (rg : rings_t) : outcome (logic_t * rings_t) :=
  let now_us := clock_us st in
  match probe (begin_iteration st interval) now_us interval (l2g rg) with
  | Spinning pending => Spinning pending
  | Fault => Fault
  | Done (st1, l2g') =>
      match drain st1 (g2l rg) with
      | None => Fault
      | Some (st2, g2l') =>
          match publish st2 now_us (l2t rg) with
          | None => Fault
          | Some (st3, l2t') => Done (st3, mk_rings g2l' l2g' l2t')
          end
      end
  end.

(** The state before the first iteration. *)
Definition logic_init (config : nsr_config_t) : logic_t :=
  {| g_state :=
       {| hops := hops zero_telemetry;
          target_ip := if ceq (deref (cf_target_ip config)) NUL then []
                       else strncpy 47 (cf_target_ip config);
          target_host := if ceq (deref (cf_target_host config)) NUL then []
                         else strncpy 127 (cf_target_host config);
          start_time_us := clock 0%nat / 1000; interval_ms := 0 |};
     g_last_recv_us := replicate 64 0; g_paused := false; g_pacing := pacing_init;
     current_ttl := 1; current_seq := 0; last_probe_us := 0; last_tui_us := 0; ticks := 1 |}.

(** ** The engine's invariant *)

  Context (clock_range : forall n, 0 <= clock n < 2 ^ 64).
  Context (ntop_text : forall v6 bytes, text_ok (inet_ntop v6 bytes)).

Definition logic_wf (st : logic_t) : Prop :=
  length (hops (g_state st)) = 64%nat /\
  Forall hop_wf (hops (g_state st)) /\ sent_range (hops (g_state st)) /\
  length (g_last_recv_us st) = 64%nat /\
  pacing_wf (g_pacing st) /\ 1 <= current_ttl st <= 30 /\ 0 <= current_seq st < 65536 /\
  (length (target_host (g_state st)) <= 127)%nat.

Definition rings_wf (rg : rings_t) : Prop :=
  ring_wf (g2l rg) /\ ring_wf (l2g rg) /\ large_wf (l2t rg) /\
  Forall (fun o : nsr_observation_t => 0 <= ob_ttl o) (contents (g2l rg)).

(** The alias table does not depend on the counters and the status. *)
Lemma hop_wf_ext h h' :
  addr h' = addr h -> primary_recv h' = primary_recv h -> alias_count h' = alias_count h ->
  aliases h' = aliases h -> hop_wf h -> hop_wf h'.
Proof. unfold hop_wf, hop_counts. intros -> -> -> ->. done. Qed.

Lemma addr_text bin v6 : text_ok (addr_bin_to_str bin v6).
Proof. unfold addr_bin_to_str. by destruct v6. Qed.

(** Sightings leave the probe counters alone. *)
Lemma add_alias_frame h s h' :
  add_or_update_alias h s = Some h' ->
  sent h' = sent h /\ recv h' = recv h /\ last_status h' = last_status h /\ rtt_us h' = rtt_us h.
Proof.
  unfold add_or_update_alias. intros H.
  repeat (first [split_if_in H | apply bind_Some in H as (? & _ & H) | case_match]; simplify_eq);
    done.
Qed.

Lemma logic_wf_hop st ttl h :
  logic_wf st -> aget (hops (g_state st)) ttl = Some h -> hop_wf h /\ 0 <= sent h < 2 ^ 32.
Proof.
  intros (_ & Hf & Hs & _) Hh. unfold aget in Hh. split_if_in Hh; [|done].
  split; [exact (Forall_lookup_1 _ _ _ _ Hf Hh)|exact (Forall_lookup_1 _ _ _ _ Hs Hh)].
Qed.

Lemma logic_wf_set_hop st st' i h' :
  logic_wf st -> hop_wf h' -> 0 <= sent h' < 2 ^ 32 ->
  hops (g_state st') = <[i := h']> (hops (g_state st)) -> length (g_last_recv_us st') = 64%nat ->
  g_pacing st' = g_pacing st -> current_ttl st' = current_ttl st ->
  current_seq st' = current_seq st -> target_host (g_state st') = target_host (g_state st) -> logic_wf st'.
Proof.
  intros (Hl & Hf & Hs & Hlr & Hp & Ht & Hq) Hh Hsent E1 Hlen E3 E4 E5 E6.
  unfold logic_wf. rewrite E1, E3, E4, E5, E6, length_insert.
  refine (conj Hl (conj _ (conj _ (conj Hlen (conj Hp (conj Ht Hq)))))); by apply Forall_insert.
Qed.

(** What an answer does to the hop of its TTL. *)
Definition answered (o : nsr_observation_t) (h h' : nsr_hop_info_t) : Prop :=
  recv h' = u32 (recv h + 1) /\ rtt_us h' = ob_rtt_us o /\ last_status h' = ob_type o /\
  sent h' = sent h /\ sighting (addr_bin_to_str (ob_addr_bin o) (ob_is_v6 o)) h h' /\
  seen_total h' <= seen_total h + 1.

Definition observed (o : nsr_observation_t) (h h' : nsr_hop_info_t) : Prop :=
  match ob_type o with
  | NSR_OBS_REPLY | NSR_OBS_EXCEEDED | NSR_OBS_UNREACH => answered o h h'
  | NSR_OBS_TIMEOUT => h' = with_status h NSR_OBS_TIMEOUT
  | NSR_OBS_NONE | NSR_OBS_ERROR => h' = h
  end.

Lemma sighting_counters s h h1 h' :
  hop_counts h1 = hop_counts h -> addr h1 = addr h -> sighting s h1 h' -> sighting s h h'.
Proof.
  intros Hc Ha [n H1 H2|H1 H2 H3|v n H1 H2 H3 H4 H5 H6];
    unfold seen in *; rewrite Hc in *; rewrite ?Ha in *.
  - by eapply seen_again.
  - by apply seen_first.
  - by eapply (seen_evicts _ _ _ v n).
Qed.

Lemma record_reply_spec st o h :
  logic_wf st -> 0 < ob_ttl o < 64 -> hop_wf h -> 0 <= sent h < 2 ^ 32 ->
  exists st' h', record_reply st (ob_ttl o) o h = Some st' /\ logic_wf st' /\ answered o h h' /\
    hops (g_state st') = <[Z.to_nat (ob_ttl o) := h']> (hops (g_state st)).
Proof.
  intros Hwf Hr Hhop Hsent. pose proof Hwf as (Hl & _ & _ & Hlr & _). unfold record_reply.
  set (h1 := with_reply h (ob_rtt_us o) (ob_type o)).
  assert (Hh1 : hop_wf h1) by (by apply (hop_wf_ext h)).
  destruct (add_alias_spec h1 _ Hh1 (addr_text (ob_addr_bin o) (ob_is_v6 o))) as (h' & Hadd & Hwf' & Hsi).
  destruct (add_alias_frame _ _ _ Hadd) as (Es & Er & El & Et).
  pose proof (add_alias_total _ _ _ Hh1 (addr_text _ _) Hadd) as Htot.
  rewrite aset_Some by lia. simpl. rewrite Hadd. simpl. rewrite aset_Some by lia. simpl.
  eexists _, h'. split; [done|]. split; [|split].
  - apply (logic_wf_set_hop st _ (Z.to_nat (ob_ttl o)) h' Hwf Hwf'); try done; [by rewrite Es|].
    simpl. by rewrite length_insert.
  - refine (conj Er (conj Et (conj El (conj Es (conj _ Htot))))).
    by eapply (sighting_counters _ h h1).
  - done.
Qed.

Lemma update_state_hop st o h :
  logic_wf st -> 0 < ob_ttl o < 64 -> aget (hops (g_state st)) (ob_ttl o) = Some h ->
  exists st' h', update_state st (ob_ttl o) o = Some st' /\ logic_wf st' /\ observed o h h' /\
    hops (g_state st') = <[Z.to_nat (ob_ttl o) := h']> (hops (g_state st)).
Proof.
  intros Hwf Hr Hh. destruct (logic_wf_hop st _ h Hwf Hh) as [Hhop Hsent].
  pose proof Hwf as (Hl & _ & _ & Hlr & _).
  unfold update_state, observed. replace (_ || _) with false by (unfold NSR_MAX_HOPS; lia).
  rewrite Hh. simpl.
  pose proof (record_reply_spec st o h Hwf Hr Hhop Hsent) as Hreply.
  assert (Hsame : hops (g_state st) = <[Z.to_nat (ob_ttl o) := h]> (hops (g_state st))).
  { symmetry. apply list_insert_id. unfold aget in Hh. by split_if_in Hh. }
  destruct (ob_type o); try exact Hreply; try (by exists st, h).
  rewrite aset_Some by lia. simpl. eexists _, _. split; [done|]. split; [|done].
  apply (logic_wf_set_hop st _ (Z.to_nat (ob_ttl o)) (with_status h NSR_OBS_TIMEOUT) Hwf); done.
Qed.

Lemma update_state_wf st o :
  logic_wf st -> 0 <= ob_ttl o -> exists st', update_state st (ob_ttl o) o = Some st' /\ logic_wf st'.
Proof.
  intros Hwf Hr. destruct (decide (0 < ob_ttl o < 64)) as [Hin|Hout].
  - pose proof Hwf as (Hl & _). destruct (aget_Some (hops (g_state st)) (ob_ttl o)) as [h Hh]; [lia|].
    destruct (update_state_hop st o h Hwf Hin Hh) as (st' & h' & ? & ? & _). by exists st'.
  - exists st. split; [|done]. unfold update_state.
    by replace (_ || _) with true by (unfold NSR_MAX_HOPS; lia).
Qed.

Lemma update_all_wf st obs :
  logic_wf st -> Forall (fun o => 0 <= ob_ttl o) obs ->
  exists st', update_all st obs = Some st' /\ logic_wf st'.
Proof.
  revert st. induction obs as [|o obs IH]; intros st Hwf Ho; simpl; [by exists st|].
  apply Forall_cons in Ho as [Ho Hobs].
  destruct (update_state_wf st o Hwf Ho) as (st1 & -> & Hwf1). simpl. by apply IH.
Qed.

Lemma update_all_app st xs ys :
  update_all st (xs ++ ys) = st' ← update_all st xs; update_all st' ys.
Proof.
  revert st. induction xs as [|x xs IH]; intros st; simpl; [done|].
  destruct (update_state st (ob_ttl x) x); simpl; auto.
Qed.

(** *** Draining and probing *)

Lemma drain_loop_spec fuel st (r : nsr_shm_ring_t (list Z)) :
  ring_wf r -> (length (contents (item := nsr_observation_t) r) < fuel)%nat ->
  exists r', ring_wf r' /\ contents (item := nsr_observation_t) r' = [] /\
    drain_loop fuel st r = (st' ← update_all st (contents r); Some (st', r')).
Proof.
  revert st r. induction fuel as [|fuel IH]; intros st r Hr Hf; [lia|]. simpl.
  assert (Hb : 0 <= LOGIC_BATCH < 2 ^ 31) by (unfold LOGIC_BATCH; lia).
  pose proof (pop_batch_spec (item := nsr_observation_t) r LOGIC_BATCH Hr Hb) as Hp.
  destruct (nsr_shm_ring_pop_batch r LOGIC_BATCH) as [obs r1] eqn:E. destruct Hp as [Hr1 Hq].
  unfold queue_pop in Hq. injection Hq as Hobs Hrest.
  rewrite <- (take_drop (Z.to_nat LOGIC_BATCH) (contents r)), <- Hobs, <- Hrest.
  destruct obs as [|o obs].
  - assert (Hc : contents (item := nsr_observation_t) r = []).
    { destruct (contents r) as [|o' q]; [done|]. by destruct (Z.to_nat LOGIC_BATCH) eqn:?; [|]. }
    exists r1. rewrite Hc, drop_nil in Hrest. by rewrite Hrest.
  - assert (Hlt : (length (contents (item := nsr_observation_t) r1) < fuel)%nat).
    { rewrite Hrest, length_drop. assert (length (o :: obs) <= length (contents r))%nat.
      { rewrite Hobs, length_take. lia. }
      simpl in *. assert (0 < Z.to_nat LOGIC_BATCH)%nat by (unfold LOGIC_BATCH; lia). lia. }
    rewrite update_all_app.
    destruct (update_all st (o :: obs)) as [st1|] eqn:Eu.
    + destruct (IH st1 r1 Hr1 Hlt) as (r' & Hr' & He & Hd). exists r'. split_and!; [done..|]. exact Hd.
    + destruct (IH st r1 Hr1 Hlt) as (r' & Hr' & He & _). by exists r'.
Qed.

Lemma drain_spec st (r : nsr_shm_ring_t (list Z)) :
  ring_wf r ->
  exists r', ring_wf r' /\ contents (item := nsr_observation_t) r' = [] /\
    drain st r = (st' ← update_all st (contents r); Some (st', r')).
Proof.
  intros Hr. apply drain_loop_spec; [done|].
  pose proof (contents_length (item := nsr_observation_t) r) as Hl. unfold used, dist in Hl.
  rewrite ring_index_mod. lia.
Qed.

Lemma push_intents_spec (r : nsr_shm_ring_t (list Z)) intents :
  ring_wf r -> Forall intent_in_range intents ->
  exists sent_now rest r', push_intents r intents = (rest, r') /\ intents = sent_now ++ rest /\
    ring_wf r' /\ contents r' = contents r ++ sent_now /\
    (rest <> [] -> SHM_RING_SIZE - 1 <= used r + Z.of_nat (length intents)).
Proof.
  revert r. induction intents as [|i intents IH]; intros r Hr Hok; simpl.
  - exists [], [], r. split_and!; try done. by rewrite app_nil_r.
  - apply Forall_cons in Hok as [Hi Hok].
    assert (H1 : Z.of_nat (length [i]) < 2 ^ 31) by (simpl; lia).
    pose proof (push_batch_spec r [i] Hr (Forall_cons_2 _ _ _ Hi (Forall_nil_2 _)) H1) as Hp.
    destruct (nsr_shm_ring_push_batch r [i]) as [ok r1]. destruct Hp as [Hr1 Hq].
    unfold queue_push in Hq. rewrite Nat2Z.inj_add, contents_length in Hq. simpl in Hq.
    split_if_in Hq; injection Hq as -> Hc; bool_facts.
    + exists [], (i :: intents), r. split_and!; try done; [by rewrite app_nil_r|intros _; lia].
    + destruct (IH r1 Hr1 Hok) as (s & rest & r' & -> & -> & Hr' & Hc' & Hrest).
      exists (i :: s), rest, r'. split_and!; try done; [by rewrite Hc', Hc, <- app_assoc|].
      intros Hne. specialize (Hrest Hne).
      pose proof (contents_length (item := nsr_intent_t) r1) as L1. rewrite Hc, length_app in L1. simpl in L1.
      pose proof (contents_length (item := nsr_intent_t) r). lia.
Qed.

(** *** The sweep *)

Lemma sweep_hop_frame start now h lr :
  sent (sweep_hop start now h lr) = sent h /\ (hop_wf h -> hop_wf (sweep_hop start now h lr)).
Proof.
  unfold sweep_hop. repeat split_if; (split; [done|]); try done.
Qed.

Lemma sweep_lookup st now k h lr :
  length (g_last_recv_us st) = length (hops (g_state st)) ->
  hops (g_state st) !! k = Some h -> g_last_recv_us st !! k = Some lr ->
  hops (g_state (sweep_timeouts st now)) !! k =
    Some (if (k =? 0)%nat then h else sweep_hop (start_time_us (g_state st)) now h lr).
Proof.
  intros Hl Hh Hlr. unfold sweep_timeouts. simpl.
  destruct (hops (g_state st)) as [|h0 hs]; [done|].
  destruct (g_last_recv_us st) as [|l0 ls]; [done|].
  destruct k as [|k]; simpl in *; [done|]. by rewrite !drop_0, lookup_zip_with, Hh, Hlr.
Qed.

Lemma sweep_length st now :
  length (g_last_recv_us st) = length (hops (g_state st)) ->
  length (hops (g_state (sweep_timeouts st now))) = length (hops (g_state st)).
Proof.
  intros Hl. unfold sweep_timeouts. simpl.
  rewrite length_app, length_zip_with, length_take, !length_drop. lia.
Qed.

Lemma sweep_wf st now : logic_wf st -> logic_wf (sweep_timeouts st now).
Proof.
  intros (Hl & Hf & Hs & Hlr & Hp & Ht & Hq).
  assert (Hlen : length (hops (g_state (sweep_timeouts st now))) = 64%nat)
    by (rewrite sweep_length; lia).
  assert (Hall : forall k h', hops (g_state (sweep_timeouts st now)) !! k = Some h' ->
            hop_wf h' /\ 0 <= sent h' < 2 ^ 32).
  { intros k h' Hk. pose proof (lookup_lt_Some _ _ _ Hk) as Hlt.
    destruct (lookup_lt_is_Some_2 (hops (g_state st)) k) as [h Hh]; [lia|].
    destruct (lookup_lt_is_Some_2 (g_last_recv_us st) k) as [lr Hr]; [lia|].
    rewrite (sweep_lookup st now k h lr) in Hk by (done || lia). injection Hk as <-.
    pose proof (Forall_lookup_1 _ _ _ _ Hf Hh). pose proof (Forall_lookup_1 _ _ _ _ Hs Hh) as H1.
    simpl in H1. split_if; [done|].
    destruct (sweep_hop_frame (start_time_us (g_state st)) now h lr) as [-> ?]. auto. }
  refine (conj Hlen (conj _ (conj _ (conj Hlr (conj Hp (conj Ht Hq))))));
    apply Forall_lookup_2; intros k h' Hk; by apply (Hall k h' Hk).
Qed.

Lemma begin_iteration_wf st interval : logic_wf st -> logic_wf (begin_iteration st interval).
Proof.
  intros (Hl & Hf & Hs & Hlr & Hp & Ht & Hq). apply sweep_wf.
  refine (conj Hl (conj Hf (conj Hs (conj Hlr (conj _ (conj Ht Hq)))))).
  by apply adjust_pacing_wf.
Qed.

Lemma clock_us_range st : 0 <= clock_us st < 2 ^ 64.
Proof.
  unfold clock_us. pose proof (clock_range (ticks st)).
  split; [apply Z.div_pos; lia|]. apply Z.div_lt_upper_bound; lia.
Qed.

Lemma schedule_in_range now ttl sq n :
  0 <= now < 2 ^ 64 -> Forall intent_in_range (schedule now ttl sq n).
Proof.
  intros Hn. apply Forall_lookup_2. intros k i Hk. unfold schedule in Hk.
  change (map ?f ?l) with (f <$> l) in Hk. apply list_lookup_fmap_Some in Hk as (j & -> & _).
  unfold intent_in_range. simpl.
  assert (0 <= ttl_at ttl j < 256)
    by (unfold ttl_at; pose proof (Z.mod_pos_bound (ttl - 1 + Z.of_nat j) 30); lia).
  assert (0 <= seq_at sq j < 65536) by (apply Z.mod_pos_bound; lia).
  rewrite integrity_arith by lia. lia.
Qed.

(** The intents of one burst. *)
Definition burst_of (st : logic_t) (now : Z) : list nsr_intent_t :=
  schedule now (current_ttl st) (current_seq st) (Z.to_nat (burst_size (g_pacing st))).

Lemma burst_length st now : logic_wf st -> Z.of_nat (length (burst_of st now)) = current_burst (g_pacing st).
Proof.
  intros (_ & _ & _ & _ & (_ & _ & Hb) & _). unfold burst_of, schedule, burst_size, MAX_BURST.
  rewrite length_map, length_seq. split_if; lia.
Qed.

Lemma sent_after_wf hs hs' intents :
  Forall hop_wf hs -> sent_after hs hs' intents -> Forall hop_wf hs' /\ sent_range hs'.
Proof.
  intros Hf [Hl Hk]. split; apply Forall_lookup_2; intros k h' Hh';
    (destruct (lookup_lt_is_Some_2 hs k) as [h Hh]; [rewrite <- Hl; by eapply lookup_lt_Some|]);
    rewrite (Hk k h Hh) in Hh'; injection Hh' as <-.
  - exact (Forall_lookup_1 _ _ _ _ Hf Hh).
  - apply u32_range.
Qed.

Lemma probe_spec st now interval (r : nsr_shm_ring_t (list Z)) :
  logic_wf st -> ring_wf r -> 0 <= now < 2 ^ 64 ->
  let burst := if probe_due st now interval then burst_of st now else [] in
  match probe st now interval r with
  | Done (st', r') =>
      logic_wf st' /\ ring_wf r' /\ contents r' = contents r ++ burst /\
      sent_after (hops (g_state st)) (hops (g_state st')) burst
  | Spinning pending =>
      pending `suffix_of` burst /\ SHM_RING_SIZE - 1 <= used r + current_burst (g_pacing st)
  | Fault => False
  end.
Proof.
  intros Hwf Hr Hnow. pose proof Hwf as (Hl & Hf & Hs & Hlr & Hp & Ht & Hq & Hho).
  pose proof (burst_length st now Hwf) as Hbl.
  unfold probe. destruct (probe_due st now interval); cbv zeta.
  - destruct (burst_loop_spec (Z.to_nat (burst_size (g_pacing st))) now (hops (g_state st))
                (current_ttl st) (current_seq st) Hl Hs Ht Hq) as (hs & -> & Hsent).
    fold (burst_of st now) in *.
    destruct (push_intents_spec r (burst_of st now) Hr (schedule_in_range _ _ _ _ Hnow))
      as (s & rest & r' & -> & Hsplit & Hr' & Hc & Hrest).
    destruct rest as [|i rest].
    + destruct (sent_after_wf _ _ _ Hf Hsent) as [Hf' Hs']. rewrite app_nil_r in Hsplit.
      split_and!; try done; [|by rewrite Hsplit].
      refine (conj _ (conj Hf' (conj Hs' (conj Hlr (conj Hp _))))); simpl; [by destruct Hsent; lia|].
      unfold ttl_at, seq_at. pose proof (Z.mod_pos_bound (current_ttl st - 1 + Z.of_nat (Z.to_nat (burst_size (g_pacing st)))) 30).
      split; [lia|]. split; [|done]. apply Z.mod_pos_bound. lia.
    + split; [by exists s|]. rewrite <- Hbl. by apply Hrest.
  - split_and!; try done; [by rewrite app_nil_r|]. split; [done|]. intros k h Hk.
    rewrite Hk. f_equal. symmetry. apply with_sent_id. exact (Forall_lookup_1 _ _ _ _ Hs Hk).
Qed.

Lemma publish_spec st now (r : nsr_shm_ring_large_t nsr_telemetry_state_t) :
  logic_wf st -> large_wf r ->
  exists st' r', publish st now r = Some (st', r') /\ logic_wf st' /\ large_wf r' /\
    g_state st' = g_state st.
Proof.
  intros Hwf Hr. unfold publish. split_if; [|by exists st, r].
  destruct (large_push_spec (SM := telemetry_slot) r (g_state st) Hr I) as (ok & r' & -> & Hr' & _). simpl.
  by eexists _, r'.
Qed.

Lemma iteration_spec st interval rg :
  logic_wf st -> rings_wf rg ->
  let st0 := begin_iteration st interval in
  let burst := if probe_due st0 (clock_us st) interval then burst_of st0 (clock_us st) else [] in
  match logic_iteration st interval rg with
  | Done (st', rg') =>
      logic_wf st' /\ rings_wf rg' /\
      contents (item := nsr_observation_t) (g2l rg') = [] /\
      contents (l2g rg') = contents (l2g rg) ++ burst
  | Spinning pending =>
      pending `suffix_of` burst /\
      SHM_RING_SIZE - 1 <= used (l2g rg) + current_burst (g_pacing st0)
  | Fault => False
  end.
Proof.
  intros Hwf (Hg2l & Hl2g & Hl2t & Hobs). cbv zeta. unfold logic_iteration.
  pose proof (probe_spec (begin_iteration st interval) (clock_us st) interval (l2g rg)
                (begin_iteration_wf st interval Hwf) Hl2g (clock_us_range st)) as Hp.
  destruct (probe (begin_iteration st interval) (clock_us st) interval (l2g rg))
    as [[st1 l2g']|pending|]; [|done|done].
  destruct Hp as (Hwf1 & Hr1 & Hc1 & _).
  destruct (drain_spec st1 (g2l rg) Hg2l) as (g2l' & Hr2 & Hempty & ->).
  destruct (update_all_wf st1 _ Hwf1 Hobs) as (st2 & -> & Hwf2). simpl.
  destruct (publish_spec st2 (clock_us st) (l2t rg) Hwf2 Hl2t) as (st3 & l2t' & -> & Hwf3 & Hr3 & _).
  refine (conj Hwf3 (conj _ (conj Hempty Hc1))).
  refine (conj Hr2 (conj Hr1 (conj Hr3 _))). simpl. by rewrite Hempty.
Qed.

(** C5: from a well-formed state the engine's loop body never leaves its arrays
    and never loops forever on its own: it either completes, keeping every
    well-formedness condition, emptying the observation ring and appending to
    the intent ring exactly the scheduled burst, or it waits for room, and then
    the intent ring is within one burst of its capacity and what is still
    pending is the end of the burst. *)
Theorem engine_iteration st interval rg :
  logic_wf st -> rings_wf rg ->
  let st0 := begin_iteration st interval in
  let burst := if probe_due st0 (clock_us st) interval then burst_of st0 (clock_us st) else [] in
  match logic_iteration st interval rg with
  | Done (st', rg') =>
      logic_wf st' /\ rings_wf rg' /\
      contents (item := nsr_observation_t) (g2l rg') = [] /\
      contents (l2g rg') = contents (l2g rg) ++ burst
  | Spinning pending =>
      pending `suffix_of` burst /\
      SHM_RING_SIZE - 1 <= used (l2g rg) + current_burst (g_pacing st0)
  | Fault => False
  end.
Proof. exact (iteration_spec st interval rg). Qed.

(** *** Reachable states: iterations, with any traffic on the rings, and the
    pause signal at any time between them. *)

Inductive engine_step : logic_t -> logic_t -> Prop :=
| step_iteration st interval rg st' rg' :
    rings_wf rg -> logic_iteration st interval rg = Done (st', rg') -> engine_step st st'
| step_signal st : engine_step st (handle_sigusr1 st).

Lemma zero_hop_wf : hop_wf zero_hop.
Proof. split_and!; try done; constructor. Qed.

Lemma logic_init_wf config : logic_wf (logic_init config).
Proof.
  assert (Hho : (length (target_host (g_state (logic_init config))) <= 127)%nat).
  { unfold logic_init. cbn [g_state target_host]. split_if; [cbn; lia|]. unfold strncpy. rewrite length_take. lia. }
  unfold logic_wf. split; [done|]. split; [|split]; [simpl..|].
  - repeat constructor; apply zero_hop_wf || done.
  - repeat constructor; simpl; lia.
  - split; [done|]. split; [split_and!; simpl; lia|]. split; [cbn; lia|]. split; [cbn; lia|exact Hho].
Qed.

Lemma engine_reachable_wf config st : rtc engine_step (logic_init config) st -> logic_wf st.
Proof.
  apply (rtc_ind_r logic_wf); [apply logic_init_wf|]. intros s s' _ Hstep Hwf.
  destruct Hstep as [s interval rg s' rg' Hrg Hit|s]; [|done].
  pose proof (iteration_spec s interval rg Hwf Hrg) as H. rewrite Hit in H. apply H.
Qed.

(** Whatever the traffic, the measured loss and the pause signals, the burst
    stays between 1 and 64 (so a burst fits the array of 64 intents), every
    probe carries a TTL between 1 and 30, and the alias tables stay within their
    three slots. *)
Theorem engine_invariant config st :
  rtc engine_step (logic_init config) st ->
  1 <= current_burst (g_pacing st) <= 64 /\ 1 <= current_ttl st <= 30 /\
  0 <= current_seq st < 65536 /\
  Forall (fun h => 0 <= alias_count h <= NSR_MAX_HOP_ALIASES) (hops (g_state st)).
Proof.
  intros Hr. apply engine_reachable_wf in Hr as (_ & Hf & _ & _ & (_ & _ & Hb) & Ht & Hq).
  split_and!; try lia. eapply Forall_impl; [exact Hf|]. intros h (_ & Hc & _). done.
Qed.

(** An answer updates exactly the hop of its TTL: one more reply, the new
    round-trip time and status, one sighting of the sender's address, and never
    more sightings counted than replies received. *)
Theorem observation_updates_hop st o h :
  logic_wf st -> 0 < ob_ttl o < 64 -> aget (hops (g_state st)) (ob_ttl o) = Some h ->
  recv h < 2 ^ 32 - 1 -> 0 <= recv h -> seen_total h <= recv h ->
  exists st' h', update_state st (ob_ttl o) o = Some st' /\ observed o h h' /\
    hops (g_state st') = <[Z.to_nat (ob_ttl o) := h']> (hops (g_state st)) /\
    seen_total h' <= recv h'.
Proof.
  intros Hwf Hr Hh Hmax Hpos Hle.
  destruct (update_state_hop st o h Hwf Hr Hh) as (st' & h' & Hu & _ & Ho & Hhops).
  exists st', h'. split_and!; try done. unfold observed, answered in Ho.
  destruct (ob_type o); subst; try done;
    destruct Ho as (-> & _ & _ & _ & _ & ?); rewrite u32_small; lia.
Qed.

End Engine.

(** The timeout sweep marks a hop exactly when it was probed, its last status
    is neither an echo reply nor an unreachable, and nothing was heard from it
    (or since the start, if nothing ever was) for more than 1.5 s; it changes
    nothing else. *)
Theorem sweep_marks_silent_hops st now k h lr :
  length (g_last_recv_us st) = length (hops (g_state st)) ->
  (0 < k)%nat -> hops (g_state st) !! k = Some h -> g_last_recv_us st !! k = Some lr ->
  let activity := if lr =? 0 then start_time_us (g_state st) else lr in
  0 <= activity <= now -> now < 2 ^ 64 ->
  hops (g_state (sweep_timeouts st now)) !! k =
    Some (if decide (sent h <> 0 /\ last_status h <> NSR_OBS_REPLY /\
                     last_status h <> NSR_OBS_UNREACH /\ now - activity > 1500000)
          then with_status h NSR_OBS_TIMEOUT else h).
Proof.
  intros Hl Hk Hh Hlr activity Ha Hn. rewrite (sweep_lookup st now k h lr) by done.
  destruct k as [|k]; [lia|]. simpl. unfold sweep_hop. fold activity.
  rewrite u64_small by lia. f_equal.
  destruct (decide _) as [(H1 & H2 & H3 & H4)|Hnot].
  - rewrite (proj2 (Z.eqb_neq _ _) H1), !bool_decide_false by done. simpl.
    by rewrite (proj2 (Z.ltb_lt _ _)) by lia.
  - repeat split_if; bool_facts; try done. exfalso. apply Hnot. split_and!; auto; lia.
Qed.

(** The integrity word of an intent identifies its TTL and its sequence
    number. *)
Theorem integrity_identifies_probe ttl seq ttl' seq' :
  0 <= ttl < 256 -> 0 <= seq < 65536 -> 0 <= ttl' < 256 -> 0 <= seq' < 65536 ->
  compute_integrity_fast ttl seq = compute_integrity_fast ttl' seq' <-> ttl = ttl' /\ seq = seq'.
Proof. intros. rewrite !integrity_arith by lia. lia. Qed.
(** ** Concrete runs *)

(** A clock that advances by 20 ms at each reading, and a printer of addresses. *)
Definition sample_clock (n : nat) : Z := u64 (Z.of_nat n * 20000000).
Definition sample_ntop (v6 : bool) (bytes : list Z) : cstr :=
  if v6 then str "2001:db8::1" else str "192.0.2.1".
Definition sample_config : nsr_config_t :=
  {| cf_interval_ms := 10; cf_target_ip := str "192.0.2.7"; cf_target_host := str "host" |}.

Lemma sample_clock_range n : 0 <= sample_clock n < 2 ^ 64.
Proof. apply u64_range. Qed.

Lemma sample_ntop_text v6 bytes : text_ok (sample_ntop v6 bytes).
Proof.
  destruct v6; (split; [done|]); (split; [by apply (bool_decide_unpack _)|simpl; lia]).
Qed.

Definition idle_rings : rings_t := mk_rings empty_ring empty_ring empty_large.

Lemma idle_rings_wf : rings_wf idle_rings.
Proof.
  split; [apply empty_ring_wf|]. split; [apply empty_ring_wf|]. split; [apply empty_large_wf|].
  simpl. rewrite empty_ring_contents. constructor.
Qed.

Definition sample_logic : logic_t := logic_init sample_clock sample_config.

(** The first iteration sends the initial burst of 28 probes. *)
Example first_iteration :
  match logic_iteration sample_clock sample_ntop sample_logic 10 idle_rings with
  | Done (st', rg') => current_ttl st' = 29 /\ head (l2g rg') = 28 /\ lhead (l2t rg') = 1
  | _ => False
  end.
Proof. vm_compute. auto. Qed.

Lemma engine_iteration_witness :
  let st0 := begin_iteration sample_clock sample_logic 10 in
  let now := clock_us sample_clock sample_logic in
  let burst := if probe_due st0 now 10 then burst_of st0 now else [] in
  match logic_iteration sample_clock sample_ntop sample_logic 10 idle_rings with
  | Done (st', rg') =>
      logic_wf st' /\ rings_wf rg' /\
      contents (item := nsr_observation_t) (g2l rg') = [] /\
      contents (l2g rg') = contents (l2g idle_rings) ++ burst
  | Spinning pending =>
      pending `suffix_of` burst /\
      SHM_RING_SIZE - 1 <= used (l2g idle_rings) + current_burst (g_pacing st0)
  | Fault => False
  end.
Proof.
  exact (engine_iteration sample_clock sample_ntop sample_clock_range sample_ntop_text
           sample_logic 10 idle_rings (logic_init_wf sample_clock sample_config) idle_rings_wf).
Defined.

Lemma engine_invariant_witness :
  let st := handle_sigusr1 sample_logic in
  1 <= current_burst (g_pacing st) <= 64 /\ 1 <= current_ttl st <= 30 /\
  0 <= current_seq st < 65536 /\
  Forall (fun h => 0 <= alias_count h <= NSR_MAX_HOP_ALIASES) (hops (g_state st)).
Proof.
  apply (engine_invariant sample_clock sample_ntop sample_clock_range sample_ntop_text sample_config).
  eapply rtc_l; [apply step_signal|apply rtc_refl].
Defined.

Definition sample_reply : nsr_observation_t :=
  {| ob_ttl := 5; ob_seq := 4; ob_rtt_us := 1200; ob_type := NSR_OBS_EXCEEDED;
     ob_addr_bin := [192; 0; 2; 1; 0; 0; 0; 0; 0; 0; 0; 0; 0; 0; 0; 0]; ob_is_v6 := false |}.

Lemma observation_updates_hop_witness :
  exists st' h', update_state sample_clock sample_ntop sample_logic 5 sample_reply = Some st' /\
    observed sample_ntop sample_reply zero_hop h' /\
    hops (g_state st') = <[5%nat := h']> (hops (g_state sample_logic)) /\
    seen_total h' <= recv h'.
Proof.
  apply (observation_updates_hop sample_clock sample_ntop sample_ntop_text sample_logic sample_reply
           zero_hop (logic_init_wf sample_clock sample_config));
    [simpl; lia|reflexivity|simpl; lia|simpl; lia|reflexivity].
Defined.

Definition silent_logic : logic_t :=
  with_state sample_logic (with_hops (g_state sample_logic) (replicate 64 (with_sent zero_hop 1))).

Lemma sweep_marks_silent_hops_witness :
  hops (g_state (sweep_timeouts silent_logic 2000000)) !! 3%nat =
    Some (with_status (with_sent zero_hop 1) NSR_OBS_TIMEOUT).
Proof.
  apply (sweep_marks_silent_hops silent_logic 2000000 3 (with_sent zero_hop 1) 0);
    [reflexivity|lia|reflexivity|reflexivity|vm_compute; split; discriminate|lia].
Defined.

Lemma integrity_identifies_probe_witness :
  compute_integrity_fast 7 513 = compute_integrity_fast 7 513 <-> 7 = 7 /\ 513 = 513.
Proof. apply (integrity_identifies_probe 7 513 7 513); lia. Defined.

(** A burst of [n] probes carries the TTLs 1 to 30 in cyclic order and
    consecutive 16-bit sequence numbers from the saved position on, leaves the
    position just after the last one, and each hop's send counter grows by the
    number of probes with its TTL. *)
Theorem burst_follows_schedule n now hs ttl sq :
  length hs = 64%nat -> sent_range hs -> 1 <= ttl <= 30 -> 0 <= sq < 65536 ->
  exists hs', burst_loop n now hs ttl sq =
      Some (schedule now ttl sq n, hs', ttl_at ttl n, seq_at sq n) /\
    sent_after hs hs' (schedule now ttl sq n).
Proof. exact (burst_loop_spec n now hs ttl sq). Qed.

Lemma burst_follows_schedule_witness :
  exists hs', burst_loop 4 77 (hops zero_telemetry) 29 65534 =
      Some ([make_intent 29 65534 77; make_intent 30 65535 77; make_intent 1 0 77; make_intent 2 1 77],
            hs', 3, 2) /\
    sent_after (hops zero_telemetry) hs' (schedule 77 29 65534 4).
Proof.
  apply (burst_follows_schedule 4 77 (hops zero_telemetry) 29 65534);
    [reflexivity|repeat constructor; simpl; lia|lia|lia].
Defined.
