(* ===== verification/Icmp.v ===== *)
(** * ICMP packets (src/io/gatekeeper.c)

    The probe packet and its checksum, and the recognition of replies: IPv4
    echo replies and errors, ICMPv6 echo replies and errors with the walk
    through the extension headers of the quoted packet.

    A received packet is the list of its bytes, so that a read past the received
    length, which the source must never do, is the value [None]. *)

From S2P Require Import Prelude Telemetry.

Abbreviation bytes := (list Z).

(** ** Reads *)

Definition rd8 (buf : bytes) (off : Z) : option Z := aget buf off.

(** [ntohs] of the 16-bit field at [off]. *)
Definition rd16 (buf : bytes) (off : Z) : option Z :=
  hi ← aget buf off; lo ← aget buf (off + 1); Some (hi * 256 + lo).

Definition be16 (z : Z) : bytes := [z / 256; z mod 256].

Lemma aget_app_r {A} (pre post : list A) i :
  0 <= i -> aget (pre ++ post) (Z.of_nat (length pre) + i) = aget post i.
Proof.
  intros Hi. unfold aget. rewrite !(proj2 (Z.leb_le _ _)) by lia.
  rewrite lookup_app_r by lia. f_equal. lia.
Qed.

Lemma aget_app_l {A} (pre post : list A) i :
  i < Z.of_nat (length pre) -> aget (pre ++ post) i = aget pre i.
Proof.
  intros Hi. unfold aget. split_if; [|done]. bool_facts. apply lookup_app_l. lia.
Qed.

Lemma rd8_some buf off : 0 <= off < Z.of_nat (length buf) -> is_Some (rd8 buf off).
Proof. apply aget_Some. Qed.

Lemma rd16_some buf off : 0 <= off -> off + 1 < Z.of_nat (length buf) -> is_Some (rd16 buf off).
Proof.
  intros H1 H2. unfold rd16. destruct (aget_Some buf off) as [hi ->]; [lia|].
  destruct (aget_Some buf (off + 1)) as [lo ->]; [lia|]. by eexists.
Qed.

Lemma rd16_app_r pre post i :
  0 <= i -> rd16 (pre ++ post) (Z.of_nat (length pre) + i) = rd16 post i.
Proof.
  intros Hi. unfold rd16. rewrite aget_app_r by done.
  replace (Z.of_nat (length pre) + i + 1) with (Z.of_nat (length pre) + (i + 1)) by lia.
  by rewrite aget_app_r by lia.
Qed.

(** ** The probe *)

Definition ICMP_ECHOREPLY : Z := 0.
Definition ICMP_DEST_UNREACH : Z := 3.
Definition ICMP_ECHO : Z := 8.
Definition ICMP_TIME_EXCEEDED : Z := 11.
Definition ICMP6_DST_UNREACH : Z := 1.
Definition ICMP6_TIME_EXCEEDED : Z := 3.
Definition ICMP6_ECHO_REQUEST : Z := 128.
Definition ICMP6_ECHO_REPLY : Z := 129.
Definition IPPROTO_HOPOPTS : Z := 0.
Definition IPPROTO_ROUTING : Z := 43.
Definition IPPROTO_FRAGMENT : Z := 44.
Definition IPPROTO_AH : Z := 51.
Definition IPPROTO_ICMPV6 : Z := 58.
Definition IPPROTO_DSTOPTS : Z := 60.

(** [htons] on a little-endian host. *)
Definition htons (x : Z) : Z := (x mod 256) * 256 + x / 256.

Definition fast_icmp_checksum (id seq : Z) : Z :=
  let sum := u32 (2048 + id + seq) in
  let sum := u32 (Z.shiftr sum 16 + Z.land sum 65535) in
  let sum := u32 (sum + Z.shiftr sum 16) in
  u16 (Z.lnot sum).

(** The 8 bytes of a probe as they lie in memory: the IPv4 header's fields are
    stored as native (little-endian) words; the kernel fills in the ICMPv6
    checksum. *)
Definition probe_packet (is_v6 : bool) (gk_id seq : Z) : bytes :=
  let id_net := htons gk_id in
  let seq_net := htons seq in
  if is_v6 then
    [ICMP6_ECHO_REQUEST; 0] ++ le_split 2 0 ++ le_split 2 id_net ++ le_split 2 seq_net
  else
    [ICMP_ECHO; 0] ++ le_split 2 (fast_icmp_checksum id_net seq_net)
    ++ le_split 2 id_net ++ le_split 2 seq_net.

(** ** Recognising replies *)

(** What the walk through a quoted IPv6 packet yields: no echo request, or the
    identifier and the sequence number of one. *)
Fixpoint ext_loop (fuel : nat) (buf : bytes) (next off end_ : Z) : option (option (Z * Z)) :=
  match fuel with
  | O => None
  | S fuel' =>
      if (next =? IPPROTO_HOPOPTS) || (next =? IPPROTO_ROUTING) || (next =? IPPROTO_DSTOPTS) then
        if end_ <? off + 2 then Some None
        else
          nxt ← rd8 buf off;
          len ← rd8 buf (off + 1);
          let hdr_len := (len + 1) * 8 in
          if (hdr_len =? 0) || (end_ <? off + hdr_len) then Some None
          else ext_loop fuel' buf nxt (off + hdr_len) end_
      else if next =? IPPROTO_FRAGMENT then
        if end_ <? off + 8 then Some None
        else nxt ← rd8 buf off; ext_loop fuel' buf nxt (off + 8) end_
      else if next =? IPPROTO_AH then
        if end_ <? off + 2 then Some None
        else
          nxt ← rd8 buf off;
          len ← rd8 buf (off + 1);
          let hdr_len := (len + 2) * 4 in
          if (hdr_len =? 0) || (end_ <? off + hdr_len) then Some None
          else ext_loop fuel' buf nxt (off + hdr_len) end_
      else if next =? IPPROTO_ICMPV6 then
        if end_ <? off + 8 then Some None
        else
          ty ← rd8 buf off;
          if negb (ty =? ICMP6_ECHO_REQUEST) then Some None
          else rid ← rd16 buf (off + 4); rseq ← rd16 buf (off + 6); Some (Some (rid, rseq))
      else Some None
  end.

(** Each header takes at least 8 bytes, so the packet length bounds the number
    of headers. *)
Definition parse_ipv6_original_icmp6 (buf : bytes) (ip6_off : Z) : option (option (Z * Z)) :=
  let n := Z.of_nat (length buf) in
  if n <? ip6_off + 40 then Some None
  else
    next ← rd8 buf (ip6_off + 6);
    plen ← rd16 buf (ip6_off + 4);
    let off := ip6_off + 40 in
    let end_ := if n <? ip6_off + 40 + plen then n else ip6_off + 40 + plen in
    ext_loop (S (length buf)) buf next off end_.

(** The verdict on a packet: skipped ([continue]), or a type with the
    identifier and sequence number it concerns. *)
Inductive verdict :=
| Skip
| Concerns (type : nsr_obs_type_t) (rid rseq : Z).

Definition classify_v4 (buf : bytes) : option verdict :=
  let n := Z.of_nat (length buf) in
  if n <? 20 then Some Skip
  else
    b0 ← rd8 buf 0;
    if negb (Z.shiftr b0 4 =? 4) then Some Skip
    else
      let ihl := Z.land b0 15 in
      let ip_hdr_len := ihl * 4 in
      if (ihl <? 5) || (n <? ip_hdr_len + 8) then Some Skip
      else
        ty ← rd8 buf ip_hdr_len;
        if ty =? ICMP_ECHOREPLY then
          rid ← rd16 buf (ip_hdr_len + 4); rseq ← rd16 buf (ip_hdr_len + 6);
          Some (Concerns NSR_OBS_REPLY rid rseq)
        else if (ty =? ICMP_TIME_EXCEEDED) || (ty =? ICMP_DEST_UNREACH) then
          let inner_off := ip_hdr_len + 8 in
          if n <? inner_off + 20 + 8 then Some Skip
          else
            i0 ← rd8 buf inner_off;
            let iihl := Z.land i0 15 in
            let iip_len := iihl * 4 in
            if (iihl <? 5) || (n <? inner_off + iip_len + 8) then Some Skip
            else
              rid ← rd16 buf (inner_off + iip_len + 4);
              rseq ← rd16 buf (inner_off + iip_len + 6);
              Some (Concerns (if ty =? ICMP_DEST_UNREACH then NSR_OBS_UNREACH else NSR_OBS_EXCEEDED)
                      rid rseq)
        else Some (Concerns NSR_OBS_NONE 0 0).

Definition classify_v6 (buf : bytes) : option verdict :=
  let n := Z.of_nat (length buf) in
  if n <? 8 then Some Skip
  else
    ty ← rd8 buf 0;
    if ty =? ICMP6_ECHO_REPLY then
      rid ← rd16 buf 4; rseq ← rd16 buf 6; Some (Concerns NSR_OBS_REPLY rid rseq)
    else if (ty =? ICMP6_TIME_EXCEEDED) || (ty =? ICMP6_DST_UNREACH) then
      inner ← parse_ipv6_original_icmp6 buf 8;
      match inner with
      | None => Some Skip
      | Some (rid, rseq) =>
          Some (Concerns (if ty =? ICMP6_DST_UNREACH then NSR_OBS_UNREACH else NSR_OBS_EXCEEDED)
                  rid rseq)
      end
    else Some (Concerns NSR_OBS_NONE 0 0).

Definition classify (is_v6 : bool) (buf : bytes) : option verdict :=
  if 0 <? Z.of_nat (length buf) then (if is_v6 then classify_v6 buf else classify_v4 buf)
  else Some Skip.

(** ** No read past the received bytes *)

Definition is_byte (b : Z) : Prop := 0 <= b < 256.

Lemma rd8_byte buf off b : Forall is_byte buf -> rd8 buf off = Some b -> is_byte b.
Proof.
  intros Hf Hb. unfold rd8, aget in Hb. split_if_in Hb; [|done]. exact (Forall_lookup_1 _ _ _ _ Hf Hb).
Qed.

(** Reads that the preceding length tests make safe. *)
Ltac safe_read :=
  match goal with
  | |- context [rd8 ?buf ?off] =>
      let b := fresh "b" in let E := fresh "E" in
      destruct (rd8_some buf off) as [b E]; [lia|]; rewrite E; simpl
  | |- context [rd16 ?buf ?off] =>
      let b := fresh "w" in let E := fresh "E" in
      destruct (rd16_some buf off) as [b E]; [lia|lia|]; rewrite E; simpl
  end.

Ltac is_some := by eexists.

Lemma ext_loop_total fuel buf next off end_ :
  Forall is_byte buf -> 0 <= off -> end_ <= Z.of_nat (length buf) ->
  Z.of_nat (length buf) - off < Z.of_nat fuel -> is_Some (ext_loop fuel buf next off end_) \/ end_ < off.
Proof.
  intros Hb. revert next off. induction fuel as [|fuel IH]; intros next off Ho He Hf; [right; lia|].
  destruct (decide (end_ < off)) as [|Hle]; [by right|left]. cbn [ext_loop].
  split_if; [|split_if; [|split_if; [|split_if; [|is_some]]]]; bool_facts.
  - split_if; bool_facts; [is_some|]. do 2 safe_read. split_if; [is_some|]. bool_facts.
    pose proof (rd8_byte _ _ _ Hb E) as Hlen. unfold is_byte in Hlen.
    destruct (IH b0 (off + (b + 1) * 8)); [lia..|done|lia].
  - split_if; bool_facts; [is_some|]. safe_read. destruct (IH b (off + 8)); [lia..|done|lia].
  - split_if; bool_facts; [is_some|]. do 2 safe_read. split_if; [is_some|]. bool_facts.
    pose proof (rd8_byte _ _ _ Hb E) as Hlen. unfold is_byte in Hlen.
    destruct (IH b0 (off + (b + 2) * 4)); [lia..|done|lia].
  - split_if; bool_facts; [is_some|]. safe_read. split_if; [is_some|]. do 2 safe_read. is_some.
Qed.

Lemma parse_original_total buf ip6_off :
  Forall is_byte buf -> 0 <= ip6_off -> is_Some (parse_ipv6_original_icmp6 buf ip6_off).
Proof.
  intros Hb Ho. unfold parse_ipv6_original_icmp6. split_if; bool_facts; [is_some|].
  do 2 safe_read.
  assert (Hw : 0 <= w).
  { unfold rd16 in E0. apply bind_Some in E0 as (hi & Hhi & E0).
    apply bind_Some in E0 as (lo & Hlo & E0). injection E0 as <-.
    pose proof (rd8_byte buf _ hi Hb Hhi). pose proof (rd8_byte buf _ lo Hb Hlo).
    unfold is_byte in *. lia. }
  edestruct (ext_loop_total (S (length buf)) buf b (ip6_off + 40)) as [H|H];
    [done|lia| |lia|exact H|]; [split_if; bool_facts; lia|].
  exfalso. revert H. split_if; bool_facts; lia.
Qed.

Lemma land15 b : 0 <= Z.land b 15 < 16.
Proof. change 15 with (2 ^ 4 - 1). rewrite land_mask by lia. apply Z.mod_pos_bound. lia. Qed.

Lemma classify_total is_v6 buf : Forall is_byte buf -> is_Some (classify is_v6 buf).
Proof.
  intros Hb. unfold classify. split_if; [|is_some]. destruct is_v6; bool_facts.
  - unfold classify_v6. split_if; bool_facts; [is_some|]. safe_read. split_if; [do 2 safe_read; is_some|].
    split_if; [|is_some].
    destruct (parse_original_total buf 8 Hb) as [[[rid rseq]|] ->]; [lia|is_some..].
  - unfold classify_v4. split_if; bool_facts; [is_some|]. safe_read. split_if; [is_some|].
    pose proof (land15 b). split_if; bool_facts; [is_some|]. safe_read.
    split_if; [do 2 safe_read; is_some|]. split_if; [|is_some]. split_if; bool_facts; [is_some|]. safe_read.
    pose proof (land15 b1). split_if; bool_facts; [is_some|]. do 2 safe_read; is_some.
Qed.

(** The recognition of a received packet reads no byte past the received
    length and terminates, for every packet content, IPv4 or IPv6. *)
Theorem classify_safe is_v6 buf : Forall is_byte buf -> is_Some (classify is_v6 buf).
Proof. exact (classify_total is_v6 buf). Qed.

Definition sample_time_exceeded : bytes :=
  [69] ++ replicate 19 0 ++ [11; 0; 0; 0; 0; 0; 0; 0] ++ [69] ++ replicate 19 0
  ++ [8; 0; 0; 0; 18; 52; 0; 9].

Lemma classify_safe_witness : is_Some (classify false sample_time_exceeded).
Proof. apply (classify_safe false sample_time_exceeded). repeat constructor; lia. Defined.

Example classify_time_exceeded :
  classify false sample_time_exceeded = Some (Concerns NSR_OBS_EXCEEDED 4660 9).
Proof. reflexivity. Qed.

(** ** Checksums (RFC 1071)

    The 16-bit words of a packet in network order, added in one's complement;
    a receiver accepts the packet when the sum is [0xFFFF]. *)

Fixpoint words16 (bs : bytes) : list Z :=
  match bs with
  | hi :: lo :: bs' => hi * 256 + lo :: words16 bs'
  | [hi] => [hi * 256]
  | [] => []
  end.

Definition ones_add (a b : Z) : Z := (a + b) mod 65536 + (a + b) / 65536.

Definition ones_sum (ws : list Z) : Z := foldl ones_add 0 ws.

Definition checksum_ok (bs : bytes) : bool := ones_sum (words16 bs) =? 65535.

Definition is_word (w : Z) : Prop := 0 <= w < 65536.

Lemma ones_add_word a b : is_word a -> is_word b -> is_word (ones_add a b).
Proof.
  unfold is_word, ones_add. intros Ha Hb. pose proof (Z.mod_pos_bound (a + b) 65536).
  pose proof (Z.div_mod (a + b) 65536). lia.
Qed.

Lemma ones_add_mod a b : ones_add a b mod 65535 = (a + b) mod 65535.
Proof.
  unfold ones_add. pose proof (Z.div_mod (a + b) 65536) as H.
  replace (a + b) with ((a + b) mod 65536 + (a + b) / 65536 + (a + b) / 65536 * 65535) at 3 by lia.
  by rewrite Z_mod_plus_full.
Qed.

(** One's complement addition is addition modulo [0xFFFF]. *)
Lemma ones_sum_mod ws acc :
  foldl ones_add acc ws mod 65535 = (acc + foldr Z.add 0 ws) mod 65535.
Proof.
  revert acc. induction ws as [|w ws IH]; intros acc; simpl; [by rewrite Z.add_0_r|].
  rewrite IH, <- Zplus_mod_idemp_l, ones_add_mod, Zplus_mod_idemp_l. f_equal. lia.
Qed.

Lemma htons_word x : is_word x -> is_word (htons x) /\ htons x mod 65535 = (256 * x) mod 65535.
Proof.
  unfold is_word, htons. intros H. pose proof (Z.div_mod x 256). pose proof (Z.mod_pos_bound x 256).
  split; [lia|]. replace (256 * x) with (x mod 256 * 256 + x / 256 + x / 256 * 65535) by lia.
  by rewrite Z_mod_plus_full.
Qed.

(** The bytes of a native word that holds [htons x] are those of [x] in network
    order. *)
Lemma htons_bytes x : is_word x -> le_split 2 (htons x) = be16 x.
Proof.
  intros H. unfold le_split, htons, be16, is_word in *.
  pose proof (Z.div_mod x 256). pose proof (Z.mod_pos_bound x 256).
  rewrite Z.add_comm, Z_mod_plus_full, Z.div_add by lia.
  rewrite (Z.mod_small (x / 256)), (Z.div_small (x / 256)) by lia.
  by rewrite Z.add_0_l, Zmod_mod.
Qed.

Lemma low16 z : Z.land z 65535 = z mod 65536.
Proof. exact (land_mask z 16 ltac:(lia)). Qed.

Lemma lnot16 z : u16 (Z.lnot z) = 65535 - z mod 65536.
Proof.
  unfold u16, wrap, Z.lnot. pose proof (Z.div_mod z 65536). pose proof (Z.mod_pos_bound z 65536).
  replace (Z.pred (- z)) with (65535 - z mod 65536 + (- (z / 65536) - 1) * 65536) by lia.
  rewrite Z_mod_plus_full. apply Z.mod_small. lia.
Qed.

(** The folded sum is a word and completes the plain one to a multiple of
    [0xFFFF]. *)
Lemma fast_checksum_spec id seq :
  is_word id -> is_word seq ->
  is_word (fast_icmp_checksum id seq) /\
  (fast_icmp_checksum id seq + 2048 + id + seq) mod 65535 = 0.
Proof.
  unfold is_word, fast_icmp_checksum. intros Hi Hs. set (s0 := 2048 + id + seq).
  rewrite (u32_small s0), !low16, lnot16 by lia. rewrite !Z.shiftr_div_pow2 by lia.
  change (2 ^ 16) with 65536.
  pose proof (Z.div_mod s0 65536). pose proof (Z.mod_pos_bound s0 65536).
  set (s1 := s0 / 65536 + s0 mod 65536) in *. rewrite (u32_small s1) by lia.
  pose proof (Z.div_mod s1 65536). pose proof (Z.mod_pos_bound s1 65536).
  rewrite (u32_small (s1 + s1 / 65536)) by lia.
  set (s2 := s1 + s1 / 65536) in *.
  pose proof (Z.div_mod s2 65536). pose proof (Z.mod_pos_bound s2 65536).
  assert (s2 / 65536 = s1 / 65536) by lia.
  split; [lia|].
  replace (65535 - s2 mod 65536 + 2048 + id + seq) with ((1 + s0 / 65536 + s1 / 65536) * 65535) by lia.
  apply Z_mod_mult.
Qed.

Lemma words_sum ws : Forall is_word ws -> is_word (ones_sum ws).
Proof.
  unfold ones_sum. assert (H0 : is_word 0) by (unfold is_word; lia). revert H0. generalize 0.
  induction ws as [|w ws IH]; intros acc Ha Hf; simpl; [done|].
  apply Forall_cons in Hf as [Hw Hf]. apply IH; [by apply ones_add_word|done].
Qed.

Lemma ones_sum_pos ws acc : 0 < acc -> Forall is_word ws -> 0 < foldl ones_add acc ws.
Proof.
  revert acc. induction ws as [|w ws IH]; intros acc Ha Hf; simpl; [done|].
  apply Forall_cons in Hf as [Hw Hf]. apply IH; [|done]. unfold ones_add, is_word in *.
  pose proof (Z.div_mod (acc + w) 65536). pose proof (Z.mod_pos_bound (acc + w) 65536). lia.
Qed.

(** The sum of an echo packet is [0xFFFF] exactly when the plain sum is a
    multiple of [0xFFFF]. *)
Lemma ones_sum_full w ws :
  0 < w -> is_word w -> Forall is_word ws ->
  ones_sum (w :: ws) = 65535 <-> (w + foldr Z.add 0 ws) mod 65535 = 0.
Proof.
  intros Hpos Hw Hf. assert (Hf' : Forall is_word (w :: ws)) by (by constructor).
  pose proof (words_sum _ Hf') as Hs. unfold is_word in Hs.
  pose proof (ones_sum_mod (w :: ws) 0) as Hm. fold (ones_sum (w :: ws)) in Hm.
  rewrite Z.add_0_l in Hm. simpl in Hm. rewrite <- Hm. split; [by intros ->|]. intros H0.
  assert (0 < ones_sum (w :: ws)).
  { unfold ones_sum. simpl. apply ones_sum_pos; [|done]. unfold ones_add, is_word in *.
    rewrite Z.add_0_l, Z.mod_small, Z.div_small; lia. }
  apply Z.mod_divide in H0 as [k Hk]; lia.
Qed.

Ltac all_words := repeat (apply Forall_cons_2; [done|]); apply Forall_nil_2.

(** Given the identifier and the sequence number in network order,
    [fast_icmp_checksum] is the RFC 1071 checksum of the echo request: the words
    of the packet add up to [0xFFFF]. *)
Theorem fast_checksum_network_order id seq :
  is_word id -> is_word seq ->
  ones_sum [ICMP_ECHO * 256; fast_icmp_checksum id seq; id; seq] = 65535.
Proof.
  intros Hi Hs. destruct (fast_checksum_spec id seq Hi Hs) as (Hc & Hm).
  apply ones_sum_full; [unfold ICMP_ECHO; lia|unfold is_word, ICMP_ECHO; lia|all_words|].
  simpl. rewrite <- Hm. f_equal. unfold ICMP_ECHO. lia.
Qed.

Lemma fast_checksum_network_order_witness :
  ones_sum [ICMP_ECHO * 256; fast_icmp_checksum 4660 9; 4660; 9] = 65535.
Proof. apply (fast_checksum_network_order 4660 9); unfold is_word; lia. Defined.

(** The words of an IPv4 probe as a receiver reads them. *)
Lemma probe_words gk_id seq :
  is_word gk_id -> is_word seq ->
  words16 (probe_packet false gk_id seq) =
    [2048; htons (fast_icmp_checksum (htons gk_id) (htons seq)); gk_id; seq].
Proof.
  intros Hi Hs. unfold probe_packet. rewrite !htons_bytes by done.
  destruct (htons_word gk_id Hi) as [Hi' _]. destruct (htons_word seq Hs) as [Hs' _].
  destruct (fast_checksum_spec _ _ Hi' Hs') as (Hc & _).
  set (c := fast_icmp_checksum _ _) in *. unfold is_word in *.
  pose proof (Z.div_mod gk_id 256). pose proof (Z.div_mod seq 256).
  unfold be16, htons. simpl. unfold ICMP_ECHO.
  rewrite (Z.mod_small (c / 256)) by (split; [apply Z.div_pos; lia|apply Z.div_lt_upper_bound; lia]).
  repeat f_equal; lia.
Qed.

(** On a little-endian host the checksum of every IPv4 probe is wrong: the
    source adds [0x0800], the first word in network order, to an identifier and
    a sequence number that are in memory order, so no receiver that verifies
    the checksum accepts the packet. *)
Theorem ipv4_probe_checksum_wrong gk_id seq :
  is_word gk_id -> is_word seq -> checksum_ok (probe_packet false gk_id seq) = false.
Proof.
  intros Hi Hs. destruct (htons_word gk_id Hi) as [Hi' Mi]. destruct (htons_word seq Hs) as [Hs' Ms].
  destruct (fast_checksum_spec _ _ Hi' Hs') as (Hc & Hm).
  destruct (htons_word _ Hc) as [Hc' Mc].
  unfold checksum_ok. rewrite probe_words by done. apply Z.eqb_neq.
  rewrite ones_sum_full; [|lia|unfold is_word; lia|all_words].
  simpl. set (c := fast_icmp_checksum _ _) in *. unfold is_word in *.
  apply Z.mod_divide in Hm as [k Hk]; [|lia]. intros H0. apply Z.mod_divide in H0 as [j Hj]; [|lia].
  pose proof (Z.div_mod (htons c) 65535). pose proof (Z.div_mod (256 * c) 65535).
  pose proof (Z.div_mod (htons gk_id) 65535). pose proof (Z.div_mod (256 * gk_id) 65535).
  pose proof (Z.div_mod (htons seq) 65535). pose proof (Z.div_mod (256 * seq) 65535).
  lia.
Qed.

Lemma ipv4_probe_checksum_wrong_witness : checksum_ok (probe_packet false 4660 9) = false.
Proof. apply (ipv4_probe_checksum_wrong 4660 9); unfold is_word; lia. Defined.

(** ** Replies are recognised

    [reply_packet is_v6 type id seq buf]: [buf] is a packet, with any IP
    options or extension headers and any trailing bytes, that answers the probe
    [(id, seq)] with [type]. *)

(** An echo header: type, code and checksum, identifier, sequence number. *)
Definition echo_header (ty id seq : Z) (code_cksum : bytes) : bytes :=
  ty :: code_cksum ++ be16 id ++ be16 seq.

(** An IPv4 header with [ihl] words. *)
Definition ipv4_header (ihl : Z) (rest : bytes) : bytes := (64 + ihl) :: rest.

Definition ipv4_header_ok (ihl : Z) (rest : bytes) : Prop :=
  5 <= ihl <= 15 /\ Z.of_nat (length rest) = ihl * 4 - 1.

(** The extension headers the walk knows: options and routing headers of
    [8 * (len + 1)] bytes, fragment headers of 8, authentication headers of
    [4 * (len + 2)]. *)
Inductive ext_hdr :=
| ExtOptions (kind len : Z) (body : bytes)
| ExtFragment (body : bytes)
| ExtAuth (len : Z) (body : bytes).

Definition ext_kind (e : ext_hdr) : Z :=
  match e with
  | ExtOptions kind _ _ => kind
  | ExtFragment _ => IPPROTO_FRAGMENT
  | ExtAuth _ _ => IPPROTO_AH
  end.

Definition ext_ok (e : ext_hdr) : Prop :=
  match e with
  | ExtOptions kind len body =>
      (kind = IPPROTO_HOPOPTS \/ kind = IPPROTO_ROUTING \/ kind = IPPROTO_DSTOPTS) /\
      0 <= len < 256 /\ Z.of_nat (length body) = 8 * len + 6
  | ExtFragment body => length body = 7%nat
  | ExtAuth len body => 0 <= len < 256 /\ Z.of_nat (length body) = 4 * len + 6
  end.

Definition ext_bytes (e : ext_hdr) (next : Z) : bytes :=
  match e with
  | ExtOptions _ len body => next :: len :: body
  | ExtFragment body => next :: body
  | ExtAuth len body => next :: len :: body
  end.

Definition chain_next (es : list ext_hdr) : Z :=
  match es with [] => IPPROTO_ICMPV6 | e :: _ => ext_kind e end.

Fixpoint chain (es : list ext_hdr) (last : bytes) : bytes :=
  match es with
  | [] => last
  | e :: es' => ext_bytes e (chain_next es') ++ chain es' last
  end.

Definition ipv6_header (plen next : Z) (vtf : bytes) (hops_addrs : bytes) : bytes :=
  vtf ++ be16 plen ++ [next] ++ hops_addrs.

Inductive reply_packet : bool -> nsr_obs_type_t -> Z -> Z -> bytes -> Prop :=
| v4_echo_reply ihl hdr cc id seq rest :
    ipv4_header_ok ihl hdr -> length cc = 3%nat ->
    reply_packet false NSR_OBS_REPLY id seq
      (ipv4_header ihl hdr ++ echo_header ICMP_ECHOREPLY id seq cc ++ rest)
| v4_error ty type ihl hdr icmp ihl' hdr' ety cc id seq rest :
    (ty = ICMP_TIME_EXCEEDED /\ type = NSR_OBS_EXCEEDED \/
     ty = ICMP_DEST_UNREACH /\ type = NSR_OBS_UNREACH) ->
    ipv4_header_ok ihl hdr -> length icmp = 7%nat -> ipv4_header_ok ihl' hdr' -> length cc = 3%nat ->
    reply_packet false type id seq
      (ipv4_header ihl hdr ++ (ty :: icmp) ++ ipv4_header ihl' hdr' ++ echo_header ety id seq cc ++ rest)
| v6_echo_reply cc id seq rest :
    length cc = 3%nat ->
    reply_packet true NSR_OBS_REPLY id seq (echo_header ICMP6_ECHO_REPLY id seq cc ++ rest)
| v6_error ty type icmp plen vtf ha es cc id seq rest :
    (ty = ICMP6_TIME_EXCEEDED /\ type = NSR_OBS_EXCEEDED \/
     ty = ICMP6_DST_UNREACH /\ type = NSR_OBS_UNREACH) ->
    length icmp = 7%nat -> length vtf = 4%nat -> length ha = 33%nat -> length cc = 3%nat ->
    Forall ext_ok es ->
    Z.of_nat (length (chain es (echo_header ICMP6_ECHO_REQUEST id seq cc))) <= plen < 65536 ->
    reply_packet true type id seq
      ((ty :: icmp) ++ ipv6_header plen (chain_next es) vtf ha
       ++ chain es (echo_header ICMP6_ECHO_REQUEST id seq cc) ++ rest).

Lemma be16_read id rest : rd16 (be16 id ++ rest) 0 = Some id.
Proof. unfold rd16, be16, aget. simpl. f_equal. pose proof (Z.div_mod id 256). lia. Qed.

(** The fields of an echo header behind a prefix. *)
Lemma echo_fields pre ty id seq cc rest :
  length cc = 3%nat ->
  let buf := pre ++ echo_header ty id seq cc ++ rest in
  let off := Z.of_nat (length pre) in
  rd8 buf off = Some ty /\ rd16 buf (off + 4) = Some id /\ rd16 buf (off + 6) = Some seq /\
  off + 8 <= Z.of_nat (length buf).
Proof.
  intros Hc. cbv zeta. destruct cc as [|a [|b [|c [|]]]]; try done.
  split_and!.
  - rewrite <- (Z.add_0_r (Z.of_nat (length pre))). unfold rd8. by rewrite aget_app_r.
  - rewrite rd16_app_r by lia. apply (be16_read id (be16 seq ++ rest)).
  - rewrite rd16_app_r by lia. apply (be16_read seq rest).
  - rewrite length_app. simpl. lia.
Qed.

Lemma version_nibble ihl : 5 <= ihl <= 15 -> Z.shiftr (64 + ihl) 4 = 4 /\ Z.land (64 + ihl) 15 = ihl.
Proof.
  intros H. rewrite Z.shiftr_div_pow2 by lia. change 15 with (2 ^ 4 - 1). rewrite land_mask by lia.
  change (2 ^ 4) with 16. split; symmetry; [apply Z.div_unique with ihl|apply Z.mod_unique with 4]; lia.
Qed.

Lemma ipv4_header_length ihl hdr :
  ipv4_header_ok ihl hdr -> Z.of_nat (length (ipv4_header ihl hdr)) = ihl * 4.
Proof. intros [H1 H2]. simpl. lia. Qed.

(** The tests on a well-formed outer header pass. *)
Lemma classify_v4_header ihl hdr body :
  ipv4_header_ok ihl hdr -> (8 <= length body)%nat ->
  classify_v4 (ipv4_header ihl hdr ++ body) =
    (let buf := ipv4_header ihl hdr ++ body in
     let n := Z.of_nat (length buf) in
     ty ← rd8 buf (ihl * 4);
     if ty =? ICMP_ECHOREPLY then
       rid ← rd16 buf (ihl * 4 + 4); rseq ← rd16 buf (ihl * 4 + 6);
       Some (Concerns NSR_OBS_REPLY rid rseq)
     else if (ty =? ICMP_TIME_EXCEEDED) || (ty =? ICMP_DEST_UNREACH) then
       if n <? ihl * 4 + 8 + 20 + 8 then Some Skip
       else
         i0 ← rd8 buf (ihl * 4 + 8);
         if (Z.land i0 15 <? 5) || (n <? ihl * 4 + 8 + Z.land i0 15 * 4 + 8) then Some Skip
         else
           rid ← rd16 buf (ihl * 4 + 8 + Z.land i0 15 * 4 + 4);
           rseq ← rd16 buf (ihl * 4 + 8 + Z.land i0 15 * 4 + 6);
           Some (Concerns (if ty =? ICMP_DEST_UNREACH then NSR_OBS_UNREACH else NSR_OBS_EXCEEDED)
                   rid rseq)
     else Some (Concerns NSR_OBS_NONE 0 0)).
Proof.
  intros Hok Hb. pose proof Hok as [Hi Hl]. pose proof (ipv4_header_length ihl hdr Hok) as Hlen.
  destruct (version_nibble ihl Hi) as [Hv Hn].
  unfold classify_v4. rewrite length_app, Nat2Z.inj_add, Hlen.
  replace (_ <? 20) with false by lia.
  change (rd8 (ipv4_header ihl hdr ++ body) 0) with (Some (64 + ihl)).
  cbn [mbind option_bind]. rewrite Hv, Hn. cbn [negb Z.eqb Pos.eqb].
  by replace ((ihl <? 5) || _) with false by lia.
Qed.

Lemma classify_v4_reply ihl hdr cc id seq rest :
  ipv4_header_ok ihl hdr -> length cc = 3%nat ->
  classify_v4 (ipv4_header ihl hdr ++ echo_header ICMP_ECHOREPLY id seq cc ++ rest)
  = Some (Concerns NSR_OBS_REPLY id seq).
Proof.
  intros Hok Hc. rewrite classify_v4_header; [|done|simpl; rewrite !length_app; simpl; lia].
  rewrite <- (ipv4_header_length ihl hdr) by done.
  destruct (echo_fields (ipv4_header ihl hdr) ICMP_ECHOREPLY id seq cc rest Hc) as (E1 & E2 & E3 & _).
  cbv zeta. by rewrite E1, E2, E3.
Qed.

Lemma classify_v4_error ty ihl hdr icmp ihl' hdr' ety cc id seq rest :
  ty = ICMP_TIME_EXCEEDED \/ ty = ICMP_DEST_UNREACH ->
  ipv4_header_ok ihl hdr -> length icmp = 7%nat -> ipv4_header_ok ihl' hdr' -> length cc = 3%nat ->
  classify_v4 (ipv4_header ihl hdr ++ (ty :: icmp) ++ ipv4_header ihl' hdr'
               ++ echo_header ety id seq cc ++ rest)
  = Some (Concerns (if ty =? ICMP_DEST_UNREACH then NSR_OBS_UNREACH else NSR_OBS_EXCEEDED) id seq).
Proof.
  intros Hty Hok Hic Hok' Hc.
  set (inner := ipv4_header ihl' hdr' ++ echo_header ety id seq cc ++ rest).
  set (pre := ipv4_header ihl hdr ++ (ty :: icmp)).
  pose proof (ipv4_header_length ihl hdr Hok) as Hl. pose proof (ipv4_header_length ihl' hdr' Hok') as Hl'.
  pose proof Hok' as [Hi' _]. destruct (version_nibble ihl' Hi') as [_ Hn'].
  assert (Hpre : Z.of_nat (length pre) = ihl * 4 + 8).
  { unfold pre. rewrite length_app. simpl in *. lia. }
  assert (Ety : rd8 (pre ++ inner) (ihl * 4) = Some ty).
  { unfold pre. rewrite <- app_assoc, <- Hl, <- (Z.add_0_r (Z.of_nat _)). unfold rd8.
    by rewrite aget_app_r. }
  assert (Ei0 : rd8 (pre ++ inner) (ihl * 4 + 8) = Some (64 + ihl')).
  { rewrite <- Hpre, <- (Z.add_0_r (Z.of_nat _)). unfold rd8. by rewrite aget_app_r. }
  destruct (echo_fields (pre ++ ipv4_header ihl' hdr') ety id seq cc rest Hc) as (_ & E2 & E3 & E4).
  rewrite length_app, Nat2Z.inj_add, Hpre, Hl' in E2, E3, E4.
  rewrite <- (app_assoc pre) in E2, E3, E4. fold inner in E2, E3, E4.
  rewrite classify_v4_header; [|done|rewrite length_app; simpl; lia].
  fold inner. rewrite (app_assoc (ipv4_header ihl hdr)). fold pre. cbv zeta.
  rewrite Ety. cbn [mbind option_bind].
  replace (ty =? ICMP_ECHOREPLY) with false by (destruct Hty; subst; reflexivity).
  replace ((ty =? ICMP_TIME_EXCEEDED) || _) with true by (destruct Hty; subst; reflexivity).
  replace (_ <? ihl * 4 + 8 + 20 + 8) with false by lia. rewrite Ei0. cbn [mbind option_bind].
  rewrite Hn'. replace ((ihl' <? 5) || _) with false by lia. by rewrite E2, E3.
Qed.

Lemma first_byte pre a rest : rd8 (pre ++ a :: rest) (Z.of_nat (length pre)) = Some a.
Proof. unfold rd8. rewrite <- (Z.add_0_r (Z.of_nat _)). by rewrite aget_app_r. Qed.

Lemma second_byte pre a b rest :
  rd8 (pre ++ a :: b :: rest) (Z.of_nat (length pre) + 1) = Some b.
Proof. unfold rd8. by rewrite aget_app_r. Qed.

(** One extension header is skipped, whatever follows. *)
Lemma ext_step e next fuel pre tail end_ :
  ext_ok e -> Z.of_nat (length pre + length (ext_bytes e next)) <= end_ ->
  ext_loop (S fuel) (pre ++ ext_bytes e next ++ tail) (ext_kind e) (Z.of_nat (length pre)) end_
  = ext_loop fuel (pre ++ ext_bytes e next ++ tail) next
      (Z.of_nat (length (pre ++ ext_bytes e next))) end_.
Proof.
  intros Hok He. cbn [ext_loop]. rewrite length_app.
  destruct e as [kind len body|body|len body]; cbn [ext_kind ext_bytes] in *; simpl in Hok, He.
  - destruct Hok as (Hk & Hlen & Hbody).
    replace (_ || _) with true by (destruct Hk as [->|[->| ->]]; reflexivity).
    replace (end_ <? _) with false by lia.
    cbn [app]. rewrite first_byte, second_byte. cbn [mbind option_bind].
    replace (_ || _) with false by lia. f_equal. simpl. lia.
  - replace ((_ || _) || _) with false by reflexivity. change (IPPROTO_FRAGMENT =? IPPROTO_FRAGMENT) with true.
    cbv iota. replace (end_ <? _) with false by lia.
    cbn [app]. rewrite first_byte. cbn [mbind option_bind]. f_equal. simpl. lia.
  - destruct Hok as (Hlen & Hbody). replace ((_ || _) || _) with false by reflexivity.
    change (IPPROTO_AH =? IPPROTO_FRAGMENT) with false. change (IPPROTO_AH =? IPPROTO_AH) with true.
    cbv iota. replace (end_ <? _) with false by lia.
    cbn [app]. rewrite first_byte, second_byte. cbn [mbind option_bind].
    replace (_ || _) with false by lia. f_equal. simpl. lia.
Qed.

(** The walk finds the echo request behind any chain of extension headers. *)
Lemma ext_loop_chain es fuel pre id seq cc rest end_ :
  Forall ext_ok es -> length cc = 3%nat ->
  let ch := chain es (echo_header ICMP6_ECHO_REQUEST id seq cc) in
  (length ch < fuel)%nat -> Z.of_nat (length pre) + Z.of_nat (length ch) <= end_ ->
  ext_loop fuel (pre ++ ch ++ rest) (chain_next es) (Z.of_nat (length pre)) end_
  = Some (Some (id, seq)).
Proof.
  intros Hes Hc. revert fuel pre. induction es as [|e es IH]; intros fuel pre; cbv zeta;
    (destruct fuel as [|fuel]; [lia|]); intros Hf He.
  - cbn [chain chain_next ext_loop]. simpl in He. rewrite !length_app in He. simpl in He.
    replace ((_ || _) || _) with false by reflexivity.
    change (IPPROTO_ICMPV6 =? IPPROTO_FRAGMENT) with false.
    change (IPPROTO_ICMPV6 =? IPPROTO_AH) with false.
    change (IPPROTO_ICMPV6 =? IPPROTO_ICMPV6) with true. cbv iota.
    replace (end_ <? _) with false by lia.
    destruct (echo_fields pre ICMP6_ECHO_REQUEST id seq cc rest Hc) as (E1 & E2 & E3 & _).
    rewrite E1. cbn [mbind option_bind]. by rewrite E2, E3.
  - apply Forall_cons in Hes as [Hok Hes]. cbn [chain chain_next] in *. rewrite length_app in Hf, He.
    rewrite <- app_assoc, ext_step by (done || lia).
    rewrite app_assoc. apply (IH Hes); [|rewrite length_app; lia].
    destruct e; simpl in *; lia.
Qed.

Lemma parse_original_chain ty icmp plen vtf ha es id seq cc rest :
  length icmp = 7%nat -> length vtf = 4%nat -> length ha = 33%nat -> length cc = 3%nat ->
  Forall ext_ok es ->
  Z.of_nat (length (chain es (echo_header ICMP6_ECHO_REQUEST id seq cc))) <= plen ->
  parse_ipv6_original_icmp6
    ((ty :: icmp) ++ ipv6_header plen (chain_next es) vtf ha
     ++ chain es (echo_header ICMP6_ECHO_REQUEST id seq cc) ++ rest) 8
  = Some (Some (id, seq)).
Proof.
  intros Hic Hv Hh Hc Hes Hpl. set (ch := chain _ _) in *.
  destruct vtf as [|v0 [|v1 [|v2 [|v3 [|]]]]]; try done.
  set (hd := ipv6_header plen (chain_next es) [v0; v1; v2; v3] ha).
  assert (Hhd : length hd = 40%nat) by (unfold hd, ipv6_header; simpl; lia).
  unfold parse_ipv6_original_icmp6. rewrite !length_app, Hhd.
  cbn [length]. rewrite Hic. rewrite (proj2 (Z.ltb_ge _ (8 + 40))) by lia.
  assert (Hn : rd8 ((ty :: icmp) ++ hd ++ ch ++ rest) (8 + 6) = Some (chain_next es)).
  { change 8 with (Z.of_nat 8). rewrite <- Hic.
    change (S (length icmp)) with (length (ty :: icmp)). unfold rd8. by rewrite aget_app_r. }
  assert (Hp : rd16 ((ty :: icmp) ++ hd ++ ch ++ rest) (8 + 4) = Some plen).
  { change 8 with (Z.of_nat 8). rewrite <- Hic.
    change (S (length icmp)) with (length (ty :: icmp)). rewrite rd16_app_r by lia.
    exact (be16_read plen (([chain_next es] ++ ha) ++ ch ++ rest)). }
  rewrite Hn. cbn [mbind option_bind]. rewrite Hp. cbn [mbind option_bind].
  rewrite app_assoc. replace (8 + 40) with (Z.of_nat (length ((ty :: icmp) ++ hd)))
    by (rewrite length_app; simpl; lia).
  apply ext_loop_chain; [done|done|fold ch; lia|]. fold ch. rewrite length_app. simpl.
  split_if; bool_facts; lia.
Qed.

Lemma reply_classified is_v6 type id seq buf :
  reply_packet is_v6 type id seq buf -> classify is_v6 buf = Some (Concerns type id seq).
Proof.
  intros [ihl hdr cc i s rest Hok Hc
         |ty t ihl hdr icmp ihl' hdr' ety cc i s rest Hty Hok Hic Hok' Hc
         |cc i s rest Hc
         |ty t icmp plen vtf ha es cc i s rest Hty Hic Hv Hh Hc Hes Hpl].
  - by apply classify_v4_reply.
  - etransitivity; [apply (classify_v4_error ty ihl hdr icmp ihl' hdr' ety cc i s rest);
                   [destruct Hty as [[? _]|[? _]]; auto|done..]|].
    destruct Hty as [[-> ->]|[-> ->]]; reflexivity.
  - destruct (echo_fields [] ICMP6_ECHO_REPLY i s cc rest Hc) as (E1 & E2 & E3 & E4).
    rewrite app_nil_l in *. change (Z.of_nat (length [])) with 0 in *. rewrite Z.add_0_l in *.
    change (classify true ?b) with (classify_v6 b). unfold classify_v6.
    rewrite (proj2 (Z.ltb_ge _ 8)), E1 by done. cbn [mbind option_bind].
    change (ICMP6_ECHO_REPLY =? ICMP6_ECHO_REPLY) with true. cbv iota. by rewrite E2, E3.
  - change (classify true ?b) with (classify_v6 b). unfold classify_v6. rewrite !length_app. cbn [length].
    rewrite (proj2 (Z.ltb_ge _ 8)) by lia.
    change (rd8 ((ty :: icmp) ++ ?x) 0) with (Some ty). cbn [mbind option_bind].
    rewrite parse_original_chain by (done || lia). cbn [mbind option_bind].
    destruct Hty as [[-> ->]|[-> ->]]; reflexivity.
Qed.

(** C6: every packet that answers a probe is recognised, with its kind and the
    probe's identifier and sequence number: echo replies, time exceeded and
    unreachable errors, for IPv4 with any options in the outer and the quoted
    header, for IPv6 behind any chain of extension headers. *)
Theorem replies_recognised is_v6 type id seq buf :
  reply_packet is_v6 type id seq buf -> classify is_v6 buf = Some (Concerns type id seq).
Proof. exact (reply_classified is_v6 type id seq buf). Qed.

(** A time exceeded that quotes a probe behind a hop-by-hop header and a fragment
    header. *)
Definition sample_chain : list ext_hdr :=
  [ExtOptions IPPROTO_HOPOPTS 0 (replicate 6 1); ExtFragment (replicate 7 0)].

Definition sample_v6_error : bytes :=
  (ICMP6_TIME_EXCEEDED :: replicate 7 0)
  ++ ipv6_header 24 (chain_next sample_chain) [96; 0; 0; 0] (replicate 33 7)
  ++ chain sample_chain (echo_header ICMP6_ECHO_REQUEST 4660 9 [0; 0; 0]) ++ [].

Lemma replies_recognised_witness :
  classify true sample_v6_error = Some (Concerns NSR_OBS_EXCEEDED 4660 9).
Proof.
  apply (replies_recognised true NSR_OBS_EXCEEDED 4660 9 sample_v6_error).
  apply v6_error; try reflexivity; [left; split; reflexivity| |simpl; lia].
  repeat constructor; simpl; lia || (left; reflexivity).
Defined.
