(* ===== verification/Gatekeeper.v ===== *)
(** * The gatekeeper (src/io/gatekeeper.c)

    The process that owns the raw socket: the table of probes in flight, the
    sending half and the receiving half of its loop.  The socket calls are
    inputs: the number of messages [sendmmsg] accepted and the batches
    [recvmmsg] returned. *)

From stdpp Require Import gmap.
From S2P Require Import Prelude Telemetry ShmRing Icmp.

Record nsr_inflight_t := mk_inflight {
  if_seq : Z;
  if_ttl : Z;
  if_sent_us : Z;
  if_active : bool;
}.

(** The table has an entry for each of the 65536 sequence numbers; an entry
    never written is the zero entry. *)
Abbreviation inflight_table := (gmap Z nsr_inflight_t).

Record gk_t := mk_gk {
  g_inflight : inflight_table;
  g_gk_id : Z;
  last_reap : Z;
}.

Definition zero_inflight : nsr_inflight_t :=
  {| if_seq := 0; if_ttl := 0; if_sent_us := 0; if_active := false |}.

Definition entry (t : inflight_table) (idx : Z) : nsr_inflight_t := default zero_inflight (t !! idx).

Definition deactivate (e : nsr_inflight_t) : nsr_inflight_t :=
  {| if_seq := if_seq e; if_ttl := if_ttl e; if_sent_us := if_sent_us e; if_active := false |}.

Definition with_table (g : gk_t) (t : inflight_table) : gk_t :=
  {| g_inflight := t; g_gk_id := g_gk_id g; last_reap := last_reap g |}.

(** ** Probes in flight *)

Definition track_probe (t : inflight_table) (ttl seq now_us : Z) : inflight_table :=
  let idx := seq mod NSR_GK_MAX_INFLIGHT in
  <[idx := {| if_seq := seq; if_ttl := ttl; if_sent_us := now_us; if_active := true |}]> t.

Definition find_probe (t : inflight_table) (seq : Z) : option (Z * Z) * inflight_table :=
  let idx := seq mod NSR_GK_MAX_INFLIGHT in
  let e := entry t idx in
  if if_active e && (if_seq e =? seq) then
    (Some (if_ttl e, if_sent_us e), <[idx := deactivate e]> t)
  else (None, t).

Definition drop_probe (t : inflight_table) (seq : Z) : inflight_table :=
  let idx := seq mod NSR_GK_MAX_INFLIGHT in
  let e := entry t idx in
  if if_active e && (if_seq e =? seq) then <[idx := deactivate e]> t else t.

Definition reap_entry (now_us : Z) (e : nsr_inflight_t) : nsr_inflight_t :=
  if if_active e && (5000000 <? u64 (now_us - if_sent_us e)) then deactivate e else e.

Definition reap_stale_inflight (g : gk_t) (now_us : Z) : gk_t :=
  if u64 (now_us - last_reap g) <? 1000000 then g
  else {| g_inflight := reap_entry now_us <$> g_inflight g; g_gk_id := g_gk_id g; last_reap := now_us |}.

(** ** Sending *)

(** A message handed to [sendmmsg]: the TTL of its control data and its bytes. *)
Definition message (is_v6 : bool) (gk_id : Z) (i : nsr_intent_t) : Z * bytes :=
  (in_ttl i, probe_packet is_v6 gk_id (in_seq i)).

Definition track_all (t : inflight_table) (now_us : Z) (intents : list nsr_intent_t) : inflight_table :=
  foldl (fun t i => track_probe t (in_ttl i) (in_seq i) now_us) t intents.

Definition drop_all (t : inflight_table) (intents : list nsr_intent_t) : inflight_table :=
  foldl (fun t i => drop_probe t (in_seq i)) t intents.

(** [accepted] is the result of [sendmmsg]: negative on error, otherwise the
    number of messages sent. *)
Definition send_batch (g : gk_t) (is_v6 : bool) (intents : list nsr_intent_t) (now_us accepted : Z)
  : list (Z * bytes) * gk_t :=
  let t := track_all (g_inflight g) now_us intents in
  let n_intents := Z.of_nat (length intents) in
  let t' :=
    if 0 <? n_intents then
      if accepted <? 0 then drop_all t intents
      else if accepted <? n_intents then drop_all t (drop (Z.to_nat accepted) intents)
      else t
    else t in
  (map (message is_v6 (g_gk_id g)) intents, with_table g t').

(** ** Receiving *)

Record received := mk_received {
  rx_buf : bytes;
  rx_from : list Z;
}.

(** The observation for a packet of [type] about the probe [rseq]; the IPv4
    address overwrites the first four bytes of the slot's old content. *)
Definition observation_of (is_v6 : bool) (now_us : Z) (old from : list Z) (type : nsr_obs_type_t)
    (rseq ttl sts : Z) : nsr_observation_t :=
  {| ob_ttl := ttl; ob_seq := rseq; ob_rtt_us := u64 (now_us - sts); ob_type := type;
     ob_addr_bin := if is_v6 then take 16 from else take 4 from ++ drop 4 old; ob_is_v6 := is_v6 |}.

Definition handle_packet (g : gk_t) (is_v6 : bool) (now_us : Z) (old : list Z) (rx : received)
  : option (option nsr_observation_t * gk_t) :=
  v ← classify is_v6 (rx_buf rx);
  match v with
  | Skip => Some (None, g)
  | Concerns type rid rseq =>
      if negb (bool_decide (type = NSR_OBS_NONE)) && (rid =? g_gk_id g) then
        match find_probe (g_inflight g) rseq with
        | (Some (ttl, sts), t') =>
            Some (Some (observation_of is_v6 now_us old (rx_from rx) type rseq ttl sts), with_table g t')
        | (None, _) => Some (None, g)
        end
      else Some (None, g)
  end.

(** [stale k] is the old address field of [batch_obs[k]]. *)
Fixpoint receive_batch (g : gk_t) (is_v6 : bool) (now_us : Z) (stale : nat -> list Z) (obs_count : nat)
    (rxs : list received) : option (list nsr_observation_t * gk_t) :=
  match rxs with
  | [] => Some ([], g)
  | rx :: rxs' =>
      '(o, g1) ← handle_packet g is_v6 now_us (stale obs_count) rx;
      match o with
      | Some ob =>
          '(obs, g2) ← receive_batch g1 is_v6 now_us stale (S obs_count) rxs';
          Some (ob :: obs, g2)
      | None => receive_batch g1 is_v6 now_us stale obs_count rxs'
      end
  end.

(** ** The table as a map of outstanding probes *)

Definition live (e : nsr_inflight_t) : option (Z * Z) :=
  if if_active e then Some (if_ttl e, if_sent_us e) else None.

(** Sequence number to TTL and time of sending. *)
Definition outstanding (t : inflight_table) : gmap Z (Z * Z) := omap live t.

Definition table_wf (t : inflight_table) : Prop :=
  map_Forall (fun k e => is_word k /\ if_seq e = k) t.

Lemma idx_word seq : is_word seq -> seq mod NSR_GK_MAX_INFLIGHT = seq.
Proof. apply Z.mod_small. Qed.

Lemma outstanding_entry t seq : outstanding t !! seq = live (entry t seq).
Proof. unfold outstanding, entry. rewrite lookup_omap. by destruct (t !! seq). Qed.

Lemma entry_seq t seq : table_wf t -> if_active (entry t seq) = true -> if_seq (entry t seq) = seq.
Proof.
  intros Hwf Ha. unfold entry in *. destruct (t !! seq) as [e|] eqn:E; [|done].
  by destruct (Hwf seq e E).
Qed.

Lemma track_spec t ttl seq now :
  table_wf t -> is_word seq ->
  table_wf (track_probe t ttl seq now) /\
  outstanding (track_probe t ttl seq now) = <[seq := (ttl, now)]> (outstanding t).
Proof.
  intros Hwf Hs. unfold track_probe. rewrite idx_word by done. split.
  - by apply map_Forall_insert_2.
  - unfold outstanding. by rewrite (omap_insert_Some _ _ _ _ (ttl, now)).
Qed.

Lemma deactivate_spec t seq e :
  table_wf t -> is_word seq -> if_seq e = seq ->
  table_wf (<[seq := deactivate e]> t) /\
  outstanding (<[seq := deactivate e]> t) = delete seq (outstanding t).
Proof.
  intros Hwf Hs He. split; [by apply map_Forall_insert_2|].
  unfold outstanding. by rewrite omap_insert_None.
Qed.

Lemma find_spec t seq :
  table_wf t -> is_word seq ->
  let '(r, t') := find_probe t seq in
  r = outstanding t !! seq /\ table_wf t' /\ outstanding t' = delete seq (outstanding t).
Proof.
  intros Hwf Hs. unfold find_probe. rewrite idx_word by done. rewrite outstanding_entry.
  unfold live. destruct (if_active (entry t seq)) eqn:Ea; simpl.
  - pose proof (entry_seq t seq Hwf Ea) as Hq. rewrite (proj2 (Z.eqb_eq _ _) Hq).
    destruct (deactivate_spec t seq (entry t seq) Hwf Hs Hq). done.
  - split_and!; [done..|]. rewrite delete_id; [done|]. rewrite outstanding_entry. unfold live. by rewrite Ea.
Qed.

Lemma drop_spec t seq :
  table_wf t -> is_word seq ->
  table_wf (drop_probe t seq) /\ outstanding (drop_probe t seq) = delete seq (outstanding t).
Proof.
  intros Hwf Hs. pose proof (find_spec t seq Hwf Hs) as Hf.
  unfold find_probe, drop_probe in *. destruct (_ && _); by destruct Hf as (_ & ? & ?).
Qed.

Lemma reap_spec g now :
  table_wf (g_inflight g) ->
  table_wf (g_inflight (reap_stale_inflight g now)) /\
  outstanding (g_inflight (reap_stale_inflight g now)) =
    (if u64 (now - last_reap g) <? 1000000 then outstanding (g_inflight g)
     else filter (fun p => u64 (now - p.2.2) <= 5000000) (outstanding (g_inflight g))).
Proof.
  intros Hwf. unfold reap_stale_inflight. split_if; [done|]. simpl. split.
  - intros k e He. apply lookup_fmap_Some in He as (e0 & <- & He0). destruct (Hwf k e0 He0).
    unfold reap_entry. by split_if.
  - apply map_eq. intros k. unfold outstanding. rewrite lookup_omap, lookup_fmap.
    rewrite map_lookup_filter, lookup_omap.
    destruct (g_inflight g !! k) as [e|]; [|done]. simpl. unfold live, reap_entry.
    destruct (if_active e) eqn:Ea; simpl; [|by rewrite Ea].
    destruct (5000000 <? _) eqn:Et; bool_facts; simpl.
    + rewrite option_guard_False; [done|lia].
    + rewrite option_guard_True by lia. by rewrite Ea.
Qed.

Inductive table_op :=
| OpTrack (ttl seq now : Z)
| OpFind (seq : Z)
| OpDrop (seq : Z).

Definition op_ok (o : table_op) : Prop :=
  match o with OpTrack _ seq _ | OpFind seq | OpDrop seq => is_word seq end.

Fixpoint run_table (t : inflight_table) (ops : list table_op) : list (option (Z * Z)) * inflight_table :=
  match ops with
  | [] => ([], t)
  | OpTrack ttl seq now :: ops' => run_table (track_probe t ttl seq now) ops'
  | OpDrop seq :: ops' => run_table (drop_probe t seq) ops'
  | OpFind seq :: ops' =>
      let '(r, t') := find_probe t seq in
      let '(rs, t'') := run_table t' ops' in (r :: rs, t'')
  end.

Fixpoint run_map (m : gmap Z (Z * Z)) (ops : list table_op) : list (option (Z * Z)) * gmap Z (Z * Z) :=
  match ops with
  | [] => ([], m)
  | OpTrack ttl seq now :: ops' => run_map (<[seq := (ttl, now)]> m) ops'
  | OpDrop seq :: ops' => run_map (delete seq m) ops'
  | OpFind seq :: ops' =>
      let '(rs, m') := run_map (delete seq m) ops' in (m !! seq :: rs, m')
  end.

(** The table of probes in flight behaves as a map from sequence numbers to
    the TTL and time of sending: any sequence of operations on the table gives
    the results the map operations give. *)
Theorem inflight_refines_map t ops :
  table_wf t -> Forall op_ok ops ->
  let '(rs, t') := run_table t ops in
  table_wf t' /\ run_map (outstanding t) ops = (rs, outstanding t').
Proof.
  revert t. induction ops as [|[ttl seq now|seq|seq] ops IH]; intros t Hwf Hok; simpl; [done|..];
    apply Forall_cons in Hok as [Ho Hok]; simpl in Ho.
  - destruct (track_spec t ttl seq now Hwf Ho) as [Hwf' <-]. by apply IH.
  - pose proof (find_spec t seq Hwf Ho) as Hf. destruct (find_probe t seq) as [r t1].
    destruct Hf as (-> & Hwf' & <-). specialize (IH t1 Hwf' Hok).
    destruct (run_table t1 ops) as [rs t2]. destruct IH as [? ->]. done.
  - destruct (drop_spec t seq Hwf Ho) as [Hwf' <-]. by apply IH.
Qed.

Lemma table_wf_empty : table_wf ∅.
Proof. apply map_Forall_empty. Qed.

Lemma inflight_refines_map_witness :
  let '(rs, t') := run_table ∅ [OpTrack 3 70 5; OpFind 70; OpFind 70] in
  table_wf t' /\ run_map (outstanding ∅) [OpTrack 3 70 5; OpFind 70; OpFind 70] = (rs, outstanding t').
Proof.
  apply (inflight_refines_map ∅ [OpTrack 3 70 5; OpFind 70; OpFind 70]);
    [apply table_wf_empty|repeat constructor; simpl; lia].
Defined.

(** A look-up needs no range condition: an index outside the 16-bit range never
    matches the stored sequence number. *)
Lemma find_spec_any t seq :
  table_wf t ->
  let '(r, t') := find_probe t seq in
  r = outstanding t !! seq /\ table_wf t' /\ outstanding t' = delete seq (outstanding t).
Proof.
  intros Hwf. destruct (decide (0 <= seq < 65536)) as [Hs|Hs]; [by apply find_spec|].
  assert (Hnone : outstanding t !! seq = None).
  { unfold outstanding. rewrite lookup_omap. destruct (t !! seq) as [e|] eqn:E; [|done].
    by destruct (Hwf seq e E). }
  unfold find_probe. destruct (_ && _) eqn:Em; [|by rewrite delete_id].
  exfalso. bool_facts. pose proof (entry_seq t _ Hwf H) as He. rewrite H0 in He.
  pose proof (Z.mod_pos_bound seq NSR_GK_MAX_INFLIGHT). unfold NSR_GK_MAX_INFLIGHT in *. lia.
Qed.

(** ** Sending *)

Definition seqs (intents : list nsr_intent_t) : list Z := map in_seq intents.

Lemma track_all_spec t now intents :
  table_wf t -> Forall is_word (seqs intents) ->
  table_wf (track_all t now intents) /\
  (forall q, q ∉ seqs intents -> outstanding (track_all t now intents) !! q = outstanding t !! q) /\
  (NoDup (seqs intents) -> forall i, i ∈ intents ->
     outstanding (track_all t now intents) !! in_seq i = Some (in_ttl i, now)).
Proof.
  unfold track_all. revert t. induction intents as [|i intents IH]; intros t Hwf Hw; simpl.
  - split_and!; [done..|]. intros _ i Hi. by apply not_elem_of_nil in Hi.
  - apply Forall_cons in Hw as [Hi Hw].
    destruct (track_spec t (in_ttl i) (in_seq i) now Hwf Hi) as [Hwf1 Ho1].
    destruct (IH _ Hwf1 Hw) as (Hwf2 & Hout & Hin). split_and!; [done|..].
    + intros q Hq. apply not_elem_of_cons in Hq as [Hne Hq]. rewrite Hout by done.
      by rewrite Ho1, lookup_insert_ne.
    + intros Hnd j Hj. apply NoDup_cons in Hnd as [Hni Hnd].
      apply elem_of_cons in Hj as [->|Hj]; [|by apply Hin].
      rewrite Hout by done. by rewrite Ho1, lookup_insert_eq.
Qed.

Lemma drop_all_spec t intents :
  table_wf t -> Forall is_word (seqs intents) ->
  table_wf (drop_all t intents) /\
  forall q, outstanding (drop_all t intents) !! q =
    (if decide (q ∈ seqs intents) then None else outstanding t !! q).
Proof.
  unfold drop_all. revert t. induction intents as [|i intents IH]; intros t Hwf Hw; simpl.
  - done.
  - apply Forall_cons in Hw as [Hi Hw]. destruct (drop_spec t (in_seq i) Hwf Hi) as [Hwf1 Ho1].
    destruct (IH _ Hwf1 Hw) as (Hwf2 & Hq). split; [done|]. intros q. rewrite Hq, Ho1.
    destruct (decide (q = in_seq i)) as [->|Hne].
    + rewrite lookup_delete_eq. rewrite (decide_True (P := in_seq i ∈ in_seq i :: seqs intents)) by (by left).
      by destruct (decide _).
    + rewrite lookup_delete_ne by done.
      destruct (decide (q ∈ seqs intents)) as [H|H].
      * by rewrite decide_True by (by right).
      * rewrite decide_False; [done|]. by apply not_elem_of_cons.
Qed.

(** The number of leading messages that were sent. *)
Definition accepted_count (intents : list nsr_intent_t) (accepted : Z) : nat :=
  Z.to_nat (Z.min accepted (Z.of_nat (length intents))).

Lemma send_batch_table g is_v6 intents now accepted :
  g_inflight (send_batch g is_v6 intents now accepted).2 =
    drop_all (track_all (g_inflight g) now intents) (drop (accepted_count intents accepted) intents).
Proof.
  unfold send_batch, accepted_count. cbn [snd g_inflight with_table].
  destruct intents as [|i0 is0]; [by rewrite !drop_nil|]. set (intents := i0 :: is0).
  assert (Hn : 0 < Z.of_nat (length intents)) by (simpl; lia).
  rewrite (proj2 (Z.ltb_lt _ _) Hn). destruct (accepted <? 0) eqn:Ea; bool_facts.
  - by replace (Z.to_nat (Z.min _ _)) with 0%nat by lia.
  - destruct (accepted <? _) eqn:El; bool_facts; [by rewrite Z.min_l by lia|].
    rewrite drop_ge; [done|]. lia.
Qed.

(** After a batch was handed to the socket, a probe of the batch is
    outstanding, with its TTL and the time of sending, exactly if the socket
    accepted it; a rejected probe leaves nothing behind, and probes that are not
    in the batch are untouched. *)
Theorem send_tracks_accepted g is_v6 intents now accepted :
  table_wf (g_inflight g) -> Forall is_word (seqs intents) -> NoDup (seqs intents) ->
  let '(msgs, g') := send_batch g is_v6 intents now accepted in
  msgs = map (message is_v6 (g_gk_id g)) intents /\ table_wf (g_inflight g') /\
  (forall j i, intents !! j = Some i ->
     outstanding (g_inflight g') !! in_seq i =
       (if (Z.of_nat j <? accepted)%Z then Some (in_ttl i, now) else None)) /\
  (forall q, q ∉ seqs intents -> outstanding (g_inflight g') !! q = outstanding (g_inflight g) !! q).
Proof.
  intros Hwf Hw Hnd. pose proof (send_batch_table g is_v6 intents now accepted) as Ht.
  destruct (send_batch g is_v6 intents now accepted) as [msgs g'] eqn:E. simpl in Ht. rewrite Ht.
  set (k := accepted_count intents accepted) in *.
  destruct (track_all_spec (g_inflight g) now intents Hwf Hw) as (Hwf1 & Hout & Hin).
  assert (Hsplit : seqs intents = seqs (take k intents) ++ seqs (drop k intents)).
  { unfold seqs. by rewrite <- map_app, take_drop. }
  assert (Hwd : Forall is_word (seqs (drop k intents))).
  { rewrite Hsplit in Hw. by apply Forall_app in Hw as [_ ?]. }
  destruct (drop_all_spec _ (drop k intents) Hwf1 Hwd) as (Hwf2 & Hdrop).
  split_and!; [by injection E|done| |].
  - intros j i Hj. rewrite Hdrop. pose proof (lookup_lt_Some _ _ _ Hj) as Hlt.
    assert (Hiff : in_seq i ∈ seqs (drop k intents) <-> (k <= j)%nat).
    { unfold seqs. split.
      - intros Hin'. destruct (decide (k <= j)%nat) as [|Hlt']; [done|]. exfalso.
        rewrite Hsplit in Hnd. apply NoDup_app in Hnd as (_ & Hdis & _). apply (Hdis (in_seq i)); [|done].
        apply list_elem_of_fmap. exists i. split; [done|]. apply list_elem_of_lookup. exists j.
        by rewrite lookup_take_lt by lia.
      - intros Hle. apply list_elem_of_fmap. exists i. split; [done|].
        apply list_elem_of_lookup. exists (j - k)%nat. rewrite lookup_drop. by replace (k + (j - k))%nat with j by lia. }
    assert (Hk : k = accepted_count intents accepted) by done. unfold accepted_count in Hk.
    clearbody k. destruct (Z.of_nat j <? accepted) eqn:Ej; bool_facts.
    + rewrite decide_False by (rewrite Hiff; lia). apply Hin; [done|]. by eapply list_elem_of_lookup_2.
    + rewrite decide_True by (rewrite Hiff; lia). done.
  - intros q Hq. rewrite Hdrop, decide_False; [by apply Hout|].
    intros Hin'. apply Hq. rewrite Hsplit. apply elem_of_app. by right.
Qed.

Definition idle_gk : gk_t := {| g_inflight := ∅; g_gk_id := 4660; last_reap := 0 |}.

Lemma send_tracks_accepted_witness :
  let xs := [sample_intent 1; sample_intent 2] in
  let '(msgs, g') := send_batch idle_gk false xs 50 1 in
  msgs = map (message false (g_gk_id idle_gk)) xs /\ table_wf (g_inflight g') /\
  (forall j i, xs !! j = Some i ->
     outstanding (g_inflight g') !! in_seq i =
       (if (Z.of_nat j <? 1)%Z then Some (in_ttl i, 50) else None)) /\
  (forall q, q ∉ seqs xs -> outstanding (g_inflight g') !! q = outstanding (g_inflight idle_gk) !! q).
Proof.
  apply (send_tracks_accepted idle_gk false [sample_intent 1; sample_intent 2] 50 1).
  - apply table_wf_empty.
  - repeat constructor; simpl; lia.
  - apply (bool_decide_unpack _). vm_compute. exact I.
Defined.

(** ** Receiving *)

(** [o] is what a packet about the outstanding probe [(ttl, sts)] must yield. *)
Definition reports (g : gk_t) (is_v6 : bool) (now : Z) (o : nsr_observation_t) : Prop :=
  exists sts, outstanding (g_inflight g) !! ob_seq o = Some (ob_ttl o, sts) /\
    ob_rtt_us o = u64 (now - sts) /\ ob_is_v6 o = is_v6 /\ ob_type o <> NSR_OBS_NONE.

Lemma handle_packet_spec g is_v6 now old rx :
  table_wf (g_inflight g) -> Forall is_byte (rx_buf rx) ->
  exists o g', handle_packet g is_v6 now old rx = Some (o, g') /\
    table_wf (g_inflight g') /\ g_gk_id g' = g_gk_id g /\
    match o with
    | None => outstanding (g_inflight g') = outstanding (g_inflight g)
    | Some ob =>
        classify is_v6 (rx_buf rx) = Some (Concerns (ob_type ob) (g_gk_id g) (ob_seq ob)) /\
        reports g is_v6 now ob /\
        outstanding (g_inflight g') = delete (ob_seq ob) (outstanding (g_inflight g))
    end.
Proof.
  intros Hwf Hb. unfold handle_packet.
  destruct (classify_total is_v6 (rx_buf rx) Hb) as [v Hv]. rewrite Hv. simpl.
  destruct v as [|type rid rseq]; [by eexists _, _|].
  destruct (_ && _) eqn:E; [|by eexists _, _]. bool_facts. subst rid.
  pose proof (find_spec_any (g_inflight g) rseq Hwf) as Hf.
  destruct (find_probe (g_inflight g) rseq) as [[[ttl sts]|] t']; [|by eexists _, _].
  destruct Hf as (Hl & Hwf' & Ho). eexists _, _. split; [done|]. simpl.
  split_and!; try done. by exists sts.
Qed.

Lemma receive_batch_spec g is_v6 now stale k rxs :
  table_wf (g_inflight g) -> Forall (fun rx => Forall is_byte (rx_buf rx)) rxs ->
  exists obs g', receive_batch g is_v6 now stale k rxs = Some (obs, g') /\
    table_wf (g_inflight g') /\ g_gk_id g' = g_gk_id g /\
    NoDup (map ob_seq obs) /\ Forall (reports g is_v6 now) obs /\
    (length obs <= length rxs)%nat /\
    forall q, outstanding (g_inflight g') !! q =
      (if decide (q ∈ map ob_seq obs) then None else outstanding (g_inflight g) !! q).
Proof.
  revert g k. induction rxs as [|rx rxs IH]; intros g k Hwf Hb; simpl.
  - eexists [], g. split_and!; try done. apply NoDup_nil_2.
  - apply Forall_cons in Hb as [Hrx Hb].
    destruct (handle_packet_spec g is_v6 now (stale k) rx Hwf Hrx) as (o & g1 & -> & Hwf1 & Hid1 & Ho).
    simpl. destruct o as [ob|].
    + destruct Ho as (_ & Hrep & Hdel).
      destruct (IH g1 (S k) Hwf1 Hb) as (obs & g2 & -> & Hwf2 & Hid2 & Hnd & Hall & Hlen & Hout).
      simpl. eexists (ob :: obs), g2. split; [done|]. split_and!; [done|congruence|..|simpl; lia|].
      * simpl. apply NoDup_cons. split; [|done]. intros Hin.
        apply list_elem_of_fmap in Hin as (o' & Heq & Ho'). rewrite Forall_forall in Hall.
        destruct (Hall o' Ho') as (sts & Hl & _). rewrite Hdel, <- Heq, lookup_delete_eq in Hl. done.
      * constructor; [done|]. eapply Forall_impl; [exact Hall|]. intros o' (sts & Hl & ?).
        exists sts. split; [|done]. rewrite Hdel in Hl. by apply lookup_delete_Some in Hl as [_ ?].
      * intros q. rewrite Hout, Hdel. simpl. destruct (decide (q = ob_seq ob)) as [->|Hne].
        -- rewrite lookup_delete_eq.
           rewrite (decide_True (P := ob_seq ob ∈ ob_seq ob :: map ob_seq obs)) by (by left).
           by destruct (decide _).
        -- rewrite lookup_delete_ne by done. destruct (decide (q ∈ map ob_seq obs)) as [H|H].
           ++ by rewrite decide_True by (by right).
           ++ rewrite decide_False; [done|]. by apply not_elem_of_cons.
    + destruct (IH g1 k Hwf1 Hb) as (obs & g2 & -> & Hwf2 & Hid2 & Hnd & Hall & Hlen & Hout).
      eexists obs, g2. split; [done|]. split_and!; [done|congruence|done| |lia|].
      * eapply Forall_impl; [exact Hall|]. intros o'. unfold reports. by rewrite Ho.
      * intros q. by rewrite Hout, Ho.
Qed.



(** A table with the probe (TTL 5, sequence number 9) in flight since 100. *)
Definition busy_gk : gk_t := with_table idle_gk (track_probe ∅ 5 9 100).

Lemma busy_gk_wf : table_wf (g_inflight busy_gk).
Proof. apply (track_spec ∅ 5 9 100); [apply table_wf_empty|unfold is_word; lia]. Qed.


(** The second copy of the packet finds the probe answered already. *)
Example duplicate_is_ignored :
  option_map (fun p => map ob_rtt_us p.1)
    (receive_batch busy_gk false 350 (fun _ => replicate 16 0) 0
       [mk_received sample_time_exceeded [10; 0; 0; 1]; mk_received sample_time_exceeded [10; 0; 0; 1]])
  = Some [250].
Proof. vm_compute. reflexivity. Qed.


(** ** One iteration *)

Definition BATCH_SIZE : Z := 1024.

(** One result of [recvmmsg]: the clock read after it, the old content of the
    observation slots, the packets. *)
Record rx_batch := mk_batch {
  rx_now : Z;
  rx_stale : nat -> list Z;
  rx_packets : list received;
}.

Inductive gk_outcome (A : Type) :=
| GkDone (a : A)
| GkSpinning (pending : list nsr_observation_t)
| GkFault.
Arguments GkDone {A} a.
Arguments GkSpinning {A} pending.
Arguments GkFault {A}.

(** The receive loop runs until [recvmmsg] returns nothing. *)
Fixpoint receive_loop (g : gk_t) (is_v6 : bool) (r : nsr_shm_ring_t (list Z)) (batches : list rx_batch)
  : gk_outcome (gk_t * nsr_shm_ring_t (list Z)) :=
  match batches with
  | [] => GkDone (g, r)
  | b :: batches' =>
      match receive_batch g is_v6 (rx_now b) (rx_stale b) 0 (rx_packets b) with
      | None => GkFault
      | Some ([], g') => receive_loop g' is_v6 r batches'
      | Some (obs, g') =>
          match nsr_shm_ring_push_batch r obs with
          | (true, r') => receive_loop g' is_v6 r' batches'
          | (false, _) => GkSpinning obs
          end
      end
  end.

Definition gk_iteration (g : gk_t) (is_v6 : bool) (now accepted : Z) (batches : list rx_batch)
    (l2g g2l : nsr_shm_ring_t (list Z))
  : gk_outcome (list (Z * bytes) * gk_t * nsr_shm_ring_t (list Z) * nsr_shm_ring_t (list Z)) :=
  let '(intents, l2g') := nsr_shm_ring_pop_batch l2g BATCH_SIZE in
  let '(msgs, g1) := send_batch (reap_stale_inflight g now) is_v6 intents now accepted in
  match receive_loop g1 is_v6 g2l batches with
  | GkDone (g2, g2l') => GkDone (msgs, g2, l2g', g2l')
  | GkSpinning pending => GkSpinning pending
  | GkFault => GkFault
  end.

(** *** Invariant *)

Definition ttl_ok (ttl : Z) : Prop := 1 <= ttl <= 30.

Definition gk_wf (g : gk_t) : Prop :=
  table_wf (g_inflight g) /\
  forall q ttl sts, outstanding (g_inflight g) !! q = Some (ttl, sts) -> ttl_ok ttl.

(** What the socket delivers. *)
Definition batch_ok (is_v6 : bool) (b : rx_batch) : Prop :=
  (forall k, length (rx_stale b k) = 16%nat) /\ Z.of_nat (length (rx_packets b)) <= BATCH_SIZE /\
  Forall (fun rx => Forall is_byte (rx_buf rx) /\
                    length (rx_from rx) = if is_v6 then 16%nat else 4%nat) (rx_packets b).

Definition obs_ok (o : nsr_observation_t) : Prop := observation_in_range o /\ ttl_ok (ob_ttl o).

Lemma outstanding_word t q p : table_wf t -> outstanding t !! q = Some p -> is_word q.
Proof.
  intros Hwf H. unfold outstanding in H. rewrite lookup_omap in H.
  destruct (t !! q) as [e|] eqn:E; [|done]. by destruct (Hwf q e E).
Qed.

(** The addresses of the observations of a batch are complete. *)
Lemma handle_packet_addr g is_v6 now old rx o g' :
  handle_packet g is_v6 now old rx = Some (Some o, g') ->
  length old = 16%nat -> length (rx_from rx) = (if is_v6 then 16%nat else 4%nat) ->
  length (ob_addr_bin o) = 16%nat.
Proof.
  unfold handle_packet. intros H Ho Hf. apply bind_Some in H as ([|type rid rseq] & _ & H); [done|].
  split_if_in H; [|done]. destruct (find_probe _ _) as [[[ttl sts]|] t']; [|done].
  simplify_eq. simpl. destruct is_v6; [rewrite length_take; lia|].
  rewrite length_app, length_take, length_drop. lia.
Qed.

Lemma receive_batch_addr g is_v6 now stale k rxs obs g' :
  receive_batch g is_v6 now stale k rxs = Some (obs, g') -> (forall k, length (stale k) = 16%nat) ->
  Forall (fun rx => length (rx_from rx) = if is_v6 then 16%nat else 4%nat) rxs ->
  Forall (fun o => length (ob_addr_bin o) = 16%nat) obs.
Proof.
  intros H Hst Hrx. revert g k obs g' H. induction Hrx as [|rx rxs Hf Hrx IH]; intros g k obs g' H; simpl in H.
  - by simplify_eq.
  - apply bind_Some in H as ([[ob|] g1] & Hh & H); [|by eapply IH].
    apply bind_Some in H as ([obs1 g2] & Hr & H). injection H as <- <-.
    constructor; [by eapply handle_packet_addr|by eapply IH].
Qed.

Lemma receive_batch_wf g is_v6 b :
  gk_wf g -> batch_ok is_v6 b ->
  exists obs g', receive_batch g is_v6 (rx_now b) (rx_stale b) 0 (rx_packets b) = Some (obs, g') /\
    gk_wf g' /\ Forall obs_ok obs /\ Z.of_nat (length obs) <= BATCH_SIZE.
Proof.
  intros (Hwf & Httl) (Hst & Hlen & Hb).
  assert (Hbytes : Forall (fun rx => Forall is_byte (rx_buf rx)) (rx_packets b))
    by (eapply Forall_impl; [exact Hb|]; by intros ? []).
  assert (Hfrom : Forall (fun rx => length (rx_from rx) = if is_v6 then 16%nat else 4%nat) (rx_packets b))
    by (eapply Forall_impl; [exact Hb|]; by intros ? []).
  destruct (receive_batch_spec g is_v6 (rx_now b) (rx_stale b) 0 (rx_packets b) Hwf Hbytes)
    as (obs & g' & Hr & Hwf' & _ & _ & Hrep & Hl & Hout).
  pose proof (receive_batch_addr _ _ _ _ _ _ _ _ Hr Hst Hfrom) as Haddr.
  exists obs, g'. split; [done|]. split; [split; [done|]|split; [|lia]].
  - intros q ttl sts Hq. rewrite Hout in Hq. destruct (decide _) in Hq; [done|]. by eapply Httl.
  - rewrite Forall_forall in Hrep, Haddr |- *. intros o Ho. destruct (Hrep o Ho) as (sts & Hl' & Hrtt & _).
    pose proof (Httl _ _ _ Hl') as Ht. split; [|done].
    pose proof (outstanding_word _ _ _ Hwf Hl') as Hq. unfold ttl_ok, is_word in *.
    unfold observation_in_range. rewrite Hrtt. pose proof (u64_range (rx_now b - sts)).
    split_and!; try lia. by apply Haddr.
Qed.

Definition intent_ok (i : nsr_intent_t) : Prop := intent_in_range i /\ ttl_ok (in_ttl i).

Lemma track_all_wf g now intents :
  gk_wf g -> Forall intent_ok intents -> gk_wf (with_table g (track_all (g_inflight g) now intents)).
Proof.
  unfold track_all. revert g. induction intents as [|i intents IH]; intros g [Hwf Ht] Hok; [done|].
  apply Forall_cons in Hok as [[Hr Hi] Hok].
  assert (Hw : is_word (in_seq i)) by (destruct Hr as (_ & ? & _); done).
  destruct (track_spec (g_inflight g) (in_ttl i) (in_seq i) now Hwf Hw) as [Hwf1 Ho].
  apply (IH (with_table g (track_probe (g_inflight g) (in_ttl i) (in_seq i) now))); [|done].
  split; [done|]. intros q ttl sts. simpl. rewrite Ho.
  intros [[_ [= <- _]]|[_ H]]%lookup_insert_Some; [done|by eapply Ht].
Qed.

Lemma send_batch_wf g is_v6 intents now accepted :
  gk_wf g -> Forall intent_ok intents -> gk_wf (send_batch g is_v6 intents now accepted).2.
Proof.
  intros Hg Hok. destruct (track_all_wf g now intents Hg Hok) as [Hwf Ht].
  set (rest := drop (accepted_count intents accepted) intents).
  assert (Hw : Forall is_word (seqs rest)).
  { apply Forall_map. apply Forall_drop. eapply Forall_impl; [exact Hok|].
    by intros i [(_ & ? & _) _]. }
  destruct (drop_all_spec _ rest Hwf Hw) as [Hwf' Hd].
  unfold gk_wf. rewrite send_batch_table. fold rest. split; [done|].
  intros q ttl sts. rewrite Hd. destruct (decide _); [done|]. apply Ht.
Qed.

Lemma reap_wf g now : gk_wf g -> gk_wf (reap_stale_inflight g now).
Proof.
  intros [Hwf Ht]. destruct (reap_spec g now Hwf) as [Hwf' Ho]. split; [done|].
  intros q ttl sts. rewrite Ho. split_if; [apply Ht|].
  intros [H _]%map_lookup_filter_Some. by eapply Ht.
Qed.

Lemma obs_ok_item obs : Forall obs_ok obs -> Forall (item_ok (slot := list Z)) obs.
Proof. intros H. eapply Forall_impl; [exact H|]. by intros o [? _]. Qed.

Lemma receive_loop_spec g is_v6 (r : nsr_shm_ring_t (list Z)) batches :
  gk_wf g -> ring_wf r -> Forall (batch_ok is_v6) batches ->
  match receive_loop g is_v6 r batches with
  | GkDone (g', r') =>
      gk_wf g' /\ ring_wf r' /\ exists obs, contents r' = contents r ++ obs /\ Forall obs_ok obs
  | GkSpinning pending =>
      Forall obs_ok pending /\
      exists obs : list nsr_observation_t,
        SHM_RING_SIZE - 1 <= Z.of_nat (length (contents r ++ obs) + length pending)
  | GkFault => False
  end.
Proof.
  intros Hg Hr Hb. revert g r Hg Hr. induction Hb as [|b batches Hb Hbs IH]; intros g r Hg Hr; simpl.
  - split_and!; try done. exists []. by rewrite app_nil_r.
  - destruct (receive_batch_wf g is_v6 b Hg Hb) as (obs & g' & -> & Hg' & Hobs & Hlen).
    destruct obs as [|o obs]; [by apply IH|].
    assert (Hl : Z.of_nat (length (o :: obs)) < 2 ^ 31) by (unfold BATCH_SIZE in Hlen; lia).
    pose proof (push_batch_spec r (o :: obs) Hr (obs_ok_item _ Hobs) Hl) as Hp.
    destruct (nsr_shm_ring_push_batch r (o :: obs)) as [ok r']. destruct Hp as [Hr' Hq].
    unfold queue_push in Hq. split_if_in Hq; injection Hq as -> Hc; bool_facts.
    + split; [done|]. exists []. by rewrite app_nil_r.
    + specialize (IH g' r' Hg' Hr'). destruct (receive_loop g' is_v6 r' batches) as [[g2 r2]|pend|];
        [|destruct IH as (Hpend & obs2 & Hfull); split; [done|];
          exists ((o :: obs) ++ obs2); by rewrite app_assoc, <- Hc|done].
      destruct IH as (Hg2 & Hr2 & obs2 & Hc2 & Ho2). split_and!; try done.
      exists ((o :: obs) ++ obs2). rewrite Hc2, Hc, app_assoc. split; [done|]. by apply Forall_app.
Qed.

Lemma gk_iteration_spec g is_v6 now accepted batches (l2g g2l : nsr_shm_ring_t (list Z)) :
  gk_wf g -> ring_wf l2g -> Forall intent_ok (contents l2g) -> ring_wf g2l ->
  Forall (batch_ok is_v6) batches ->
  match gk_iteration g is_v6 now accepted batches l2g g2l with
  | GkDone (msgs, g', l2g', g2l') =>
      gk_wf g' /\ ring_wf l2g' /\ ring_wf g2l' /\
      msgs = map (message is_v6 (g_gk_id g)) (take 1024 (contents l2g)) /\
      contents (item := nsr_intent_t) l2g' = drop 1024 (contents l2g) /\
      exists obs, contents g2l' = contents g2l ++ obs /\ Forall obs_ok obs
  | GkSpinning pending =>
      Forall obs_ok pending /\
      exists obs : list nsr_observation_t,
        SHM_RING_SIZE - 1 <= Z.of_nat (length (contents g2l ++ obs) + length pending)
  | GkFault => False
  end.
Proof.
  intros Hg Hl Hint Hr Hb. unfold gk_iteration.
  assert (HB : 0 <= BATCH_SIZE < 2 ^ 31) by (unfold BATCH_SIZE; lia).
  pose proof (pop_batch_spec (item := nsr_intent_t) l2g BATCH_SIZE Hl HB) as Hp.
  destruct (nsr_shm_ring_pop_batch l2g BATCH_SIZE) as [intents l2g'].
  destruct Hp as [Hl' Hq]. unfold queue_pop in Hq. injection Hq as Hi Hrest.
  assert (Hok : Forall intent_ok intents) by (rewrite Hi; by apply Forall_take).
  pose proof (send_batch_wf _ is_v6 intents now accepted (reap_wf g now Hg) Hok) as Hg1.
  assert (Hmsgs : (send_batch (reap_stale_inflight g now) is_v6 intents now accepted).1
                  = map (message is_v6 (g_gk_id g)) intents).
  { simpl. unfold reap_stale_inflight. by split_if. }
  destruct (send_batch _ _ _ _ _) as [msgs g1]. simpl in Hg1, Hmsgs.
  pose proof (receive_loop_spec g1 is_v6 g2l batches Hg1 Hr Hb) as Hrl.
  destruct (receive_loop g1 is_v6 g2l batches) as [[g2 g2l']|pending|]; [|done|done].
  destruct Hrl as (Hg2 & Hr2 & Hobs). rewrite Hmsgs, Hi.
  exact (conj Hg2 (conj Hl' (conj Hr2 (conj eq_refl (conj Hrest Hobs))))).
Qed.


Lemma idle_gk_wf : gk_wf idle_gk.
Proof. split; [apply table_wf_empty|]. intros q ttl sts H. by rewrite outstanding_entry in H. Qed.

Definition sample_batch : rx_batch :=
  {| rx_now := 350; rx_stale := fun _ => replicate 16 0;
     rx_packets := [mk_received sample_time_exceeded [10; 0; 0; 1]] |}.

Lemma sample_batch_ok : Forall (batch_ok false) [sample_batch].
Proof.
  repeat constructor; try (unfold BATCH_SIZE; simpl; lia); try done; repeat constructor; lia.
Qed.

