(* ===== verification/GateSetup.v ===== *)
(** * Setting up the gatekeeper (src/io/gatekeeper.c)

    The part of [nsr_gatekeeper_run] before its loop: the target address, the
    socket, and the 1024 message buffers, which are written once and then reused
    by every batch.  [inet_pton] and [inet_ntop] are an interface with the laws the
    program relies on; the socket is the result of the system call.  The loop is
    Gatekeeper.v, whose [message] is shown here to be what the buffers hold. *)

From stdpp Require Import gmap.
From S2P Require Import Prelude Telemetry ShmRing Icmp Gatekeeper.

(** ** Addresses *)

Inductive family := AF_UNSPEC | AF_INET | AF_INET6.

#[export] Instance family_eq_dec : EqDecision family.
Proof. solve_decision. Defined.

Definition address_ok (f : family) (a : list Z) : Prop :=
  length a = match f with AF_INET6 => 16%nat | _ => 4%nat end /\ Forall is_byte a.

(** The text form of addresses in the C library. *)
Class Inet := {
  inet_ntop : family -> list Z -> cstr;
  inet_pton : family -> cstr -> option (list Z);
}.

(** [inet_pton] reads what [inet_ntop] prints; an IPv4 address is not the text of
    an IPv6 address; a text is a string of at most INET6_ADDRSTRLEN (46) bytes with
    the terminator. *)
Class InetLaws `{Inet} := {
  pton_ntop f a : f <> AF_UNSPEC -> address_ok f a -> inet_pton f (inet_ntop f a) = Some a;
  ntop_v4_is_not_v6 a : address_ok AF_INET a -> inet_pton AF_INET6 (inet_ntop AF_INET a) = None;
  ntop_text f a : address_ok f a -> (0 < length (inet_ntop f a) <= 45)%nat /\ nul_free (inet_ntop f a);
}.

(** ** Start-up *)

Definition started_gk (pid : Z) : gk_t := {| g_inflight := ∅; g_gk_id := u16 pid; last_reap := 0 |}.

Section Start.
  Context `{Inet}.

(** [is_v6] and the address the messages are sent to. *)
Definition parse_target (target_ip : cstr) : option (bool * list Z) :=
  match inet_pton AF_INET6 target_ip with
  | Some target6 => Some (true, target6)
  | None => target4 ← inet_pton AF_INET target_ip; Some (false, target4)
  end.

(** From the arguments to the loop; [fd] is the result of [socket].  [None]: the
    process prints an error and exits with status 1. *)
Definition gk_start (target_ip : cstr) (pid fd : Z) : option (bool * list Z * gk_t) :=
  t ← parse_target target_ip;
  if fd <? 0 then None else Some (t, started_gk pid).

Lemma started_gk_wf pid : gk_wf (started_gk pid) /\ is_word (g_gk_id (started_gk pid)).
Proof.
  split; [|apply u16_range]. split; [apply table_wf_empty|]. intros q ttl sts Hq. by rewrite outstanding_entry in Hq.
Qed.

Context `{!InetLaws}.

(** The gatekeeper understands the printed form of any address. *)
Lemma parse_target_ntop f a :
  f <> AF_UNSPEC -> address_ok f a ->
  parse_target (inet_ntop f a) = Some (bool_decide (f = AF_INET6), a).
Proof.
  intros Hf Ha. unfold parse_target. destruct f; [done|..].
  - rewrite ntop_v4_is_not_v6, pton_ntop by done. done.
  - by rewrite pton_ntop.
Qed.

End Start.

(** ** Message buffers *)

(** One of the 1024 messages: [pkts[i]] and the TTL in [controls[i]].  The arrays are
    not initialised. *)
Record tx_buffer := mk_tx {
  tx_pkt : bytes;
  tx_ttl : Z;
}.

(** A store of the bytes [xs] at [off]. *)
Definition store_at (off : nat) (xs buf : bytes) : bytes := take off buf ++ xs ++ drop (off + length xs) buf.

(** The loop before the main loop: type, code and identifier. *)
Definition setup_message (is_v6 : bool) (gk_id : Z) (m : tx_buffer) : tx_buffer :=
  let id_net := htons gk_id in
  let pkt := store_at 0 [if is_v6 then ICMP6_ECHO_REQUEST else ICMP_ECHO] (tx_pkt m) in
  let pkt := store_at 1 [0] pkt in
  mk_tx (store_at 4 (le_split 2 id_net) pkt) (tx_ttl m).

(** The body of the loop over the intents. *)
Definition fill_message (is_v6 : bool) (gk_id : Z) (m : tx_buffer) (i : nsr_intent_t) : tx_buffer :=
  let seq_net := htons (in_seq i) in
  let pkt := store_at 6 (le_split 2 seq_net) (tx_pkt m) in
  let cksum := if is_v6 then 0 else fast_icmp_checksum (htons gk_id) seq_net in
  mk_tx (store_at 2 (le_split 2 cksum) pkt) (in_ttl i).

Fixpoint fill_messages (is_v6 : bool) (gk_id : Z) (msgs : list tx_buffer) (intents : list nsr_intent_t)
    : list tx_buffer :=
  match msgs, intents with
  | m :: msgs', i :: intents' => fill_message is_v6 gk_id m i :: fill_messages is_v6 gk_id msgs' intents'
  | _, _ => msgs
  end.

(** What [sendmmsg] is given: [iov_len] is 8. *)
Definition handed_over (msgs : list tx_buffer) (n_intents : nat) : list (Z * bytes) :=
  map (fun m => (tx_ttl m, take 8 (tx_pkt m))) (take n_intents msgs).

(** The fields that stay: a buffer is set up when they are in place. *)
Definition set_up (is_v6 : bool) (gk_id : Z) (m : tx_buffer) : Prop :=
  exists c1 c2 s1 s2 rest,
    tx_pkt m = [if is_v6 then ICMP6_ECHO_REQUEST else ICMP_ECHO; 0; c1; c2] ++ le_split 2 (htons gk_id) ++ s1 :: s2 :: rest.

Lemma setup_message_ok is_v6 gk_id m : (8 <= length (tx_pkt m))%nat -> set_up is_v6 gk_id (setup_message is_v6 gk_id m).
Proof.
  intros Hl. destruct m as [pkt ttl]. cbn [tx_pkt] in Hl.
  destruct pkt as [|b0 [|b1 [|b2 [|b3 [|b4 [|b5 [|b6 [|b7 rest]]]]]]]]; cbn [length] in Hl; try lia.
  by exists b2, b3, b6, b7, rest.
Qed.

Lemma fill_message_ok is_v6 gk_id m i :
  set_up is_v6 gk_id m ->
  set_up is_v6 gk_id (fill_message is_v6 gk_id m i) /\
  (tx_ttl (fill_message is_v6 gk_id m i), take 8 (tx_pkt (fill_message is_v6 gk_id m i))) = message is_v6 gk_id i.
Proof.
  intros (c1 & c2 & s1 & s2 & rest & E). unfold fill_message. rewrite E. split.
  - eexists _, _, _, _, rest. reflexivity.
  - unfold message, probe_packet. by destruct is_v6.
Qed.

Lemma fill_messages_ok is_v6 gk_id msgs intents :
  Forall (set_up is_v6 gk_id) msgs ->
  Forall (set_up is_v6 gk_id) (fill_messages is_v6 gk_id msgs intents) /\
  length (fill_messages is_v6 gk_id msgs intents) = length msgs /\
  ((length intents <= length msgs)%nat ->
   handed_over (fill_messages is_v6 gk_id msgs intents) (length intents) = map (message is_v6 gk_id) intents).
Proof.
  intros Hm. revert intents. induction Hm as [|m msgs Hm Hms IH]; intros [|i intents]; cbn [fill_messages length].
  - done.
  - split_and!; [done..|lia].
  - split_and!; [by constructor|done..].
  - destruct (IH intents) as (H1 & -> & H3). destruct (fill_message_ok is_v6 gk_id m i Hm) as [H4 H5].
    split_and!; [by constructor|done|]. intros Hl. unfold handed_over in *. cbn [take map]. rewrite H5, H3; [done|lia].
Qed.

Definition fill_batches (is_v6 : bool) (gk_id : Z) (msgs : list tx_buffer) (batches : list (list nsr_intent_t))
    : list tx_buffer :=
  foldl (fill_messages is_v6 gk_id) msgs batches.

Lemma fill_batches_ok is_v6 gk_id msgs batches :
  Forall (set_up is_v6 gk_id) msgs ->
  Forall (set_up is_v6 gk_id) (fill_batches is_v6 gk_id msgs batches) /\
  length (fill_batches is_v6 gk_id msgs batches) = length msgs.
Proof.
  revert msgs. induction batches as [|b batches IH]; intros msgs Hm; [done|]. cbn [fill_batches foldl].
  destruct (fill_messages_ok is_v6 gk_id msgs b Hm) as (Hm' & <- & _). by apply IH.
Qed.

(** C24: the reused message buffers always carry the current batch.  Whatever was in
    the 1024 packet buffers before the set-up, and whatever batches were sent
    before, the messages handed to the socket for a batch are the probe packets of
    its intents, in order, each with its TTL; nothing of an earlier batch is left in
    the 8 bytes that are sent. *)
Theorem buffers_carry_probes is_v6 gk_id bufs earlier intents :
  Z.of_nat (length bufs) = BATCH_SIZE -> Forall (fun m => length (tx_pkt m) = 128%nat) bufs ->
  Z.of_nat (length intents) <= BATCH_SIZE ->
  let msgs := fill_batches is_v6 gk_id (map (setup_message is_v6 gk_id) bufs) earlier in
  handed_over (fill_messages is_v6 gk_id msgs intents) (length intents) = map (message is_v6 gk_id) intents.
Proof.
  intros Hn Hb Hi msgs. destruct (fill_batches_ok is_v6 gk_id (map (setup_message is_v6 gk_id) bufs) earlier) as [Hm Hl].
  - apply Forall_map. eapply Forall_impl; [exact Hb|]. intros m E. apply setup_message_ok. rewrite E. lia.
  - apply fill_messages_ok; [exact Hm|]. unfold msgs. rewrite Hl, length_map. lia.
Qed.

Lemma buffers_carry_probes_witness :
  let bufs := replicate 1024 (mk_tx (replicate 128 77) 200) in
  let msgs := fill_batches false 4660 (map (setup_message false 4660) bufs) [[sample_intent 1; sample_intent 2]] in
  handed_over (fill_messages false 4660 msgs [sample_intent 9]) 1 = [message false 4660 (sample_intent 9)].
Proof.
  apply (buffers_carry_probes false 4660 (replicate 1024 (mk_tx (replicate 128 77) 200))
    [[sample_intent 1; sample_intent 2]] [sample_intent 9]).
  - reflexivity.
  - apply Forall_replicate. reflexivity.
  - discriminate.
Defined.

(** ** A concrete text form *)

(** Two letters for each byte. *)
Definition letters (b : Z) : cstr := [chr (97 + b / 16); chr (97 + b mod 16)].

Fixpoint of_letters (s : cstr) : option (list Z) :=
  match s with
  | [] => Some []
  | c1 :: c2 :: s' => a ← of_letters s'; Some ((ord c1 - 97) * 16 + (ord c2 - 97) :: a)
  | _ => None
  end.

#[export] Instance letter_inet : Inet := {
  inet_ntop _ a := concat (map letters a);
  inet_pton f s := if Nat.eqb (length s) (match f with AF_INET6 => 32 | _ => 8 end) then of_letters s else None;
}.

Lemma of_letters_concat a : Forall is_byte a -> of_letters (concat (map letters a)) = Some a.
Proof.
  induction 1 as [|b a Hb Ha IH]; [done|]. cbn [map concat letters app of_letters]. rewrite IH. cbn [mbind option_bind].
  unfold is_byte in Hb. pose proof (Z.div_mod b 16). pose proof (Z.mod_pos_bound b 16).
  rewrite !ord_chr by lia. do 2 f_equal. lia.
Qed.

Lemma letters_length a : length (concat (map letters a)) = (2 * length a)%nat.
Proof. induction a as [|b a IH]; [done|]. cbn [map concat letters app length]. rewrite IH. lia. Qed.

#[export] Instance letter_inet_laws : InetLaws.
Proof.
  constructor.
  - intros f a Hf [Hl Hb]. unfold inet_pton, inet_ntop, letter_inet. rewrite letters_length, Hl.
    rewrite (proj2 (Nat.eqb_eq _ _)) by (by destruct f). by apply of_letters_concat.
  - intros a [Hl _]. unfold inet_pton, inet_ntop, letter_inet. by rewrite letters_length, Hl.
  - intros f a [Hl Hb]. unfold inet_ntop, letter_inet. rewrite letters_length, Hl. split; [by destruct f; lia|].
    clear Hl. unfold nul_free. induction Hb as [|b a Hb Ha IH]; [apply not_elem_of_nil|].
    cbn [map concat letters app]. rewrite !not_elem_of_cons. unfold is_byte in Hb.
    assert (Hc : forall c, 0 <= c < 16 -> NUL <> chr (97 + c)).
    { intros c Hc E. apply (f_equal ord) in E. rewrite ord_chr in E by lia. by change (ord NUL) with 0 in E; lia. }
    pose proof (Z.div_mod b 16). pose proof (Z.mod_pos_bound b 16). split_and!; [apply Hc; lia..|done].
Qed.
