(* ===== verification/System.v ===== *)
(** * The tracing pipeline: logic engine and gatekeeper over their rings

    The two processes and the renderer share three rings; here they run one
    iteration at a time in any order, with any traffic on the network.  The
    invariant ties the components together: what one side puts on a ring is
    what the other side may rely on. *)

From stdpp Require Import relations gmap.
From S2P Require Import Prelude Telemetry ShmRing HopAlias Logic Icmp Gatekeeper.

Section Pipeline.
  Context (clock : nat -> Z) (inet_ntop : bool -> list Z -> cstr).
  Context (clock_range : forall n, 0 <= clock n < 2 ^ 64).
  Context (ntop_text : forall v6 bytes, text_ok (inet_ntop v6 bytes)).

Record pipeline := mk_pipeline {
  engine : logic_t;
  keeper : gk_t;
  rings : rings_t;
}.

Inductive pipeline_step (is_v6 : bool) : pipeline -> pipeline -> Prop :=
| engine_runs st g rg interval st' rg' :
    logic_iteration clock inet_ntop st interval rg = Done (st', rg') ->
    pipeline_step is_v6 (mk_pipeline st g rg) (mk_pipeline st' g rg')
| engine_signalled st g rg :
    pipeline_step is_v6 (mk_pipeline st g rg) (mk_pipeline (handle_sigusr1 st) g rg)
| keeper_runs st g rg now accepted batches msgs g' l2g' g2l' :
    Forall (batch_ok is_v6) batches ->
    gk_iteration g is_v6 now accepted batches (l2g rg) (g2l rg) = GkDone (msgs, g', l2g', g2l') ->
    pipeline_step is_v6 (mk_pipeline st g rg) (mk_pipeline st g' (mk_rings g2l' l2g' (l2t rg)))
| renderer_pops st g rg out l2t' :
    nsr_shm_ring_large_pop (l2t rg) = Some (out, l2t') ->
    pipeline_step is_v6 (mk_pipeline st g rg) (mk_pipeline st g (mk_rings (g2l rg) (l2g rg) l2t')).

Definition pipeline_init (config : nsr_config_t) (gk_id : Z) : pipeline :=
  mk_pipeline (logic_init clock config) {| g_inflight := ∅; g_gk_id := gk_id; last_reap := 0 |}
    (mk_rings empty_ring empty_ring empty_large).

Definition pipeline_inv (p : pipeline) : Prop :=
  logic_wf (engine p) /\ gk_wf (keeper p) /\
  ring_wf (g2l (rings p)) /\ ring_wf (l2g (rings p)) /\ large_wf (l2t (rings p)) /\
  Forall intent_ok (contents (l2g (rings p))) /\ Forall obs_ok (contents (g2l (rings p))).

Lemma inv_rings_wf p : pipeline_inv p -> rings_wf (rings p).
Proof.
  intros (_ & _ & H1 & H2 & H3 & _ & Ho). refine (conj H1 (conj H2 (conj H3 _))).
  eapply Forall_impl; [exact Ho|]. intros o [_ Ht]. unfold ttl_ok in Ht. lia.
Qed.

Lemma schedule_ok now ttl sq n : 0 <= now < 2 ^ 64 -> Forall intent_ok (schedule now ttl sq n).
Proof.
  intros Hn. pose proof (schedule_in_range now ttl sq n Hn) as Hr.
  apply Forall_lookup_2. intros k i Hk. split; [exact (Forall_lookup_1 _ _ _ _ Hr Hk)|].
  unfold schedule in Hk. change (map ?f ?l) with (f <$> l) in Hk.
  apply list_lookup_fmap_Some in Hk as (j & -> & _). unfold ttl_ok. simpl. unfold ttl_at.
  pose proof (Z.mod_pos_bound (ttl - 1 + Z.of_nat j) 30). lia.
Qed.

Lemma pipeline_step_inv is_v6 p p' : pipeline_step is_v6 p p' -> pipeline_inv p -> pipeline_inv p'.
Proof.
  intros Hs Hinv. pose proof (inv_rings_wf p Hinv) as Hrg.
  destruct Hinv as (Hl & Hg & H1 & H2 & H3 & Hi & Ho).
  destruct Hs as [st g rg interval st' rg' Hit|st g rg|st g rg now acc bs msgs g' l2g' g2l' Hb Hit
                 |st g rg out l2t' Hpop]; simpl in *.
  - pose proof (iteration_spec clock inet_ntop clock_range ntop_text st interval rg Hl Hrg) as Hspec.
    rewrite Hit in Hspec. destruct Hspec as (Hl' & (R1 & R2 & R3 & _) & He & Hc).
    refine (conj Hl' (conj Hg (conj R1 (conj R2 (conj R3 (conj _ _)))))); simpl.
    + rewrite Hc. apply Forall_app. split; [done|]. split_if; [|done].
      apply schedule_ok, (clock_us_range clock clock_range).
    + by rewrite He.
  - done.
  - pose proof (gk_iteration_spec g is_v6 now acc bs (l2g rg) (g2l rg) Hg H2 Hi H1 Hb) as Hspec.
    rewrite Hit in Hspec. destruct Hspec as (Hg' & R2 & R1 & _ & Hc & obs & Hc' & Hobs).
    refine (conj Hl (conj Hg' (conj R1 (conj R2 (conj H3 (conj _ _)))))); simpl.
    + rewrite Hc. by apply Forall_drop.
    + rewrite Hc'. by apply Forall_app.
  - destruct (large_pop_spec (l2t rg) H3) as (o & r' & Hp & Hr' & _).
    rewrite Hpop in Hp. injection Hp as _ ->.
    exact (conj Hl (conj Hg (conj H1 (conj H2 (conj Hr' (conj Hi Ho)))))).
Qed.

Lemma pipeline_reachable_inv is_v6 config gk_id p :
  rtc (pipeline_step is_v6) (pipeline_init config gk_id) p -> pipeline_inv p.
Proof.
  intros Hr. apply (rtc_ind_r pipeline_inv (pipeline_init config gk_id)) in Hr; [done| |].
  - refine (conj (logic_init_wf clock config) (conj _ (conj empty_ring_wf (conj empty_ring_wf
             (conj empty_large_wf (conj _ _)))))).
    + split; [apply table_wf_empty|]. intros q ttl sts H. by rewrite outstanding_entry in H.
    + simpl. by rewrite empty_ring_contents.
    + simpl. by rewrite empty_ring_contents.
  - intros y z _ Hstep. by apply (pipeline_step_inv is_v6).
Qed.

(** What the invariant gives in every state. *)
Lemma inv_safe is_v6 p :
  pipeline_inv p ->
  (forall interval, logic_iteration clock inet_ntop (engine p) interval (rings p) <> Fault) /\
  (forall now accepted batches, Forall (batch_ok is_v6) batches ->
     gk_iteration (keeper p) is_v6 now accepted batches (l2g (rings p)) (g2l (rings p)) <> GkFault) /\
  Forall (fun i : nsr_intent_t => 1 <= in_ttl i <= 30) (contents (l2g (rings p))) /\
  Forall (fun o : nsr_observation_t => 1 <= ob_ttl o <= 30) (contents (g2l (rings p))) /\
  (forall seq ttl sts, outstanding (g_inflight (keeper p)) !! seq = Some (ttl, sts) -> 1 <= ttl <= 30).
Proof.
  intros Hinv. pose proof (inv_rings_wf p Hinv) as Hrg.
  destruct Hinv as (Hl & Hg & H1 & H2 & H3 & Hi & Ho). split; [|split; [|split; [|split]]].
  - intros interval E.
    pose proof (iteration_spec clock inet_ntop clock_range ntop_text _ interval _ Hl Hrg) as Hs.
    by rewrite E in Hs.
  - intros now acc bs Hb E. pose proof (gk_iteration_spec _ is_v6 now acc bs _ _ Hg H2 Hi H1 Hb) as Hs.
    by rewrite E in Hs.
  - eapply Forall_impl; [exact Hi|]. by intros i [_ ?].
  - eapply Forall_impl; [exact Ho|]. by intros o [_ ?].
  - apply Hg.
Qed.

(** However the processes interleave and whatever the network delivers, no
    process ever accesses memory outside its arrays or packets, every intent on
    its way to the gatekeeper and every observation on its way back carries a
    TTL between 1 and 30, and every outstanding probe does. *)
Theorem pipeline_safe is_v6 config gk_id p :
  rtc (pipeline_step is_v6) (pipeline_init config gk_id) p ->
  (forall interval, logic_iteration clock inet_ntop (engine p) interval (rings p) <> Fault) /\
  (forall now accepted batches, Forall (batch_ok is_v6) batches ->
     gk_iteration (keeper p) is_v6 now accepted batches (l2g (rings p)) (g2l (rings p)) <> GkFault) /\
  Forall (fun i : nsr_intent_t => 1 <= in_ttl i <= 30) (contents (l2g (rings p))) /\
  Forall (fun o : nsr_observation_t => 1 <= ob_ttl o <= 30) (contents (g2l (rings p))) /\
  (forall seq ttl sts, outstanding (g_inflight (keeper p)) !! seq = Some (ttl, sts) -> 1 <= ttl <= 30).
Proof. intros Hr. by apply inv_safe, (pipeline_reachable_inv is_v6 config gk_id). Qed.

End Pipeline.

Lemma pipeline_safe_witness :
  let p := pipeline_init sample_clock sample_config 4660 in
  Forall (fun i : nsr_intent_t => 1 <= in_ttl i <= 30) (contents (l2g (rings p))).
Proof.
  apply (pipeline_safe sample_clock sample_ntop sample_clock_range sample_ntop_text false
           sample_config 4660 (pipeline_init sample_clock sample_config 4660) (rtc_refl _ _)).
Defined.
