(* ===== verification/Topology.v ===== *)
(** * Network topology (src/state/topology.c, include/nsr/state/topology.h)

    The graph of nodes and edges the renderer draws, rebuilt from telemetry
    snapshots.  The node and edge arrays are lists of their fixed lengths;
    [ticks_read] counts the clock readings ([ttak_get_tick_count_ns] is the
    parameter [clock]).  Function arguments are never null, and the addresses
    stored are C strings of at most 47 characters. *)

From stdpp Require Import gmap.
From S2P Require Import Prelude CFloat Telemetry HopAlias.

Definition NSR_TOPOLOGY_MAX_NODES : Z := 1024.

Record nsr_node_health_t := mk_health {
  h_loss_rate : cfloat;
  h_rtt_us : cfloat;
  h_jitter_us : cfloat;
  h_instability : cfloat;
  h_route_changes : Z;
  h_sent : Z;
  h_recv : Z;
  h_timeouts : Z;
  h_last_rtt_us : Z;
  h_last_update_us : Z;
}.

Record nsr_topology_node_t := mk_node {
  n_id : Z;
  n_addr : cstr;
  n_target_ip : cstr;
  n_ttl : Z;
  n_is_destination : bool;
  n_control_plane : bool;
  n_active : bool;
  n_health : nsr_node_health_t;
}.

Record nsr_topology_edge_t := mk_edge {
  e_from : Z;
  e_to : Z;
  e_active : bool;
}.

Record nsr_topology_state_t := mk_topo {
  nodes : list nsr_topology_node_t;
  edges : list nsr_topology_edge_t;
  node_count : Z;
  edge_count : Z;
  next_id : Z;
  ticks_read : nat;
}.

Definition zero_health : nsr_node_health_t :=
  {| h_loss_rate := f_zero; h_rtt_us := f_zero; h_jitter_us := f_zero; h_instability := f_zero;
     h_route_changes := 0; h_sent := 0; h_recv := 0; h_timeouts := 0; h_last_rtt_us := 0;
     h_last_update_us := 0 |}.

Definition zero_node : nsr_topology_node_t :=
  {| n_id := 0; n_addr := []; n_target_ip := []; n_ttl := 0; n_is_destination := false;
     n_control_plane := false; n_active := false; n_health := zero_health |}.

Definition zero_edge : nsr_topology_edge_t := {| e_from := 0; e_to := 0; e_active := false |}.

Definition nsr_topology_init : nsr_topology_state_t :=
  {| nodes := replicate 1024 zero_node; edges := replicate 2048 zero_edge; node_count := 0;
     edge_count := 0; next_id := 1; ticks_read := 0 |}.

(** *** Field updates *)

Definition with_nodes (t : nsr_topology_state_t) (ns : list nsr_topology_node_t) : nsr_topology_state_t :=
  {| nodes := ns; edges := edges t; node_count := node_count t; edge_count := edge_count t;
     next_id := next_id t; ticks_read := ticks_read t |}.

Definition with_ttl_dest (n : nsr_topology_node_t) (ttl : Z) (dest : bool) : nsr_topology_node_t :=
  {| n_id := n_id n; n_addr := n_addr n; n_target_ip := n_target_ip n; n_ttl := ttl;
     n_is_destination := dest; n_control_plane := n_control_plane n; n_active := n_active n;
     n_health := n_health n |}.

Definition with_health (n : nsr_topology_node_t) (h : nsr_node_health_t) : nsr_topology_node_t :=
  {| n_id := n_id n; n_addr := n_addr n; n_target_ip := n_target_ip n; n_ttl := n_ttl n;
     n_is_destination := n_is_destination n; n_control_plane := n_control_plane n;
     n_active := n_active n; n_health := h |}.

(** ** Nodes *)

Definition matches (addr target : cstr) (n : nsr_topology_node_t) : bool :=
  n_active n && streq (n_addr n) addr && streq (n_target_ip n) target.

(** The index of the first matching node, with the node. *)
Definition nsr_topology_find_by_addr_and_target (t : nsr_topology_state_t) (addr target : cstr)
  : option (nat * nsr_topology_node_t) :=
  list_find (fun n => matches addr target n = true) (nodes t).

Definition new_node (id : Z) (addr : cstr) (ttl : Z) (target : cstr) (dest : bool) : nsr_topology_node_t :=
  {| n_id := id; n_addr := strncpy 47 addr; n_target_ip := strncpy 47 target; n_ttl := ttl;
     n_is_destination := dest; n_control_plane := false; n_active := true; n_health := zero_health |}.

(** Returns the node's id, 0 when there is none. *)
Definition nsr_topology_upsert_node (t : nsr_topology_state_t) (addr : cstr) (ttl : Z) (target : cstr)
    (dest : bool) : Z * nsr_topology_state_t :=
  if ceq (deref addr) NUL || ceq (deref target) NUL then (0, t)
  else
    match nsr_topology_find_by_addr_and_target t addr target with
    | Some (i, n) => (n_id n, with_nodes t (<[i := with_ttl_dest n ttl dest]> (nodes t)))
    | None =>
        if NSR_TOPOLOGY_MAX_NODES <=? node_count t then (0, t)
        else
          let id := next_id t in
          let slot := Z.to_nat (id mod NSR_TOPOLOGY_MAX_NODES) in
          (id, {| nodes := <[slot := new_node id addr ttl target dest]> (nodes t); edges := edges t;
                  node_count := u32 (node_count t + 1); edge_count := edge_count t;
                  next_id := u32 (next_id t + 1); ticks_read := ticks_read t |})
    end.

Definition node_by_id (t : nsr_topology_state_t) (id : Z) : option (nat * nsr_topology_node_t) :=
  list_find (fun n => (n_active n && (n_id n =? id)) = true) (nodes t).

(** ** Edges *)

Definition add_edge (t : nsr_topology_state_t) (from_id to_id : Z) : nsr_topology_state_t :=
  if (from_id =? 0) || (to_id =? 0) || (from_id =? to_id) then t
  else if NSR_TOPOLOGY_MAX_NODES * 2 <=? edge_count t then t
  else
    match list_find (fun e => (e_active e && (e_from e =? from_id) && (e_to e =? to_id)) = true) (edges t) with
    | Some _ => t
    | None =>
        match list_find (fun e => e_active e = false) (edges t) with
        | None => t
        | Some (i, _) =>
            {| nodes := nodes t;
               edges := <[i := {| e_from := from_id; e_to := to_id; e_active := true |}]> (edges t);
               node_count := node_count t; edge_count := u32 (edge_count t + 1);
               next_id := next_id t; ticks_read := ticks_read t |}
        end
    end.

(** ** Health *)

Definition update_health (hl : nsr_node_health_t) (h : nsr_hop_info_t) (specific_recv now_us : Z)
  : nsr_node_health_t :=
  let rtt := f32_of_Z (rtt_us h) in
  let jitter :=
    if negb (h_recv hl =? specific_recv) && (0 <? specific_recv) then
      let delta := SFabs (f32_sub (f32_of_Z (rtt_us h)) rtt) in
      f32_add (f32_mul (h_jitter_us hl) (f32_lit 8 10)) (f32_mul delta (f32_lit 2 10))
    else h_jitter_us hl in
  {| h_loss_rate :=
       if 0 <? sent h then f32_sub (f32_of_Z 1) (f32_div (f32_of_Z specific_recv) (f32_of_Z (sent h)))
       else h_loss_rate hl;
     h_rtt_us := rtt; h_jitter_us := jitter; h_instability := h_instability hl;
     h_route_changes := h_route_changes hl; h_sent := sent h; h_recv := specific_recv;
     h_timeouts := if specific_recv <? sent h then sent h - specific_recv else 0;
     h_last_rtt_us := rtt_us h; h_last_update_us := now_us |}.

Definition nsr_health_score (h : nsr_node_health_t) : cfloat :=
  let rtt_factor := f32_div (h_rtt_us h) (f32_of_Z 200000) in
  let rtt_factor := if SFltb (f32_of_Z 1) rtt_factor then f32_of_Z 1 else rtt_factor in
  let jitter_factor := f32_div (h_jitter_us h) (f32_of_Z 100000) in
  let jitter_factor := if SFltb (f32_of_Z 1) jitter_factor then f32_of_Z 1 else jitter_factor in
  f32_add (f32_add (f32_add (f32_mul (h_loss_rate h) (f32_lit 50 100))
                            (f32_mul rtt_factor (f32_lit 20 100)))
                   (f32_mul jitter_factor (f32_lit 15 100)))
          (f32_mul (h_instability h) (f32_lit 15 100)).

Definition nsr_topology_active_count (t : nsr_topology_state_t) : Z := s32 (node_count t).

(** ** Rebuilding from telemetry *)

Section Update.
  Context (clock : nat -> Z).

(** [update_node_health] on the node at index [i]. *)
Definition update_node_health (t : nsr_topology_state_t) (i : nat) (n : nsr_topology_node_t)
    (h : nsr_hop_info_t) (specific_recv : Z) : nsr_topology_state_t :=
  let now_us := clock (ticks_read t) / 1000 in
  {| nodes := <[i := with_health n (update_health (n_health n) h specific_recv now_us)]> (nodes t);
     edges := edges t; node_count := node_count t; edge_count := edge_count t; next_id := next_id t;
     ticks_read := S (ticks_read t) |}.

(** Upserts the node of one address seen at TTL [i] and updates its health. *)
Definition visit (t : nsr_topology_state_t) (target : cstr) (i : Z) (h : nsr_hop_info_t) (a : cstr)
    (specific_recv : Z) : Z * nsr_topology_state_t :=
  let '(id, t1) := nsr_topology_upsert_node t a (u8 i) target false in
  if id =? 0 then (0, t1)
  else
    match node_by_id t1 id with
    | Some (k, n) => (id, update_node_health t1 k n h specific_recv)
    | None => (id, t1)
    end.

Fixpoint visit_aliases (t : nsr_topology_state_t) (target : cstr) (i : Z) (h : nsr_hop_info_t)
    (als : list nsr_hop_alias_t) : list Z * nsr_topology_state_t :=
  match als with
  | [] => ([], t)
  | a :: als' =>
      let '(id, t1) := visit t target i h (al_addr a) (al_recv a) in
      let '(ids, t2) := visit_aliases t1 target i h als' in (id :: ids, t2)
  end.

(** The row [hop_ids[i]]: the primary's id and those of the aliases, zeros in the
    unused places. *)
Definition visit_hop (t : nsr_topology_state_t) (target : cstr) (i : Z) (h : nsr_hop_info_t)
  : list Z * nsr_topology_state_t :=
  if ceq (deref (addr h)) NUL then ([0; 0; 0; 0], t)
  else
    let '(id, t1) := visit t target i h (addr h) (primary_recv h) in
    let '(ids, t2) := visit_aliases t1 target i h (take (Z.to_nat (alias_count h)) (aliases h)) in
    (take 4 (id :: ids ++ [0; 0; 0]), t2).

(** The rows for the TTLs [i], [i + 1], ... of the hops given. *)
Fixpoint visit_hops (t : nsr_topology_state_t) (target : cstr) (i : Z) (hs : list nsr_hop_info_t)
  : list (list Z) * nsr_topology_state_t :=
  match hs with
  | [] => ([], t)
  | h :: hs' =>
      let '(row, t1) := visit_hop t target i h in
      let '(rows, t2) := visit_hops t1 target (i + 1) hs' in (row :: rows, t2)
  end.

(** Edges from one node to the next TTL's nodes, or to the destination when the
    next TTL has none. *)
Definition link_node (t : nsr_topology_state_t) (from_id : Z) (next_row : list Z) (dest_id : Z)
  : nsr_topology_state_t :=
  if from_id =? 0 then t
  else
    let t1 := foldl (fun t to_id => if to_id =? 0 then t else add_edge t from_id to_id) t next_row in
    let any_next := existsb (fun to_id => negb (to_id =? 0)) next_row in
    if negb any_next && negb (dest_id =? 0) then add_edge t1 from_id dest_id else t1.

(** The loop over the TTLs 1 to 62 of [rows]. *)
Fixpoint link_rows (t : nsr_topology_state_t) (rows : list (list Z)) (dest_id : Z) : nsr_topology_state_t :=
  match rows with
  | row :: ((next_row :: _) as rows') =>
      link_rows (foldl (fun t from_id => link_node t from_id next_row dest_id) t row) rows' dest_id
  | _ => t
  end.

(** The last TTL whose primary has a node, 0 if none; [rows] starts at TTL [i]. *)
Fixpoint last_ttl (i : Z) (rows : list (list Z)) : Z :=
  match rows with
  | [] => 0
  | row :: rows' =>
      let later := last_ttl (i + 1) rows' in
      if negb (later =? 0) then later else if hd 0 row =? 0 then 0 else i
  end.

Definition link_last (t : nsr_topology_state_t) (rows : list (list Z)) (dest_id : Z) : nsr_topology_state_t :=
  let last := last_ttl 1 rows in
  if (0 <? last) && negb (dest_id =? 0) then
    let row := default [] (rows !! Z.to_nat (last - 1)) in
    let t1 := foldl (fun t from_id =>
                       if negb (from_id =? 0) && negb (from_id =? dest_id)
                       then add_edge t from_id dest_id else t) t row in
    match node_by_id t1 dest_id with
    | Some (k, n) => with_nodes t1 (<[k := with_ttl_dest n (u8 (last + 1)) (n_is_destination n)]> (nodes t1))
    | None => t1
    end
  else t.

Definition nsr_topology_update_from_telemetry (t : nsr_topology_state_t) (tel : nsr_telemetry_state_t)
  : nsr_topology_state_t :=
  let target := target_ip tel in
  if ceq (deref target) NUL then t
  else
    let '(dest_id, t1) := nsr_topology_upsert_node t target 0 target true in
    let '(rows, t2) := visit_hops t1 target 1 (drop 1 (hops tel)) in
    let t3 := link_rows t2 rows dest_id in
    link_last t3 rows dest_id.

End Update.

(** ** The node table as a registry

    The active nodes give a map from (address, target) to ids. *)

Definition node_key (n : nsr_topology_node_t) : option ((cstr * cstr) * Z) :=
  if n_active n then Some ((n_addr n, n_target_ip n), n_id n) else None.

Definition active_nodes (t : nsr_topology_state_t) : list ((cstr * cstr) * Z) := omap node_key (nodes t).

Definition registry (t : nsr_topology_state_t) : gmap (cstr * cstr) Z := list_to_map (active_nodes t).

Definition edge_key (e : nsr_topology_edge_t) : option (Z * Z) :=
  if e_active e then Some (e_from e, e_to e) else None.

Definition active_edges (t : nsr_topology_state_t) : list (Z * Z) := omap edge_key (edges t).

(** Slot [id mod 1024] of the table holds node [id]; ids run from 1 to the number
    of nodes; no two nodes have the same key. *)
Definition nodes_wf (t : nsr_topology_state_t) : Prop :=
  length (nodes t) = 1024%nat /\ 0 <= node_count t <= 1024 /\ next_id t = node_count t + 1 /\
  Z.of_nat (length (active_nodes t)) = node_count t /\ NoDup (map fst (active_nodes t)) /\
  forall i n, nodes t !! i = Some n -> n_active n = true ->
    1 <= n_id n <= node_count t /\ Z.of_nat i = n_id n mod 1024.

(** Active edges are distinct and join two different existing nodes. *)
Definition edges_wf (t : nsr_topology_state_t) : Prop :=
  length (edges t) = 2048%nat /\ Z.of_nat (length (active_edges t)) = edge_count t /\
  NoDup (active_edges t) /\
  Forall (fun p => 1 <= p.1 <= node_count t /\ 1 <= p.2 <= node_count t /\ p.1 <> p.2) (active_edges t).

Definition topo_wf (t : nsr_topology_state_t) : Prop := nodes_wf t /\ edges_wf t.

(** *** Lists with a partial view *)

Lemma omap_list_cons {A B} (f : A -> option B) x (l : list A) :
  omap f (x :: l) = match f x with Some y => y :: omap f l | None => omap f l end.
Proof. done. Qed.

Lemma omap_insert_same {A B} (f : A -> option B) (l : list A) i x y :
  l !! i = Some x -> f y = f x -> omap f (<[i := y]> l) = omap f l.
Proof.
  revert i. induction l as [|a l IH]; intros [|i] Hi Hf; simplify_eq/=; [by rewrite Hf|].
  by rewrite IH.
Qed.

Lemma omap_insert_new {A B} (f : A -> option B) (l : list A) i x y b :
  l !! i = Some x -> f x = None -> f y = Some b -> omap f (<[i := y]> l) ≡ₚ b :: omap f l.
Proof.
  revert i. induction l as [|a l IH]; intros [|i] Hi Hx Hy; simplify_eq/=.
  - by rewrite Hx, Hy.
  - destruct (f a) as [c|]; [|by apply IH]. rewrite IH by done. apply Permutation_swap.
Qed.

Lemma omap_all_none {A B} (f : A -> option B) x n : f x = None -> omap f (replicate n x) = [].
Proof. intros Hx. induction n as [|n IH]; simpl; [done|]. by rewrite Hx. Qed.

Lemma omap_length_le {A B} (f : A -> option B) (l : list A) : (length (omap f l) <= length l)%nat.
Proof.
  induction l as [|a l IH]; [done|]. rewrite omap_list_cons. cbn [length].
  destruct (f a); cbn [length]; lia.
Qed.

Lemma omap_full_or {A B} (f : A -> option B) (l : list A) :
  (length (omap f l) < length l)%nat -> exists i x, l !! i = Some x /\ f x = None.
Proof.
  induction l as [|a l IH]; [simpl; lia|]. rewrite omap_list_cons. destruct (f a) as [b|] eqn:E.
  - cbn [length]. intros H. destruct IH as (i & x & Hi & Hx); [lia|]. by exists (S i), x.
  - intros _. by exists 0%nat, a.
Qed.

(** *** Look-ups *)

Lemma matches_spec a tg n :
  matches a tg n = true <-> n_active n = true /\ n_addr n = a /\ n_target_ip n = tg.
Proof. unfold matches. rewrite !andb_true_iff, !streq_true. tauto. Qed.

Lemma registry_node t i n :
  nodes_wf t -> nodes t !! i = Some n -> n_active n = true ->
  registry t !! (n_addr n, n_target_ip n) = Some (n_id n).
Proof.
  intros (_ & _ & _ & _ & Hnd & _) Hi Ha. apply elem_of_list_to_map_1; [done|].
  apply list_elem_of_omap. exists n. split; [by eapply list_elem_of_lookup_2|].
  unfold node_key. by rewrite Ha.
Qed.

Lemma find_node_spec t a tg :
  nodes_wf t ->
  match nsr_topology_find_by_addr_and_target t a tg with
  | Some (i, n) =>
      nodes t !! i = Some n /\ n_active n = true /\ n_addr n = a /\ n_target_ip n = tg /\
      registry t !! (a, tg) = Some (n_id n)
  | None => registry t !! (a, tg) = None
  end.
Proof.
  intros Hwf. unfold nsr_topology_find_by_addr_and_target.
  destruct (list_find _ (nodes t)) as [[i n]|] eqn:E.
  - apply list_find_Some in E as (Hi & Hm & _). apply matches_spec in Hm as (Ha & <- & <-).
    pose proof (registry_node t i n Hwf Hi Ha). done.
  - apply list_find_None in E. apply not_elem_of_list_to_map_1. intros Hin.
    apply list_elem_of_fmap in Hin as ([k id] & Hk & Hin). simpl in Hk. subst k.
    apply list_elem_of_omap in Hin as (n & Hn & Hkey). rewrite Forall_forall in E.
    apply (E n Hn). apply matches_spec. unfold node_key in Hkey. destruct (n_active n); by simplify_eq.
Qed.

Lemma node_by_id_spec t id i n :
  nodes_wf t -> nodes t !! i = Some n -> n_active n = true -> n_id n = id ->
  node_by_id t id = Some (i, n).
Proof.
  intros (_ & _ & _ & _ & _ & Hids) Hi Ha <-. unfold node_by_id. apply list_find_Some. split; [done|].
  split; [by rewrite Ha, Z.eqb_refl|]. intros j y Hj Hlt Hp. bool_facts.
  destruct (Hids i n Hi Ha) as [_ H1]. destruct (Hids j y Hj ltac:(done)) as [_ H2].
  rewrite H0 in H2. lia.
Qed.

(** The slot for the next id is free. *)
Lemma next_slot_free t :
  nodes_wf t -> node_count t < 1024 ->
  exists n, nodes t !! Z.to_nat (next_id t mod NSR_TOPOLOGY_MAX_NODES) = Some n /\ node_key n = None.
Proof.
  intros (Hl & Hc & Hn & _ & _ & Hids) Hlt. unfold NSR_TOPOLOGY_MAX_NODES.
  pose proof (Z.mod_pos_bound (next_id t) 1024).
  destruct (lookup_lt_is_Some_2 (nodes t) (Z.to_nat (next_id t mod 1024))) as [n Hi]; [lia|].
  exists n. split; [done|]. unfold node_key. destruct (n_active n) eqn:Ha; [|done]. exfalso.
  destruct (Hids _ n Hi Ha) as [Hid Hmod]. rewrite Z2Nat.id in Hmod by lia.
  pose proof (Z.div_mod (next_id t) 1024). pose proof (Z.div_mod (n_id n) 1024).
  assert (next_id t / 1024 = 0 \/ next_id t = 1024) by lia. lia.
Qed.

(** ** Upserts *)

Lemma edges_wf_mono t t' :
  edges t' = edges t -> edge_count t' = edge_count t -> node_count t <= node_count t' ->
  edges_wf t -> edges_wf t'.
Proof.
  unfold edges_wf, active_edges. intros -> -> Hc (Hl & Hn & Hd & Hf).
  refine (conj Hl (conj Hn (conj Hd _))). eapply Forall_impl; [exact Hf|]. simpl. lia.
Qed.

(** Changing a node without its key keeps the table well formed. *)
Lemma nodes_wf_same t t' i n n' :
  nodes_wf t -> nodes t !! i = Some n -> node_key n' = node_key n -> n_id n' = n_id n ->
  nodes t' = <[i := n']> (nodes t) -> node_count t' = node_count t -> next_id t' = next_id t ->
  nodes_wf t' /\ active_nodes t' = active_nodes t.
Proof.
  intros (Hl & Hc & Hn & Hlen & Hnd & Hids) Hi Hk Hid E1 E2 E3.
  assert (Hact : active_nodes t' = active_nodes t).
  { unfold active_nodes. rewrite E1. by apply (omap_insert_same _ _ _ n). }
  split; [|done]. unfold nodes_wf. rewrite Hact, E1, E2, E3, length_insert.
  refine (conj Hl (conj Hc (conj Hn (conj Hlen (conj Hnd _))))).
  intros j m [(-> & -> & _)|[Hne Hj]]%list_lookup_insert_Some Ha; [|by apply Hids].
  rewrite Hid. apply (Hids j n Hi). unfold node_key in Hk. by destruct (n_active m), (n_active n).
Qed.

Lemma find_upsert_existing t ttl dest i n :
  nodes_wf t -> nodes t !! i = Some n -> n_active n = true ->
  let t' := with_nodes t (<[i := with_ttl_dest n ttl dest]> (nodes t)) in
  nodes_wf t' /\ active_nodes t' = active_nodes t.
Proof. intros Hwf Hi Ha. by apply (nodes_wf_same t _ i n (with_ttl_dest n ttl dest)). Qed.

Lemma add_node_wf t a ttl tg dest :
  nodes_wf t -> text_ok a -> text_ok tg -> registry t !! (a, tg) = None -> node_count t < 1024 ->
  let id := next_id t in
  let slot := Z.to_nat (id mod NSR_TOPOLOGY_MAX_NODES) in
  forall t', nodes t' = <[slot := new_node id a ttl tg dest]> (nodes t) ->
  node_count t' = node_count t + 1 -> next_id t' = next_id t + 1 ->
  nodes_wf t' /\ registry t' = <[(a, tg) := id]> (registry t).
Proof.
  intros Hwf (_ & _ & Hla) (_ & _ & Hlt) Hreg Hcnt. cbv zeta. intros t' E1 E2 E3.
  destruct (next_slot_free t Hwf Hcnt) as (old & Hold & Hkey).
  destruct Hwf as (Hl & Hc & Hn & Hlen & Hnd & Hids).
  set (id := next_id t) in *. set (slot := Z.to_nat (id mod NSR_TOPOLOGY_MAX_NODES)) in *.
  set (nn := new_node id a ttl tg dest) in *.
  assert (Hperm : active_nodes t' ≡ₚ ((a, tg), id) :: active_nodes t).
  { unfold active_nodes. rewrite E1. apply (omap_insert_new _ _ _ old); [done|done|].
    unfold node_key, nn, new_node. cbn [n_active n_addr n_target_ip n_id].
    by rewrite !strncpy_id. }
  assert (Hnd' : NoDup (map fst (((a, tg), id) :: active_nodes t))).
  { simpl. apply NoDup_cons. split; [|done]. by apply not_elem_of_list_to_map_2. }
  split.
  - refine (conj _ (conj _ (conj _ (conj _ (conj _ _))))).
    + by rewrite E1, length_insert.
    + lia.
    + lia.
    + rewrite (Permutation_length Hperm). simpl. lia.
    + change (NoDup (fst <$> active_nodes t')). by rewrite Hperm.
    + rewrite E1, E2. intros j m [(<- & <- & _)|[Hne Hj]]%list_lookup_insert_Some Ha.
      * unfold slot, nn, NSR_TOPOLOGY_MAX_NODES. simpl. pose proof (Z.mod_pos_bound id 1024). lia.
      * destruct (Hids j m Hj Ha). lia.
  - unfold registry. rewrite (list_to_map_proper (active_nodes t') (((a, tg), id) :: active_nodes t));
      [done| |done].
    change (NoDup (fst <$> active_nodes t')). by rewrite Hperm.
Qed.

(** What an upsert of [(a, tg)] returns and leaves. *)
Definition upserted (t t' : nsr_topology_state_t) (a tg : cstr) (id : Z) : Prop :=
  match registry t !! (a, tg) with
  | Some id0 => id = id0 /\ registry t' = registry t /\ node_count t' = node_count t
  | None =>
      if 1024 <=? node_count t then id = 0 /\ t' = t
      else id = node_count t + 1 /\ registry t' = <[(a, tg) := id]> (registry t) /\
           node_count t' = node_count t + 1
  end.

Definition has_node (t : nsr_topology_state_t) (id : Z) (P : nsr_topology_node_t -> Prop) : Prop :=
  exists i n, nodes t !! i = Some n /\ n_active n = true /\ n_id n = id /\ P n.

Lemma upsert_spec t a ttl tg dest :
  topo_wf t -> text_ok a -> text_ok tg ->
  let '(id, t') := nsr_topology_upsert_node t a ttl tg dest in
  topo_wf t' /\ upserted t t' a tg id /\ node_count t <= node_count t' /\
  active_edges t' = active_edges t /\
  (id <> 0 -> has_node t' id (fun n => n_addr n = a /\ n_target_ip n = tg /\ n_ttl n = ttl /\
                                       n_is_destination n = dest)).
Proof.
  intros [Hwf Hedges] Ha Htg. pose proof Ha as (Hne & Hnul & Hla). pose proof Htg as (Hne' & Hnul' & Hlt).
  unfold nsr_topology_upsert_node. rewrite !deref_nonempty by done. simpl.
  pose proof (find_node_spec t a tg Hwf) as Hf.
  destruct (nsr_topology_find_by_addr_and_target t a tg) as [[i n]|]; unfold upserted.
  - destruct Hf as (Hi & Hact & <- & <- & ->).
    destruct (find_upsert_existing t ttl dest i n Hwf Hi Hact) as [Hwf' Hk].
    split; [split; [done|by apply (edges_wf_mono t)]|].
    split; [split_and!; try done; unfold registry; by rewrite Hk|].
    split; [done|]. split; [done|]. intros _. exists i, (with_ttl_dest n ttl dest). simpl.
    split_and!; try done. apply list_lookup_insert_eq. by eapply lookup_lt_Some.
  - rewrite Hf. unfold NSR_TOPOLOGY_MAX_NODES at 1. destruct (1024 <=? node_count t) eqn:Ec; bool_facts.
    + split_and!; try done; by rewrite ?Hf, (proj2 (Z.leb_le _ _)).
    + pose proof Hwf as (Hl & Hc & Hn & _).
      set (t' := mk_topo _ _ _ _ _ _).
      destruct (add_node_wf t a ttl tg dest Hwf Ha Htg Hf ltac:(lia) t') as [Hwf' Hreg];
        [done|apply u32_small; lia|simpl; apply u32_small; lia|].
      split; [split; [done|apply (edges_wf_mono t); try done; simpl; rewrite u32_small; lia]|].
      split; [rewrite Hn in *; split_and!; [done|done|simpl; apply u32_small; lia]|].
      split; [simpl; rewrite u32_small; lia|]. split; [done|]. intros _.
      eexists _, _. split; [apply list_lookup_insert_eq|]; [|split_and!; try done; by apply strncpy_id].
      rewrite Hl. unfold NSR_TOPOLOGY_MAX_NODES. pose proof (Z.mod_pos_bound (next_id t) 1024). lia.
Qed.

(** ** Edges *)

Definition valid_id (t : nsr_topology_state_t) (id : Z) : Prop := 0 <= id <= node_count t.

Lemma add_edge_spec t f g :
  topo_wf t -> valid_id t f -> valid_id t g ->
  let t' := add_edge t f g in
  topo_wf t' /\ nodes t' = nodes t /\ node_count t' = node_count t /\
  active_edges t ⊆+ active_edges t' /\
  (f <> 0 -> g <> 0 -> f <> g -> (f, g) ∈ active_edges t' \/ edge_count t = 2048) /\
  (forall p, p ∈ active_edges t' -> p ∈ active_edges t \/ p = (f, g)).
Proof.
  intros Hwf Hf Hg. cbv zeta. pose proof Hwf as [Hnodes (Hl & Hn & Hd & Hall)].
  unfold add_edge, NSR_TOPOLOGY_MAX_NODES.
  destruct (_ || _) eqn:Ez.
  { split_and!; try done; [|auto]. apply orb_true_iff in Ez as [[?|?]%orb_true_iff|?]; bool_facts; lia. }
  bool_facts. assert (Hbound : Z.of_nat (length (active_edges t)) <= 2048).
  { unfold active_edges. pose proof (omap_length_le edge_key (edges t)). lia. }
  destruct (1024 * 2 <=? edge_count t) eqn:Ec; bool_facts.
  { split_and!; try done; [|auto]. intros; right; lia. }
  destruct (list_find _ (edges t)) as [[i e]|] eqn:E1.
  { apply list_find_Some in E1 as (Hi & Hp & _). bool_facts. split_and!; try done; [|auto].
    intros _ _ _. left. apply list_elem_of_omap. exists e. split; [by eapply list_elem_of_lookup_2|].
    unfold edge_key. by simplify_eq/=; rewrite H2. }
  destruct (list_find (fun e => e_active e = false) (edges t)) as [[i e]|] eqn:E2.
  - apply list_find_Some in E2 as (Hi & Hp & _). apply list_find_None in E1.
    set (ne := {| e_from := f; e_to := g; e_active := true |}).
    assert (Hperm : omap edge_key (<[i := ne]> (edges t)) ≡ₚ (f, g) :: active_edges t).
    { apply (omap_insert_new _ _ _ e); [done| |done]. unfold edge_key. by rewrite Hp. }
    assert (Hfresh : (f, g) ∉ active_edges t).
    { intros Hin. apply list_elem_of_omap in Hin as (e' & He' & Hk). rewrite Forall_forall in E1.
      apply (E1 e' He'). unfold edge_key in Hk. destruct (e_active e'); [|done].
      injection Hk as -> ->. by rewrite !Z.eqb_refl. }
    split; [split; [done|]|].
    + unfold edges_wf, active_edges. simpl. rewrite length_insert, Hperm. refine (conj Hl (conj _ (conj _ _))).
      * rewrite u32_small by lia. simpl. lia.
      * by apply NoDup_cons.
      * constructor; [|done]. simpl. unfold valid_id in *. lia.
    + unfold active_edges. simpl. split_and!; try done.
      * rewrite Hperm. by apply submseteq_cons.
      * intros _ _ _. left. rewrite Hperm. by left.
      * intros p. rewrite Hperm. intros [->|?]%elem_of_cons; auto.
  - exfalso. apply list_find_None in E2.
    destruct (omap_full_or edge_key (edges t)) as (i & e & Hi & Hk); [fold (active_edges t); lia|].
    rewrite Forall_forall in E2. apply (E2 e); [by eapply list_elem_of_lookup_2|].
    unfold edge_key in Hk. by destruct (e_active e).
Qed.

(** ** Growth

    Everything the rebuild does only adds: ids stay, edges stay. *)

Record grows (t t' : nsr_topology_state_t) : Prop := mk_grows {
  grows_wf : topo_wf t';
  grows_count : node_count t <= node_count t';
  grows_registry : registry t ⊆ registry t';
  grows_edges : active_edges t ⊆+ active_edges t';
}.

Lemma grows_refl t : topo_wf t -> grows t t.
Proof. intros H. by constructor. Qed.

Lemma grows_trans t1 t2 t3 : grows t1 t2 -> grows t2 t3 -> grows t1 t3.
Proof. intros [] []. constructor; [done|lia|by etrans|by etrans]. Qed.

(** The address is in the registry, or the registry is full. *)
Definition covered (t : nsr_topology_state_t) (target a : cstr) : Prop :=
  is_Some (registry t !! (a, target)) \/ node_count t = 1024.

Lemma covered_grows t t' tg a : grows t t' -> covered t tg a -> covered t' tg a.
Proof.
  intros [[Hn _] Hc Hr _] [[id Hid]|Hfull]; [left; exists id; by eapply lookup_weaken|right].
  destruct Hn as (_ & ? & _). lia.
Qed.

Lemma valid_grows t t' id : grows t t' -> valid_id t id -> valid_id t' id.
Proof. intros [_ Hc _ _]. unfold valid_id. lia. Qed.

Lemma registry_valid t k id : nodes_wf t -> registry t !! k = Some id -> 1 <= id <= node_count t.
Proof.
  intros (_ & _ & _ & _ & Hnd & Hids) Hk. apply elem_of_list_to_map_2 in Hk.
  apply list_elem_of_omap in Hk as (n & Hn & Hkey). apply list_elem_of_lookup in Hn as [i Hi].
  unfold node_key in Hkey. destruct (n_active n) eqn:Ha; [|done]. simplify_eq.
  by destruct (Hids i n Hi Ha).
Qed.

Lemma upsert_grows t a ttl tg dest :
  topo_wf t -> text_ok a -> text_ok tg ->
  let '(id, t') := nsr_topology_upsert_node t a ttl tg dest in
  grows t t' /\ valid_id t' id /\ covered t' tg a.
Proof.
  intros Hwf Ha Htg. pose proof (upsert_spec t a ttl tg dest Hwf Ha Htg) as Hu.
  destruct (nsr_topology_upsert_node t a ttl tg dest) as [id t'].
  destruct Hu as (Hwf' & Hup & Hc & He & _). pose proof Hwf as [Hn _]. pose proof Hwf' as [Hn' _].
  unfold upserted in Hup. destruct (registry t !! (a, tg)) as [id0|] eqn:Er.
  - destruct Hup as (-> & Hreg & Hcnt). pose proof (registry_valid t _ _ Hn Er).
    split; [constructor; [done|done|by rewrite Hreg|by rewrite He]|]. split; [unfold valid_id; lia|].
    left. rewrite Hreg. by exists id0.
  - destruct (1024 <=? node_count t) eqn:Ec; bool_facts.
    + destruct Hup as [-> ->]. split; [by apply grows_refl|]. destruct Hn as (_ & ? & _).
      split; [unfold valid_id; lia|right; lia].
    + destruct Hup as (-> & Hreg & Hcnt). destruct Hn as (_ & ? & _).
      split; [constructor; [done|done| |by rewrite He]|].
      * rewrite Hreg. by apply insert_subseteq.
      * split; [unfold valid_id; lia|]. left. rewrite Hreg, lookup_insert_eq. by eexists.
Qed.

Section Rebuild.
  Context (clock : nat -> Z) (target : cstr) (Htg : text_ok target).

Lemma update_node_health_grows t i n h r :
  topo_wf t -> nodes t !! i = Some n -> n_active n = true ->
  grows t (update_node_health clock t i n h r) /\
  registry (update_node_health clock t i n h r) = registry t.
Proof.
  intros [Hn He] Hi Ha. set (t' := update_node_health clock t i n h r).
  destruct (nodes_wf_same t t' i n
              (with_health n (update_health (n_health n) h r (clock (ticks_read t) / 1000))))
    as [Hn' Hk]; try done.
  split; [|unfold registry; by rewrite Hk].
  constructor; [split; [done|by apply (edges_wf_mono t)]|done| |done]. unfold registry. by rewrite Hk.
Qed.

Lemma visit_grows t i h a r :
  topo_wf t -> text_ok a ->
  let '(id, t') := visit clock t target i h a r in grows t t' /\ valid_id t' id /\ covered t' target a.
Proof.
  intros Hwf Ha. unfold visit.
  pose proof (upsert_grows t a (u8 i) target false Hwf Ha Htg) as Hu.
  destruct (nsr_topology_upsert_node t a (u8 i) target false) as [id t1].
  destruct Hu as (Hg & Hv & Hc). destruct (id =? 0) eqn:E; bool_facts; [by subst|].
  destruct (node_by_id t1 id) as [[k n]|] eqn:En; [|done].
  unfold node_by_id in En. apply list_find_Some in En as (Hk & Hp & _). bool_facts.
  destruct (update_node_health_grows t1 k n h r (grows_wf _ _ Hg) Hk ltac:(done)) as [Hg' _].
  split; [by eapply grows_trans|]. split; [by eapply valid_grows|by eapply covered_grows].
Qed.

Lemma visit_aliases_grows t i h als :
  topo_wf t -> Forall (fun a => text_ok (al_addr a)) als ->
  let '(ids, t') := visit_aliases clock t target i h als in
  grows t t' /\ Forall (valid_id t') ids /\ Forall (fun a => covered t' target (al_addr a)) als.
Proof.
  revert t. induction als as [|a als IH]; intros t Hwf Hals; simpl; [split; [by apply grows_refl|done]|].
  apply Forall_cons in Hals as [Ha Hals].
  pose proof (visit_grows t i h (al_addr a) (al_recv a) Hwf Ha) as Hv.
  destruct (visit clock t target i h (al_addr a) (al_recv a)) as [id t1]. destruct Hv as (Hg1 & Hv1 & Hc1).
  specialize (IH t1 (grows_wf _ _ Hg1) Hals).
  destruct (visit_aliases clock t1 target i h als) as [ids t2]. destruct IH as (Hg2 & Hv2 & Hc2).
  split; [by eapply grows_trans|]. split; constructor; try done; [by eapply valid_grows|by eapply covered_grows].
Qed.

Lemma hop_texts h p : hop_wf h -> p ∈ hop_counts h -> text_ok p.1.
Proof. intros (_ & _ & _ & _ & Hf) Hp. rewrite Forall_forall in Hf. by apply Hf. Qed.

Lemma zero_row t : topo_wf t -> Forall (valid_id t) [0; 0; 0; 0].
Proof. intros [(_ & Hc & _) _]. repeat constructor; unfold valid_id; lia. Qed.

Lemma visit_hop_grows t i h :
  topo_wf t -> hop_wf h ->
  let '(row, t') := visit_hop clock t target i h in
  grows t t' /\ Forall (valid_id t') row /\ Forall (fun p => covered t' target p.1) (hop_counts h).
Proof.
  intros Hwf Hh. unfold visit_hop. destruct (addr h) as [|c0 s0] eqn:Ea.
  - change (ceq (deref []) NUL) with true. cbv iota. split; [by apply grows_refl|].
    split; [by apply zero_row|]. unfold hop_counts. by rewrite Ea.
  - rewrite <- Ea. assert (Hne : addr h <> []) by (by rewrite Ea).
    assert (Hcs : hop_counts h = (addr h, primary_recv h)
              :: map (fun a => (al_addr a, al_recv a)) (take (Z.to_nat (alias_count h)) (aliases h))).
    { unfold hop_counts. by rewrite Ea. }
    assert (Hta : text_ok (addr h)).
    { apply (hop_texts h (addr h, primary_recv h) Hh). rewrite Hcs. by left. }
    rewrite (deref_nonempty (addr h)) by (done || apply Hta).
    pose proof (visit_grows t i h (addr h) (primary_recv h) Hwf Hta) as Hv.
    destruct (visit clock t target i h (addr h) (primary_recv h)) as [id t1]. destruct Hv as (Hg1 & Hv1 & Hc1).
    set (als := take (Z.to_nat (alias_count h)) (aliases h)) in *.
    assert (Hals : Forall (fun a => text_ok (al_addr a)) als).
    { apply Forall_forall. intros a Hin. apply (hop_texts h (al_addr a, al_recv a) Hh). rewrite Hcs.
      right. by apply (list_elem_of_fmap_2 (fun a => (al_addr a, al_recv a))). }
    pose proof (visit_aliases_grows t1 i h als (grows_wf _ _ Hg1) Hals) as Hva.
    destruct (visit_aliases clock t1 target i h als) as [ids t2]. destruct Hva as (Hg2 & Hv2 & Hc2).
    split; [by eapply grows_trans|]. split.
    + apply Forall_take. constructor; [by eapply valid_grows|]. apply Forall_app. split; [done|].
      pose proof (zero_row t2 (grows_wf _ _ Hg2)) as Hz. by apply Forall_cons in Hz as [_ Hz].
    + rewrite Hcs. constructor; [by eapply covered_grows|]. by apply Forall_map.
Qed.

Lemma visit_hops_grows t i hs :
  topo_wf t -> Forall hop_wf hs ->
  let '(rows, t') := visit_hops clock t target i hs in
  grows t t' /\ Forall (Forall (valid_id t')) rows /\
  Forall (fun h => Forall (fun p => covered t' target p.1) (hop_counts h)) hs.
Proof.
  revert t i. induction hs as [|h hs IH]; intros t i Hwf Hhs; simpl; [split; [by apply grows_refl|done]|].
  apply Forall_cons in Hhs as [Hh Hhs].
  pose proof (visit_hop_grows t i h Hwf Hh) as Hv.
  destruct (visit_hop clock t target i h) as [row t1]. destruct Hv as (Hg1 & Hv1 & Hc1).
  specialize (IH t1 (i + 1) (grows_wf _ _ Hg1) Hhs).
  destruct (visit_hops clock t1 target (i + 1) hs) as [rows t2]. destruct IH as (Hg2 & Hv2 & Hc2).
  split; [by eapply grows_trans|]. split; constructor; try done.
  - eapply Forall_impl; [exact Hv1|]. intros id. by apply valid_grows.
  - eapply Forall_impl; [exact Hc1|]. intros p. by apply covered_grows.
Qed.

End Rebuild.

Lemma add_edge_grows t f g : topo_wf t -> valid_id t f -> valid_id t g -> grows t (add_edge t f g).
Proof.
  intros Hwf Hf Hg. destruct (add_edge_spec t f g Hwf Hf Hg) as (Hwf' & Hn & Hc & He & _).
  constructor; [done|lia| |done]. unfold registry, active_nodes. by rewrite Hn.
Qed.

(** A loop of steps that grow the graph grows it. *)
Lemma foldl_grows {A} (step : nsr_topology_state_t -> A -> nsr_topology_state_t) (P : nsr_topology_state_t -> A -> Prop) t xs :
  (forall t x, topo_wf t -> P t x -> grows t (step t x)) ->
  (forall t t' x, grows t t' -> P t x -> P t' x) ->
  topo_wf t -> Forall (P t) xs -> grows t (foldl step t xs).
Proof.
  intros Hstep Hmono. revert t. induction xs as [|x xs IH]; intros t Hwf Hxs; simpl; [by apply grows_refl|].
  apply Forall_cons in Hxs as [Hx Hxs]. pose proof (Hstep t x Hwf Hx) as Hg.
  eapply grows_trans; [exact Hg|]. apply IH; [apply (grows_wf _ _ Hg)|].
  eapply Forall_impl; [exact Hxs|]. intros y. by apply Hmono.
Qed.

Lemma link_node_grows t from row dest :
  topo_wf t -> valid_id t from -> Forall (valid_id t) row -> valid_id t dest ->
  grows t (link_node t from row dest).
Proof.
  intros Hwf Hf Hrow Hd. unfold link_node. split_if; [by apply grows_refl|].
  set (t1 := foldl _ t row).
  assert (Hg : grows t t1).
  { apply (foldl_grows _ (fun t to_id => valid_id t from /\ valid_id t to_id)); [..|done|].
    - intros t0 x Hwf0 [? ?]. split_if; [by apply grows_refl|by apply add_edge_grows].
    - intros t0 t0' x Hg0 [? ?]. split; by eapply valid_grows.
    - eapply Forall_impl; [exact Hrow|]. done. }
  split_if; [|done]. eapply grows_trans; [exact Hg|].
  apply add_edge_grows; [apply (grows_wf _ _ Hg)|by eapply valid_grows..].
Qed.

Lemma link_rows_grows t rows dest :
  topo_wf t -> Forall (Forall (valid_id t)) rows -> valid_id t dest -> grows t (link_rows t rows dest).
Proof.
  revert t. induction rows as [|row rows IH]; intros t Hwf Hrows Hd; [by apply grows_refl|].
  destruct rows as [|next rows]; [by apply grows_refl|].
  apply Forall_cons in Hrows as [Hrow Hrows].
  change (link_rows t (row :: next :: rows) dest) with
    (link_rows (foldl (fun t from_id => link_node t from_id next dest) t row) (next :: rows) dest).
  set (t1 := foldl _ t row). pose proof (Forall_inv Hrows) as Hnext.
  assert (Hg : grows t t1).
  { apply (foldl_grows _ (fun t from => valid_id t from /\ Forall (valid_id t) next /\ valid_id t dest)); [..|done|].
    - intros t0 x Hwf0 (? & ? & ?). by apply link_node_grows.
    - intros t0 t0' x Hg0 (? & Hn & ?). split_and!; [by eapply valid_grows| |by eapply valid_grows].
      eapply Forall_impl; [exact Hn|]. intros y. by apply valid_grows.
    - eapply Forall_impl; [exact Hrow|]. done. }
  eapply grows_trans; [exact Hg|]. apply IH; [apply (grows_wf _ _ Hg)| |by eapply valid_grows].
  eapply Forall_impl; [exact Hrows|]. intros r Hr. eapply Forall_impl; [exact Hr|].
  intros y. by apply valid_grows.
Qed.

Lemma link_last_grows t rows dest :
  topo_wf t -> Forall (Forall (valid_id t)) rows -> valid_id t dest -> grows t (link_last t rows dest).
Proof.
  intros Hwf Hrows Hd. unfold link_last. split_if; [|by apply grows_refl].
  set (row := default [] _).
  assert (Hrow : Forall (valid_id t) row).
  { unfold row. destruct (rows !! _) as [r|] eqn:E; [|done]. exact (Forall_lookup_1 _ _ _ _ Hrows E). }
  set (t1 := foldl _ t row).
  assert (Hg : grows t t1).
  { apply (foldl_grows _ (fun t from => valid_id t from /\ valid_id t dest)); [..|done|].
    - intros t0 x Hwf0 [? ?]. split_if; [by apply add_edge_grows|by apply grows_refl].
    - intros t0 t0' x Hg0 [? ?]. split; by eapply valid_grows.
    - eapply Forall_impl; [exact Hrow|]. done. }
  destruct (node_by_id t1 dest) as [[k n]|] eqn:En; [|done].
  unfold node_by_id in En. apply list_find_Some in En as (Hk & Hp & _). bool_facts.
  pose proof (grows_wf _ _ Hg) as [Hn He].
  destruct (find_upsert_existing t1 (u8 (last_ttl 1 rows + 1)) (n_is_destination n) k n Hn Hk ltac:(done))
    as [Hn' Hk']. eapply grows_trans; [exact Hg|].
  constructor; [split; [done|by apply (edges_wf_mono t1)]|done| |done]. unfold registry. by rewrite Hk'.
Qed.

Lemma update_grows clock t tel :
  topo_wf t -> text_ok (target_ip tel) -> Forall hop_wf (hops tel) ->
  let t' := nsr_topology_update_from_telemetry clock t tel in
  grows t t' /\ covered t' (target_ip tel) (target_ip tel) /\
  forall h p, h ∈ drop 1 (hops tel) -> p ∈ hop_counts h -> covered t' (target_ip tel) p.1.
Proof.
  intros Hwf Htg Hhops. unfold nsr_topology_update_from_telemetry. cbv zeta.
  destruct Htg as (Hne & Hnul & Hlen). rewrite deref_nonempty by done.
  assert (Htg : text_ok (target_ip tel)) by (by split).
  pose proof (upsert_grows t (target_ip tel) 0 (target_ip tel) true Hwf Htg Htg) as Hu.
  destruct (nsr_topology_upsert_node _ _ _ _ _) as [dest t1]. destruct Hu as (Hg1 & Hv1 & Hc1).
  pose proof (visit_hops_grows clock (target_ip tel) Htg t1 1 (drop 1 (hops tel)) (grows_wf _ _ Hg1)
                (Forall_drop _ _ _ Hhops)) as Hv.
  destruct (visit_hops _ _ _ _ _) as [rows t2]. destruct Hv as (Hg2 & Hv2 & Hc2).
  pose proof (valid_grows _ _ _ Hg2 Hv1) as Hd2.
  pose proof (link_rows_grows t2 rows dest (grows_wf _ _ Hg2) Hv2 Hd2) as Hg3.
  set (t3 := link_rows t2 rows dest) in *.
  assert (Hrows3 : Forall (Forall (valid_id t3)) rows).
  { eapply Forall_impl; [exact Hv2|]. intros r Hr. eapply Forall_impl; [exact Hr|].
    intros y. by apply valid_grows. }
  pose proof (link_last_grows t3 rows dest (grows_wf _ _ Hg3) Hrows3 (valid_grows _ _ _ Hg3 Hd2)) as Hg4.
  pose proof (grows_trans _ _ _ Hg3 Hg4) as Hg34.
  split; [by do 2 (eapply grows_trans; [eassumption|])|].
  split; [by eapply covered_grows, covered_grows, Hc1|].
  intros h p Hh Hp. rewrite Forall_forall in Hc2. specialize (Hc2 h Hh). rewrite Forall_forall in Hc2.
  eapply covered_grows; [exact Hg34|]. by apply Hc2.
Qed.

(** ** Properties of the graph *)

Lemma topology_init_wf : topo_wf nsr_topology_init.
Proof.
  assert (Ha : active_nodes nsr_topology_init = []) by (apply (omap_all_none node_key); done).
  assert (He : active_edges nsr_topology_init = []) by (apply (omap_all_none edge_key); done).
  split.
  - unfold nodes_wf. rewrite Ha. cbn [nodes node_count next_id nsr_topology_init length map].
    rewrite length_replicate. split_and!; try done; [constructor|].
    intros i n [-> _]%lookup_replicate Hact. done.
  - unfold edges_wf. rewrite He. cbn [edges nsr_topology_init]. rewrite length_replicate.
    split_and!; try done. constructor.
Qed.

Definition snapshot_ok (tel : nsr_telemetry_state_t) : Prop :=
  text_ok (target_ip tel) /\ Forall hop_wf (hops tel) /\ (length (target_host tel) <= 127)%nat.

Definition rebuild (clock : nat -> Z) (tels : list nsr_telemetry_state_t) : nsr_topology_state_t :=
  foldl (nsr_topology_update_from_telemetry clock) nsr_topology_init tels.

Lemma rebuild_wf clock tels : Forall snapshot_ok tels -> topo_wf (rebuild clock tels).
Proof.
  unfold rebuild. intros H. apply (grows_wf nsr_topology_init).
  apply (foldl_grows _ (fun _ tel => snapshot_ok tel)); try done; [|apply topology_init_wf].
  intros t tel Hwf (Ht & Hh & _). by destruct (update_grows clock t tel Hwf Ht Hh).
Qed.

(** An upsert treats the node table as a registry of (address, target)
    pairs: a known pair keeps its id, a new pair gets the next id while there
    are fewer than 1024 nodes, and the table is unchanged when it is full; the
    returned id designates a node with that address and target and the TTL and
    flag given. *)
Theorem upsert_refines_registry t a ttl tg dest :
  topo_wf t -> text_ok a -> text_ok tg ->
  let '(id, t') := nsr_topology_upsert_node t a ttl tg dest in
  topo_wf t' /\ upserted t t' a tg id /\
  (id <> 0 -> exists i n, node_by_id t' id = Some (i, n) /\ n_addr n = a /\ n_target_ip n = tg /\
                          n_ttl n = ttl /\ n_is_destination n = dest).
Proof.
  intros Hwf Ha Htg. pose proof (upsert_spec t a ttl tg dest Hwf Ha Htg) as Hu.
  destruct (nsr_topology_upsert_node t a ttl tg dest) as [id t']. destruct Hu as (Hwf' & Hup & _ & _ & Hnode).
  split; [done|]. split; [done|]. intros Hid. destruct (Hnode Hid) as (i & n & Hi & Hact & Hn & Hp).
  exists i, n. split; [|done]. apply node_by_id_spec; [apply Hwf'|done..].
Qed.

(** C7: after any sequence of telemetry snapshots the graph is well formed (ids,
    slots and counters agree, no pair of address and target occurs twice, every
    edge occurs once and joins two different existing nodes), and a further
    snapshot only adds to it: ids and edges stay, and every address of the
    snapshot, the target included, has a node unless the table is full. *)
Theorem topology_rebuild clock tels tel :
  Forall snapshot_ok tels -> snapshot_ok tel ->
  let t := rebuild clock tels in
  let t' := nsr_topology_update_from_telemetry clock t tel in
  topo_wf t /\ topo_wf t' /\ registry t ⊆ registry t' /\ active_edges t ⊆+ active_edges t' /\
  covered t' (target_ip tel) (target_ip tel) /\
  forall h p, h ∈ drop 1 (hops tel) -> p ∈ hop_counts h -> covered t' (target_ip tel) p.1.
Proof.
  intros Htels (Ht & Hh & _). cbv zeta. pose proof (rebuild_wf clock tels Htels) as Hwf.
  destruct (update_grows clock (rebuild clock tels) tel Hwf Ht Hh) as ([Hwf' _ Hr He] & Hc & Hall).
  by split_and!.
Qed.

(** The jitter of a node is never measured: the code overwrites both the
    previous and the current round-trip time before taking their difference,
    so the difference is zero and a jitter that starts at zero stays zero. *)
Theorem jitter_never_measured hl h r now :
  h_jitter_us hl = f_zero -> 0 <= rtt_us h < 2 ^ 64 ->
  h_jitter_us (update_health hl h r now) = f_zero.
Proof.
  intros Hj Hr. unfold update_health. cbn [h_jitter_us].
  rewrite (f32_abs_sub_same _ (f32_of_Z_finite _ Hr)), Hj. split_if; [|done]. reflexivity.
Qed.

Lemma jitter_never_measured_witness :
  h_jitter_us (update_health zero_health
    {| addr := []; rtt_us := 81000; sent := 3; recv := 2; primary_recv := 2;
       last_status := NSR_OBS_REPLY; alias_count := 0; aliases := replicate 3 zero_alias |} 2 10) = f_zero.
Proof. apply jitter_never_measured; [reflexivity|simpl; lia]. Defined.

(** ** The destination flag *)

(** No node for the target itself is marked as the destination. *)
Definition unmarked (tg : cstr) (t : nsr_topology_state_t) : Prop :=
  forall i n, nodes t !! i = Some n -> n_active n = true -> n_addr n = tg -> n_target_ip n = tg ->
    n_is_destination n = false.

Lemma unmarked_insert tg t t' i n :
  unmarked tg t -> nodes t' = <[i := n]> (nodes t) -> n_is_destination n = false -> unmarked tg t'.
Proof.
  intros Hu E Hn j m Hj. rewrite E in Hj. apply list_lookup_insert_Some in Hj as [(_ & <- & _)|[_ Hj]]; [done|].
  by apply (Hu j).
Qed.

(** Keeping the flag of the node written keeps the marking. *)
Lemma unmarked_update tg t t' i n n' :
  unmarked tg t -> nodes t !! i = Some n -> nodes t' = <[i := n']> (nodes t) ->
  n_active n' = n_active n -> n_addr n' = n_addr n -> n_target_ip n' = n_target_ip n ->
  n_is_destination n' = n_is_destination n -> unmarked tg t'.
Proof.
  intros Hu Hi E E1 E2 E3 E4 j m Hj. rewrite E in Hj.
  apply list_lookup_insert_Some in Hj as [(_ & <- & _)|[_ Hj]]; [|by apply (Hu j)].
  rewrite E1, E2, E3, E4. by apply (Hu i).
Qed.

Lemma upsert_unmarked tg t a ttl :
  unmarked tg t -> unmarked tg (nsr_topology_upsert_node t a ttl tg false).2.
Proof.
  intros Hu. unfold nsr_topology_upsert_node. split_if; [done|].
  destruct (nsr_topology_find_by_addr_and_target t a tg) as [[i n]|].
  - by eapply (unmarked_insert tg t _ i (with_ttl_dest n ttl false)).
  - split_if; [done|]. by eapply unmarked_insert.
Qed.

(** A hop that answers with the target's address clears the flag. *)
Lemma upsert_target_unmarked tg t ttl :
  topo_wf t -> text_ok tg -> unmarked tg (nsr_topology_upsert_node t tg ttl tg false).2.
Proof.
  intros [Hwf _] (Hne & Hnul & _). unfold nsr_topology_upsert_node. rewrite deref_nonempty by done. simpl.
  pose proof (find_node_spec t tg tg Hwf) as Hf.
  destruct (nsr_topology_find_by_addr_and_target t tg tg) as [[i n]|].
  - destruct Hf as (Hi & Hact & Ha & Ht & Hreg). intros j m Hj. simpl in Hj.
    apply list_lookup_insert_Some in Hj as [(_ & <- & _)|[Hne' Hj]]; [done|]. intros Hm E1 E2. exfalso.
    pose proof (registry_node t j m Hwf Hj Hm) as Hr. rewrite E1, E2, Hreg in Hr. injection Hr as Hid.
    destruct Hwf as (_ & _ & _ & _ & _ & Hids). destruct (Hids i n Hi Hact), (Hids j m Hj Hm). apply Hne'.
    rewrite Hid in *. lia.
  - assert (Hu : unmarked tg t).
    { intros i n Hi Ha E1 E2. pose proof (registry_node t i n Hwf Hi Ha) as Hr. by rewrite E1, E2, Hf in Hr. }
    split_if; [done|]. by eapply unmarked_insert.
Qed.

Section Destination.
  Context (clock : nat -> Z) (tg : cstr) (Htg : text_ok tg).

Lemma visit_step_unmarked t i h a r :
  unmarked tg (nsr_topology_upsert_node t a (u8 i) tg false).2 ->
  unmarked tg (visit clock t tg i h a r).2.
Proof.
  unfold visit. destruct (nsr_topology_upsert_node t a (u8 i) tg false) as [id t1]. simpl. intros Hu.
  split_if; [done|]. destruct (node_by_id t1 id) as [[k n]|] eqn:E; [|done].
  unfold node_by_id in E. apply list_find_Some in E as (Hk & _). by eapply (unmarked_update tg t1).
Qed.

Lemma visit_aliases_unmarked t i h als : unmarked tg t -> unmarked tg (visit_aliases clock t tg i h als).2.
Proof.
  revert t. induction als as [|a als IH]; intros t Hu; simpl; [done|].
  pose proof (visit_step_unmarked t i h (al_addr a) (al_recv a) (upsert_unmarked _ _ _ _ Hu)) as H1.
  destruct (visit clock t tg i h (al_addr a) (al_recv a)) as [id t1]. specialize (IH t1 H1).
  by destruct (visit_aliases clock t1 tg i h als).
Qed.

Lemma visit_hop_unmarked t i h :
  topo_wf t -> unmarked tg t \/ addr h = tg -> unmarked tg (visit_hop clock t tg i h).2.
Proof.
  intros Hwf Hor. unfold visit_hop. destruct (ceq (deref (addr h)) NUL) eqn:E.
  - destruct Hor as [Hu|Ha]; [done|]. exfalso. destruct Htg as (Hne & Hnul & _).
    rewrite Ha, deref_nonempty in E by done. done.
  - assert (H1 : unmarked tg (visit clock t tg i h (addr h) (primary_recv h)).2).
    { apply visit_step_unmarked. destruct Hor as [Hu| ->]; [by apply upsert_unmarked|].
      by apply upsert_target_unmarked. }
    destruct (visit clock t tg i h (addr h) (primary_recv h)) as [id t1].
    pose proof (visit_aliases_unmarked t1 i h (take (Z.to_nat (alias_count h)) (aliases h)) H1) as H2.
    by destruct (visit_aliases clock t1 tg i h _).
Qed.

Lemma visit_hops_unmarked t i hs :
  topo_wf t -> Forall hop_wf hs -> unmarked tg t \/ (exists h, h ∈ hs /\ addr h = tg) ->
  unmarked tg (visit_hops clock t tg i hs).2.
Proof.
  revert t i. induction hs as [|h hs IH]; intros t i Hwf Hhs Hor; simpl.
  - destruct Hor as [|(h & Hin & _)]; [done|]. by apply not_elem_of_nil in Hin.
  - apply Forall_cons in Hhs as [Hh Hhs].
    pose proof (visit_hop_grows clock tg Htg t i h Hwf Hh) as Hg.
    assert (Hor' : unmarked tg (visit_hop clock t tg i h).2 \/ exists h', h' ∈ hs /\ addr h' = tg).
    { destruct Hor as [Hu|(h' & [->|Hin]%elem_of_cons & Ha)]; [left; apply visit_hop_unmarked; auto..|].
      right. by exists h'. }
    destruct (visit_hop clock t tg i h) as [row t1]. destruct Hg as (Hg1 & _).
    specialize (IH t1 (i + 1) (grows_wf _ _ Hg1) Hhs Hor').
    by destruct (visit_hops clock t1 tg (i + 1) hs).
Qed.

Lemma foldl_unmarked {A} (step : nsr_topology_state_t -> A -> nsr_topology_state_t) t xs :
  (forall t x, unmarked tg t -> unmarked tg (step t x)) -> unmarked tg t -> unmarked tg (foldl step t xs).
Proof. intros Hs. revert t. induction xs as [|x xs IH]; intros t Hu; simpl; auto. Qed.

Lemma add_edge_unmarked t f g : unmarked tg t -> unmarked tg (add_edge t f g).
Proof. intros Hu. unfold add_edge. repeat split_if; try done. by repeat case_match. Qed.

Lemma link_unmarked t rows dest :
  unmarked tg t -> unmarked tg (link_last (link_rows t rows dest) rows dest).
Proof.
  intros Hu.
  assert (Hnode : forall t f row, unmarked tg t -> unmarked tg (link_node t f row dest)).
  { intros t0 f row H0. unfold link_node. split_if; [done|].
    assert (H1 : unmarked tg (foldl (fun t to_id => if to_id =? 0 then t else add_edge t f to_id) t0 row)).
    { apply foldl_unmarked; [|done]. intros. split_if; [done|by apply add_edge_unmarked]. }
    split_if; [by apply add_edge_unmarked|done]. }
  assert (Hrows : forall rs t, unmarked tg t -> unmarked tg (link_rows t rs dest)).
  { induction rs as [|r rs IH]; intros t0 H0; [done|]. destruct rs as [|r' rs]; [done|].
    apply IH. apply foldl_unmarked; [|done]. intros. by apply Hnode. }
  unfold link_last. split_if; [|by apply Hrows].
  set (t1 := foldl _ _ _).
  assert (H1 : unmarked tg t1).
  { apply foldl_unmarked; [|by apply Hrows]. intros. split_if; [by apply add_edge_unmarked|done]. }
  destruct (node_by_id t1 dest) as [[k n]|] eqn:E; [|done].
  unfold node_by_id in E. apply list_find_Some in E as (Hk & _). by eapply (unmarked_update tg t1).
Qed.

End Destination.

(** When a hop answers with the target's own address, as the destination
    does, the node of the target loses its destination mark: the mark set at
    the start of the rebuild is overwritten by the hop's upsert. *)
Theorem destination_mark_lost clock t tel h :
  topo_wf t -> snapshot_ok tel -> h ∈ drop 1 (hops tel) -> addr h = target_ip tel ->
  unmarked (target_ip tel) (nsr_topology_update_from_telemetry clock t tel).
Proof.
  intros Hwf (Htg & Hhops & _) Hin Ha. unfold nsr_topology_update_from_telemetry.
  pose proof Htg as (Hne & Hnul & _). rewrite deref_nonempty by done.
  pose proof (upsert_grows t (target_ip tel) 0 (target_ip tel) true Hwf Htg Htg) as Hu.
  destruct (nsr_topology_upsert_node _ _ _ _ _) as [dest t1]. destruct Hu as (Hg1 & _).
  assert (Hv : unmarked (target_ip tel) (visit_hops clock t1 (target_ip tel) 1 (drop 1 (hops tel))).2).
  { apply visit_hops_unmarked; [done|apply (grows_wf _ _ Hg1)|by apply Forall_drop|]. right. by exists h. }
  destruct (visit_hops _ _ _ _ _) as [rows t2]. by apply link_unmarked.
Qed.

(** ** A concrete graph *)

Definition reply_hop (a : cstr) : nsr_hop_info_t :=
  {| addr := a; rtt_us := 900; sent := 4; recv := 4; primary_recv := 4;
     last_status := NSR_OBS_EXCEEDED; alias_count := 0; aliases := replicate 3 zero_alias |}.

(** Two routers, then the target answers at TTL 3. *)
Definition sample_telemetry : nsr_telemetry_state_t :=
  {| hops := [zero_hop; reply_hop (str "10.0.0.1"); reply_hop (str "10.0.0.2");
              reply_hop (str "192.0.2.7")] ++ replicate 60 zero_hop;
     target_ip := str "192.0.2.7"; target_host := str "host"; start_time_us := 0; interval_ms := 100 |}.

Ltac text_tac := split; [done|]; split; [by apply (bool_decide_unpack _)|simpl; lia].

Lemma reply_hop_wf a : text_ok a -> hop_wf (reply_hop a).
Proof.
  intros Ha. pose proof Ha as (Hne & _). destruct a as [|c a]; [done|].
  unfold hop_wf, hop_counts. simpl. split; [done|]. split; [lia|]. split; [done|]. split.
  - apply NoDup_singleton.
  - constructor; [|done]. split; [done|]. simpl. lia.
Qed.

Lemma empty_hop_wf : hop_wf zero_hop.
Proof. split; [done|]. split; [simpl; lia|]. split; [done|]. split; constructor. Qed.

Lemma sample_telemetry_ok : snapshot_ok sample_telemetry.
Proof.
  split; [text_tac|]. split; [|cbn; lia]. unfold sample_telemetry. cbn [hops app].
  repeat (apply Forall_cons; split; [first [apply empty_hop_wf|apply reply_hop_wf; text_tac]|]).
  apply Forall_nil_2.
Qed.

Lemma upsert_refines_registry_witness :
  let '(id, t') := nsr_topology_upsert_node nsr_topology_init (str "10.0.0.1") 1 (str "192.0.2.7") false in
  topo_wf t' /\ upserted nsr_topology_init t' (str "10.0.0.1") (str "192.0.2.7") id /\
  (id <> 0 -> exists i n, node_by_id t' id = Some (i, n) /\ n_addr n = str "10.0.0.1" /\
                          n_target_ip n = str "192.0.2.7" /\ n_ttl n = 1 /\ n_is_destination n = false).
Proof.
  apply (upsert_refines_registry nsr_topology_init (str "10.0.0.1") 1 (str "192.0.2.7") false);
    [apply topology_init_wf|text_tac|text_tac].
Defined.

Lemma topology_rebuild_witness :
  let t' := nsr_topology_update_from_telemetry (fun _ => 0) (rebuild (fun _ => 0) []) sample_telemetry in
  topo_wf t' /\ covered t' (str "192.0.2.7") (str "192.0.2.7").
Proof.
  destruct (topology_rebuild (fun _ => 0) [] sample_telemetry (Forall_nil_2 _) sample_telemetry_ok)
    as (_ & H & _ & _ & Hc & _). split; [exact H|exact Hc].
Defined.

Lemma destination_mark_lost_witness :
  unmarked (str "192.0.2.7")
    (nsr_topology_update_from_telemetry (fun _ => 0) nsr_topology_init sample_telemetry).
Proof.
  apply (destination_mark_lost (fun _ => 0) nsr_topology_init sample_telemetry
           (reply_hop (str "192.0.2.7")) topology_init_wf sample_telemetry_ok); [|reflexivity].
  apply list_elem_of_lookup. exists 2%nat. reflexivity.
Defined.
