(* ===== verification/Accounting.v ===== *)
(** * Conservation of probes, and processes that start again

    The pipeline of System.v with two additions.  Processes crash and are started
    again on the rings they left (spawn_gatekeeper and the reaping in
    src/src/core/main.c); and probes are counted: a probe that was sent to a hop is on
    its way to the gatekeeper, outstanding, on its way back, counted as answered, or
    lost, and is never in two of these places.  With this the snapshots that the main
    process reads obey what MainLoop.v and Topology.v ask of them. *)

From stdpp Require Import relations gmap.
From S2P Require Import Prelude CFloat Telemetry ShmRing HopAlias Logic Icmp Gatekeeper GateSetup System Topology.

(** ** Counting *)

(** Probes to hop [k] that are outstanding, and observations of hop [k]. *)
Definition flying (k : nat) (m : gmap Z (Z * Z)) : Z :=
  Z.of_nat (size (filter (fun p : Z * (Z * Z) => p.2.1 = Z.of_nat k) m)).

Definition obs_of (k : nat) (obs : list nsr_observation_t) : Z :=
  Z.of_nat (length (filter (fun o => ob_ttl o = Z.of_nat k) obs)).

Definition one_if (ttl : Z) (k : nat) : Z := if decide (ttl = Z.of_nat k) then 1 else 0.

Lemma obs_of_nil k : obs_of k [] = 0.
Proof. done. Qed.

Lemma obs_of_app k xs ys : obs_of k (xs ++ ys) = obs_of k xs + obs_of k ys.
Proof. unfold obs_of. rewrite filter_app, length_app. lia. Qed.

Lemma obs_of_cons k o obs : obs_of k (o :: obs) = one_if (ob_ttl o) k + obs_of k obs.
Proof. unfold obs_of, one_if. rewrite filter_cons. case_decide; cbn [length]; lia. Qed.

Lemma probes_to_app k xs ys : probes_to k (xs ++ ys) = probes_to k xs + probes_to k ys.
Proof. unfold probes_to. rewrite filter_app, length_app. lia. Qed.

Lemma probes_to_cons k i intents : probes_to k (i :: intents) = one_if (in_ttl i) k + probes_to k intents.
Proof. unfold probes_to, one_if. rewrite filter_cons. case_decide; cbn [length]; lia. Qed.

Lemma probes_to_bound k intents : 0 <= probes_to k intents <= Z.of_nat (length intents).
Proof. unfold probes_to. pose proof (length_filter (fun i => in_ttl i = Z.of_nat k) intents). lia. Qed.

Lemma flying_mono k m m' : m' ⊆ m -> flying k m' <= flying k m.
Proof.
  intros Hs. unfold flying. apply inj_le, map_subseteq_size, map_subseteq_spec. intros q x.
  rewrite !map_lookup_filter_Some. intros [Hq Hx]. split; [by eapply lookup_weaken|done].
Qed.

Lemma flying_insert k m q ttl now : flying k (<[q := (ttl, now)]> m) <= flying k m + one_if ttl k.
Proof.
  unfold flying, one_if. rewrite map_filter_insert. cbn [fst snd]. case_decide.
  - rewrite map_size_insert. destruct (_ !! q); cbn; lia.
  - rewrite map_filter_delete, map_size_delete. destruct (_ !! q); cbn; lia.
Qed.

Lemma flying_delete k m q ttl now :
  m !! q = Some (ttl, now) -> flying k (delete q m) + one_if ttl k = flying k m.
Proof.
  intros Hq. unfold flying, one_if. rewrite map_filter_delete, map_size_delete. case_decide.
  - assert (Hf : filter (fun p : Z * (Z * Z) => p.2.1 = Z.of_nat k) m !! q = Some (ttl, now)) by by apply map_lookup_filter_Some.
    rewrite Hf. assert (size (filter (fun p : Z * (Z * Z) => p.2.1 = Z.of_nat k) m) <> 0)%nat.
    { apply map_size_ne_0_lookup. by exists q, (ttl, now). }
    cbn. lia.
  - assert (Hf : filter (fun p : Z * (Z * Z) => p.2.1 = Z.of_nat k) m !! q = None).
    { apply map_lookup_filter_None. right. intros x Hx. rewrite Hq in Hx. by injection Hx as <-. }
    rewrite Hf. cbn. lia.
Qed.

(** ** The gatekeeper *)

Lemma track_all_flying k t now intents :
  table_wf t -> Forall is_word (seqs intents) ->
  flying k (outstanding (track_all t now intents)) <= flying k (outstanding t) + probes_to k intents.
Proof.
  unfold track_all. revert t. induction intents as [|i intents IH]; intros t Hwf Hw; cbn [foldl].
  { unfold probes_to. cbn. lia. }
  cbn in Hw. apply Forall_cons in Hw as [Hi Hw].
  destruct (track_spec t (in_ttl i) (in_seq i) now Hwf Hi) as [Hwf1 Ho]. specialize (IH _ Hwf1 Hw).
  rewrite Ho in IH. pose proof (flying_insert k (outstanding t) (in_seq i) (in_ttl i) now). rewrite probes_to_cons. lia.
Qed.

Lemma send_batch_flying k g is_v6 intents now accepted :
  table_wf (g_inflight g) -> Forall is_word (seqs intents) ->
  flying k (outstanding (g_inflight (send_batch g is_v6 intents now accepted).2))
    <= flying k (outstanding (g_inflight g)) + probes_to k intents.
Proof.
  intros Hwf Hw. rewrite send_batch_table. destruct (track_all_spec (g_inflight g) now intents Hwf Hw) as (Hwf1 & _).
  pose proof (track_all_flying k (g_inflight g) now intents Hwf Hw).
  set (rest := drop (accepted_count intents accepted) intents).
  assert (Hd : Forall is_word (seqs rest)) by (unfold seqs, rest; rewrite <- skipn_map; by apply Forall_drop).
  destruct (drop_all_spec (track_all (g_inflight g) now intents) rest Hwf1 Hd) as (_ & Hl).
  assert (flying k (outstanding (drop_all (track_all (g_inflight g) now intents) rest))
    <= flying k (outstanding (track_all (g_inflight g) now intents))); [|lia].
  apply flying_mono, map_subseteq_spec. intros q x. rewrite Hl. by case_decide.
Qed.

Lemma reap_flying k g now :
  table_wf (g_inflight g) ->
  flying k (outstanding (g_inflight (reap_stale_inflight g now))) <= flying k (outstanding (g_inflight g)).
Proof.
  intros Hwf. destruct (reap_spec g now Hwf) as [_ ->]. split_if; [lia|]. apply flying_mono, map_filter_subseteq.
Qed.

Lemma receive_batch_flying k g is_v6 now stale j rxs obs g' :
  table_wf (g_inflight g) -> Forall (fun rx => Forall is_byte (rx_buf rx)) rxs ->
  receive_batch g is_v6 now stale j rxs = Some (obs, g') ->
  flying k (outstanding (g_inflight g')) + obs_of k obs = flying k (outstanding (g_inflight g)).
Proof.
  revert g j obs. induction rxs as [|rx rxs IH]; intros g j obs Hwf Hb H; cbn [receive_batch] in H.
  { injection H as <- <-. rewrite obs_of_nil. lia. }
  apply Forall_cons in Hb as [Hrx Hb].
  destruct (handle_packet_spec g is_v6 now (stale j) rx Hwf Hrx) as (o & g1 & E & Hwf1 & _ & Ho).
  rewrite E in H. cbn [mbind option_bind] in H. destruct o as [ob|].
  - destruct Ho as (_ & (sts & Hl & _) & Hd).
    apply bind_Some in H as ([obs1 g2] & H & [= <- <-]). specialize (IH _ _ _ Hwf1 Hb H).
    rewrite obs_of_cons. rewrite Hd in IH. pose proof (flying_delete k _ _ _ _ Hl). lia.
  - specialize (IH _ _ _ Hwf1 Hb H). by rewrite Ho in IH.
Qed.

Lemma receive_loop_flying k g is_v6 (r : nsr_shm_ring_t (list Z)) batches g' r' :
  gk_wf g -> ring_wf r -> Forall (batch_ok is_v6) batches ->
  receive_loop g is_v6 r batches = GkDone (g', r') ->
  flying k (outstanding (g_inflight g')) + obs_of k (contents r')
    = flying k (outstanding (g_inflight g)) + obs_of k (contents r).
Proof.
  intros Hg Hr Hb. revert g r Hg Hr. induction Hb as [|b batches Hb Hbs IH]; intros g r Hg Hr H; cbn [receive_loop] in H.
  { by injection H as <- <-. }
  destruct (receive_batch_wf g is_v6 b Hg Hb) as (obs & g1 & E & Hg1 & Hobs & Hlen).
  assert (Hbytes : Forall (fun rx => Forall is_byte (rx_buf rx)) (rx_packets b)).
  { destruct Hb as (_ & _ & Hrx). eapply Forall_impl; [exact Hrx|]. by intros ? []. }
  pose proof (receive_batch_flying k g is_v6 _ _ _ _ _ _ (proj1 Hg) Hbytes E) as Hf. rewrite E in H.
  destruct obs as [|o obs].
  { rewrite (IH g1 r Hg1 Hr H). rewrite obs_of_nil in Hf. lia. }
  assert (Hl : Z.of_nat (length (o :: obs)) < 2 ^ 31) by (unfold BATCH_SIZE in Hlen; lia).
  pose proof (push_batch_spec r (o :: obs) Hr (obs_ok_item _ Hobs) Hl) as Hp.
  destruct (nsr_shm_ring_push_batch r (o :: obs)) as [[] r1]; [|done]. destruct Hp as [Hr1 Hq].
  unfold queue_push in Hq. split_if_in Hq; [done|]. injection Hq as Hc.
  rewrite (IH g1 r1 Hg1 Hr1 H), Hc, obs_of_app. lia.
Qed.

(** An iteration of the gatekeeper makes no probe. *)
Lemma gk_iteration_flying k g is_v6 now accepted batches (l2g g2l l2g' g2l' : nsr_shm_ring_t (list Z)) msgs g' :
  gk_wf g -> ring_wf l2g -> Forall intent_ok (contents l2g) -> ring_wf g2l -> Forall (batch_ok is_v6) batches ->
  gk_iteration g is_v6 now accepted batches l2g g2l = GkDone (msgs, g', l2g', g2l') ->
  flying k (outstanding (g_inflight g')) + obs_of k (contents g2l') + probes_to k (contents l2g')
    <= flying k (outstanding (g_inflight g)) + obs_of k (contents g2l) + probes_to k (contents l2g).
Proof.
  intros Hg Hl Hint Hr Hb H. unfold gk_iteration in H.
  assert (HB : 0 <= BATCH_SIZE < 2 ^ 31) by (unfold BATCH_SIZE; lia).
  pose proof (pop_batch_spec (item := nsr_intent_t) l2g BATCH_SIZE Hl HB) as Hp.
  destruct (nsr_shm_ring_pop_batch l2g BATCH_SIZE) as [intents l2g1]. destruct Hp as [Hl' Hq].
  unfold queue_pop in Hq. injection Hq as Hi Hrest.
  assert (Hok : Forall intent_ok intents) by (rewrite Hi; by apply Forall_take).
  assert (Hw : Forall is_word (seqs intents)).
  { apply Forall_map. eapply Forall_impl; [exact Hok|]. by intros i [(_ & ? & _) _]. }
  pose proof (reap_wf g now Hg) as Hg0. pose proof (send_batch_wf _ is_v6 intents now accepted Hg0 Hok) as Hg1.
  pose proof (send_batch_flying k _ is_v6 intents now accepted (proj1 Hg0) Hw) as Hf1.
  pose proof (reap_flying k g now (proj1 Hg)) as Hf0.
  destruct (send_batch _ _ _ _ _) as [m g1]. cbn [snd] in Hg1, Hf1.
  destruct (receive_loop g1 is_v6 g2l batches) as [[g2 g2l1]|pending|] eqn:E; [|done..].
  injection H as <- <- <- <-. pose proof (receive_loop_flying k g1 is_v6 g2l batches g2 g2l1 Hg1 Hr Hb E).
  assert (Hsplit : probes_to k (contents l2g) = probes_to k intents + probes_to k (contents l2g1)).
  { rewrite Hrest, Hi, <- probes_to_app, take_drop. done. }
  lia.
Qed.

(** ** The engine *)

Section Life.
  Context (clock : nat -> Z) (inet_ntop : bool -> list Z -> cstr).
  Context (clock_range : forall n, 0 <= clock n < 2 ^ 64).
  Context (ntop_text : forall v6 bytes, text_ok (inet_ntop v6 bytes)).

#[local] Abbreviation hop_at st k h := (hops (g_state st) !! k%nat = Some h).

Lemma begin_counts st interval k h :
  logic_wf st -> hop_at st k h ->
  exists h', hop_at (begin_iteration clock st interval) k h' /\ sent h' = sent h /\ recv h' = recv h.
Proof.
  intros (Hl & _ & _ & Hlr & _) Hh. pose proof (lookup_lt_Some _ _ _ Hh) as Hlt.
  destruct (lookup_lt_is_Some_2 (g_last_recv_us st) k) as [lr Hr]; [lia|]. unfold begin_iteration. cbv zeta.
  eexists. split; [apply (sweep_lookup _ _ k h lr); [cbn; lia|exact Hh|exact Hr]|].
  split_if; [done|]. unfold sweep_hop. repeat split_if; done.
Qed.

Lemma update_counts st o st' k h :
  logic_wf st -> 0 <= ob_ttl o -> update_state clock inet_ntop st (ob_ttl o) o = Some st' -> hop_at st k h -> 0 <= recv h ->
  logic_wf st' /\ exists h', hop_at st' k h' /\ sent h' = sent h /\ 0 <= recv h' <= recv h + one_if (ob_ttl o) k.
Proof.
  intros Hwf Ho Hu Hh Hr. assert (Hone : forall t, 0 <= one_if t k) by (intros t; unfold one_if; case_decide; lia).
  destruct (decide (0 < ob_ttl o < 64)) as [Hin|Hout].
  - destruct (aget_Some (hops (g_state st)) (ob_ttl o)) as [h0 Hh0]; [pose proof Hwf as (Hl & _); lia|].
    destruct (update_state_hop clock inet_ntop ntop_text st o h0 Hwf Hin Hh0) as (st1 & h1 & E & Hwf1 & Hob & Hhops).
    rewrite Hu in E. injection E as <-. split; [done|]. rewrite Hhops.
    destruct (decide (Z.to_nat (ob_ttl o) = k)) as [<-|Hne].
    + exists h1. split; [apply list_lookup_insert_eq; by eapply lookup_lt_Some|].
      unfold aget in Hh0. split_if_in Hh0; [|done]. rewrite Hh in Hh0. injection Hh0 as ->.
      assert (Hk : one_if (ob_ttl o) (Z.to_nat (ob_ttl o)) = 1) by (unfold one_if; rewrite decide_True; [done|lia]). rewrite Hk.
      unfold observed, answered in Hob. destruct (ob_type o); try (subst h1; cbn; split; [done|lia]);
        destruct Hob as (-> & _ & _ & -> & _); (split; [done|]); unfold u32, wrap;
        pose proof (Z.mod_le (recv h0 + 1) (2 ^ 32)); pose proof (Z.mod_pos_bound (recv h0 + 1) (2 ^ 32)); lia.
    + exists h. split; [by rewrite list_lookup_insert_ne|]. split; [done|]. specialize (Hone (ob_ttl o)). lia.
  - assert (E : update_state clock inet_ntop st (ob_ttl o) o = Some st).
    { unfold update_state. by replace (_ || _) with true by (unfold NSR_MAX_HOPS; lia). }
    rewrite Hu in E. injection E as ->. split; [done|]. exists h. split; [done|]. split; [done|].
    specialize (Hone (ob_ttl o)). lia.
Qed.

Lemma update_all_counts st obs st' k h :
  logic_wf st -> Forall (fun o => 0 <= ob_ttl o) obs -> update_all clock inet_ntop st obs = Some st' ->
  hop_at st k h -> 0 <= recv h ->
  exists h', hop_at st' k h' /\ sent h' = sent h /\ 0 <= recv h' <= recv h + obs_of k obs.
Proof.
  intros Hwf Ho. revert st h Hwf. induction Ho as [|o obs Ho Hobs IH]; intros st h Hwf Hu Hh Hr; cbn [update_all] in Hu.
  - injection Hu as <-. exists h. rewrite obs_of_nil. split; [done|]. split; [done|lia].
  - apply bind_Some in Hu as (st1 & Hu1 & Hu).
    destruct (update_counts st o st1 k h Hwf Ho Hu1 Hh Hr) as (Hwf1 & h1 & Hh1 & Hs1 & Hr1).
    destruct (IH st1 h1 Hwf1 Hu Hh1) as (h2 & Hh2 & Hs2 & Hr2); [lia|].
    exists h2. rewrite obs_of_cons. split; [done|]. split; [congruence|lia].
Qed.

(** The target of the engine's state is never written again. *)
Lemma update_all_target st obs st' :
  update_all clock inet_ntop st obs = Some st' -> target_ip (g_state st') = target_ip (g_state st).
Proof.
  revert st. induction obs as [|o obs IH]; intros st Hu; cbn [update_all] in Hu; [by injection Hu as <-|].
  apply bind_Some in Hu as (st1 & Hu1 & Hu). rewrite (IH st1 Hu). unfold update_state, record_reply in Hu1.
  split_if_in Hu1; [by injection Hu1 as <-|]. apply bind_Some in Hu1 as (h & _ & Hu1).
  destruct (ob_type o); try (by injection Hu1 as <-);
    repeat (apply bind_Some in Hu1 as (? & _ & Hu1)); by injection Hu1 as <-.
Qed.

Lemma probe_target st now interval (r : nsr_shm_ring_t (list Z)) st' r' :
  probe st now interval r = Done (st', r') -> target_ip (g_state st') = target_ip (g_state st).
Proof.
  unfold probe. split_if; [|by intros [= <- _]]. destruct (burst_loop _ _ _ _ _) as [[[[intents hs] ttl] sq]|]; [|done].
  destruct (push_intents r intents) as [[|i rest] r1]; [|done]. by intros [= <- _].
Qed.

(** An iteration of the engine: what is new in [sent] is on the ring, what is new in
    [recv] was on the other, and the snapshot it may publish is its state. *)
Lemma iteration_counts st interval rg st' rg' :
  logic_wf st -> rings_wf rg -> logic_iteration clock inet_ntop st interval rg = Done (st', rg') ->
  target_ip (g_state st') = target_ip (g_state st) /\
  (lcontents (l2t rg') = lcontents (l2t rg) \/ lcontents (l2t rg') = lcontents (l2t rg) ++ [g_state st']) /\
  forall k h, hop_at st k h -> 0 <= recv h -> 0 <= sent h -> sent h + 64 < 2 ^ 32 ->
    exists h', hop_at st' k h' /\ 0 <= recv h' /\
      sent h' - sent h = probes_to k (contents (l2g rg')) - probes_to k (contents (l2g rg)) /\
      recv h' <= recv h + obs_of k (contents (g2l rg)).
Proof.
  intros Hwf (Hg2l & Hl2g & Hl2t & Hobs) H. unfold logic_iteration in H.
  pose proof (begin_iteration_wf clock st interval Hwf) as Hwf0.
  pose proof (probe_spec (begin_iteration clock st interval) (clock_us clock st) interval (l2g rg)
                Hwf0 Hl2g (clock_us_range clock clock_range st)) as Hp.
  destruct (probe _ _ _ _) as [[st1 l2g']|pending|] eqn:Ep; [|done|done].
  destruct Hp as (Hwf1 & Hr1 & Hc1 & Hsent). pose proof (probe_target _ _ _ _ _ _ Ep) as Ht1.
  destruct (drain_spec clock inet_ntop st1 (g2l rg) Hg2l) as (g2l' & Hr2 & Hempty & Ed). rewrite Ed in H.
  destruct (update_all_wf clock inet_ntop ntop_text st1 _ Hwf1 Hobs) as (st2 & Eu & Hwf2). rewrite Eu in H.
  cbn [mbind option_bind] in H. unfold publish in H.
  assert (Hpub : g_state st' = g_state st2 /\ l2g rg' = l2g' /\
    (lcontents (l2t rg') = lcontents (l2t rg) \/ lcontents (l2t rg') = lcontents (l2t rg) ++ [g_state st'])).
  { split_if_in H.
    - destruct (large_push_spec (SM := telemetry_slot) (l2t rg) (g_state st2) Hl2t I) as (ok & r' & E & _ & Hc).
      rewrite E in H. cbn [mbind option_bind] in H. injection H as <- <-. split_and!; [done..|]. cbn [l2t g_state with_times].
      split_if_in Hc; injection Hc as _ ->; auto.
    - injection H as <- <-. split_and!; [done..|by left]. }
  clear H. destruct Hpub as (Hst & Hl & Hpub). split_and!; [|done|].
  { by rewrite Hst, (update_all_target _ _ _ Eu), Ht1. }
  intros k h Hh Hr Hs Hroom. destruct (begin_counts st interval k h Hwf Hh) as (h0 & Hh0 & Hs0 & Hrc0).
  destruct Hsent as [_ Hsent]. pose proof (Hsent k h0 Hh0) as Hh1.
  set (burst := if probe_due _ _ _ then _ else _) in *.
  destruct (update_all_counts st1 _ st2 k _ Hwf1 Hobs Eu Hh1) as (h2 & Hh2 & Hs2 & Hrc2); [cbn; lia|].
  exists h2. rewrite Hst. split; [done|]. cbn [recv sent with_sent] in Hs2, Hrc2. split; [lia|]. split; [|lia].
  rewrite Hs2, Hl, Hc1, probes_to_app, u32_small; [lia|].
  pose proof (probes_to_bound k burst). assert (Z.of_nat (length burst) <= 64); [|lia].
  unfold burst. split_if; [|cbn; lia]. rewrite burst_length by done. destruct Hwf0 as (_ & _ & _ & _ & (_ & _ & ?) & _). lia.
Qed.

(** ** Processes that start again *)

(** A new logic process, started when the clock has been read [n] times. *)
Definition restarted (n : nat) (config : nsr_config_t) : logic_t :=
  let st := logic_init (fun i => clock (n + i)%nat) config in
  {| g_state := g_state st; g_last_recv_us := g_last_recv_us st; g_paused := g_paused st; g_pacing := g_pacing st;
     current_ttl := current_ttl st; current_seq := current_seq st; last_probe_us := last_probe_us st;
     last_tui_us := last_tui_us st; ticks := S n |}.

(** The rings are kept when a process crashes.  A gatekeeper that crashes within an
    iteration leaves the rings of an iteration with fewer packets, which is a step of
    its own; a logic process leaves a part of its burst and of the observations, and
    any snapshots. *)
Inductive life_step (is_v6 : bool) : pipeline -> pipeline -> Prop :=
| life_runs p p' : pipeline_step clock inet_ntop is_v6 p p' -> life_step is_v6 p p'
| keeper_restarts st g rg pid : life_step is_v6 (mk_pipeline st g rg) (mk_pipeline st (started_gk pid) rg)
| engine_restarts st g rg n config pushed j rg' :
    ring_wf (g2l rg') -> ring_wf (l2g rg') -> large_wf (l2t rg') ->
    Forall intent_ok pushed -> contents (l2g rg') = contents (l2g rg) ++ pushed ->
    contents (item := nsr_observation_t) (g2l rg') = drop j (contents (g2l rg)) ->
    life_step is_v6 (mk_pipeline st g rg) (mk_pipeline (restarted n config) g rg').

Lemma restarted_wf n config : logic_wf (restarted n config).
Proof. exact (logic_init_wf (fun i => clock (n + i)%nat) config). Qed.

Lemma life_step_inv is_v6 p p' : life_step is_v6 p p' -> pipeline_inv p -> pipeline_inv p'.
Proof.
  intros Hs Hinv. destruct Hs as [p p' Hs|st g rg pid|st g rg n config pushed j rg' R1 R2 R3 Hi Hc1 Hc2].
  - by eapply pipeline_step_inv.
  - destruct Hinv as (Hl & _ & Hrest). exact (conj Hl (conj (proj1 (started_gk_wf pid)) Hrest)).
  - destruct Hinv as (_ & Hg & _ & _ & _ & Hi0 & Ho0). cbn in *.
    refine (conj (restarted_wf n config) (conj Hg (conj R1 (conj R2 (conj R3 (conj _ _)))))); cbn [rings].
    + rewrite Hc1. by apply Forall_app.
    + rewrite Hc2. by apply Forall_drop.
Qed.

(** Restarts are safe.  Whatever processes crash and however often they are
    started again on the rings that are left, with whatever interleaving and traffic,
    no process ever accesses memory outside its arrays or packets, and every intent,
    observation and outstanding probe carries a TTL between 1 and 30. *)
Theorem restarts_are_safe is_v6 config gk_id p :
  rtc (life_step is_v6) (pipeline_init clock config gk_id) p ->
  (forall interval, logic_iteration clock inet_ntop (engine p) interval (rings p) <> Fault) /\
  (forall now accepted batches, Forall (batch_ok is_v6) batches ->
     gk_iteration (keeper p) is_v6 now accepted batches (l2g (rings p)) (g2l (rings p)) <> GkFault) /\
  Forall (fun i : nsr_intent_t => 1 <= in_ttl i <= 30) (contents (l2g (rings p))) /\
  Forall (fun o : nsr_observation_t => 1 <= ob_ttl o <= 30) (contents (g2l (rings p))) /\
  (forall seq ttl sts, outstanding (g_inflight (keeper p)) !! seq = Some (ttl, sts) -> 1 <= ttl <= 30).
Proof.
  intros Hr. apply (inv_safe clock inet_ntop clock_range ntop_text).
  apply (rtc_ind_r pipeline_inv (pipeline_init clock config gk_id)) in Hr; [done| |].
  - apply (pipeline_reachable_inv clock inet_ntop clock_range ntop_text is_v6 config gk_id). apply rtc_refl.
  - intros y z _ Hstep. by apply (life_step_inv is_v6).
Qed.

(** ** Conservation *)

(** No send counter is within a burst of its 32-bit limit. *)
Definition room (p : pipeline) : Prop := Forall (fun h => sent h + 64 < 2 ^ 32) (hops (g_state (engine p))).

(** Steps during the first [2 ^ 32 - 64] probes to each hop; the gatekeeper may crash. *)
Inductive counted_step (is_v6 : bool) : pipeline -> pipeline -> Prop :=
| counted_runs p p' : room p -> pipeline_step clock inet_ntop is_v6 p p' -> counted_step is_v6 p p'
| counted_restart st g rg pid : counted_step is_v6 (mk_pipeline st g rg) (mk_pipeline st (started_gk pid) rg).

(** For each hop: answers counted, answers on their way, probes outstanding and probes
    on their way make at most the probes sent. *)
Definition balanced (p : pipeline) : Prop :=
  forall k h, hop_at (engine p) k h -> 0 <= recv h /\
    recv h + obs_of k (contents (g2l (rings p))) + flying k (outstanding (g_inflight (keeper p)))
      + probes_to k (contents (l2g (rings p))) <= sent h.

(** A snapshot that the main process can use. *)
Definition good_snapshot (tel : nsr_telemetry_state_t) : Prop :=
  snapshot_ok tel /\ Forall (fun h => 0 <= recv h <= sent h) (hops tel).

Record account (p : pipeline) : Prop := mk_account {
  ac_inv : pipeline_inv p;
  ac_target : text_ok (target_ip (g_state (engine p)));
  ac_balance : balanced p;
  ac_snapshots : Forall good_snapshot (lcontents (l2t (rings p)));
}.

Lemma flying_nonneg k m : 0 <= flying k m.
Proof. unfold flying. lia. Qed.

Lemma account_engine st g rg interval st' rg' :
  account (mk_pipeline st g rg) -> room (mk_pipeline st g rg) -> pipeline_inv (mk_pipeline st' g rg') ->
  logic_iteration clock inet_ntop st interval rg = Done (st', rg') -> account (mk_pipeline st' g rg').
Proof.
  intros [Hinv Ht Hb Hs] Hroom Hinv' H. cbn [engine keeper rings] in *.
  pose proof (inv_rings_wf _ Hinv) as Hrg. destruct Hinv as (Hl & _). cbn [engine keeper rings] in *.
  destruct (iteration_counts st interval rg st' rg' Hl Hrg H) as (Htg & Hpub & Hk).
  pose proof (iteration_spec clock inet_ntop clock_range ntop_text st interval rg Hl Hrg) as Hit. rewrite H in Hit.
  destruct Hit as (Hl' & _ & He & _).
  assert (Hbal : balanced (mk_pipeline st' g rg')).
  { intros k h' Hh'. cbn [engine keeper rings] in *. destruct Hl as (Hlen & _), Hl' as (Hlen' & _).
    destruct (lookup_lt_is_Some_2 (hops (g_state st)) k) as [h Hh]; [rewrite Hlen, <- Hlen'; by eapply lookup_lt_Some|].
    destruct (Hb k h Hh) as [Hr Hle]. cbn [engine keeper rings] in *. pose proof (Forall_lookup_1 _ _ _ _ Hroom Hh) as Hrm. cbn in Hrm.
    pose proof (flying_nonneg k (outstanding (g_inflight g))) as Hf.
    pose proof (probes_to_bound k (contents (l2g rg))) as Hp. assert (0 <= obs_of k (contents (g2l rg))) by (unfold obs_of; lia).
    destruct (Hk k h Hh Hr ltac:(lia) Hrm) as (h2 & Hh2 & Hr2 & Hsd & Hrc). rewrite Hh' in Hh2. injection Hh2 as <-.
    split; [done|]. rewrite He, obs_of_nil. lia. }
  split; cbn [engine keeper rings]; [done|by rewrite Htg|done|].
  assert (Hgood : good_snapshot (g_state st')).
  { split; [split; [by rewrite Htg|by destruct Hl' as (_ & Hf & _ & _ & _ & _ & _ & Hho)]|]. apply Forall_lookup_2. intros k h Hh.
    destruct (Hbal k h Hh) as [Hr Hle]. cbn [engine keeper rings] in Hle. rewrite He, obs_of_nil in Hle.
    pose proof (flying_nonneg k (outstanding (g_inflight g))). pose proof (probes_to_bound k (contents (l2g rg'))). lia. }
  destruct Hpub as [->| ->]; [done|]. apply Forall_app. split; [done|]. by constructor.
Qed.

Lemma counted_step_account is_v6 p p' : counted_step is_v6 p p' -> account p -> account p'.
Proof.
  intros Hs Hac. destruct Hs as [p p' Hroom Hstep|st g rg pid].
  - pose proof (pipeline_step_inv clock inet_ntop clock_range ntop_text is_v6 p p' Hstep (ac_inv p Hac)) as Hinv'.
    destruct Hstep as [st g rg interval st' rg' Hit|st g rg|st g rg now acc bs msgs g' l2g' g2l' Hbs Hit|st g rg out l2t' Hpop].
    + by eapply account_engine.
    + by destruct Hac.
    + destruct Hac as [Hinv Ht Hb Hs]. split; [done|done| |done]. destruct Hinv as (_ & Hg & H1 & H2 & _ & Hi & _).
      cbn [engine keeper rings] in *. intros k h Hh. destruct (Hb k h Hh) as [Hr Hle]. split; [done|]. cbn in *.
      pose proof (gk_iteration_flying k g is_v6 now acc bs (l2g rg) (g2l rg) l2g' g2l' msgs g' Hg H2 Hi H1 Hbs Hit). lia.
    + destruct Hac as [Hinv Ht Hb Hs]. split; [done|done|done|]. destruct Hinv as (_ & _ & _ & _ & H3 & _).
      cbn [engine keeper rings l2t] in *. destruct (large_pop_spec (l2t rg) H3) as (o & r' & Hp & _ & _ & Hc).
      rewrite Hpop in Hp. injection Hp as _ ->. rewrite Hc. by apply Forall_drop.
  - destruct Hac as [Hinv Ht Hb Hs]. split; cbn [engine keeper rings] in *; [|done| |done].
    + eapply (life_step_inv is_v6); [apply keeper_restarts|exact Hinv].
    + intros k h Hh. destruct (Hb k h Hh) as [Hr Hle]. split; [done|]. cbn [engine keeper rings g_inflight started_gk] in *.
      pose proof (flying_nonneg k (outstanding (g_inflight g))).
      assert (E : flying k (outstanding ∅) = 0) by (unfold flying, outstanding; by rewrite omap_empty, map_filter_empty).
      rewrite E. lia.
Qed.

Lemma account_init config gk_id : text_ok (cf_target_ip config) -> account (pipeline_init clock config gk_id).
Proof.
  intros Ht. split.
  - apply (pipeline_reachable_inv clock inet_ntop clock_range ntop_text false config gk_id). apply rtc_refl.
  - cbn. destruct Ht as (Hne & Hnul & Hlen). rewrite deref_nonempty by done. unfold strncpy. by rewrite take_ge by lia.
  - intros k h Hh. cbn [engine keeper rings pipeline_init g2l l2g g_inflight] in *. rewrite !empty_ring_contents.
    assert (Hz : h = zero_hop) by (change (replicate 64 zero_hop !! k = Some h) in Hh; by apply lookup_replicate in Hh as [-> _]).
    subst h. unfold flying, outstanding. rewrite omap_empty, map_filter_empty. done.
  - constructor.
Qed.

(** C3: probes are conserved.  During the first four billion probes to each hop, however
    the processes interleave, whatever the network delivers and even when the
    gatekeeper crashes and is started again, each probe is counted in one place at
    most: the answers a hop has, the observations on their way, the probes outstanding
    and those waiting to be sent never exceed the probes sent.  So every snapshot the
    main process can read has, for each hop, no more answers than probes, and it is
    as the topology and the interface require. *)
Theorem probes_are_conserved is_v6 config gk_id p :
  text_ok (cf_target_ip config) -> rtc (counted_step is_v6) (pipeline_init clock config gk_id) p ->
  balanced p /\ Forall good_snapshot (lcontents (l2t (rings p))).
Proof.
  intros Ht Hr. apply (rtc_ind_r account (pipeline_init clock config gk_id)) in Hr.
  - by destruct Hr.
  - by apply account_init.
  - intros y z _ Hstep. by apply (counted_step_account is_v6).
Qed.

End Life.

(** ** Concrete runs *)

(** An echo reply to the first probe of the gatekeeper 4660. *)
Definition first_reply : bytes := [69] ++ replicate 19 0 ++ [0; 0; 0; 0; 18; 52; 0; 0].

Definition reply_batch : rx_batch :=
  {| rx_now := 30000; rx_stale := fun _ => replicate 16 0; rx_packets := [mk_received first_reply [192; 0; 2; 1]] |}.

Lemma reply_batch_ok : Forall (batch_ok false) [reply_batch].
Proof. repeat constructor; try (unfold BATCH_SIZE; simpl; lia); try done; repeat constructor; lia. Qed.

Definition engine_once (p : pipeline) : option pipeline :=
  match logic_iteration sample_clock sample_ntop (engine p) 10 (rings p) with
  | Done (st, rg) => Some (mk_pipeline st (keeper p) rg)
  | _ => None
  end.

Definition keeper_once (p : pipeline) : option pipeline :=
  match gk_iteration (keeper p) false 25000 64 [reply_batch] (l2g (rings p)) (g2l (rings p)) with
  | GkDone (_, g, l2g', g2l') => Some (mk_pipeline (engine p) g (mk_rings g2l' l2g' (l2t (rings p))))
  | _ => None
  end.

#[local] Abbreviation demo_step := (pipeline_step sample_clock sample_ntop false).

Lemma engine_once_step p p' : engine_once p = Some p' -> demo_step p p'.
Proof.
  unfold engine_once. destruct p as [st g rg]. cbn [engine keeper rings].
  destruct (logic_iteration sample_clock sample_ntop st 10 rg) as [[st' rg']|?|] eqn:E; [|done..].
  intros [= <-]. by eapply engine_runs.
Qed.

Lemma keeper_once_step p p' : keeper_once p = Some p' -> demo_step p p'.
Proof.
  unfold keeper_once. destruct p as [st g rg]. cbn [engine keeper rings].
  destruct (gk_iteration g false 25000 64 [reply_batch] (l2g rg) (g2l rg)) as [[[[m g'] l'] r']|?|] eqn:E; [|done..].
  intros [= <-]. eapply keeper_runs; [apply reply_batch_ok|exact E].
Qed.

Definition demo_start : pipeline := pipeline_init sample_clock sample_config 4660.

Definition roomb (p : pipeline) : bool := forallb (fun h => sent h + 64 <? 2 ^ 32) (hops (g_state (engine p))).

Lemma roomb_room p : roomb p = true -> room p.
Proof.
  unfold roomb, room. intros H. apply Forall_forall. intros h Hh. rewrite forallb_forall in H.
  apply list_elem_of_In in Hh. specialize (H h Hh). by apply Z.ltb_lt.
Qed.

Definition hop_one (p : pipeline) : option (Z * Z) :=
  match hops (g_state (engine p)) !! 1%nat with Some h => Some (sent h, recv h) | None => None end.

(** A probe is sent and answered, the gatekeeper starts again, the answer is counted. *)
Definition keeper_again (p : pipeline) : pipeline := mk_pipeline (engine p) (started_gk 77) (rings p).

(** Three iterations that can be computed, with a change of state before the last. *)
Lemma three_runs (E K : pipeline -> option pipeline) (again : pipeline -> pipeline)
    (R : pipeline -> pipeline -> pipeline -> bool) p :
  (p1 ← E p; p2 ← K p1; p3 ← E (again p2); Some (R p1 p2 p3)) = Some true ->
  exists p1 p2 p3, E p = Some p1 /\ K p1 = Some p2 /\ E (again p2) = Some p3 /\ R p1 p2 p3 = true.
Proof.
  intros H. apply bind_Some in H as (p1 & E1 & H). apply bind_Some in H as (p2 & E2 & H).
  apply bind_Some in H as (p3 & E3 & [= H]). by exists p1, p2, p3.
Qed.

Definition counts_are (p : pipeline) (c : Z * Z) : bool := bool_decide (hop_one p = Some c).

Lemma demo_counted :
  exists p1 p2 p3, engine_once demo_start = Some p1 /\ keeper_once p1 = Some p2 /\
    engine_once (keeper_again p2) = Some p3 /\ roomb p1 && roomb (keeper_again p2) && counts_are p3 (2, 1) = true.
Proof.
  apply (three_runs engine_once keeper_once keeper_again
    (fun p1 p2 p3 => roomb p1 && roomb (keeper_again p2) && counts_are p3 (2, 1))).
  vm_compute. reflexivity.
Qed.

Lemma demo_target : text_ok (cf_target_ip sample_config).
Proof. split; [discriminate|]. split; [|cbn; lia]. apply (bool_decide_unpack _). vm_compute. exact I. Qed.

Lemma probes_are_conserved_witness :
  exists p, balanced p /\ hop_one p = Some (2, 1).
Proof.
  destruct demo_counted as (p1 & p2 & p3 & E1 & E2 & E3 & HR).
  apply andb_true_iff in HR as [HR Hh]. apply andb_true_iff in HR as [R1 R2].
  exists p3. split; [|exact (bool_decide_eq_true_1 _ Hh)].
  apply (probes_are_conserved sample_clock sample_ntop sample_clock_range sample_ntop_text false sample_config 4660 p3 demo_target).
  eapply rtc_l; [apply counted_runs; [apply roomb_room; reflexivity|exact (engine_once_step _ _ E1)]|].
  eapply rtc_l; [apply counted_runs; [exact (roomb_room _ R1)|exact (keeper_once_step _ _ E2)]|].
  destruct p2 as [st g rg]. eapply rtc_l; [apply (counted_restart _ _ _ st g rg 77)|].
  eapply rtc_l; [apply counted_runs; [exact (roomb_room _ R2)|exact (engine_once_step _ _ E3)]|]. apply rtc_refl.
Defined.

Lemma restarts_are_safe_witness :
  exists p, Forall (fun o : nsr_observation_t => 1 <= ob_ttl o <= 30) (contents (g2l (rings p))) /\
    g_gk_id (keeper p) = 77.
Proof.
  destruct demo_counted as (p1 & p2 & p3 & E1 & E2 & _). exists (keeper_again p2). split; [|reflexivity].
  apply (restarts_are_safe sample_clock sample_ntop sample_clock_range sample_ntop_text false sample_config 4660).
  eapply rtc_l; [apply life_runs; exact (engine_once_step _ _ E1)|].
  eapply rtc_l; [apply life_runs; exact (keeper_once_step _ _ E2)|].
  destruct p2 as [st g rg]. eapply rtc_l; [apply (keeper_restarts _ _ _ st g rg 77)|]. apply rtc_refl.
Defined.

(** A logic process that is started again after a crash, and paused by the user. *)
Definition engine_again (p : pipeline) : pipeline :=
  mk_pipeline (handle_sigusr1 (restarted sample_clock 5 sample_config)) (keeper p) (rings p).

(** The counts do not survive the crash of a logic process: the new one starts from
    zero, but the answers to the probes of the old one are still on the ring and in
    the table of the gatekeeper.  Here it is paused and counts an answer to a probe it
    has not sent; the loss it reports is negative as soon as it sends fewer probes to
    the hop than it inherits answers. *)
Theorem restart_counts_foreign_answers :
  exists p, rtc (life_step sample_clock sample_ntop false) demo_start p /\ hop_one p = Some (0, 1).
Proof.
  assert (Hrun : exists p1 p2 p, engine_once demo_start = Some p1 /\ keeper_once p1 = Some p2 /\
    engine_once (engine_again p2) = Some p /\ counts_are p (0, 1) = true).
  { apply (three_runs engine_once keeper_once engine_again (fun _ _ p => counts_are p (0, 1))). vm_compute. reflexivity. }
  destruct Hrun as (p1 & p2 & p & E1 & E2 & E & Hc). exists p. split; [|exact (bool_decide_eq_true_1 _ Hc)].
  eapply rtc_l; [apply life_runs; exact (engine_once_step _ _ E1)|].
  eapply rtc_l; [apply life_runs; exact (keeper_once_step _ _ E2)|].
  assert (Hinv : pipeline_inv p2).
  { apply (pipeline_reachable_inv sample_clock sample_ntop sample_clock_range sample_ntop_text false sample_config 4660).
    eapply rtc_l; [exact (engine_once_step _ _ E1)|]. eapply rtc_l; [exact (keeper_once_step _ _ E2)|]. apply rtc_refl. }
  destruct p2 as [st g rg]. destruct Hinv as (_ & _ & R1 & R2 & R3 & _). cbn [engine keeper rings engine_again] in *.
  eapply rtc_l; [apply (engine_restarts _ _ _ st g rg 5 sample_config [] 0 rg R1 R2 R3)|].
  - constructor.
  - by rewrite app_nil_r.
  - done.
  - eapply rtc_l; [apply life_runs, engine_signalled|].
    eapply rtc_l; [apply life_runs; exact (engine_once_step _ _ E)|]. apply rtc_refl.
Qed.
