(* ===== verification/KeySlots.v ===== *)
(** * Key slots (src/ui/key_slots.c, include/nsr/ui/key_slots.h)

    Plugins may reserve keys.  When a plugin reserves one of the built-in keys,
    the built-in binding is moved to a fallback slot; the table [remap] says
    where. *)

From S2P Require Import Prelude.

(** The part of a plugin entry the key manager reads. *)
Record plugin_keys := mk_plugin_keys {
  pk_enabled : bool;
  pk_initialized : bool;
  pk_dead : bool;
  pk_reserved_keys : cstr;
}.

Definition RESERVED_KEYS : cstr := str "qngmtzspd".
Definition fallback_slots : cstr := str "QWERTYUIOP".

Definition nsr_tolower_char (c : ascii) : ascii :=
  if (65 <=? ord c) && (ord c <=? 90) then chr (ord c + 32) else c.

Definition nsr_toupper_char (c : ascii) : ascii :=
  if (97 <=? ord c) && (ord c <=? 122) then chr (ord c - 32) else c.

(** The 256-entry table; 0 means "no remap". *)
Abbreviation remap_table := (list Z).

Definition remap_at (m : remap_table) (c : ascii) : Z := default 0 (m !! Z.to_nat (ord c)).

Definition remap_set (m : remap_table) (c : ascii) (v : Z) : remap_table := <[Z.to_nat (ord c) := v]> m.

Definition conflicts (rk : ascii) : bool :=
  existsb (fun p => ceq (nsr_tolower_char p) rk) RESERVED_KEYS.

(** One reserved key [rk]; [slot_idx] is the next free fallback slot. *)
Definition remap_key (st : remap_table * nat) (rk : ascii) : remap_table * nat :=
  let '(m, slot_idx) := st in
  if negb (conflicts rk) then st
  else if negb (remap_at m rk =? 0) then st
  else
    match fallback_slots !! slot_idx with
    | None => st
    | Some assigned =>
        (remap_set (remap_set m rk (ord assigned)) (nsr_toupper_char rk) (ord assigned), S slot_idx)
    end.

Definition remap_plugin (st : remap_table * nat) (e : plugin_keys) : remap_table * nat :=
  if negb (pk_enabled e) || negb (pk_initialized e) || pk_dead e then st
  else foldl remap_key st (pk_reserved_keys e).

Definition key_mgr_init (plugins : list plugin_keys) : remap_table :=
  fst (foldl remap_plugin (replicate 256 0, 0%nat) plugins).

(** The key that now triggers the built-in binding [original]. *)
Definition key_mgr_label_char (m : remap_table) (original : ascii) : ascii :=
  let mapped := remap_at m original in
  if mapped =? 0 then original else chr mapped.

Definition key_mgr_matches (m : remap_table) (original : ascii) (ch : Z) : bool :=
  if (ch <? 0) || (255 <? ch) then false
  else ceq (nsr_tolower_char (chr ch)) (nsr_tolower_char (key_mgr_label_char m original)).

(** ** The table after a sequence of reservations *)

(** All keys reserved by live plugins, in order. *)
Definition live_keys (plugins : list plugin_keys) : cstr :=
  mjoin (map (fun e => if negb (pk_enabled e) || negb (pk_initialized e) || pk_dead e then []
                       else pk_reserved_keys e) plugins).

Lemma key_mgr_init_flat plugins :
  key_mgr_init plugins = fst (foldl remap_key (replicate 256 0, 0%nat) (live_keys plugins)).
Proof.
  unfold key_mgr_init. f_equal. generalize (replicate 256 0, 0%nat).
  induction plugins as [|e es IH]; intros st; [done|].
  change (live_keys (e :: es)) with
    ((if negb (pk_enabled e) || negb (pk_initialized e) || pk_dead e then [] else pk_reserved_keys e)
     ++ live_keys es).
  rewrite foldl_app. simpl. rewrite IH. f_equal. unfold remap_plugin. by destruct (_ || _).
Qed.

(** The keys that were moved, in the order of their slots. *)
Definition next_moved (moved : cstr) (rk : ascii) : cstr :=
  if conflicts rk && negb (bool_decide (rk ∈ moved)) && (length moved <? 10)%nat
  then moved ++ [rk] else moved.

Definition moved_keys (ks : cstr) : cstr := foldl next_moved [] ks.

(** The slot of the key whose lower-case letter is at position [j] of [moved]. *)
Definition slot_of (moved : cstr) (c : ascii) : Z :=
  match list_find (fun k => k = nsr_tolower_char c) moved with
  | Some (j, _) => default 0 (ord <$> fallback_slots !! j)
  | None => 0
  end.

Definition table_inv (m : remap_table) (moved : cstr) : Prop :=
  length m = 256%nat /\ NoDup moved /\ (length moved <= 10)%nat /\
  Forall (fun k => k ∈ RESERVED_KEYS) moved /\ forall c, remap_at m c = slot_of moved c.

Lemma conflicts_spec rk : conflicts rk = true <-> rk ∈ RESERVED_KEYS.
Proof.
  unfold conflicts. rewrite existsb_exists. split.
  - intros (p & Hin & Hc). apply ceq_true in Hc. subst rk. simpl in Hin.
    repeat destruct Hin as [<-|Hin]; try done; by apply (bool_decide_unpack _).
  - intros Hin. exists rk. split; [by apply list_elem_of_In|]. apply ceq_true.
    apply list_elem_of_In in Hin. simpl in Hin. by repeat destruct Hin as [<-|Hin].
Qed.

(** Letters: the two cases of a reserved key, and nothing else, have it as their
    lower case. *)
Lemma reserved_cases rk c :
  rk ∈ RESERVED_KEYS -> nsr_tolower_char c = rk <-> c = rk \/ c = nsr_toupper_char rk.
Proof.
  intros Hin. assert (Hall : forallb (fun rk => forallb (fun n =>
    let c := ascii_of_nat n in
    Bool.eqb (ceq (nsr_tolower_char c) rk) (ceq c rk || ceq c (nsr_toupper_char rk)))
    (seq 0 256)) RESERVED_KEYS = true) by (vm_compute; reflexivity).
  rewrite forallb_forall in Hall. apply list_elem_of_In in Hin. specialize (Hall rk Hin). cbv beta in Hall.
  rewrite forallb_forall in Hall. specialize (Hall (nat_of_ascii c)). cbv beta zeta in Hall.
  rewrite ascii_nat_embedding in Hall. rewrite <- !ceq_true, <- orb_true_iff.
  rewrite (Bool.eqb_prop _ _ (Hall ltac:(apply List.in_seq; pose proof (nat_ascii_bounded c); lia))). done.
Qed.

Lemma remap_at_set m c v c' :
  length m = 256%nat -> remap_at (remap_set m c v) c' = if decide (c' = c) then v else remap_at m c'.
Proof.
  intros Hl. unfold remap_at, remap_set. pose proof (ord_range c). destruct (decide (c' = c)) as [->|Hne].
  - by rewrite list_lookup_insert_eq by lia.
  - rewrite list_lookup_insert_ne; [done|]. intros He. apply Hne.
    rewrite <- (chr_ord c), <- (chr_ord c'). pose proof (ord_range c'). f_equal. lia.
Qed.

Lemma slot_nonzero j : (j < 10)%nat -> exists s, fallback_slots !! j = Some s /\ ord s <> 0.
Proof.
  intros Hj. do 10 (destruct j as [|j]; [by eexists; split; [reflexivity|vm_compute]|]). lia.
Qed.

Lemma slot_of_in moved c j :
  NoDup moved -> moved !! j = Some (nsr_tolower_char c) ->
  slot_of moved c = default 0 (ord <$> fallback_slots !! j).
Proof.
  intros Hnd Hj. unfold slot_of.
  rewrite (proj2 (list_find_Some _ moved j (nsr_tolower_char c))); [done|]. split; [done|]. split; [done|].
  intros k y Hk Hlt ->. pose proof (NoDup_lookup _ _ _ _ Hnd Hj Hk). lia.
Qed.

Lemma slot_of_out moved c : nsr_tolower_char c ∉ moved -> slot_of moved c = 0.
Proof.
  intros Hout. unfold slot_of. rewrite (proj2 (list_find_None _ moved)); [done|].
  apply Forall_forall. intros k Hk ->. done.
Qed.

Lemma slot_of_snoc moved rk c :
  NoDup moved -> rk ∉ moved ->
  slot_of (moved ++ [rk]) c =
    if decide (nsr_tolower_char c = rk) then default 0 (ord <$> fallback_slots !! length moved)
    else slot_of moved c.
Proof.
  intros Hnd Hrk. assert (Hnd' : NoDup (moved ++ [rk])).
  { apply NoDup_app. split_and!; [done| |apply NoDup_singleton]. intros k Hk Hin%list_elem_of_singleton.
    by subst. }
  destruct (decide (nsr_tolower_char c = rk)) as [Heq|Hne].
  - rewrite (slot_of_in _ c (length moved) Hnd'); [done|].
    rewrite lookup_app_r, Nat.sub_diag by lia. by rewrite Heq.
  - destruct (decide (nsr_tolower_char c ∈ moved)) as [Hin|Hout].
    + apply list_elem_of_lookup in Hin as [j Hj]. rewrite (slot_of_in _ c j Hnd); [|done].
      apply slot_of_in; [done|]. rewrite lookup_app_l; [done|]. by eapply lookup_lt_Some.
    + rewrite !slot_of_out; [done|done|]. intros [?|?%list_elem_of_singleton]%elem_of_app; done.
Qed.

Lemma reserved_lower rk : rk ∈ RESERVED_KEYS -> nsr_tolower_char rk = rk.
Proof. intros H. apply (reserved_cases rk rk H). by left. Qed.

Lemma remap_key_inv m moved rk :
  table_inv m moved ->
  exists m', remap_key (m, length moved) rk = (m', length (next_moved moved rk)) /\
    table_inv m' (next_moved moved rk).
Proof.
  intros Hinv. pose proof Hinv as (Hl & Hnd & Hlen & Hres & Hat). unfold remap_key, next_moved.
  destruct (conflicts rk) eqn:Ec; simpl; [|by exists m].
  apply conflicts_spec in Ec. pose proof (reserved_lower rk Ec) as Hlow.
  destruct (bool_decide (rk ∈ moved)) eqn:Em; bool_facts; simpl.
  - apply list_elem_of_lookup in Em as [j Hj]. pose proof (lookup_lt_Some _ _ _ Hj).
    rewrite Hat, (slot_of_in moved rk j); [|done|by rewrite Hlow].
    destruct (slot_nonzero j) as (s & -> & Hs); [lia|]. simpl.
    rewrite (proj2 (Z.eqb_neq _ _) Hs). by exists m.
  - rewrite Hat, slot_of_out by (by rewrite Hlow). simpl.
    destruct (Nat.ltb_spec (length moved) 10) as [Hlt|Hge].
    + destruct (slot_nonzero (length moved) Hlt) as (s & Es & _). rewrite Es.
      eexists. split; [by rewrite length_app, Nat.add_1_r|].
      split; [unfold remap_set; by rewrite !length_insert|]. split; [|split; [|split]].
      * apply NoDup_app. split_and!; [done| |apply NoDup_singleton]. intros k Hk Hin%list_elem_of_singleton.
        by subst.
      * rewrite length_app. simpl. lia.
      * apply Forall_app. split; [done|]. by constructor.
      * intros c. rewrite slot_of_snoc, Es by done.
        rewrite !remap_at_set by (unfold remap_set; by rewrite ?length_insert).
        pose proof (reserved_cases rk c Ec) as Hcase.
        repeat case_decide; try done; try (by apply Hat); exfalso; tauto.
    + assert (Hnone : fallback_slots !! length moved = None) by (by apply lookup_ge_None_2).
      rewrite Hnone. by exists m.
Qed.

Lemma table_inv_init : table_inv (replicate 256 0) [].
Proof.
  split; [done|]. split; [constructor|]. split; [simpl; lia|]. split; [done|]. intros c.
  unfold remap_at. destruct (replicate 256 0 !! _) as [z|] eqn:E; [|done].
  by apply lookup_replicate in E as [-> _].
Qed.

Lemma remap_keys_inv ks m moved :
  table_inv m moved ->
  exists m', foldl remap_key (m, length moved) ks = (m', length (foldl next_moved moved ks)) /\
    table_inv m' (foldl next_moved moved ks).
Proof.
  revert m moved. induction ks as [|k ks IH]; intros m moved Hinv; cbn [foldl]; [by exists m|].
  destruct (remap_key_inv m moved k Hinv) as (m1 & -> & Hinv1). by apply IH.
Qed.

Lemma key_mgr_inv plugins : table_inv (key_mgr_init plugins) (moved_keys (live_keys plugins)).
Proof.
  rewrite key_mgr_init_flat. destruct (remap_keys_inv (live_keys plugins) _ _ table_inv_init) as (m' & E & Hinv).
  change (length []) with 0%nat in E. unfold moved_keys. by rewrite E.
Qed.

(** After initialisation exactly the built-in keys that live plugins
    reserve are moved, each to a slot of its own (at most ten): a built-in key
    that is not moved still answers to itself in either case, and a moved one
    answers to its slot and to no other key. *)
Theorem key_remap_spec plugins c ch :
  let m := key_mgr_init plugins in
  let moved := moved_keys (live_keys plugins) in
  0 <= ch <= 255 ->
  NoDup moved /\ (length moved <= 10)%nat /\ Forall (fun k => k ∈ RESERVED_KEYS) moved /\
  key_mgr_matches m c ch =
    match list_find (fun k => k = nsr_tolower_char c) moved with
    | Some (j, _) => ceq (nsr_tolower_char (chr ch)) (nsr_tolower_char (default NUL (fallback_slots !! j)))
    | None => ceq (nsr_tolower_char (chr ch)) (nsr_tolower_char c)
    end.
Proof.
  intros m moved Hch. destruct (key_mgr_inv plugins) as (_ & Hnd & Hlen & Hres & Hat).
  fold m moved in Hnd, Hlen, Hres, Hat. refine (conj Hnd (conj Hlen (conj Hres _))).
  unfold key_mgr_matches, key_mgr_label_char. replace (_ || _) with false by lia.
  rewrite Hat. unfold slot_of. destruct (list_find _ moved) as [[j k]|] eqn:E; [|done].
  apply list_find_Some in E as (Hj & _). pose proof (lookup_lt_Some _ _ _ Hj).
  destruct (slot_nonzero j) as (s & -> & Hs); [lia|]. simpl.
  by rewrite (proj2 (Z.eqb_neq _ _) Hs), chr_ord.
Qed.

Definition sample_plugins : list plugin_keys :=
  [mk_plugin_keys true true false (str "xg"); mk_plugin_keys true true false (str "gn")].

Lemma key_remap_spec_witness :
  key_mgr_matches (key_mgr_init sample_plugins) "g"%char 113 = true.
Proof.
  destruct (key_remap_spec sample_plugins "g"%char 113) as (_ & _ & _ & H); [lia|].
  rewrite H. reflexivity.
Defined.

(** The slot a key is moved to need not be free: the first slot is [Q], the
    built-in quit key, so as soon as a plugin reserves a built-in key other than
    [q], pressing [q] triggers both that built-in and quit. *)
Theorem first_slot_collides plugins rk rest :
  moved_keys (live_keys plugins) = rk :: rest -> "q"%char ∉ rk :: rest ->
  key_mgr_matches (key_mgr_init plugins) rk (ord "q"%char) = true /\
  key_mgr_matches (key_mgr_init plugins) "q"%char (ord "q"%char) = true.
Proof.
  intros Hmoved Hq. destruct (key_mgr_inv plugins) as (_ & Hnd & _ & Hres & Hat). rewrite Hmoved in *.
  assert (Hrk : nsr_tolower_char rk = rk) by (apply reserved_lower; by apply Forall_cons in Hres as [? _]).
  unfold key_mgr_matches, key_mgr_label_char. rewrite !Hat. split.
  - rewrite (slot_of_in _ rk 0 Hnd); [reflexivity|]. simpl. by rewrite Hrk.
  - rewrite slot_of_out; [reflexivity|]. exact Hq.
Qed.

Lemma first_slot_collides_witness :
  key_mgr_matches (key_mgr_init sample_plugins) "g"%char 113 = true /\
  key_mgr_matches (key_mgr_init sample_plugins) "q"%char 113 = true.
Proof.
  apply (first_slot_collides sample_plugins "g"%char ["n"%char]); [reflexivity|].
  apply (bool_decide_unpack _). reflexivity.
Defined.
