(* ===== verification/JsonRpc.v ===== *)
(** * JSON-RPC messages (src/json/json_rpc.c and the message loops of the plugins)

    The host writes one request or notification per line; a plugin reads the
    line, takes the method, the parameters and the identifier out of it and
    answers with one line.  This file holds the messages as the code emits them
    (calls on a buffer), the reading side shared by the plugins, and the proof
    that what one side writes is what the other side reads. *)

From S2P Require Import Prelude CFloat JsonBuf JsonScan JsonDoc.

(** ** Emitting *)

Definition keyed (k : string) (c : json_call) : list json_call := [CKey (str k); c].
Definition cstring (s : cstr) : json_call := CString (Some s).

(** The text a list of calls leaves in a fresh buffer. *)
Definition emit (calls : list json_call) : cstr := nsr_json_cstr (run_calls nsr_json_init calls).

(** [params] is [None] for a null pointer; an empty buffer counts as none. *)
Definition params_calls (params : option cstr) : list json_call :=
  match params with
  | Some ((_ :: _) as p) => [CKey (str "params"); CRaw p]
  | _ => [CKey (str "params"); CObjStart; CObjEnd]
  end.

Definition build_request (method : cstr) (params : option cstr) (id : Z) : cstr :=
  emit (CObjStart :: keyed "jsonrpc" (cstring (str "2.0")) ++ keyed "id" (CInt id)
          ++ keyed "method" (cstring method) ++ params_calls params ++ [CObjEnd]).

(** The message of [nsr_json_rpc_notify]. *)
Definition build_notification (method : cstr) (params : option cstr) : cstr :=
  emit (CObjStart :: keyed "jsonrpc" (cstring (str "2.0"))
          ++ keyed "method" (cstring method) ++ params_calls params ++ [CObjEnd]).

(** ** Reading members with a default

    [v = nsr_json_obj_get(json, key, &len); if (v) nsr_json_parse_...(v, len, &x)]
    with [x] initialised before. *)

Definition str_member (json : cstr) (key : string) (out_len : Z) (dflt : cstr) : cstr :=
  match nsr_json_obj_get json (str key) with
  | None => dflt
  | Some (v, len) => default dflt (nsr_json_parse_str v len out_len)
  end.

Definition int_member (json : cstr) (key : string) (dflt : Z) : Z :=
  match nsr_json_obj_get json (str key) with
  | None => dflt
  | Some (v, len) => (nsr_json_parse_int v len dflt).2
  end.

(** ** The message loop of a plugin *)

Record request := mk_request {
  rq_method : cstr;
  rq_params : cstr;
  rq_id : option Z;   (** [has_id] and [id] *)
}.

(** The end-of-line characters [main] removes. *)
Definition chop (c : ascii) (line : cstr) : cstr :=
  match last line with
  | Some d => if ceq d c then take (length line - 1) line else line
  | None => line
  end.

Definition strip_eol (line : cstr) : cstr := chop (chr 13) (chop (chr 10) line).

(** [None]: the line is skipped. *)
Definition parse_request (raw : cstr) : option request :=
  let line := strip_eol (c_content raw) in
  match nsr_json_obj_get line (str "method") with
  | None => None
  | Some (method, mlen) =>
      let params := match nsr_json_obj_get line (str "params") with
                    | Some (p, _) => p
                    | None => str "{}"
                    end in
      let id := match nsr_json_obj_get line (str "id") with
                | Some (v, ilen) => Some (nsr_json_parse_int v ilen 0).2
                | None => None
                end in
      match nsr_json_parse_str method mlen 64 with
      | None => None
      | Some m => Some {| rq_method := m; rq_params := params; rq_id := id |}
      end
  end.

(** The head of every response, and its line. *)
Definition response_head (id : Z) (member : string) : list json_call :=
  CObjStart :: keyed "jsonrpc" (cstring (str "2.0")) ++ keyed "id" (CInt id)
    ++ keyed member CObjStart.

Definition respond (calls : list json_call) : cstr := emit calls ++ [chr 10].

Definition send_error (id : Z) (message : cstr) : cstr :=
  respond (response_head id "error" ++ keyed "code" (CInt (-32601))
    ++ keyed "message" (cstring message) ++ [CObjEnd; CObjEnd]).

(** ** Written messages are documents *)

Definition request_doc (method : cstr) (params : json) (id : option Z) : json :=
  JObj ((str "jsonrpc", JStr (str "2.0"))
        :: match id with Some i => [(str "id", JInt i)] | None => [] end
        ++ [(str "method", JStr method); (str "params", params)]).

Lemma emit_text cs : fits (calls_text [] cs) -> emit cs = c_content (calls_text [] cs).
Proof.
  intros Hf. apply nsr_json_cstr_rep, run_calls_rep; [apply nsr_json_init_rep|done].
Qed.

Lemma emit_doc v cs : calls_text [] cs = print v -> fits (print v) -> emit cs = print v.
Proof.
  intros E Hf. rewrite emit_text by (by rewrite E). rewrite E.
  apply c_content_nul_free, print_nul_free.
Qed.

Lemma print_not_nil v : print v <> [].
Proof.
  destruct (print_head v []) as (c & t & E & _). rewrite app_nil_r in E. by rewrite E.
Qed.

(** The raw parameters are inserted without a separator, which is what a value
    after a key needs. *)
Lemma params_text s p :
  calls_text s (params_calls (Some (print p)))
  = calls_text s (CKey (str "params") :: doc_calls p).
Proof.
  assert (E : params_calls (Some (print p)) = [CKey (str "params"); CRaw (print p)]).
  { unfold params_calls. pose proof (print_not_nil p) as H. revert H. generalize (print p). by intros []. }
  rewrite E.
  change (calls_text s (?a :: ?l)) with (calls_text (call_text s a) l).
  rewrite doc_calls_text. change (calls_text ?t [CRaw ?q]) with (t ++ q). f_equal.
  symmetry. apply t_comma_no. cbn [call_text]. rewrite !app_assoc. exact (needs_comma_snoc _ ":"%char).
Qed.

Lemma calls_text_cons s c cs : calls_text s (c :: cs) = calls_text (call_text s c) cs.
Proof. done. Qed.

Lemma request_text method p id :
  calls_text [] (CObjStart :: keyed "jsonrpc" (cstring (str "2.0"))
     ++ match id with Some i => keyed "id" (CInt i) | None => [] end
     ++ keyed "method" (cstring method) ++ params_calls (Some (print p)) ++ [CObjEnd])
  = print (request_doc method p id).
Proof.
  transitivity (calls_text [] (doc_calls (request_doc method p id))); [|apply doc_calls_text].
  unfold request_doc. destruct id as [i|];
    cbn [doc_calls keyed app map concat fst snd cstring];
    by rewrite app_nil_r, !calls_text_cons, !calls_text_app, params_text, !calls_text_cons.
Qed.

Lemma build_request_doc method p id :
  fits (print (request_doc method p (Some id))) ->
  build_request method (Some (print p)) id = print (request_doc method p (Some id)).
Proof. intros Hf. apply emit_doc; [|done]. apply (request_text method p (Some id)). Qed.

Lemma build_notification_doc method p :
  fits (print (request_doc method p None)) ->
  build_notification method (Some (print p)) = print (request_doc method p None).
Proof. intros Hf. apply emit_doc; [|done]. apply (request_text method p None). Qed.

(** ** Reading what was written *)

(** A text that the encoder and the decoder carry unchanged. *)
Abbreviation plain := (Forall survives).

Lemma plain_nul_free s : plain s -> nul_free s.
Proof.
  intros H Hin. rewrite Forall_forall in H. destruct (H _ Hin) as [[e He]|Ho]; [done|].
  change (ord NUL) with 0 in Ho. lia.
Qed.

Lemma parse_str_plain s rest n :
  plain s -> 0 < n < 2 ^ 64 ->
  nsr_json_parse_str (print (JStr s) ++ rest) (Z.of_nat (length (print (JStr s)))) n
  = Some (take (Z.to_nat (n - 1)) s).
Proof.
  intros Hs Hn. cbn [print]. rewrite parse_str_quoted by done.
  rewrite c_content_nul_free by auto using plain_nul_free. do 2 f_equal.
  induction Hs as [|c s Hc Hs IH]; [done|]. cbn [map concat]. by rewrite reread_survives, IH.
Qed.

Lemma str_member_print m rest key n s dflt :
  find_member m (str key) = Some (JStr s) -> plain s -> 0 < n < 2 ^ 64 ->
  str_member (print (JObj m) ++ rest) key n dflt = take (Z.to_nat (n - 1)) s.
Proof.
  intros Hm Hs Hl. pose proof (obj_get_print m rest (str key)) as Hp. rewrite Hm in Hp.
  destruct Hp as (r & E & _). unfold str_member. by rewrite E, parse_str_plain.
Qed.

Lemma int_member_print m rest key z dflt :
  find_member m (str key) = Some (JInt z) -> - 2 ^ 63 <= z < 2 ^ 63 ->
  int_member (print (JObj m) ++ rest) key dflt = z.
Proof.
  intros Hm Hz. pose proof (obj_get_print m rest (str key)) as Hp. rewrite Hm in Hp.
  destruct Hp as (r & E & _). unfold int_member. rewrite E. cbn [print].
  by rewrite parse_int_print.
Qed.

Lemma arr_elements_print l rest :
  Forall2 (fun v e => exists r, e = print v ++ r /\ ends r) l (arr_elements (print (JArr l) ++ rest)).
Proof.
  unfold arr_elements. destruct l as [|v l].
  { unfold nsr_json_arr_first. cbn. constructor. }
  rewrite arr_first_body. apply arr_collect_body.
  pose proof (join_print_length (v :: l)). cbn [print]. rewrite !length_app. lia.
Qed.

Lemma chop_snoc c s : chop c (s ++ [c]) = s.
Proof.
  unfold chop. rewrite last_snoc, ceq_refl, length_app. simpl length.
  rewrite Nat.add_sub. apply take_app_length.
Qed.

(** A printed object ends in a brace, so that the line keeps its text. *)
Lemma strip_eol_print m : strip_eol (print (JObj m) ++ [chr 10]) = print (JObj m).
Proof.
  unfold strip_eol. rewrite chop_snoc. unfold chop. cbn [print]. by rewrite app_assoc, last_snoc.
Qed.

(** What a plugin reads from the line of a request. *)
Lemma parse_request_print method p id :
  plain method -> (length method < 64)%nat ->
  (forall i, id = Some i -> - 2 ^ 63 <= i < 2 ^ 63) ->
  exists rest, ends rest /\
    parse_request (print (request_doc method p id) ++ [chr 10])
    = Some {| rq_method := method; rq_params := print p ++ rest; rq_id := id |}.
Proof.
  intros Hm Hl Hi. unfold parse_request.
  assert (E : c_content (print (request_doc method p id) ++ [chr 10])
              = print (request_doc method p id) ++ [chr 10]).
  { apply c_content_nul_free, nul_free_app; [apply print_nul_free|].
    apply nul_free_cons; [done|by apply not_elem_of_nil]. }
  rewrite E. unfold request_doc. rewrite strip_eol_print. clear E.
  set (ms := _ :: _).
  assert (Hget : forall key, points_to (nsr_json_obj_get (print (JObj ms)) key) (find_member ms key)).
  { intros key. rewrite <- (app_nil_r (print (JObj ms))). apply obj_get_print. }
  pose proof (Hget (str "method")) as H1. pose proof (Hget (str "params")) as H2.
  pose proof (Hget (str "id")) as H3. clear Hget.
  replace (find_member ms (str "method")) with (Some (JStr method)) in H1 by (by destruct id).
  replace (find_member ms (str "params")) with (Some p) in H2 by (by destruct id).
  replace (find_member ms (str "id")) with (JInt <$> id) in H3 by (by destruct id).
  clearbody ms. destruct H1 as (r1 & -> & _), H2 as (r2 & -> & Hr2).
  rewrite parse_str_plain by (done || lia).
  rewrite (take_ge method) by lia. exists r2. split; [done|].
  destruct id as [i|]; cbn [fmap option_fmap option_map points_to] in H3.
  - destruct H3 as (r3 & -> & _). cbn [print]. by rewrite parse_int_print by auto.
  - by rewrite H3.
Qed.
