(* ===== verification/RpcConn.v ===== *)
(** * The connection to a plugin process (src/json/json_rpc.c)

    [nsr_json_rpc_t] with the operations that send requests and receive lines.
    The operating system is a script: the results of the successive [write],
    [poll], [read], [waitpid] and [clock_gettime] calls, one list each; when a
    list is used up the call fails, so every finite script is a possible run and
    every terminating run has one, and the retry loops recurse over the script.
    [rx_buf] is the text received but not yet consumed, [tx] (not a C field) the
    bytes written to the plugin so far.  Process creation ([fork], [pipe]) is
    Spawn.v. *)

From S2P Require Import Prelude CFloat JsonBuf JsonScan JsonDoc JsonRpc.

Inductive write_res :=
| Wrote (n : nat)
| WriteErr (eintr : bool).

Inductive poll_res :=
| PollErr (eintr : bool)
| PollTimeout
| PollReady.

(** No bytes is end of file. *)
Inductive read_res :=
| ReadErr (eintr : bool)
| ReadData (bytes : cstr).

Record os := mk_os {
  clocks : list (option (Z * Z));
  polls : list poll_res;
  reads : list read_res;
  waits : list bool;       (** true: the child still runs *)
  writes : list write_res;
}.

Definition with_clocks (o : os) (l : list (option (Z * Z))) : os :=
  mk_os l (polls o) (reads o) (waits o) (writes o).
Definition with_polls (o : os) (l : list poll_res) : os :=
  mk_os (clocks o) l (reads o) (waits o) (writes o).
Definition with_reads (o : os) (l : list read_res) : os :=
  mk_os (clocks o) (polls o) l (waits o) (writes o).
Definition with_waits (o : os) (l : list bool) : os :=
  mk_os (clocks o) (polls o) (reads o) l (writes o).
Definition with_writes (o : os) (l : list write_res) : os :=
  mk_os (clocks o) (polls o) (reads o) (waits o) l.

Definition clock_gettime (o : os) : option (Z * Z) * os :=
  match clocks o with [] => (None, o) | t :: l => (t, with_clocks o l) end.

Definition read_fd (o : os) : read_res * os :=
  match reads o with [] => (ReadErr false, o) | r :: l => (r, with_reads o l) end.

(** [waitpid(pid, &status, WNOHANG) == 0]. *)
Definition still_running (o : os) : bool * os :=
  match waits o with [] => (false, o) | b :: l => (b, with_waits o l) end.

Record nsr_json_rpc_t := mk_rpc {
  pid : Z;
  fd_in : Z;
  fd_out : Z;
  rpc_next_id : Z;
  pending_id : Z;
  rpc_dead : bool;
  rx_buf : cstr;
  tx : cstr;
}.

Definition set_dead (r : nsr_json_rpc_t) : nsr_json_rpc_t :=
  mk_rpc (pid r) (fd_in r) (fd_out r) (rpc_next_id r) (pending_id r) true (rx_buf r) (tx r).
Definition set_pending (r : nsr_json_rpc_t) (i : Z) : nsr_json_rpc_t :=
  mk_rpc (pid r) (fd_in r) (fd_out r) (rpc_next_id r) i (rpc_dead r) (rx_buf r) (tx r).
Definition set_rx (r : nsr_json_rpc_t) (b : cstr) : nsr_json_rpc_t :=
  mk_rpc (pid r) (fd_in r) (fd_out r) (rpc_next_id r) (pending_id r) (rpc_dead r) b (tx r).
Definition add_tx (r : nsr_json_rpc_t) (b : cstr) : nsr_json_rpc_t :=
  mk_rpc (pid r) (fd_in r) (fd_out r) (rpc_next_id r) (pending_id r) (rpc_dead r) (rx_buf r) (tx r ++ b).
Definition take_id (r : nsr_json_rpc_t) : Z * nsr_json_rpc_t :=
  (rpc_next_id r, mk_rpc (pid r) (fd_in r) (fd_out r) (s32 (rpc_next_id r + 1)) (rpc_next_id r) (rpc_dead r)
                (rx_buf r) (tx r)).

(** The state [nsr_json_rpc_spawn] leaves for the child [p] with the pipe ends
    [i] and [o]. *)
Definition spawned (p i o : Z) : nsr_json_rpc_t := mk_rpc p i o 1 (-1) false [] [].

Definition nsr_json_rpc_close (r : nsr_json_rpc_t) : nsr_json_rpc_t :=
  mk_rpc (if 0 <? pid r then 0 else pid r) (if 0 <=? fd_in r then -1 else fd_in r)
    (if 0 <=? fd_out r then -1 else fd_out r) (rpc_next_id r) (-1) true [] (tx r).

(** ** Sending *)

(** The loop [while (off < len)]: the bytes written, whether all of [s] was, and
    the rest of the script. *)
Fixpoint write_all (ws : list write_res) (s : cstr) : cstr * bool * list write_res :=
  match s with
  | [] => ([], true, ws)
  | _ =>
      match ws with
      | [] => ([], false, [])
      | WriteErr true :: ws' => write_all ws' s
      | WriteErr false :: ws' | Wrote 0 :: ws' => ([], false, ws')
      | Wrote n :: ws' =>
          let '(out, ok, rest) := write_all ws' (drop n s) in (take n s ++ out, ok, rest)
      end
  end.

Definition rpc_send (r : nsr_json_rpc_t) (req : cstr) (o : os) : bool * nsr_json_rpc_t * os :=
  if rpc_dead r || (fd_in r <? 0) then (false, r, o)
  else
    let '(out, ok, ws) := write_all (writes o) req in
    let r := add_tx r out in
    if negb ok then (false, set_dead r, with_writes o ws)
    else match ws with
         | Wrote 1 :: ws' => (true, add_tx r [chr 10], with_writes o ws')
         | _ :: ws' => (false, set_dead r, with_writes o ws')
         | [] => (false, set_dead r, with_writes o [])
         end.

(** Also the identifier given to the request; [None]: none was taken. *)
Definition nsr_json_rpc_send_request (r : nsr_json_rpc_t) (method : cstr) (params : option cstr) (o : os)
    : bool * option Z * nsr_json_rpc_t * os :=
  if rpc_dead r || (fd_in r <? 0) then (false, None, r, o)
  else
    let '(id, r) := take_id r in
    let '(ok, r, o) := rpc_send r (build_request method params id) o in
    if ok then (true, Some id, r, o) else (false, Some id, set_pending r (-1), o).

Definition nsr_json_rpc_notify (r : nsr_json_rpc_t) (method : cstr) (params : option cstr) (o : os)
    : bool * nsr_json_rpc_t * os := rpc_send r (build_notification method params) o.

(** ** Receiving *)

(** The text before the first newline, and the text after it. *)
Fixpoint split_line (s : cstr) : option (cstr * cstr) :=
  match s with
  | [] => None
  | c :: s' =>
      if ceq c (chr 10) then Some ([], s')
      else match split_line s' with
           | Some (l, rest) => Some (c :: l, rest)
           | None => None
           end
  end.

Definition deadline_of (t : Z * Z) (timeout_ms : Z) : Z * Z :=
  let '(sec, nsec) := t in
  let sec := sec + Z.quot timeout_ms 1000 in
  let nsec := nsec + Z.rem timeout_ms 1000 * 1000000 in
  if 1000000000 <=? nsec then (sec + 1, nsec - 1000000000) else (sec, nsec).

(** Milliseconds left, rounded toward zero. *)
Definition ms_left (deadline now : Z * Z) : Z :=
  (deadline.1 - now.1) * 1000 + Z.quot (deadline.2 - now.2) 1000000.

Definition expired (deadline now : Z * Z) : bool :=
  (deadline.1 <? now.1) || ((now.1 =? deadline.1) && (deadline.2 <=? now.2)).

(** What follows a [poll]: continue, or the final result. *)
Inductive poll_next :=
| Continue (r : nsr_json_rpc_t) (o : os)
| Stop (r : nsr_json_rpc_t) (o : os).

(** After a [poll] that timed out: is it time to give up? *)
Definition timed_out (deadline : option (Z * Z)) (o : os) : bool * os :=
  match deadline with
  | None => (false, o)
  | Some d =>
      let '(t, o) := clock_gettime o in
      (match t with None => true | Some now => expired d now end, o)
  end.

Definition after_poll (p : poll_res) (deadline : option (Z * Z)) (r : nsr_json_rpc_t) (o : os) : poll_next :=
  match p with
  | PollErr true => Continue r o
  | PollErr false => Stop (set_dead r) o
  | PollTimeout =>
      let '(stop, o) := timed_out deadline o in
      if stop : bool then Stop r o
      else
        let '(alive, o) := still_running o in
        if alive : bool then Continue r o else Stop (set_dead r) o
  | PollReady =>
      let '(res, o) := read_fd o in
      match res with
      | ReadErr true => Continue r o
      | ReadErr false | ReadData [] => Stop (set_dead r) o
      | ReadData bytes => Continue (set_rx r (rx_buf r ++ bytes)) o
      end
  end.

(** Before the next [poll]: is the time used up? *)
Definition no_time_left (deadline : option (Z * Z)) (o : os) : bool * os :=
  match deadline with
  | None => (false, o)
  | Some d =>
      let '(t, o) := clock_gettime o in
      (match t with None => true | Some now => ms_left d now <=? 0 end, o)
  end.

(** The wait for the next line, recursing over the results of [poll]; [None]:
    the function returns false. *)
Fixpoint recv_loop (ps : list poll_res) (deadline : option (Z * Z)) (r : nsr_json_rpc_t) (o : os)
    : option cstr * nsr_json_rpc_t * os :=
  match split_line (rx_buf r) with
  | Some (line, rest) => (Some line, set_rx r rest, with_polls o ps)
  | None =>
      let '(stop, o) := no_time_left deadline o in
      if stop : bool then (None, r, with_polls o ps)
      else match ps with
           | [] => (None, set_dead r, with_polls o [])
           | p :: ps' =>
               match after_poll p deadline r o with
               | Continue r o => recv_loop ps' deadline r o
               | Stop r o => (None, r, with_polls o ps')
               end
           end
  end.

Definition recv_line (r : nsr_json_rpc_t) (timeout_ms : Z) (o : os) : option cstr * nsr_json_rpc_t * os :=
  if 0 <=? timeout_ms then
    let '(t, o) := clock_gettime o in
    match t with
    | None => (None, r, o)
    | Some t => recv_loop (polls o) (Some (deadline_of t timeout_ms)) r o
    end
  else recv_loop (polls o) None r o.

(** The identifier of a message, -1 when it has none. *)
Definition message_id (msg : cstr) : Z := int_member msg "id" (-1).

(** The message and its identifier. *)
Definition nsr_json_rpc_try_recv_any (r : nsr_json_rpc_t) (timeout_ms : Z) (o : os)
    : option (cstr * Z) * nsr_json_rpc_t * os :=
  if rpc_dead r || (fd_out r <? 0) then (None, r, o)
  else
    let '(line, r, o) := recv_line r timeout_ms o in
    match line with
    | None => (None, r, o)
    | Some l => (Some (c_content l, message_id (c_content l)), r, o)
    end.

(** The rounds of [nsr_json_rpc_try_recv_response] for a timeout that is not
    negative (its only caller passes 2000); every round uses up at least
    one unit of a positive budget, so [timeout_ms + 1] rounds are enough
    ([recv_response_fuel]). *)
Fixpoint response_loop (fuel : nat) (budget : Z) (r : nsr_json_rpc_t) (o : os)
    : option cstr * nsr_json_rpc_t * os :=
  match fuel with
  | O => (None, r, o)
  | S f =>
      let slice := if 50 <? budget then 50 else budget in
      let '(line, r, o) := recv_line r slice o in
      match line with
      | None =>
          if budget - slice <=? 0 then (None, r, o)
          else if rpc_dead r then (None, r, o)
          else response_loop f (budget - slice) r o
      | Some l =>
          if message_id (c_content l) =? pending_id r then (Some (c_content l), set_pending r (-1), o)
          else if budget - slice <=? 0 then (None, r, o)
          else response_loop f (budget - slice) r o
      end
  end.

Definition nsr_json_rpc_try_recv_response (r : nsr_json_rpc_t) (timeout_ms : Z) (o : os)
    : option cstr * nsr_json_rpc_t * os :=
  if rpc_dead r || (fd_out r <? 0) || (pending_id r <? 0) then (None, r, o)
  else response_loop (Z.to_nat timeout_ms + 1) timeout_ms r o.

Definition nsr_json_rpc_call (r : nsr_json_rpc_t) (method : cstr) (params : option cstr) (timeout_ms : Z)
    (o : os) : option cstr * nsr_json_rpc_t * os :=
  let '(ok, _, r, o) := nsr_json_rpc_send_request r method params o in
  if ok then nsr_json_rpc_try_recv_response r timeout_ms o else (None, r, o).

Fixpoint discard_loop (n : nat) (r : nsr_json_rpc_t) (o : os) : nsr_json_rpc_t * os :=
  match n with
  | O => (r, o)
  | S n' =>
      match polls o with
      | PollTimeout :: ps => (r, with_polls o ps)
      | PollErr true :: ps => discard_loop n' r (with_polls o ps)
      | PollReady :: ps =>
          let '(res, o) := read_fd (with_polls o ps) in
          match res with
          | ReadErr true => discard_loop n' r o
          | ReadErr false | ReadData [] => (set_dead r, o)
          | ReadData _ => discard_loop n' r o
          end
      | PollErr false :: ps => (set_dead r, with_polls o ps)
      | [] => (set_dead r, o)
      end
  end.

Definition nsr_json_rpc_discard_queued (r : nsr_json_rpc_t) (o : os) : nsr_json_rpc_t * os :=
  let r := set_rx r [] in
  if rpc_dead r || (fd_out r <? 0) then (r, o) else discard_loop 64 r o.

(** ** Sending writes the whole line or ends the connection *)

Lemma write_all_spec ws s :
  let '(out, ok, _) := write_all ws s in
  out `prefix_of` s /\ (ok = true -> out = s).
Proof.
  revert s. induction ws as [|[[|n]|[]] ws IH]; intros [|c s]; simpl; try done.
  - split; [apply prefix_nil|done].
  - split; [apply prefix_nil|done].
  - specialize (IH (drop n s)). destruct (write_all ws (drop n s)) as [[out ok] rest].
    destruct IH as [[t Ht] IH]. split.
    + apply prefix_cons. exists t. by rewrite <- app_assoc, <- Ht, take_drop.
    + intros Hok. rewrite (IH Hok). by rewrite take_drop.
  - apply (IH (c :: s)).
  - split; [apply prefix_nil|done].
Qed.

Lemma rpc_send_spec r req o :
  let '(ok, r', _) := rpc_send r req o in
  if ok then tx r' = tx r ++ req ++ [chr 10] /\ rpc_dead r' = false
  else exists part, tx r' = tx r ++ part /\ part `prefix_of` req /\
         (rpc_dead r' = true \/ (fd_in r' < 0 /\ part = [])).
Proof.
  unfold rpc_send. destruct (rpc_dead r || (fd_in r <? 0)) eqn:E.
  { exists []. rewrite app_nil_r. split_and!; [done|apply prefix_nil|].
    apply orb_true_iff in E as [E|E]; bool_facts; auto. }
  apply orb_false_iff in E as [Hd _].
  pose proof (write_all_spec (writes o) req) as H.
  destruct (write_all (writes o) req) as [[out ok] ws]. destruct H as [Hp Hok].
  destruct ok; cbn [negb].
  - specialize (Hok eq_refl). subst out.
    destruct ws as [|[[|[|n]]|e] ws]; cbn [tx rpc_dead add_tx set_dead];
      try (exists req; split_and!; [done|done|by left]).
    by rewrite <- app_assoc.
  - exists out. cbn [tx rpc_dead add_tx set_dead]. auto.
Qed.

Lemma rpc_send_frame r req o :
  let '(_, r', _) := rpc_send r req o in pending_id r' = pending_id r /\ rpc_next_id r' = rpc_next_id r.
Proof.
  unfold rpc_send. destruct (rpc_dead r || (fd_in r <? 0)); [done|].
  destruct (write_all (writes o) req) as [[out []] ws]; [|done].
  by destruct ws as [|[[|[|n]]|e] ws].
Qed.

(** Sending a message either writes it completely, with its newline, and
    leaves the connection alive, or fails: on a closed connection nothing is
    written, otherwise a part of the message at most was and the connection is
    marked dead, so that a later message never follows half of this one. *)
Theorem rpc_send_whole_line r req o :
  let '(ok, r', _) := rpc_send r req o in
  if ok then tx r' = tx r ++ req ++ [chr 10] /\ rpc_dead r' = false
  else exists part, tx r' = tx r ++ part /\ part `prefix_of` req /\
         (rpc_dead r' = true \/ (fd_in r' < 0 /\ part = [])).
Proof. exact (rpc_send_spec r req o). Qed.

(** ** Receiving loses and invents nothing *)

Definition data_of (r : read_res) : cstr := match r with ReadData b => b | ReadErr _ => [] end.

(** The bytes delivered by a part of the script. *)
Definition data (l : list read_res) : cstr := concat (map data_of l).

(** [o'] is the script [o] after some reads that delivered [got]. *)
Definition consumed (o o' : os) (got : cstr) : Prop :=
  exists l, reads o = l ++ reads o' /\ data l = got.

Lemma consumed_refl o o' : reads o' = reads o -> consumed o o' [].
Proof. intros E. exists []. by rewrite E. Qed.

Lemma consumed_trans o o1 o2 a b : consumed o o1 a -> consumed o1 o2 b -> consumed o o2 (a ++ b).
Proof.
  intros (l1 & E1 & <-) (l2 & E2 & <-). exists (l1 ++ l2). rewrite E1, E2, app_assoc. split; [done|].
  unfold data. by rewrite map_app, concat_app.
Qed.

Lemma split_line_spec s :
  match split_line s with
  | Some (l, rest) => s = l ++ chr 10 :: rest /\ chr 10 ∉ l
  | None => chr 10 ∉ s
  end.
Proof.
  induction s as [|c s IH]; simpl; [apply not_elem_of_nil|].
  destruct (ceq c (chr 10)) eqn:E; [apply ceq_true in E as ->; split; [done|apply not_elem_of_nil]|].
  apply ceq_false in E. destruct (split_line s) as [[l rest]|].
  - destruct IH as [-> H]. split; [done|]. apply not_elem_of_cons. auto.
  - apply not_elem_of_cons. auto.
Qed.

(** The connection keeps everything but the buffer, the flag and the pending id. *)
Lemma after_poll_spec p d r o :
  match after_poll p d r o with
  | Continue r' o' | Stop r' o' =>
      exists got, consumed o o' got /\ rx_buf r' = rx_buf r ++ got /\ tx r' = tx r /\
        pending_id r' = pending_id r /\ rpc_next_id r' = rpc_next_id r
  end.
Proof.
  assert (H0 : forall r' o', reads o' = reads o -> rx_buf r' = rx_buf r -> tx r' = tx r ->
    pending_id r' = pending_id r -> rpc_next_id r' = rpc_next_id r ->
    exists got, consumed o o' got /\ rx_buf r' = rx_buf r ++ got /\ tx r' = tx r /\
        pending_id r' = pending_id r /\ rpc_next_id r' = rpc_next_id r).
  { intros. exists []. rewrite app_nil_r. auto using consumed_refl. }
  destruct p as [[]| |]; cbn [after_poll]; auto.
  - unfold timed_out, clock_gettime, still_running.
    destruct d as [d|]; [destruct (clocks o) as [|[t|] cl]|]; cbn; auto;
      try destruct (expired d t); cbn; auto; destruct (waits o) as [|[] w]; cbn; auto.
  - unfold read_fd. destruct (reads o) as [|[[]|[|c b]] l] eqn:E; cbn; auto.
    + exists []. rewrite app_nil_r. split_and!; auto. exists [ReadErr true]. by rewrite E.
    + exists []. rewrite app_nil_r. split_and!; auto. exists [ReadErr false]. by rewrite E.
    + exists []. rewrite app_nil_r. split_and!; auto. exists [ReadData []]. by rewrite E.
    + exists (c :: b). split_and!; auto. exists [ReadData (c :: b)]. rewrite E.
      split; [done|]. unfold data. cbn. by rewrite app_nil_r.
Qed.

Lemma no_time_left_reads d o : reads (no_time_left d o).2 = reads o.
Proof. unfold no_time_left, clock_gettime. by destruct d, (clocks o). Qed.

(** What a receiving function does to the connection: the bytes read are what
    the result and the buffer hold beyond the old buffer. *)
Definition received_as (r : nsr_json_rpc_t) (o : os) (line : option cstr) (r' : nsr_json_rpc_t) (o' : os) : Prop :=
  exists got, consumed o o' got /\
    rx_buf r ++ got = match line with Some l => l ++ chr 10 :: rx_buf r' | None => rx_buf r' end /\
    (forall l, line = Some l -> chr 10 ∉ l) /\
    tx r' = tx r /\ pending_id r' = pending_id r /\ rpc_next_id r' = rpc_next_id r.

Lemma received_none r o r' o' :
  reads o' = reads o -> rx_buf r' = rx_buf r -> tx r' = tx r -> pending_id r' = pending_id r ->
  rpc_next_id r' = rpc_next_id r -> received_as r o None r' o'.
Proof. intros. exists []. rewrite app_nil_r. split_and!; auto using consumed_refl. done. Qed.

Lemma received_prefix r o r1 o1 got line r' o' :
  consumed o o1 got -> rx_buf r1 = rx_buf r ++ got -> tx r1 = tx r -> pending_id r1 = pending_id r ->
  rpc_next_id r1 = rpc_next_id r -> received_as r1 o1 line r' o' -> received_as r o line r' o'.
Proof.
  intros Hc Hx Ht Hp Hn (got' & Hc' & Hx' & Hl & ? & ? & ?). exists (got ++ got').
  split; [by eapply consumed_trans|]. rewrite app_assoc, <- Hx. split_and!; auto; congruence.
Qed.

Lemma recv_loop_spec ps d r o :
  let '(line, r', o') := recv_loop ps d r o in received_as r o line r' o'.
Proof.
  revert r o. induction ps as [|p ps IH]; intros r o; cbn [recv_loop];
    pose proof (split_line_spec (rx_buf r)) as Hs; destruct (split_line (rx_buf r)) as [[l rest]|].
  - destruct Hs as [E H]. exists []. rewrite app_nil_r. split_and!; auto using consumed_refl.
    by intros ? [= <-].
  - pose proof (no_time_left_reads d o). destruct (no_time_left d o) as [[] o1]; by apply received_none.
  - destruct Hs as [E H]. exists []. rewrite app_nil_r. split_and!; auto using consumed_refl.
    by intros ? [= <-].
  - pose proof (no_time_left_reads d o) as Hr.
    destruct (no_time_left d o) as [[] o1]; [by apply received_none|]. cbn [snd] in Hr.
    pose proof (after_poll_spec p d r o1) as Hp.
    destruct (after_poll p d r o1) as [r2 o2|r2 o2]; destruct Hp as (got & (l & El & Hd) & ? & ? & ? & ?).
    + specialize (IH r2 o2). destruct (recv_loop ps d r2 o2) as [[line r'] o'].
      eapply received_prefix; [|done..]. exists l. by rewrite <- Hr.
    + exists got. split_and!; auto; [|by intros ? [=]]. exists l. rewrite <- Hr. auto.
Qed.

Lemma recv_line_spec r timeout o :
  let '(line, r', o') := recv_line r timeout o in received_as r o line r' o'.
Proof.
  unfold recv_line, clock_gettime. destruct (0 <=? timeout); [|apply recv_loop_spec].
  destruct (clocks o) as [|[t|] cl]; try (by apply received_none).
  exact (recv_loop_spec (polls o) (Some (deadline_of t timeout)) r (with_clocks o cl)).
Qed.

(** A dead connection stays dead. *)
Lemma recv_loop_dead ps d r o : rpc_dead r = true -> rpc_dead (recv_loop ps d r o).1.2 = true.
Proof.
  revert r o. induction ps as [|p ps IH]; intros r o Hd; cbn [recv_loop]; destruct (split_line (rx_buf r)) as [[l rest]|]; try done;
    destruct (no_time_left d o) as [[] o1]; try done.
  destruct p as [[]| |]; cbn [after_poll]; try done; [by apply IH| |].
  - destruct (timed_out d o1) as [[] o2]; [done|]. destruct (still_running o2) as [[] o3]; [by apply IH|done].
  - destruct (read_fd o1) as [[[]|[|c b]] o2]; try done; by apply IH.
Qed.

Lemma recv_line_dead r timeout o : rpc_dead r = true -> rpc_dead (recv_line r timeout o).1.2 = true.
Proof.
  intros Hd. unfold recv_line, clock_gettime. destruct (0 <=? timeout); [|by apply recv_loop_dead].
  destruct (clocks o) as [|[t|] cl]; try done. by apply recv_loop_dead.
Qed.

(** C25: receiving a line loses, invents and reorders nothing: whatever the order
    of partial reads, interruptions and timeouts, the buffered text followed by
    the bytes read is the returned line, its newline and the new buffer, and the
    line has no newline inside; when no line is returned everything read is in
    the buffer. *)
Theorem recv_line_framing r timeout o :
  let '(line, r', o') := recv_line r timeout o in
  exists got, consumed o o' got /\
    rx_buf r ++ got = match line with Some l => l ++ chr 10 :: rx_buf r' | None => rx_buf r' end /\
    (forall l, line = Some l -> chr 10 ∉ l) /\
    tx r' = tx r /\ pending_id r' = pending_id r /\ rpc_next_id r' = rpc_next_id r.
Proof. exact (recv_line_spec r timeout o). Qed.

(** ** The rounds of the synchronous receive *)

Lemma recv_response_fuel f g b r o :
  0 <= b -> (Z.to_nat b < f)%nat -> (Z.to_nat b < g)%nat -> response_loop f b r o = response_loop g b r o.
Proof.
  revert g b r o. induction f as [|f IH]; intros [|g] b r o Hb Hf Hg; try lia. cbn [response_loop].
  set (slice := if 50 <? b then 50 else b).
  assert (slice = Z.min 50 b) as Es by (unfold slice; split_if; bool_facts; lia).
  destruct (recv_line r slice o) as [[[l|] r1] o1]; repeat case_match; bool_facts; auto; apply IH; lia.
Qed.

Lemma response_loop_match f b r o l r' o' :
  response_loop f b r o = (Some l, r', o') -> message_id l = pending_id r /\ pending_id r' = -1 /\ tx r' = tx r.
Proof.
  revert b r o. induction f as [|f IH]; intros b r o; cbn [response_loop]; [done|].
  set (slice := if 50 <? b then 50 else b). pose proof (recv_line_spec r slice o) as Hr.
  destruct (recv_line r slice o) as [[[x|] r1] o1]; destruct Hr as (_ & _ & _ & _ & Ht & Hp & _);
    repeat case_match; bool_facts; try done; intros Heq; simplify_eq/=;
    try (apply IH in Heq as (-> & ? & ?)); split_and!; congruence.
Qed.

(** A synchronous call that returns a response returns one whose identifier
    is the one the call gave its request, after writing exactly that request, and
    leaves no request pending. *)
Theorem rpc_call_matches_response r method params timeout o l r' o' :
  nsr_json_rpc_call r method params timeout o = (Some l, r', o') ->
  message_id l = rpc_next_id r /\ pending_id r' = -1 /\
  tx r' = tx r ++ build_request method params (rpc_next_id r) ++ [chr 10].
Proof.
  unfold nsr_json_rpc_call, nsr_json_rpc_send_request. destruct (rpc_dead r || (fd_in r <? 0)); [done|].
  cbn [take_id]. set (r0 := mk_rpc _ _ _ _ _ _ _ _). set (req := build_request _ _ _).
  pose proof (rpc_send_spec r0 req o) as Hs. pose proof (rpc_send_frame r0 req o) as Hf.
  destruct (rpc_send r0 req o) as [[[] r1] o1]; [|done]. destruct Hs as [Ht _], Hf as [Hp _].
  unfold nsr_json_rpc_try_recv_response. destruct (rpc_dead r1 || _ || _); [done|].
  intros (Hm & Hn & Hx)%response_loop_match. rewrite Hm, Hp, Hx, Ht. auto.
Qed.

(** ** A zero timeout does not read *)

Definition time_le (a b : Z * Z) : Prop := a.1 < b.1 \/ (a.1 = b.1 /\ a.2 <= b.2).

(** The next two readings of the clock are not out of order. *)
Definition clock_monotone (o : os) : Prop :=
  match clocks o with
  | Some a :: Some b :: _ => time_le a b /\ 0 <= a.2 < 1000000000 /\ 0 <= b.2 < 1000000000
  | _ => True
  end.

Lemma no_ms_left t now :
  time_le t now -> 0 <= t.2 < 1000000000 -> 0 <= now.2 < 1000000000 -> ms_left (deadline_of t 0) now <= 0.
Proof.
  destruct t as [s1 n1], now as [s2 n2]. unfold time_le, ms_left, deadline_of. cbn [fst snd].
  rewrite Z.quot_0_l, Z.rem_0_l by done. intros Ht H1 H2.
  rewrite (proj2 (Z.leb_gt _ _)) by lia. cbn [fst snd].
  replace (n1 + 0 * 1000000 - n2) with (- (n2 - n1)) by lia. rewrite Z.quot_opp_l by done.
  destruct (Z.le_gt_cases n1 n2).
  - pose proof (Z.quot_pos (n2 - n1) 1000000). lia.
  - pose proof (Z.quot_opp_l (n1 - n2) 1000000 ltac:(done)) as E.
    replace (- (n1 - n2)) with (n2 - n1) in E by lia. rewrite E.
    pose proof (Z.quot_lt_upper_bound (n1 - n2) 1000000 1000). lia.
Qed.

Lemma zero_timeout_spec r o :
  clock_monotone o ->
  let '(line, r', o') := recv_line r 0 o in
  polls o' = polls o /\ reads o' = reads o /\
  (line = None -> r' = r) /\
  line = match clocks o with Some _ :: _ => fst <$> split_line (rx_buf r) | _ => None end.
Proof.
  unfold clock_monotone, recv_line, clock_gettime. cbn [Z.leb Z.compare].
  destruct (clocks o) as [|[t|] cl] eqn:Ec; try done. intros Hm.
  set (o1 := with_clocks o cl). change (polls o1) with (polls o).
  assert (E : split_line (rx_buf r) = None ->
    recv_loop (polls o) (Some (deadline_of t 0)) r o1 = (None, r, with_polls (no_time_left (Some (deadline_of t 0)) o1).2 (polls o))).
  { intros Hs. assert ((no_time_left (Some (deadline_of t 0)) o1).1 = true) as Hn.
    { unfold no_time_left, clock_gettime. cbn [o1 clocks with_clocks].
      destruct cl as [|[b|] cl]; [done| |done]. cbn [fst].
      apply Z.leb_le. destruct Hm as (? & ? & ?). by apply no_ms_left. }
    destruct (polls o); cbn [recv_loop]; rewrite Hs;
      destruct (no_time_left (Some (deadline_of t 0)) o1) as [[] o2]; done. }
  destruct (split_line (rx_buf r)) as [[l rest]|] eqn:Hs.
  - assert (recv_loop (polls o) (Some (deadline_of t 0)) r o1 = (Some l, set_rx r rest, with_polls o1 (polls o)))
      as -> by (destruct (polls o); cbn [recv_loop]; by rewrite Hs). done.
  - rewrite E by done. split_and!; try done. exact (no_time_left_reads (Some (deadline_of t 0)) o1).
Qed.

(** With a zero timeout the receive functions hand out lines that are already
    buffered but never poll or read the pipe: the deadline has passed before the
    first poll.  The drain loops of the key handler, which pass zero, therefore
    see no response that is still in the pipe. *)
Theorem zero_timeout_never_reads r o :
  clock_monotone o ->
  let '(line, r', o') := recv_line r 0 o in
  polls o' = polls o /\ reads o' = reads o /\
  (line = None -> r' = r) /\
  line = match clocks o with Some _ :: _ => fst <$> split_line (rx_buf r) | _ => None end.
Proof. exact (zero_timeout_spec r o). Qed.

(** A response waits in the pipe; a drain without timeout leaves it there. *)
Definition demo_os : os :=
  mk_os [Some (5, 0); Some (5, 10)] [PollReady] [ReadData (str "{}" ++ [chr 10])] [] [].

Lemma zero_timeout_never_reads_witness :
  let '(line, _, o') := recv_line (spawned 7 3 4) 0 demo_os in line = None /\ reads o' = reads demo_os.
Proof.
  pose proof (zero_timeout_never_reads (spawned 7 3 4) demo_os) as H.
  destruct (recv_line (spawned 7 3 4) 0 demo_os) as [[line r'] o'].
  destruct H as (_ & Hr & _ & Hl).
  - split; [right; split; [reflexivity|cbn; lia]|cbn; lia].
  - split; [exact Hl|exact Hr].
Defined.

Lemma rpc_call_matches_response_witness :
  let o := mk_os [Some (0, 0); Some (0, 0)] [PollReady] [ReadData (encode (JObj [(str "id", JInt 1)]) ++ [chr 10])]
             [] [Wrote 999; Wrote 1] in
  exists l r' o', nsr_json_rpc_call (spawned 7 3 4) (str "init") None 2000 o = (Some l, r', o') /\
    message_id l = 1 /\ pending_id r' = -1.
Proof.
  eexists _, _, _. split; [vm_compute; reflexivity|].
  match goal with |- message_id ?l = 1 /\ pending_id ?r = -1 =>
    destruct (rpc_call_matches_response (spawned 7 3 4) (str "init") None 2000
      (mk_os [Some (0, 0); Some (0, 0)] [PollReady] [ReadData (encode (JObj [(str "id", JInt 1)]) ++ [chr 10])]
             [] [Wrote 999; Wrote 1]) l r
      (mk_os [] [] [] [] [])) as (H1 & H2 & _) end.
  - vm_compute. reflexivity.
  - split; [exact H1|exact H2].
Defined.
