(* ===== verification/Spawn.v ===== *)
(** * Plugin processes and their pipes (nsr_json_rpc_spawn in src/json/json_rpc.c)

    A process is its table of file descriptors, a finite map from numbers to what
    they refer to; pipes have identities, and a new descriptor gets the lowest free
    number.  [nsr_json_rpc_spawn] is followed through both processes, up to the
    [execl] of the child; none of its descriptors is closed there (the code sets no
    close-on-exec flag).  [spawn_many] starts several plugins from one host. *)

From stdpp Require Import gmap sets.
From S2P Require Import Prelude CFloat JsonBuf JsonScan JsonDoc JsonRpc RpcConn.

Inductive file_desc :=
| PipeR (p : nat)
| PipeW (p : nat)
| OtherFile (n : nat).

#[export] Instance file_desc_eq_dec : EqDecision file_desc.
Proof. solve_decision. Defined.

Abbreviation fdtable := (gmap nat file_desc).

(** ** System calls *)

(** The first free number from [n] on; one more than the size of the table is
    enough fuel ([free_fd_fresh]). *)
Fixpoint lowest (fuel n : nat) (t : fdtable) : nat :=
  match fuel with
  | O => n
  | S f => match t !! n with None => n | Some _ => lowest f (S n) t end
  end.

Definition free_fd (t : fdtable) : nat := lowest (S (size t)) 0 t.

(** A successful [pipe]: the read end, the write end and the table. *)
Definition sys_pipe (t : fdtable) (p : nat) : nat * nat * fdtable :=
  let r := free_fd t in
  let t := <[r := PipeR p]> t in
  let w := free_fd t in
  (r, w, <[w := PipeW p]> t).

Definition sys_close (t : fdtable) (fd : nat) : fdtable := delete fd t.

Definition sys_dup2 (t : fdtable) (old new : nat) : fdtable :=
  match t !! old with
  | None => t
  | Some d => if (old =? new)%nat then t else <[new := d]> t
  end.

(** ** nsr_json_rpc_spawn *)

(** What the system does: whether each of the two [pipe] calls succeeds, and the
    process id [fork] returns to the parent ([None]: it fails). *)
Record spawn_env := mk_spawn_env {
  pipe1_ok : bool;
  pipe2_ok : bool;
  fork_pid : option Z;
}.

(** The child's part: the table at [execl]. *)
Definition child_table (t : fdtable) (in0 in1 out0 out1 : nat) : fdtable :=
  let t := sys_close t in1 in
  let t := sys_close t out0 in
  let t := sys_dup2 t in0 0 in
  let t := sys_dup2 t out1 1 in
  let t := sys_dup2 t out1 2 in
  let t := sys_close t in0 in
  sys_close t out1.

(** The parent's table, and on success the connection and the child's table; [p]
    and [S p] are the identities of the two pipes. *)
Definition nsr_json_rpc_spawn (t : fdtable) (p : nat) (env : spawn_env)
    : fdtable * option (nsr_json_rpc_t * fdtable) :=
  if negb (pipe1_ok env) then (t, None)
  else
    let '(in0, in1, t) := sys_pipe t p in
    if negb (pipe2_ok env) then (sys_close (sys_close t in0) in1, None)
    else
      let '(out0, out1, t) := sys_pipe t (S p) in
      match fork_pid env with
      | None => (sys_close (sys_close (sys_close (sys_close t in0) in1) out0) out1, None)
      | Some pid =>
          let child := child_table t in0 in1 out0 out1 in
          let t := sys_close (sys_close t in0) out1 in
          (t, Some (spawned pid (Z.of_nat in1) (Z.of_nat out0), child))
      end.

(** ** Free descriptors *)

Lemma lowest_spec fuel n t :
  (t !! lowest fuel n t = None \/ lowest fuel n t = (n + fuel)%nat) /\
  (n <= lowest fuel n t <= n + fuel)%nat /\ forall m, (n <= m < lowest fuel n t)%nat -> is_Some (t !! m).
Proof.
  revert n. induction fuel as [|f IH]; intros n; cbn [lowest]; [split; [right; lia|]; split; [lia|intros; lia]|].
  destruct (t !! n) as [d|] eqn:E; [|split; [by left|]; split; [lia|intros; lia]].
  destruct (IH (S n)) as (H1 & H2 & H3). split; [|split; [lia|]].
  - destruct H1; [by left|right; lia].
  - intros m Hm. destruct (decide (m = n)) as [->|]; [by exists d|]. apply H3. lia.
Qed.

Lemma free_fd_fresh t : t !! free_fd t = None.
Proof.
  unfold free_fd. destruct (lowest_spec (S (size t)) 0 t) as ([H1|H1] & _ & H3); [done|]. exfalso.
  assert (Hsub : set_seq (C := gset nat) 0 (S (size t)) ⊆ dom t).
  { intros m Hm. apply elem_of_set_seq in Hm. apply elem_of_dom, H3. lia. }
  apply subseteq_size in Hsub. rewrite size_set_seq, size_dom in Hsub. lia.
Qed.

(** With the three standard descriptors in use the free ones are above them. *)
Definition std_open (t : fdtable) : Prop := forall m, (m < 3)%nat -> is_Some (t !! m).

Lemma free_fd_above t : std_open t -> (3 <= free_fd t)%nat.
Proof.
  intros Hs. destruct (decide (free_fd t < 3)%nat) as [Hlt|]; [|lia].
  destruct (Hs _ Hlt) as [d Hd]. by rewrite free_fd_fresh in Hd.
Qed.

Lemma std_open_insert t fd d : std_open t -> std_open (<[fd := d]> t).
Proof. intros Hs m Hm. destruct (decide (m = fd)) as [->|]; [rewrite lookup_insert_eq|rewrite lookup_insert_ne by done]; eauto. Qed.

Lemma pipe_spec t p :
  let '(r, w, t') := sys_pipe t p in
  t !! r = None /\ t !! w = None /\ r <> w /\ t' = <[w := PipeW p]> (<[r := PipeR p]> t) /\
  (std_open t -> (3 <= r)%nat /\ (3 <= w)%nat /\ std_open t').
Proof.
  unfold sys_pipe. set (r := free_fd t). set (w := free_fd (<[r := PipeR p]> t)).
  pose proof (free_fd_fresh t) as Hr. fold r in Hr.
  pose proof (free_fd_fresh (<[r := PipeR p]> t)) as Hw. fold w in Hw. apply lookup_insert_None in Hw as [Hw Hne].
  split_and!; try done. intros Hs. pose proof (std_open_insert t r (PipeR p) Hs) as Hs'.
  split; [by apply free_fd_above|]. split; [by apply free_fd_above|by apply std_open_insert].
Qed.

(** Equality of tables, entry by entry. *)
Ltac fd_lookup := unfold sys_close; repeat first [rewrite lookup_delete | rewrite lookup_insert].
Ltac fd_cases := fd_lookup; repeat case_decide; subst; try congruence; try lia.

(** ** What a spawn does *)

Lemma child_spec (t : fdtable) p in0 in1 out0 out1 :
  NoDup [in0; in1; out0; out1] -> Forall (fun fd => 3 <= fd)%nat [in0; in1; out0; out1] ->
  Forall (fun fd => t !! fd = None) [in0; in1; out0; out1] ->
  let u := <[out1 := PipeW (S p)]> (<[out0 := PipeR (S p)]> (<[in1 := PipeW p]> (<[in0 := PipeR p]> t))) in
  let child := child_table u in0 in1 out0 out1 in
  child !! 0%nat = Some (PipeR p) /\ child !! 1%nat = Some (PipeW (S p)) /\ child !! 2%nat = Some (PipeW (S p)) /\
  forall fd, (3 <= fd)%nat -> child !! fd = t !! fd.
Proof.
  intros Hnd H3 Hfree. rewrite !NoDup_cons, !elem_of_cons in Hnd. rewrite !Forall_cons in H3, Hfree.
  assert (Hdup : forall (m : fdtable) old new d, m !! old = Some d -> (old =? new)%nat = false ->
    sys_dup2 m old new = <[new := d]> m) by (intros m old new d E En; unfold sys_dup2; by rewrite E, En).
  cbn zeta. unfold child_table.
  rewrite (Hdup _ in0 0%nat (PipeR p)); [|fd_cases; tauto|apply Nat.eqb_neq; lia].
  rewrite (Hdup _ out1 1%nat (PipeW (S p))); [|fd_cases; tauto|apply Nat.eqb_neq; lia].
  rewrite (Hdup _ out1 2%nat (PipeW (S p))); [|fd_cases; tauto|apply Nat.eqb_neq; lia].
  split_and!; try (fd_cases; done). intros fd Hfd. fd_cases; intuition congruence.
Qed.

Lemma spawn_spec t p env :
  match nsr_json_rpc_spawn t p env with
  | (t', None) => t' = t /\ (pipe1_ok env = false \/ pipe2_ok env = false \/ fork_pid env = None)
  | (t', Some (rpc, child)) =>
      exists pid i o, pipe1_ok env = true /\ pipe2_ok env = true /\ fork_pid env = Some pid /\
        rpc = spawned pid (Z.of_nat i) (Z.of_nat o) /\ t !! i = None /\ t !! o = None /\ i <> o /\
        t' = <[o := PipeR (S p)]> (<[i := PipeW p]> t) /\
        (std_open t -> (3 <= i)%nat /\ (3 <= o)%nat /\
          child !! 0%nat = Some (PipeR p) /\ child !! 1%nat = Some (PipeW (S p)) /\
          child !! 2%nat = Some (PipeW (S p)) /\ forall fd, (3 <= fd)%nat -> child !! fd = t !! fd)
  end.
Proof.
  unfold nsr_json_rpc_spawn. destruct (pipe1_ok env) eqn:E1; cbn [negb]; [|split; [done|by left]].
  pose proof (pipe_spec t p) as H1. destruct (sys_pipe t p) as [[in0 in1] t1].
  destruct H1 as (Hi0 & Hi1 & Hne & -> & Hs1).
  destruct (pipe2_ok env) eqn:E2; cbn [negb].
  2:{ split; [|by right; left]. apply map_eq. intros k. fd_cases. }
  pose proof (pipe_spec (<[in1 := PipeW p]> (<[in0 := PipeR p]> t)) (S p)) as H2.
  destruct (sys_pipe _ (S p)) as [[out0 out1] t2]. destruct H2 as (Ho0 & Ho1 & Hne2 & -> & Hs2).
  apply lookup_insert_None in Ho0 as [Ho0 ?], Ho1 as [Ho1 ?]. apply lookup_insert_None in Ho0 as [Ho0 ?], Ho1 as [Ho1 ?].
  destruct (fork_pid env) as [pid|] eqn:E3.
  2:{ split; [|by right; right]. apply map_eq. intros k. fd_cases. }
  exists pid, in1, out0. split_and!; try done.
  - apply map_eq. intros k. fd_cases.
  - intros Hs. destruct (Hs1 Hs) as (H30 & H31 & Hs'). destruct (Hs2 Hs') as (H32 & H33 & _).
    split; [lia|]. split; [lia|]. apply child_spec.
    + rewrite !NoDup_cons, !elem_of_cons. split_and!; try (by apply NoDup_nil_2); intuition (try congruence);
        match goal with H : _ ∈ [] |- _ => by apply not_elem_of_nil in H end.
    + repeat constructor; lia.
    + repeat constructor; done.
Qed.

(** Starting a plugin.  When a [pipe] or the [fork] fails, the descriptors of the
    host are as before: nothing leaks.  When it succeeds the host has exactly two
    more, the write end of one new pipe and the read end of another, which the
    connection records; with the standard descriptors in use the plugin has the
    other ends as standard input, output and error, and otherwise the descriptors
    that the host had. *)
Theorem spawn_wires_plugin t p env :
  std_open t ->
  match nsr_json_rpc_spawn t p env with
  | (t', None) => t' = t
  | (t', Some (rpc, child)) =>
      exists i o, fd_in rpc = Z.of_nat i /\ fd_out rpc = Z.of_nat o /\ rpc_dead rpc = false /\
        t !! i = None /\ t !! o = None /\ i <> o /\
        t' = <[o := PipeR (S p)]> (<[i := PipeW p]> t) /\
        child !! 0%nat = Some (PipeR p) /\ child !! 1%nat = Some (PipeW (S p)) /\
        child !! 2%nat = Some (PipeW (S p)) /\ forall fd, (3 <= fd)%nat -> child !! fd = t !! fd
  end.
Proof.
  intros Hs. pose proof (spawn_spec t p env) as H. destruct (nsr_json_rpc_spawn t p env) as [t' [[rpc child]|]]; [|by destruct H].
  destruct H as (pid & i & o & _ & _ & _ & -> & Hi & Ho & Hne & -> & Hc). destruct (Hc Hs) as (_ & _ & H0 & H1 & H2 & H3).
  exists i, o. by split_and!.
Qed.

(** ** Several plugins *)

(** The host starts plugins one after the other; each one that starts is listed with
    the identity of its standard input. *)
Fixpoint spawn_many (t : fdtable) (p : nat) (envs : list spawn_env)
    : fdtable * list (nat * nsr_json_rpc_t * fdtable) :=
  match envs with
  | [] => (t, [])
  | env :: envs' =>
      let '(t, r) := nsr_json_rpc_spawn t p env in
      let '(t, ks) := spawn_many t (S (S p)) envs' in
      (t, match r with Some (rpc, c) => (p, rpc, c) :: ks | None => ks end)
  end.

(** Descriptors of pipes made before [p]. *)
Definition old (p : nat) (d : file_desc) : Prop :=
  match d with PipeR q | PipeW q => (q < p)%nat | OtherFile _ => True end.

Definition fresh_from (t : fdtable) (p : nat) : Prop := forall fd d, t !! fd = Some d -> old p d.

Lemma spawn_step t p env t' r :
  std_open t -> fresh_from t p -> nsr_json_rpc_spawn t p env = (t', r) ->
  std_open t' /\ fresh_from t' (S (S p)) /\
  forall fd d, old p d -> t' !! fd = Some d <-> t !! fd = Some d.
Proof.
  intros Hs Hf E. pose proof (spawn_spec t p env) as H. rewrite E in H.
  assert (Hold : forall d, old p d -> old (S (S p)) d) by (intros []; cbn; lia).
  destruct r as [[rpc c]|].
  - destruct H as (pid & i & o & _ & _ & _ & _ & Hi & Ho & Hne & -> & _).
    split; [by do 2 apply std_open_insert|]. split.
    + intros fd d. fd_lookup. repeat case_decide; [intros [= <-]; cbn; lia..|]. intros Hd. by eapply Hold, Hf.
    + intros fd d Hd. fd_lookup. repeat case_decide; subst; [|..|done]; split; intros Hx;
        first [injection Hx as <-; cbn in Hd; lia|congruence].
  - destruct H as [-> _]. split; [done|]. split; [|done]. intros fd d Hd. by eapply Hold, Hf.
Qed.

Lemma many_old t p envs h ks :
  std_open t -> fresh_from t p -> spawn_many t p envs = (h, ks) ->
  (forall fd d, old p d -> h !! fd = Some d <-> t !! fd = Some d) /\
  forall q rpc c, (q, rpc, c) ∈ ks -> (p <= q)%nat /\
    forall fd d, old p d -> c !! fd = Some d <-> (3 <= fd)%nat /\ t !! fd = Some d.
Proof.
  revert t p h ks. induction envs as [|env envs IH]; intros t p h ks Hs Hf; cbn [spawn_many].
  { intros [= <- <-]. split; [done|]. by intros q rpc c ?%not_elem_of_nil. }
  destruct (nsr_json_rpc_spawn t p env) as [t1 r] eqn:E1. destruct (spawn_many t1 (S (S p)) envs) as [t2 ks'] eqn:E2.
  intros [= <- <-]. destruct (spawn_step t p env t1 r Hs Hf E1) as (Hs1 & Hf1 & H1).
  destruct (IH t1 _ _ _ Hs1 Hf1 E2) as [Hh Hk].
  assert (Hold : forall d, old p d -> old (S (S p)) d) by (intros []; cbn; lia).
  split; [intros fd d Hd; rewrite Hh by auto; auto|].
  assert (Hks : forall q rpc c, (q, rpc, c) ∈ ks' -> (p <= q)%nat /\
    forall fd d, old p d -> c !! fd = Some d <-> (3 <= fd)%nat /\ t !! fd = Some d).
  { intros q rpc c Hin. destruct (Hk q rpc c Hin) as [Hle Hc]. split; [lia|]. intros fd d Hd. rewrite Hc by auto. by rewrite H1. }
  destruct r as [[rpc0 c0]|]; [|exact Hks]. intros q rpc c [[= -> -> ->]|Hin]%elem_of_cons; [|by eapply Hks].
  split; [lia|]. intros fd d Hd. pose proof (spawn_spec t p env) as H. rewrite E1 in H.
  destruct H as (pid & i & o & _ & _ & _ & _ & _ & _ & _ & _ & Hc). destruct (Hc Hs) as (_ & _ & C0 & C1 & C2 & C3).
  destruct (decide (3 <= fd)%nat) as [H3|H3]; [rewrite C3 by done; naive_solver|].
  split; [|lia]. intros Hfd. exfalso. destruct fd as [|[|[|fd]]]; [..|lia]; rewrite Hfd in *; simplify_eq; cbn in Hd; lia.
Qed.

(** The pipes that a plugin and its host hold after a spawn. *)
Lemma spawn_content t p env t' rpc c :
  std_open t -> fresh_from t p -> nsr_json_rpc_spawn t p env = (t', Some (rpc, c)) ->
  (forall fd d, c !! fd = Some d -> d = PipeR p /\ fd = 0%nat \/ d = PipeW (S p) \/ old p d) /\
  (forall fd d, t' !! fd = Some d -> d = PipeR (S p) \/ d = PipeW p \/ old p d) /\
  c !! 0%nat = Some (PipeR p) /\ exists i, (3 <= i)%nat /\ t' !! i = Some (PipeW p).
Proof.
  intros Hs Hf E. pose proof (spawn_spec t p env) as H. rewrite E in H.
  destruct H as (pid & i & o & _ & _ & _ & _ & Hi & Ho & Hne & -> & Hc).
  destruct (Hc Hs) as (H3i & H3o & C0 & C1 & C2 & C3). split_and!; [| |done|exists i; split; [done|fd_cases]].
  - intros fd d Hfd. destruct (decide (3 <= fd)%nat) as [H3|H3].
    + right. right. rewrite C3 in Hfd by done. by eapply Hf.
    + destruct fd as [|[|[|fd]]]; [..|lia]; rewrite Hfd in *; simplify_eq; auto.
  - intros fd d. fd_lookup. repeat case_decide; subst; [intros [= <-]; auto|intros [= <-]; auto|].
    intros Hd. right. right. by eapply Hf.
Qed.

(** Descriptors of different pipes. *)
Ltac other_pipe := repeat match goal with H : _ \/ _ |- _ => destruct H | H : _ /\ _ |- _ => destruct H end;
  simplify_eq; cbn [old] in *; try done; try lia.

(** Who can reach whom.  Whatever plugins a host without pipes starts and
    whatever fails on the way, the standard input of a plugin is read by this
    plugin only, on descriptor 0, so when it ends nobody can read the pipe and the
    next write of the host raises SIGPIPE; but its write end is held by every
    plugin that was started later, so closing it in the host is no end of file. *)
Theorem stdin_ends t p envs :
  std_open t -> fresh_from t p ->
  let '(h, ks) := spawn_many t p envs in
  forall j q rpc c, ks !! j = Some (q, rpc, c) ->
    (forall fd, h !! fd <> Some (PipeR q)) /\
    forall k q' rpc' c', ks !! k = Some (q', rpc', c') ->
      (forall fd, c' !! fd = Some (PipeR q) <-> k = j /\ fd = 0%nat) /\
      ((exists fd, c' !! fd = Some (PipeW q)) <-> (j < k)%nat).
Proof.
  revert t p. induction envs as [|env envs IH]; intros t p Hs Hf; cbn [spawn_many]; [by intros|].
  destruct (nsr_json_rpc_spawn t p env) as [t1 r] eqn:E1.
  destruct (spawn_step t p env t1 r Hs Hf E1) as (Hs1 & Hf1 & _). specialize (IH t1 _ Hs1 Hf1).
  destruct (spawn_many t1 (S (S p)) envs) as [h ks] eqn:E2. destruct r as [[rpc0 c0]|]; [|exact IH].
  destruct (many_old _ _ _ _ _ Hs1 Hf1 E2) as [Hh Hk].
  destruct (spawn_content t p env t1 rpc0 c0 Hs Hf E1) as (Hc0 & Ht1 & C0 & i & Hi & Ci).
  assert (Hpo : old (S (S p)) (PipeR p) /\ old (S (S p)) (PipeW p)) by (cbn; lia). destruct Hpo as [Hpr Hpw].
  intros [|j] q rpc c Hj; cbn in Hj.
  - injection Hj as <- <- <-. split.
    { intros fd Hfd. apply Hh in Hfd; [|done]. apply Ht1 in Hfd. other_pipe. }
    intros [|k] q' rpc' c' Hkk; cbn in Hkk.
    + injection Hkk as <- <- <-. split; [intros fd; split; [|by intros [_ ->]]|split; [|lia]].
      * intros Hfd. apply Hc0 in Hfd. other_pipe.
      * intros [fd Hfd]. apply Hc0 in Hfd. other_pipe.
    + apply list_elem_of_lookup_2 in Hkk. destruct (Hk _ _ _ Hkk) as [_ Hcc].
      split; [intros fd; split; [|by intros [? _]]|split; [lia|intros _; exists i; by apply Hcc]].
      intros Hfd. apply Hcc in Hfd as [_ Hfd]; [|done]. apply Ht1 in Hfd. other_pipe.
  - destruct (IH j q rpc c Hj) as [Hhq Hkq]. split; [exact Hhq|].
    intros [|k] q' rpc' c' Hkk; cbn in Hkk.
    2:{ destruct (Hkq k _ _ _ Hkk) as [K1 K2]. split; [intros fd; rewrite K1; naive_solver|rewrite K2; lia]. }
    injection Hkk as <- <- <-. apply list_elem_of_lookup_2 in Hj. destruct (Hk _ _ _ Hj) as [Hle _].
    split; [intros fd; split; [|by intros [? _]]|split; [|lia]].
    + intros Hfd. apply Hc0 in Hfd. other_pipe.
    + intros [fd Hfd]. apply Hc0 in Hfd. other_pipe.
Qed.

(** ** Witnesses *)

Definition std_table : fdtable := list_to_map [(0, OtherFile 0); (1, OtherFile 0); (2, OtherFile 0)]%nat.

Lemma std_table_open : std_open std_table.
Proof. intros [|[|[|m]]] Hm; [by eexists..|lia]. Qed.

Lemma std_table_fresh : fresh_from std_table 0.
Proof.
  intros fd d Hd. apply elem_of_list_to_map_2 in Hd. rewrite !elem_of_cons in Hd.
  destruct Hd as [[= _ ->]|[[= _ ->]|[[= _ ->]|Hd]]]; [done..|by apply not_elem_of_nil in Hd].
Qed.

Lemma spawn_wires_plugin_witness :
  exists t' rpc child, nsr_json_rpc_spawn std_table 0 (mk_spawn_env true true (Some 42)) = (t', Some (rpc, child)) /\
    child !! 0%nat = Some (PipeR 0) /\ child !! 2%nat = Some (PipeW 1).
Proof.
  pose proof (spawn_wires_plugin std_table 0 (mk_spawn_env true true (Some 42)) std_table_open) as H.
  destruct (nsr_json_rpc_spawn std_table 0 (mk_spawn_env true true (Some 42))) as [t' [[rpc child]|]] eqn:E.
  - destruct H as (i & o & _ & _ & _ & _ & _ & _ & _ & H0 & _ & H2 & _). exists t', rpc, child. exact (conj eq_refl (conj H0 H2)).
  - exfalso. vm_compute in E. discriminate.
Defined.

(** Of three attempts the second fails; the second plugin that starts holds the write
    end of the first one's standard input. *)
Lemma stdin_ends_witness :
  let '(h, ks) := spawn_many std_table 0 [mk_spawn_env true true (Some 42); mk_spawn_env true false None;
                                          mk_spawn_env true true (Some 43)] in
  match ks with
  | [(q, _, c); (_, _, c')] => (exists fd, c' !! fd = Some (PipeW q)) /\ ~ exists fd, c !! fd = Some (PipeW q)
  | _ => False
  end.
Proof.
  pose proof (stdin_ends std_table 0 [mk_spawn_env true true (Some 42); mk_spawn_env true false None;
    mk_spawn_env true true (Some 43)] std_table_open std_table_fresh) as H.
  destruct (spawn_many std_table 0 [mk_spawn_env true true (Some 42); mk_spawn_env true false None;
    mk_spawn_env true true (Some 43)]) as [h ks] eqn:E.
  assert (Hl : length (spawn_many std_table 0 [mk_spawn_env true true (Some 42); mk_spawn_env true false None;
    mk_spawn_env true true (Some 43)]).2 = 2%nat) by (vm_compute; reflexivity).
  rewrite E in Hl. clear E. cbn [snd] in Hl.
  destruct ks as [|[[q rpc] c] [|[[q' rpc'] c'] [|]]]; try discriminate Hl.
  destruct (H 0%nat q rpc c eq_refl) as [_ Hk]. split.
  - apply (Hk 1%nat q' rpc' c' eq_refl). lia.
  - intros Hx. apply (Hk 0%nat q rpc c eq_refl) in Hx. lia.
Defined.

(** A host without standard input gives its plugins none: the read end of the pipe
    becomes descriptor 0 at once, and the child closes it after the [dup2] that has
    nothing to do. *)
Theorem closed_stdin_is_lost :
  let t := delete 0%nat std_table in
  exists t' rpc child, nsr_json_rpc_spawn t 0 (mk_spawn_env true true (Some 42)) = (t', Some (rpc, child)) /\
    child !! 0%nat = None.
Proof. eexists _, _, _. split; [vm_compute; reflexivity|]. reflexivity. Qed.
