(* ===== verification/PluginConfig.v ===== *)
(** * Settings and key reservations of the plugin host (src/plugin/plugin.c)

    [config_get_bool_default] and [config_set_bool] read and rewrite a file of
    [key=value] lines.  A file is its text, [None] when it cannot be opened;
    [fgets_all] is the sequence of strings that repeated [fgets] calls with a
    512-byte array deliver.  [parse_reserved_keys] turns the text a plugin sends
    into the sorted set of the keys it reserves. *)

From stdpp Require Import sorting.
From S2P Require Import Prelude CFloat JsonBuf JsonScan JsonDoc.

(** ** Reading lines *)

(** One [fgets(line, n + 1, f)]: at most [n] characters, up to and with the first
    newline; the second component is the rest of the file. *)
Fixpoint fgets (n : nat) (s : cstr) : cstr * cstr :=
  match n, s with
  | S n', c :: s' =>
      if ceq c (chr 10) then ([c], s')
      else let '(l, rest) := fgets n' s' in (c :: l, rest)
  | _, _ => ([], s)
  end.

(** Each call takes at least one character, so the length of the file is enough
    fuel. *)
Fixpoint fgets_loop (fuel : nat) (s : cstr) : list cstr :=
  match fuel, s with
  | S f, _ :: _ => let '(l, rest) := fgets 511 s in l :: fgets_loop f rest
  | _, _ => []
  end.

Definition fgets_all (s : cstr) : list cstr := fgets_loop (length s) s.

(** [p = strchr(s, c); if (p) *p = 0]. *)
Fixpoint cut (c : ascii) (s : cstr) : cstr :=
  match s with
  | [] => []
  | d :: s' => if ceq d c then [] else d :: cut c s'
  end.

(** [eq = strchr(s, '='); *eq = 0]: the texts before and after it. *)
Fixpoint split_eq (s : cstr) : option (cstr * cstr) :=
  match s with
  | [] => None
  | d :: s' =>
      if ceq d "=" then Some ([], s')
      else match split_eq s' with Some (k, v) => Some (d :: k, v) | None => None end
  end.

(** The key and value of a line, its end-of-line characters removed. *)
Definition line_entry (line : cstr) : option (cstr * cstr) :=
  split_eq (cut (chr 13) (cut (chr 10) (c_content line))).

Definition line_has_key (key : cstr) (line : cstr) : bool :=
  match line_entry line with Some (k, _) => streq k key | None => false end.

(** ** The two operations *)

Definition atoi (s : cstr) : Z := s32 (strtoll s).1.

Fixpoint get_loop (lines : list cstr) (key : cstr) (def : bool) : bool :=
  match lines with
  | [] => def
  | l :: lines' =>
      match line_entry l with
      | Some (k, v) => if streq k key then negb (atoi v =? 0) else get_loop lines' key def
      | None => get_loop lines' key def
      end
  end.

Definition config_get_bool_default (file : option cstr) (key : cstr) (def : bool) : bool :=
  match file with
  | None => def
  | Some text => get_loop (fgets_all text) key def
  end.

Definition setting_line (key : cstr) (value : bool) : cstr :=
  take 511 (key ++ str "=" ++ str (if value then "1" else "0") ++ [chr 10]).

(** The lines kept from the file: at most 256. *)
Definition set_lines (lines : list cstr) (key : cstr) (value : bool) : list cstr :=
  let kept := map (fun l => if line_has_key key l then setting_line key value else c_content l)
                  (take 256 lines) in
  let found := existsb (line_has_key key) (take 256 lines) in
  if found then kept
  else if Z.of_nat (length kept) <? 256 then kept ++ [setting_line key value] else kept.

(** The new content of the file; [writable]: it can be opened for writing. *)
Definition config_set_bool (file : option cstr) (writable : bool) (key : cstr) (value : bool)
    : option cstr :=
  if writable then
    Some (concat (set_lines (match file with Some t => fgets_all t | None => [] end) key value))
  else file.

(** ** Reserved keys *)

Definition NSR_KEY_USER_LEN : nat := 32.

Definition to_lower (c : ascii) : ascii :=
  if (65 <=? ord c) && (ord c <=? 90) then chr (ord c + 32) else c.

Definition is_key (c : ascii) : bool :=
  ((97 <=? ord c) && (ord c <=? 122)) || ((48 <=? ord c) && (ord c <=? 57)).

Definition is_separator (c : ascii) : bool :=
  ceq c QUOTE || ceq c "'" || ceq c "," || ceq c " " || ceq c (chr 9).

(** The characters copied to [tmp], in order; [n] is the room left. *)
Fixpoint collect_keys (n : nat) (s : cstr) : cstr :=
  match n, s with
  | S n', c :: s' =>
      if is_separator c then collect_keys n s'
      else if is_key (to_lower c) then to_lower c :: collect_keys n' s'
      else collect_keys n s'
  | _, _ => []
  end.

Definition char_le (a b : ascii) : Prop := ord a <= ord b.

#[export] Instance char_le_dec : RelDecision char_le.
Proof. intros a b. unfold char_le. apply _. Defined.

(** The copy loop [if (i == 0 || tmp[i] != tmp[i - 1])]; [prev] is [tmp[i - 1]]. *)
Fixpoint dedup (prev : option ascii) (s : cstr) : cstr :=
  match s with
  | [] => []
  | c :: s' =>
      if bool_decide (prev = Some c) then dedup (Some c) s' else c :: dedup (Some c) s'
  end.

(** [qsort] on single characters is a sort: equal characters are not
    distinguishable. *)
Definition parse_reserved_keys (val : cstr) (val_len : Z) : cstr :=
  dedup None (merge_sort char_le (collect_keys NSR_KEY_USER_LEN (take (Z.to_nat val_len) val))).

Definition plugin_reserves_key (reserved_keys : cstr) (ch : Z) : bool :=
  if (ch <? 0) || (127 <? ch) then false
  else existsb (ceq (to_lower (chr ch))) reserved_keys.

(** ** Lines come back as they were written *)

(** A string [fgets] delivers in full: a line that fits, or 511 characters of a
    longer one. *)
Definition chunk_full (l : cstr) : Prop :=
  (exists b, l = b ++ [chr 10] /\ (chr 10 ∉ b) /\ (length b <= 510)%nat) \/
  ((chr 10 ∉ l) /\ length l = 511%nat).

Lemma fgets_line n b rest :
  chr 10 ∉ b -> (length b < n)%nat -> fgets n (b ++ chr 10 :: rest) = (b ++ [chr 10], rest).
Proof.
  revert n. induction b as [|c b IH]; intros [|n] Hb Hn; simpl in Hn; try lia; [done|].
  apply not_elem_of_cons in Hb as [Hc Hb]. cbn [app fgets].
  rewrite (proj2 (ceq_false c (chr 10))) by congruence. rewrite IH by (done || lia). done.
Qed.

Lemma fgets_long l rest : chr 10 ∉ l -> fgets (length l) (l ++ rest) = (l, rest).
Proof.
  induction l as [|c l IH]; intros Hl; [by destruct rest|].
  apply not_elem_of_cons in Hl as [Hc Hl]. cbn [length app fgets].
  rewrite (proj2 (ceq_false c (chr 10))) by congruence. by rewrite IH.
Qed.

Lemma fgets_full l rest : chunk_full l -> fgets 511 (l ++ rest) = (l, rest).
Proof.
  intros [(b & -> & Hb & Hl)|[Hn Hl]].
  - rewrite <- app_assoc. apply fgets_line; [done|lia].
  - rewrite <- Hl. by apply fgets_long.
Qed.

Lemma chunk_full_nonempty l : chunk_full l -> l <> [].
Proof. intros [([|] & -> & _)|[_ Hl]]; try done. by destruct l. Qed.

Lemma fgets_loop_concat ls f :
  Forall chunk_full ls -> (length (concat ls) <= f)%nat -> fgets_loop f (concat ls) = ls.
Proof.
  intros Hls. revert f. induction Hls as [|l ls Hl Hls IH]; intros f Hf; [by destruct f|].
  cbn [concat] in *. pose proof (chunk_full_nonempty l Hl) as Hne.
  destruct f as [|f]; [destruct l; [done|simpl in Hf; lia]|]. rewrite length_app in Hf.
  pose proof (fgets_full l (concat ls) Hl) as E. cbn [fgets_loop].
  destruct (l ++ concat ls) as [|c s] eqn:El; [by destruct l|]. rewrite E. f_equal. apply IH.
  destruct l; [done|simpl in Hf; lia].
Qed.

Lemma fgets_all_concat ls : Forall chunk_full ls -> fgets_all (concat ls) = ls.
Proof. intros H. by apply fgets_loop_concat. Qed.

(** A call either delivers a full string or the unterminated end of the file. *)
Lemma fgets_cases n s :
  (0 < n)%nat -> let '(l, rest) := fgets n s in
  s = l ++ rest /\
  ((exists b, l = b ++ [chr 10] /\ (chr 10 ∉ b) /\ (length b < n)%nat) \/
   ((chr 10 ∉ l) /\ length l = n) \/ (rest = [] /\ (chr 10 ∉ l))).
Proof.
  revert s. induction n as [|n IH]; intros s Hn; [lia|]. destruct s as [|c s]; cbn [fgets].
  { split; [done|]. right; right. split; [done|apply not_elem_of_nil]. }
  destruct (ceq c (chr 10)) eqn:E; [apply ceq_true in E as ->|apply ceq_false in E].
  { split; [done|]. left. exists []. split_and!; [done|apply not_elem_of_nil|simpl; lia]. }
  destruct n as [|n].
  { cbn [fgets]. split; [by destruct s|]. right; left. split; [|done].
    apply not_elem_of_cons. split; [congruence|apply not_elem_of_nil]. }
  specialize (IH s ltac:(lia)). destruct (fgets (S n) s) as [l rest].
  destruct IH as [-> H]. split; [done|].
  destruct H as [(b & -> & Hb & Hl)|[[Hn' Hl]|[-> Hn']]].
  - left. exists (c :: b). split_and!; [done| |simpl; lia]. apply not_elem_of_cons. split; [congruence|done].
  - right; left. split; [|simpl; lia]. apply not_elem_of_cons. split; [congruence|done].
  - right; right. split; [done|]. apply not_elem_of_cons. split; [congruence|done].
Qed.

Lemma fgets_all_full_loop f s :
  last s = Some (chr 10) -> (length s <= f)%nat -> Forall chunk_full (fgets_loop f s).
Proof.
  revert s. induction f as [|f IH]; intros s Hs Hf; [by constructor|]. cbn [fgets_loop].
  destruct s as [|c s']; [by constructor|]. set (s := c :: s') in *.
  pose proof (fgets_cases 511 s ltac:(lia)) as H. destruct (fgets 511 s) as [l rest].
  destruct H as [E H].
  assert (Hl : chunk_full l).
  { destruct H as [(b & -> & Hb & Hl)|[H|[-> Hn]]]; [left; exists b; split_and!; auto; lia|by right|].
    exfalso. rewrite app_nil_r in E. rewrite E in Hs. apply last_Some in Hs as [l' ->].
    apply Hn, elem_of_app. right. by apply list_elem_of_singleton. }
  constructor; [done|].
  destruct rest as [|d rest]; [by destruct f|]. apply IH.
  - rewrite E in Hs. by rewrite last_app_cons in Hs.
  - pose proof (chunk_full_nonempty l Hl). rewrite E, length_app in Hf. destruct l; [done|simpl in *; lia].
Qed.

(** A file that is empty or ends in a newline. *)
Definition terminated (text : cstr) : Prop := text = [] \/ last text = Some (chr 10).

Lemma fgets_all_full text : terminated text -> Forall chunk_full (fgets_all text).
Proof. intros [->|H]; [by constructor|]. by apply fgets_all_full_loop. Qed.

Lemma fgets_loop_nul_free f s : nul_free s -> Forall nul_free (fgets_loop f s).
Proof.
  revert s. induction f as [|f IH]; intros s Hs; [by constructor|]. cbn [fgets_loop].
  destruct s as [|c s']; [by constructor|]. set (s := c :: s') in *.
  pose proof (fgets_cases 511 s ltac:(lia)) as H. destruct (fgets 511 s) as [l rest]. destruct H as [E _].
  rewrite E in Hs. unfold nul_free in *. apply not_elem_of_app in Hs as [H1 H2]. constructor; auto.
Qed.

(** ** A setting reads back *)

(** A key that can be written: no '=', no end of line, room for the value. *)
Definition good_key (key : cstr) : Prop :=
  Forall (fun c => c <> "="%char /\ c <> chr 10 /\ c <> chr 13 /\ c <> NUL) key /\ (length key <= 500)%nat.

Lemma setting_line_text key value :
  good_key key -> setting_line key value = (key ++ str "=" ++ str (if value then "1" else "0")) ++ [chr 10].
Proof.
  intros [_ Hl]. unfold setting_line. rewrite take_ge; [by rewrite <- !app_assoc|].
  rewrite !length_app. destruct value; simpl; lia.
Qed.

Lemma good_key_not c key : good_key key -> c = chr 10 \/ c = chr 13 \/ c = NUL -> c ∉ key.
Proof.
  intros [Hk _] Hc Hin. rewrite Forall_forall in Hk. destruct (Hk _ Hin) as (_ & ? & ? & ?).
  destruct Hc as [->|[->| ->]]; done.
Qed.

Lemma setting_line_full key value : good_key key -> chunk_full (setting_line key value).
Proof.
  intros Hk. rewrite setting_line_text by done. left. eexists. split; [done|]. split.
  - rewrite !not_elem_of_app. split_and!; [apply good_key_not; auto|..];
      destruct value; intros H; apply list_elem_of_singleton in H; discriminate H.
  - destruct Hk as [_ Hl]. rewrite !length_app. destruct value; simpl; lia.
Qed.

Lemma cut_absent c s : c ∉ s -> cut c s = s.
Proof.
  induction s as [|d s IH]; intros H; [done|]. apply not_elem_of_cons in H as [Hd Hs]. cbn [cut].
  rewrite (proj2 (ceq_false d c)) by congruence. by rewrite IH.
Qed.

Lemma cut_app c s t : c ∉ s -> cut c (s ++ c :: t) = s.
Proof.
  induction s as [|d s IH]; intros H; cbn [app cut]; [by rewrite ceq_refl|].
  apply not_elem_of_cons in H as [Hd Hs]. rewrite (proj2 (ceq_false d c)) by congruence. by rewrite IH.
Qed.

Lemma split_eq_app k v : Forall (fun c => c <> "="%char) k -> split_eq (k ++ str "=" ++ v) = Some (k, v).
Proof.
  induction 1 as [|c k Hc Hk IH]; [done|]. cbn [app split_eq].
  rewrite (proj2 (ceq_false c _) Hc). by rewrite IH.
Qed.

Lemma setting_entry key value :
  good_key key -> line_entry (setting_line key value) = Some (key, str (if value then "1" else "0")).
Proof.
  intros Hk. unfold line_entry. rewrite setting_line_text by done.
  assert (Hn : forall c, c = chr 10 \/ c = chr 13 \/ c = NUL ->
    c ∉ key ++ str "=" ++ str (if value then "1" else "0")).
  { intros c Hc. rewrite !not_elem_of_app. split_and!; [by apply good_key_not|..];
      destruct value; intros H; apply list_elem_of_singleton in H; subst c;
      destruct Hc as [Hc|[Hc|Hc]]; discriminate Hc. }
  rewrite c_content_nul_free.
  2: { apply nul_free_app; [by apply Hn; auto|]. apply nul_free_cons; [done|apply not_elem_of_nil]. }
  rewrite cut_app by (apply Hn; auto). rewrite cut_absent by (apply Hn; auto).
  apply split_eq_app. destruct Hk as [Hk _]. eapply Forall_impl; [exact Hk|]. by intros c [? _].
Qed.

Definition replace_line (key : cstr) (value : bool) (l : cstr) : cstr :=
  if line_has_key key l then setting_line key value else l.

Lemma set_lines_short lines key value :
  Forall nul_free lines -> (length lines < 256)%nat ->
  set_lines lines key value = map (replace_line key value) lines
    ++ (if existsb (line_has_key key) lines then [] else [setting_line key value]).
Proof.
  intros Hn Hl. unfold set_lines. rewrite take_ge by lia. rewrite length_map.
  rewrite (proj2 (Z.ltb_lt _ _)) by lia.
  replace (map (fun l => if line_has_key key l then setting_line key value else c_content l) lines)
    with (map (replace_line key value) lines).
  - split_if; [by rewrite app_nil_r|done].
  - apply map_ext_in. intros l Hin%list_elem_of_In. unfold replace_line. split_if; [done|].
    rewrite Forall_forall in Hn. symmetry. apply c_content_nul_free. auto.
Qed.

Lemma atoi_flag (value : bool) : negb (atoi (str (if value then "1" else "0")) =? 0) = value.
Proof. by destruct value. Qed.

Lemma get_after_set lines key value def :
  good_key key ->
  get_loop (map (replace_line key value) lines
    ++ (if existsb (line_has_key key) lines then [] else [setting_line key value])) key def = value.
Proof.
  intros Hk. assert (Hs : forall rest, get_loop (setting_line key value :: rest) key def = value).
  { intros rest. cbn [get_loop]. rewrite setting_entry by done.
    rewrite (proj2 (streq_true key key)) by done. apply atoi_flag. }
  induction lines as [|l lines IH]; [apply Hs|]. cbn [map existsb app]. unfold replace_line at 1.
  destruct (line_has_key key l) eqn:E; cbn [orb]; [apply Hs|]. cbn [get_loop].
  unfold line_has_key in E. destruct (line_entry l) as [[k v]|]; [|apply IH]. by rewrite E.
Qed.

Lemma get_other_after_set lines key value key' def :
  good_key key -> key' <> key ->
  get_loop (map (replace_line key value) lines
    ++ (if existsb (line_has_key key) lines then [] else [setting_line key value])) key' def
  = get_loop lines key' def.
Proof.
  intros Hk Hne.
  assert (Hs : forall rest, get_loop (setting_line key value :: rest) key' def = get_loop rest key' def).
  { intros rest. cbn [get_loop]. rewrite setting_entry by done.
    by rewrite (proj2 (streq_false key key')) by congruence. }
  assert (Hb : forall b : bool, get_loop (if b then [] else [setting_line key value]) key' def = def).
  { intros []; [done|]. by rewrite Hs. }
  generalize (existsb (line_has_key key) lines). intros b.
  induction lines as [|l lines IH]; [apply Hb|]. cbn [map app]. unfold replace_line at 1.
  destruct (line_has_key key l) eqn:E.
  - rewrite Hs, IH. cbn [get_loop]. unfold line_has_key in E.
    destruct (line_entry l) as [[k v]|]; [|done]. apply streq_true in E as ->.
    by rewrite (proj2 (streq_false key key')) by congruence.
  - cbn [get_loop]. by rewrite IH.
Qed.

Lemma config_set_get text key value def :
  good_key key -> nul_free text -> terminated text -> (length (fgets_all text) < 256)%nat ->
  let file := config_set_bool (Some text) true key value in
  config_get_bool_default file key def = value /\
  forall key' def', key' <> key ->
    config_get_bool_default file key' def' = config_get_bool_default (Some text) key' def'.
Proof.
  intros Hk Hn Ht Hl file. unfold file, config_set_bool, config_get_bool_default.
  rewrite set_lines_short by (done || by apply fgets_loop_nul_free).
  rewrite fgets_all_concat.
  - split; [by apply get_after_set|]. intros. by apply get_other_after_set.
  - pose proof (fgets_all_full text Ht) as Hf. apply Forall_app. split.
    + apply Forall_map. eapply Forall_impl; [exact Hf|]. intros l Hl'. cbn. unfold replace_line.
      split_if; [by apply setting_line_full|done].
    + split_if; [by constructor|]. constructor; [by apply setting_line_full|by constructor].
Qed.

(** The value of a key: the rest of the first line that has it. *)
Fixpoint find_setting (lines : list cstr) (key : cstr) : option cstr :=
  match lines with
  | [] => None
  | l :: lines' =>
      match line_entry l with
      | Some (k, v) => if streq k key then Some v else find_setting lines' key
      | None => find_setting lines' key
      end
  end.

Lemma find_other_replaced lines key value key' :
  good_key key -> key' <> key ->
  find_setting (map (replace_line key value) lines) key' = find_setting lines key'.
Proof.
  intros Hk Hne. induction lines as [|l lines IH]; [done|]. cbn [map find_setting]. unfold replace_line at 1.
  destruct (line_has_key key l) eqn:E; [|by rewrite IH]. rewrite setting_entry by done.
  rewrite (proj2 (streq_false key key')) by congruence. rewrite IH. unfold line_has_key in E.
  destruct (line_entry l) as [[k v]|]; [|done]. apply streq_true in E as ->.
  by rewrite (proj2 (streq_false key key')) by congruence.
Qed.

Lemma find_setting_app l k key :
  find_setting (l ++ k) key = match find_setting l key with Some v => Some v | None => find_setting k key end.
Proof.
  induction l as [|x l IH]; [done|]. cbn [app find_setting]. destruct (line_entry x) as [[a v]|]; [|done].
  by split_if.
Qed.

(** The lines of the file after a setting was written. *)
Lemma fgets_after_set text key value :
  good_key key -> nul_free text -> terminated text ->
  exists added, (added = [] \/ added = [setting_line key value]) /\
    fgets_all (concat (set_lines (fgets_all text) key value))
    = map (replace_line key value) (take 256 (fgets_all text)) ++ added.
Proof.
  intros Hk Hn Ht. pose proof (fgets_all_full text Ht) as Hf. pose proof (fgets_loop_nul_free (length text) text Hn) as Hnl.
  change (fgets_loop (length text) text) with (fgets_all text) in Hnl.
  assert (E : exists added, (added = [] \/ added = [setting_line key value]) /\
    set_lines (fgets_all text) key value = map (replace_line key value) (take 256 (fgets_all text)) ++ added).
  { unfold set_lines. replace (map _ (take 256 (fgets_all text))) with (map (replace_line key value) (take 256 (fgets_all text))).
    - split_if; [exists []; rewrite app_nil_r; auto|]. split_if; [eauto|]. exists []. rewrite app_nil_r. auto.
    - apply map_ext_in. intros l Hin%list_elem_of_In. unfold replace_line. split_if; [done|].
      symmetry. apply c_content_nul_free. pose proof (Forall_take _ 256%nat _ Hnl) as Hnl'. rewrite Forall_forall in Hnl'. by apply Hnl'. }
  destruct E as (added & Ha & ->). exists added. split; [done|]. apply fgets_all_concat, Forall_app_2.
  - apply Forall_map. pose proof (Forall_take _ 256%nat _ Hf) as Hf'. clear Hf. eapply Forall_impl; [exact Hf'|]. intros l Hl. cbn.
    unfold replace_line. split_if; [by apply setting_line_full|done].
  - destruct Ha as [->| ->]; [done|]. constructor; [by apply setting_line_full|done].
Qed.

(** Of another key the file keeps exactly what its first 256 lines say. *)
Lemma find_after_set text key value key' :
  good_key key -> nul_free text -> terminated text -> key' <> key ->
  find_setting (fgets_all (concat (set_lines (fgets_all text) key value))) key'
  = find_setting (take 256 (fgets_all text)) key'.
Proof.
  intros Hk Hn Ht Hne. destruct (fgets_after_set text key value Hk Hn Ht) as (added & Ha & ->).
  rewrite find_setting_app, find_other_replaced by done.
  assert (find_setting added key' = None) as ->; [|by destruct (find_setting _ key')].
  destruct Ha as [->| ->]; [done|]. cbn [find_setting]. rewrite setting_entry by done.
  by rewrite (proj2 (streq_false key key')) by congruence.
Qed.

(** A settings file of more than 256 lines is cut: whatever was set only beyond line
    256 is lost when any other setting is written. *)
Theorem long_file_loses_settings text key value key' :
  good_key key -> nul_free text -> terminated text -> key' <> key ->
  find_setting (take 256 (fgets_all text)) key' = None ->
  match config_set_bool (Some text) true key value with
  | Some text' => find_setting (fgets_all text') key' = None
  | None => False
  end.
Proof. intros Hk Hn Ht Hne H. cbn [config_set_bool]. by rewrite find_after_set. Qed.

(** Writing a setting into a file of fewer than 256 lines that ends in a
    newline, and reading it back, gives the value that was written, whether or not
    the key was there, and leaves the value of every other key as it was. *)
Theorem config_roundtrip text key value def :
  good_key key -> nul_free text -> terminated text -> (length (fgets_all text) < 256)%nat ->
  let file := config_set_bool (Some text) true key value in
  config_get_bool_default file key def = value /\
  forall key' def', key' <> key ->
    config_get_bool_default file key' def' = config_get_bool_default (Some text) key' def'.
Proof. exact (config_set_get text key value def). Qed.

Definition demo_text : cstr := str "A=1" ++ [chr 10] ++ str "B=0" ++ [chr 10].

Lemma config_roundtrip_witness :
  config_get_bool_default (config_set_bool (Some demo_text) true (str "B") true) (str "B") false = true /\
  config_get_bool_default (config_set_bool (Some demo_text) true (str "B") true) (str "A") false
  = config_get_bool_default (Some demo_text) (str "A") false.
Proof.
  destruct (config_roundtrip demo_text (str "B") true false) as [H1 H2].
  - split; [|vm_compute; lia]. apply Forall_cons_2; [|apply Forall_nil_2].
    split; [discriminate|split; [discriminate|split; discriminate]].
  - vm_compute. intros H. repeat (inversion H as [|? ? ? H']; subst; clear H; rename H' into H).
  - right. reflexivity.
  - vm_compute. lia.
  - split; [exact H1|]. apply H2. discriminate.
Defined.

(** A file whose last line has no newline is damaged by writing a setting: the
    new line is glued to the old one, so the new setting is not found. *)
Theorem config_unterminated_lost :
  config_set_bool (Some (str "A=1")) true (str "B") true = Some (str "A=1B=1" ++ [chr 10]) /\
  config_get_bool_default (config_set_bool (Some (str "A=1")) true (str "B") true) (str "B") false = false.
Proof. split; vm_compute; reflexivity. Qed.

(** ** The reserved keys are the set of letters and digits sent *)

Lemma merge_sorted l : Sorted char_le (merge_sort char_le l) /\ merge_sort char_le l ≡ₚ l.
Proof.
  split; [|apply merge_sort_Permutation]. apply Sorted_merge_sort.
  intros a b. unfold char_le. lia.
Qed.

Lemma dedup_elem prev s c : c ∈ dedup prev s -> c ∈ s.
Proof.
  revert prev. induction s as [|d s IH]; intros prev; cbn [dedup]; [done|].
  case_bool_decide; intros Hc; [right; by eapply IH|].
  apply elem_of_cons in Hc as [->|Hc]; [by left|right; by eapply IH].
Qed.

Lemma dedup_complete prev s c : c ∈ s -> c ∈ dedup prev s \/ prev = Some c.
Proof.
  revert prev. induction s as [|d s IH]; intros prev Hc; [by apply elem_of_nil in Hc|]. cbn [dedup].
  apply elem_of_cons in Hc as [->|Hc].
  - case_bool_decide; [by right|left; by left].
  - destruct (IH (Some d) Hc) as [H|[= ->]].
    + left. case_bool_decide; [done|by right].
    + case_bool_decide; [by right|left; by left].
Qed.

Lemma dedup_set s c : c ∈ dedup None s <-> c ∈ s.
Proof. split; [apply dedup_elem|]. intros H. by destruct (dedup_complete None s c H). Qed.

Lemma ord_inj a b : ord a = ord b -> a = b.
Proof. intros H. rewrite <- (chr_ord a), <- (chr_ord b). by rewrite H. Qed.

Lemma dedup_strict prev s :
  StronglySorted char_le s -> (forall p c, prev = Some p -> c ∈ s -> ord p <= ord c) ->
  StronglySorted (fun a b => ord a < ord b) (dedup prev s) /\
  (forall p c, prev = Some p -> c ∈ dedup prev s -> ord p < ord c).
Proof.
  intros Hs. revert prev. induction Hs as [|d s Hs IH Hd]; intros prev Hp; cbn [dedup].
  { split; [constructor|]. by intros p c _ ?%elem_of_nil. }
  assert (Hd' : forall p c, Some d = Some p -> c ∈ s -> ord p <= ord c).
  { intros p c [= <-] Hc. rewrite Forall_forall in Hd. by apply Hd. }
  destruct (IH (Some d) Hd') as [H1 H2]. case_bool_decide as E.
  - split; [done|]. intros p c Hpp Hc. apply H2; [congruence|done].
  - split.
    + constructor; [done|]. apply Forall_forall. intros c Hc. by apply H2.
    + intros p c -> Hc. apply elem_of_cons in Hc as [->|Hc].
      * assert (ord p <= ord d) by (apply Hp; [done|by left]).
        assert (ord p <> ord d) by (intros ?%ord_inj; congruence). lia.
      * specialize (H2 d c eq_refl Hc). assert (ord p <= ord d) by (apply Hp; [done|by left]). lia.
Qed.

Lemma collect_keys_spec n s :
  (length (collect_keys n s) <= n)%nat /\ Forall (fun c => is_key c = true) (collect_keys n s).
Proof.
  revert n. induction s as [|c s IH]; intros [|n]; cbn [collect_keys length];
    try (split; [lia|by constructor]).
  destruct (IH n) as [H1 H2], (IH (S n)) as [H3 H4]. split_if; [done|]. split_if; [|done].
  cbn [length]. split; [lia|by constructor].
Qed.

Lemma dedup_length prev s : (length (dedup prev s) <= length s)%nat.
Proof.
  revert prev. induction s as [|c s IH]; intros prev; cbn [dedup]; [done|].
  case_bool_decide; simpl; specialize (IH (Some c)); lia.
Qed.

Lemma reserves_key_elem keys ch :
  0 <= ch <= 127 -> plugin_reserves_key keys ch = true <-> to_lower (chr ch) ∈ keys.
Proof.
  intros Hc. unfold plugin_reserves_key.
  rewrite (proj2 (Z.ltb_ge ch 0)), (proj2 (Z.ltb_ge 127 ch)) by lia. cbn [orb].
  rewrite existsb_exists. split.
  - intros (c & Hin%list_elem_of_In & ->%ceq_true). done.
  - intros Hin%list_elem_of_In. exists (to_lower (chr ch)). split; [done|apply ceq_refl].
Qed.

(** The keys a plugin reserves are a strictly sorted list of lower-case
    letters and digits, exactly those among the first 32 that the text holds in
    either case; a key press is reserved when it is one of them in either case. *)
Theorem reserved_keys_set val len :
  let keys := parse_reserved_keys val len in
  StronglySorted (fun a b => ord a < ord b) keys /\ (length keys <= 32)%nat /\
  (forall c, c ∈ keys <-> c ∈ collect_keys 32 (take (Z.to_nat len) val)) /\
  (forall c, c ∈ keys -> is_key c = true) /\
  (forall ch, 0 <= ch <= 127 -> plugin_reserves_key keys ch = true <-> to_lower (chr ch) ∈ keys).
Proof.
  unfold parse_reserved_keys. change NSR_KEY_USER_LEN with 32%nat.
  set (l := collect_keys 32 (take (Z.to_nat len) val)). cbn zeta.
  destruct (collect_keys_spec 32 (take (Z.to_nat len) val)) as [Hlen Hkey]. fold l in Hlen, Hkey.
  destruct (merge_sorted l) as [Hs Hp].
  assert (Hset : forall c, c ∈ dedup None (merge_sort char_le l) <-> c ∈ l).
  { intros c. rewrite dedup_set. by rewrite Hp. }
  split; [|split; [|split; [exact Hset|split]]].
  - apply dedup_strict; [|done]. apply Sorted_StronglySorted; [|done].
    intros a b c. unfold char_le. lia.
  - rewrite dedup_length, Hp. exact Hlen.
  - intros c Hc%Hset. rewrite Forall_forall in Hkey. by apply Hkey.
  - intros ch Hch. by apply reserves_key_elem.
Qed.

Example reserved_keys_demo : parse_reserved_keys (str "'t,Q,t'") 7 = str "qt".
Proof. vm_compute. reflexivity. Qed.
