(* ===== verification/PluginDocs.v ===== *)
(** * The documents the plugin host exchanges (src/plugin/plugin.c)

    The parameters of [update_telemetry], [render_hops] and [on_key] as the host
    emits them, and the reading of [render_hops] answers.  Every emitted list of
    calls denotes a document ([hop_doc], [telemetry_doc], ...), so that the
    round-trip lemmas of JsonDoc.v and JsonRpc.v say what a plugin reads. *)

From S2P Require Import Prelude CFloat JsonBuf JsonScan JsonDoc JsonRpc Telemetry Topology.

(** [(long long)] of a [uint64_t]. *)
Definition s64 (z : Z) : Z := (z + 2 ^ 63) mod 2 ^ 64 - 2 ^ 63.

(** [(long long)] of a finite [float]: truncation toward zero. *)
Definition f_trunc (x : cfloat) : Z :=
  match x with
  | S754_finite s m e =>
      let a := if 0 <=? e then Z.pos m * 2 ^ e else Z.pos m / 2 ^ (- e) in
      if s then - a else a
  | _ => 0
  end.

(** ** Emission *)

Definition build_key_params (ch : Z) (modal_input : bool) : list json_call :=
  CObjStart :: keyed "key" (CInt ch)
    ++ (if modal_input then keyed "modal_input" (CBool true) else []) ++ [CObjEnd].

Definition loss (sent recv : Z) : cfloat :=
  if sent =? 0 then f_zero else f64_sub (f64_of_Z 1) (f64_div (f64_of_Z recv) (f64_of_Z sent)).

Definition status_name (t : nsr_obs_type_t) : cstr :=
  match t with
  | NSR_OBS_REPLY => str "reply"
  | NSR_OBS_EXCEEDED => str "exceeded"
  | NSR_OBS_UNREACH => str "unreachable"
  | NSR_OBS_TIMEOUT => str "timeout"
  | _ => str "probing"
  end.

(** The object of a hop, the same in [nsr_plugins_update_telemetry] and in
    [nsr_plugins_render_hops]. *)
Definition hop_calls (i : Z) (h : nsr_hop_info_t) : list json_call :=
  CObjStart :: keyed "hop_idx" (CInt i) ++ keyed "addr" (cstring (addr h))
    ++ keyed "rtt_us" (CInt (s64 (rtt_us h))) ++ keyed "sent" (CInt (sent h))
    ++ keyed "recv" (CInt (recv h)) ++ keyed "loss" (CDouble (loss (sent h) (recv h)))
    ++ keyed "status" (cstring (status_name (last_status h))) ++ [CObjEnd].

(** The object of a topology node that is not a hop. *)
Definition node_calls (n : nsr_topology_node_t) : list json_call :=
  let h := n_health n in
  CObjStart :: keyed "hop_idx" (CInt (-1)) ++ keyed "addr" (cstring (n_addr n))
    ++ keyed "rtt_us" (CInt (f_trunc (h_rtt_us h)))
    ++ keyed "sent" (CInt (if 0 <? h_sent h then h_sent h else 1))
    ++ keyed "recv" (CInt (h_recv h)) ++ keyed "loss" (CDouble (loss (h_sent h) (h_recv h)))
    ++ keyed "status" (cstring (str "reply")) ++ [CObjEnd].

(** [added_ips]: at most 256 addresses of at most 47 characters. *)
Definition remember (added : list cstr) (a : cstr) : list cstr :=
  if Z.of_nat (length added) <? 256 then added ++ [strncpy 47 a] else added.

(** The loop over [tel->hops[i]], [i] from 1. *)
Fixpoint hops_loop (i : Z) (hs : list nsr_hop_info_t) (added : list cstr)
    : list json_call * list cstr :=
  match hs with
  | [] => ([], added)
  | h :: hs' =>
      if sent h =? 0 then hops_loop (i + 1) hs' added
      else
        let '(cs, added) := hops_loop (i + 1) hs' (remember added (addr h)) in
        (hop_calls i h ++ cs, added)
  end.

Fixpoint nodes_loop (ns : list nsr_topology_node_t) (added : list cstr) : list json_call :=
  match ns with
  | [] => []
  | n :: ns' =>
      if negb (n_active n) || ceq (deref (n_addr n)) NUL then nodes_loop ns' added
      else if bool_decide (n_addr n ∈ added) then nodes_loop ns' added
      else node_calls n ++ nodes_loop ns' (remember added (n_addr n))
  end.

Definition telemetry_calls (tel : nsr_telemetry_state_t) (topo : option nsr_topology_state_t)
    : list json_call :=
  let '(hop_cs, added) := hops_loop 1 (take 63 (drop 1 (hops tel))) [] in
  let node_cs := match topo with Some t => nodes_loop (nodes t) added | None => [] end in
  CObjStart :: keyed "target_ip" (cstring (target_ip tel))
    ++ keyed "target_host" (cstring (target_host tel))
    ++ keyed "interval_ms" (CInt (interval_ms tel))
    ++ keyed "hops" CArrStart ++ hop_cs ++ node_cs ++ [CArrEnd; CObjEnd].

(** The parameters of [render_hops]: [for (i = 1; i < 64 && i < hop_count; i++)]. *)
Definition render_hops_calls (hs : list nsr_hop_info_t) (hop_count : Z) : list json_call :=
  let n := Z.to_nat (Z.min 64 hop_count) in
  CObjStart :: keyed "hops" CArrStart ++ (hops_loop 1 (drop 1 (take n hs)) []).1
    ++ [CArrEnd; CObjEnd].

(** ** Reading annotations *)

Record nsr_hop_annotation_t := mk_annotation {
  an_hop_idx : Z;
  an_text : cstr;
}.

(** [out] holds the first [total] annotations. *)
Fixpoint annotations_loop (elems : list cstr) (out : list nsr_hop_annotation_t) (max_out : Z)
    : list nsr_hop_annotation_t :=
  match elems with
  | [] => out
  | elem :: elems' =>
      if Z.of_nat (length out) <? max_out then
        let hop_idx := int_member elem "hop_idx" (-1) in
        let text := str_member elem "text" 128 [] in
        let out := if (0 <=? hop_idx) && negb (ceq (deref text) NUL)
                   then out ++ [mk_annotation (s32 hop_idx) (strncpy 127 text)] else out in
        annotations_loop elems' out max_out
      else out
  end.

Definition parse_render_hops_response (json : cstr) (out : list nsr_hop_annotation_t) (max_out : Z)
    : list nsr_hop_annotation_t :=
  match nsr_json_obj_get json (str "result") with
  | None => out
  | Some (result, _) =>
      match nsr_json_obj_get result (str "annotations") with
      | None => out
      | Some (annotations, _) => annotations_loop (arr_elements annotations) out max_out
      end
  end.

(** ** The documents *)

(** One line of the [hops] array. *)
Record row := mk_row {
  r_idx : Z;
  r_addr : cstr;
  r_rtt : Z;
  r_sent : Z;
  r_recv : Z;
  r_loss : cfloat;
  r_status : cstr;
}.

Definition row_doc (r : row) : json :=
  JObj [(str "hop_idx", JInt (r_idx r)); (str "addr", JStr (r_addr r)); (str "rtt_us", JInt (r_rtt r));
        (str "sent", JInt (r_sent r)); (str "recv", JInt (r_recv r)); (str "loss", JDouble (r_loss r));
        (str "status", JStr (r_status r))].

Definition hop_row (i : Z) (h : nsr_hop_info_t) : row :=
  mk_row i (addr h) (s64 (rtt_us h)) (sent h) (recv h) (loss (sent h) (recv h))
    (status_name (last_status h)).

Definition node_row (n : nsr_topology_node_t) : row :=
  let h := n_health n in
  mk_row (-1) (n_addr n) (f_trunc (h_rtt_us h)) (if 0 <? h_sent h then h_sent h else 1) (h_recv h)
    (loss (h_sent h) (h_recv h)) (str "reply").

(** The probed hops, with their numbers. *)
Definition hop_rows (i : Z) (hs : list nsr_hop_info_t) : list row :=
  concat (imap (fun k h => if sent h =? 0 then [] else [hop_row (i + Z.of_nat k) h]) hs).

(** The active nodes whose address is not listed yet. *)
Fixpoint node_rows (ns : list nsr_topology_node_t) (added : list cstr) : list row :=
  match ns with
  | [] => []
  | n :: ns' =>
      if negb (n_active n) || ceq (deref (n_addr n)) NUL || bool_decide (n_addr n ∈ added)
      then node_rows ns' added
      else node_row n :: node_rows ns' (remember added (n_addr n))
  end.

Definition telemetry_rows (tel : nsr_telemetry_state_t) (topo : option nsr_topology_state_t) : list row :=
  let hs := hop_rows 1 (take 63 (drop 1 (hops tel))) in
  hs ++ match topo with
        | Some t => node_rows (nodes t) (foldl remember [] (map r_addr hs))
        | None => []
        end.

Definition telemetry_doc (tel : nsr_telemetry_state_t) (topo : option nsr_topology_state_t) : json :=
  JObj [(str "target_ip", JStr (target_ip tel)); (str "target_host", JStr (target_host tel));
        (str "interval_ms", JInt (interval_ms tel));
        (str "hops", JArr (map row_doc (telemetry_rows tel topo)))].

Definition rows_calls (rs : list row) : list json_call := concat (map doc_calls (map row_doc rs)).

Lemma rows_calls_cons r rs : rows_calls (r :: rs) = doc_calls (row_doc r) ++ rows_calls rs.
Proof. done. Qed.

Lemma hop_calls_doc i h : hop_calls i h = doc_calls (row_doc (hop_row i h)).
Proof. done. Qed.

Lemma node_calls_doc n : node_calls n = doc_calls (row_doc (node_row n)).
Proof. done. Qed.

Lemma hop_rows_cons i h hs :
  hop_rows i (h :: hs) = (if sent h =? 0 then [] else [hop_row i h]) ++ hop_rows (i + 1) hs.
Proof.
  unfold hop_rows. cbn [imap concat]. rewrite Z.add_0_r. f_equal. f_equal. apply imap_ext.
  intros k x _. unfold compose. split_if; [done|]. do 2 f_equal. lia.
Qed.

Lemma hops_loop_rows i hs added :
  hops_loop i hs added
  = (rows_calls (hop_rows i hs), foldl remember added (map r_addr (hop_rows i hs))).
Proof.
  revert i added. induction hs as [|h hs IH]; intros i added; [done|].
  rewrite hop_rows_cons. cbn [hops_loop]. destruct (sent h =? 0); [by rewrite IH|].
  rewrite IH. cbn [app map foldl]. by rewrite rows_calls_cons, hop_calls_doc.
Qed.

Lemma nodes_loop_rows ns added : nodes_loop ns added = rows_calls (node_rows ns added).
Proof.
  revert added. induction ns as [|n ns IH]; intros added; [done|]. cbn [nodes_loop node_rows].
  destruct (negb (n_active n) || ceq (deref (n_addr n)) NUL); cbn [orb]; [by rewrite IH|].
  case_bool_decide; [by rewrite IH|]. by rewrite rows_calls_cons, IH, node_calls_doc.
Qed.

Lemma rows_calls_app rs rs' : rows_calls (rs ++ rs') = rows_calls rs ++ rows_calls rs'.
Proof. unfold rows_calls. by rewrite !map_app, concat_app. Qed.

Lemma telemetry_calls_doc tel topo : telemetry_calls tel topo = doc_calls (telemetry_doc tel topo).
Proof.
  unfold telemetry_calls, telemetry_doc, telemetry_rows. rewrite hops_loop_rows.
  cbn [doc_calls map concat fst snd]. change (concat (map doc_calls (map row_doc ?l))) with (rows_calls l).
  rewrite rows_calls_app. destruct topo as [t|]; rewrite ?nodes_loop_rows; cbn [keyed app];
    by rewrite ?app_nil_r, <- ?app_assoc.
Qed.
