(* ===== verification/PluginHost.v ===== *)
(** * The plugin host (src/plugin/plugin.c)

    The registry of plugins, the key queue of each, the dispatch of key presses
    and of responses, enabling and disabling.  [nsr_plugin_entry_t] is the C
    structure (its fields [input_grabbed], [crash_countdown_active] and
    [crash_start_time] are never used); a response buffer is its text, empty when
    it was freed or reset.  The operating system is the script [os] of RpcConn.v,
    passed along; [system] calls are reported in the result.  The drawing of
    [nsr_plugins_render] is not modelled. *)

From S2P Require Import Prelude CFloat JsonBuf JsonScan JsonDoc JsonRpc RpcConn PluginConfig.
From S2P Require Import Telemetry Topology PluginDocs.

Definition NSR_MAX_PLUGINS : Z := 32.
Definition NSR_PLUGIN_KEY_QUEUE : Z := 8.
Definition NSR_PLUGIN_MODAL_KEY_INTERVAL_MS : Z := 120.
Definition NSR_PLUGIN_KEY_COALESCE_MS : Z := 40.

Record nsr_key_event_t := mk_event {
  ev_ch : Z;
  ev_modal_input : bool;
}.

Record nsr_plugin_entry_t := mk_entry {
  e_name : cstr;
  e_path : cstr;
  e_description : cstr;
  e_enabled : bool;
  e_initialized : bool;
  e_dead : bool;
  e_rpc : nsr_json_rpc_t;
  last_render_resp : cstr;
  last_render_hops_resp : cstr;
  render_pending : bool;
  render_hops_pending : bool;
  on_key_pending : bool;
  is_modal : bool;
  pending_render_id : Z;
  pending_render_hops_id : Z;
  pending_on_key_id : Z;
  last_on_key_ms : Z;
  reserved_keys : cstr;
  key_queue : list nsr_key_event_t;
  key_queue_head : Z;
  key_queue_count : Z;
  last_key_ch : Z;
  last_key_ms : Z;
  pending_open_editor : bool;
  pending_open_editor_file : cstr;
}.

(** *** Field updates *)

Definition with_rpc (e : nsr_plugin_entry_t) (r : nsr_json_rpc_t) : nsr_plugin_entry_t :=
  mk_entry (e_name e) (e_path e) (e_description e) (e_enabled e) (e_initialized e) (e_dead e) r
    (last_render_resp e) (last_render_hops_resp e) (render_pending e) (render_hops_pending e)
    (on_key_pending e) (is_modal e) (pending_render_id e) (pending_render_hops_id e)
    (pending_on_key_id e) (last_on_key_ms e) (reserved_keys e) (key_queue e) (key_queue_head e)
    (key_queue_count e) (last_key_ch e) (last_key_ms e) (pending_open_editor e)
    (pending_open_editor_file e).

Definition with_flags (e : nsr_plugin_entry_t) (initialized dead : bool) : nsr_plugin_entry_t :=
  mk_entry (e_name e) (e_path e) (e_description e) (e_enabled e) initialized dead (e_rpc e)
    (last_render_resp e) (last_render_hops_resp e) (render_pending e) (render_hops_pending e)
    (on_key_pending e) (is_modal e) (pending_render_id e) (pending_render_hops_id e)
    (pending_on_key_id e) (last_on_key_ms e) (reserved_keys e) (key_queue e) (key_queue_head e)
    (key_queue_count e) (last_key_ch e) (last_key_ms e) (pending_open_editor e)
    (pending_open_editor_file e).

Definition with_enabled (e : nsr_plugin_entry_t) (b : bool) : nsr_plugin_entry_t :=
  mk_entry (e_name e) (e_path e) (e_description e) b (e_initialized e) (e_dead e) (e_rpc e)
    (last_render_resp e) (last_render_hops_resp e) (render_pending e) (render_hops_pending e)
    (on_key_pending e) (is_modal e) (pending_render_id e) (pending_render_hops_id e)
    (pending_on_key_id e) (last_on_key_ms e) (reserved_keys e) (key_queue e) (key_queue_head e)
    (key_queue_count e) (last_key_ch e) (last_key_ms e) (pending_open_editor e)
    (pending_open_editor_file e).

Definition with_modal (e : nsr_plugin_entry_t) (b : bool) : nsr_plugin_entry_t :=
  mk_entry (e_name e) (e_path e) (e_description e) (e_enabled e) (e_initialized e) (e_dead e)
    (e_rpc e) (last_render_resp e) (last_render_hops_resp e) (render_pending e)
    (render_hops_pending e) (on_key_pending e) b (pending_render_id e) (pending_render_hops_id e)
    (pending_on_key_id e) (last_on_key_ms e) (reserved_keys e) (key_queue e) (key_queue_head e)
    (key_queue_count e) (last_key_ch e) (last_key_ms e) (pending_open_editor e)
    (pending_open_editor_file e).

Definition with_render (e : nsr_plugin_entry_t) (resp : cstr) (p : bool) : nsr_plugin_entry_t :=
  mk_entry (e_name e) (e_path e) (e_description e) (e_enabled e) (e_initialized e) (e_dead e)
    (e_rpc e) resp (last_render_hops_resp e) p (render_hops_pending e) (on_key_pending e)
    (is_modal e) (pending_render_id e) (pending_render_hops_id e) (pending_on_key_id e)
    (last_on_key_ms e) (reserved_keys e) (key_queue e) (key_queue_head e) (key_queue_count e)
    (last_key_ch e) (last_key_ms e) (pending_open_editor e) (pending_open_editor_file e).

Definition with_hops_resp (e : nsr_plugin_entry_t) (resp : cstr) (p : bool) (id : Z) : nsr_plugin_entry_t :=
  mk_entry (e_name e) (e_path e) (e_description e) (e_enabled e) (e_initialized e) (e_dead e)
    (e_rpc e) (last_render_resp e) resp (render_pending e) p (on_key_pending e) (is_modal e)
    (pending_render_id e) id (pending_on_key_id e) (last_on_key_ms e) (reserved_keys e)
    (key_queue e) (key_queue_head e) (key_queue_count e) (last_key_ch e) (last_key_ms e)
    (pending_open_editor e) (pending_open_editor_file e).

Definition with_key_pending (e : nsr_plugin_entry_t) (p : bool) (id : Z) : nsr_plugin_entry_t :=
  mk_entry (e_name e) (e_path e) (e_description e) (e_enabled e) (e_initialized e) (e_dead e)
    (e_rpc e) (last_render_resp e) (last_render_hops_resp e) (render_pending e)
    (render_hops_pending e) p (is_modal e) (pending_render_id e) (pending_render_hops_id e) id
    (last_on_key_ms e) (reserved_keys e) (key_queue e) (key_queue_head e) (key_queue_count e)
    (last_key_ch e) (last_key_ms e) (pending_open_editor e) (pending_open_editor_file e).

Definition with_last_key (e : nsr_plugin_entry_t) (ch ms : Z) : nsr_plugin_entry_t :=
  mk_entry (e_name e) (e_path e) (e_description e) (e_enabled e) (e_initialized e) (e_dead e)
    (e_rpc e) (last_render_resp e) (last_render_hops_resp e) (render_pending e)
    (render_hops_pending e) (on_key_pending e) (is_modal e) (pending_render_id e)
    (pending_render_hops_id e) (pending_on_key_id e) (last_on_key_ms e) (reserved_keys e)
    (key_queue e) (key_queue_head e) (key_queue_count e) ch ms (pending_open_editor e)
    (pending_open_editor_file e).

Definition with_on_key_ms (e : nsr_plugin_entry_t) (ms : Z) : nsr_plugin_entry_t :=
  mk_entry (e_name e) (e_path e) (e_description e) (e_enabled e) (e_initialized e) (e_dead e)
    (e_rpc e) (last_render_resp e) (last_render_hops_resp e) (render_pending e)
    (render_hops_pending e) (on_key_pending e) (is_modal e) (pending_render_id e)
    (pending_render_hops_id e) (pending_on_key_id e) ms (reserved_keys e) (key_queue e)
    (key_queue_head e) (key_queue_count e) (last_key_ch e) (last_key_ms e) (pending_open_editor e)
    (pending_open_editor_file e).

Definition with_queue (e : nsr_plugin_entry_t) (q : list nsr_key_event_t) (head count : Z) : nsr_plugin_entry_t :=
  mk_entry (e_name e) (e_path e) (e_description e) (e_enabled e) (e_initialized e) (e_dead e)
    (e_rpc e) (last_render_resp e) (last_render_hops_resp e) (render_pending e)
    (render_hops_pending e) (on_key_pending e) (is_modal e) (pending_render_id e)
    (pending_render_hops_id e) (pending_on_key_id e) (last_on_key_ms e) (reserved_keys e) q head
    count (last_key_ch e) (last_key_ms e) (pending_open_editor e) (pending_open_editor_file e).

Definition with_editor (e : nsr_plugin_entry_t) (p : bool) (file : cstr) : nsr_plugin_entry_t :=
  mk_entry (e_name e) (e_path e) (e_description e) (e_enabled e) (e_initialized e) (e_dead e)
    (e_rpc e) (last_render_resp e) (last_render_hops_resp e) (render_pending e)
    (render_hops_pending e) (on_key_pending e) (is_modal e) (pending_render_id e)
    (pending_render_hops_id e) (pending_on_key_id e) (last_on_key_ms e) (reserved_keys e)
    (key_queue e) (key_queue_head e) (key_queue_count e) (last_key_ch e) (last_key_ms e) p file.

Definition with_init_answer (e : nsr_plugin_entry_t) (description keys : cstr) : nsr_plugin_entry_t :=
  mk_entry (e_name e) (e_path e) description (e_enabled e) true (e_dead e) (e_rpc e)
    (last_render_resp e) (last_render_hops_resp e) (render_pending e) (render_hops_pending e)
    (on_key_pending e) (is_modal e) (pending_render_id e) (pending_render_hops_id e)
    (pending_on_key_id e) (last_on_key_ms e) keys (key_queue e) (key_queue_head e)
    (key_queue_count e) (last_key_ch e) (last_key_ms e) (pending_open_editor e)
    (pending_open_editor_file e).

Definition clear_reserved (e : nsr_plugin_entry_t) : nsr_plugin_entry_t :=
  mk_entry (e_name e) (e_path e) (e_description e) (e_enabled e) (e_initialized e) (e_dead e)
    (e_rpc e) (last_render_resp e) (last_render_hops_resp e) (render_pending e)
    (render_hops_pending e) (on_key_pending e) (is_modal e) (pending_render_id e)
    (pending_render_hops_id e) (pending_on_key_id e) (last_on_key_ms e) [] (key_queue e)
    (key_queue_head e) (key_queue_count e) (last_key_ch e) (last_key_ms e) (pending_open_editor e)
    (pending_open_editor_file e).

(** No request is waiting for its answer. *)
Definition with_no_pending (e : nsr_plugin_entry_t)  : nsr_plugin_entry_t :=
  mk_entry (e_name e) (e_path e) (e_description e) (e_enabled e) (e_initialized e) (e_dead e)
    (e_rpc e) (last_render_resp e) (last_render_hops_resp e) false false false (is_modal e) (-1)
    (-1) (-1) 0 (reserved_keys e) (key_queue e) (key_queue_head e) (key_queue_count e)
    (last_key_ch e) (last_key_ms e) (pending_open_editor e) (pending_open_editor_file e).

(** ** The key queue *)

Definition plugin_key_queue_reset (e : nsr_plugin_entry_t) : nsr_plugin_entry_t :=
  with_last_key (with_queue e (key_queue e) 0 0) (-1) 0.

Definition plugin_key_queue_enqueue (e : nsr_plugin_entry_t) (ch : Z) (modal_input : bool)
    : bool * nsr_plugin_entry_t :=
  if NSR_PLUGIN_KEY_QUEUE <=? key_queue_count e then (false, e)
  else
    let idx := Z.rem (key_queue_head e + key_queue_count e) NSR_PLUGIN_KEY_QUEUE in
    (true, with_queue e (<[Z.to_nat idx := mk_event ch modal_input]> (key_queue e))
             (key_queue_head e) (key_queue_count e + 1)).

Definition plugin_key_queue_dequeue (e : nsr_plugin_entry_t) : option nsr_key_event_t * nsr_plugin_entry_t :=
  if key_queue_count e <=? 0 then (None, e)
  else
    (Some (default (mk_event 0 false) (key_queue e !! Z.to_nat (key_queue_head e))),
     with_queue e (key_queue e) (Z.rem (key_queue_head e + 1) NSR_PLUGIN_KEY_QUEUE)
       (key_queue_count e - 1)).

(** ** Resynchronisation *)

Definition plugin_force_sync (e : nsr_plugin_entry_t) (o : os) : nsr_plugin_entry_t * os :=
  let '(r, o) := nsr_json_rpc_discard_queued (e_rpc e) o in
  let e := with_rpc e (set_pending r (-1)) in
  let e := plugin_key_queue_reset (with_no_pending e) in
  let e := with_editor e false [] in
  (with_hops_resp (with_render e [] (render_pending e)) [] (render_hops_pending e)
     (pending_render_hops_id e), o).

(** The value of an optional boolean member; [None]: absent or not a boolean. *)
Definition bool_member (json : cstr) (key : string) : option bool :=
  match nsr_json_obj_get json (str key) with
  | None => None
  | Some (v, len) => let '(ok, b) := nsr_json_parse_bool v len false in if ok : bool then Some b else None
  end.

Definition set_modal_if (e : nsr_plugin_entry_t) (m : option bool) : nsr_plugin_entry_t :=
  match m with Some b => with_modal e b | None => e end.

Definition plugin_handle_force_sync (e : nsr_plugin_entry_t) (msg : cstr) (o : os)
    : bool * nsr_plugin_entry_t * os :=
  if negb (streq (str_member msg "method" 64 []) (str "force_sync")) then (false, e, o)
  else
    let modal := match nsr_json_obj_get msg (str "params") with
                 | Some (params, _) => bool_member params "is_modal"
                 | None => None
                 end in
    let '(e, o) := plugin_force_sync e o in
    (true, set_modal_if e modal, o).

Definition plugin_result_requests_force_sync (e : nsr_plugin_entry_t) (result : cstr) (o : os)
    : bool * nsr_plugin_entry_t * os :=
  match bool_member result "force_sync" with
  | Some true =>
      let modal := bool_member result "is_modal" in
      let '(e, o) := plugin_force_sync e o in
      (true, set_modal_if e modal, o)
  | _ => (false, e, o)
  end.

(** ** Key events to the plugin *)

Definition plugin_send_next_key (e : nsr_plugin_entry_t) (o : os) : nsr_plugin_entry_t * os :=
  if on_key_pending e || rpc_dead (e_rpc e) || (fd_in (e_rpc e) <? 0) then (e, o)
  else
    let '(ev, e) := plugin_key_queue_dequeue e in
    match ev with
    | None => (e, o)
    | Some ev =>
        let params := emit (build_key_params (ev_ch ev) (ev_modal_input ev)) in
        let '(ok, id, r, o) := nsr_json_rpc_send_request (e_rpc e) (str "on_key") (Some params) o in
        let e := with_rpc e r in
        if ok : bool then (with_key_pending e true (default (-1) id), o)
        else if rpc_dead r then (with_flags e (e_initialized e) true, o)
        else (e, o)
    end.

Definition plugin_handle_on_key_result (e : nsr_plugin_entry_t) (result : cstr) (o : os)
    : nsr_plugin_entry_t * os :=
  let '(synced, e, o) := plugin_result_requests_force_sync e result o in
  if synced : bool then (e, o)
  else
    let e := set_modal_if e (bool_member result "is_modal") in
    if streq (str_member result "action" 64 []) (str "open_editor") then
      let file := str_member result "file" 256 [] in
      (if ceq (deref file) NUL then e else with_editor e true (strncpy 255 file), o)
    else
      let e := match bool_member result "handled" with
               | Some true => with_render e [] (render_pending e)
               | _ => e
               end in
      (with_last_key e (-1) 0, o).

Definition plugin_drain_response (e : nsr_plugin_entry_t) (timeout_ms : Z) (o : os)
    : bool * nsr_plugin_entry_t * os :=
  if rpc_dead (e_rpc e) || (fd_out (e_rpc e) <? 0) then (false, e, o)
  else
    let '(msg, r, o) := nsr_json_rpc_try_recv_any (e_rpc e) timeout_ms o in
    let e := with_rpc e r in
    match msg with
    | None => (false, e, o)
    | Some (resp, id) =>
        let '(synced, e, o) := plugin_handle_force_sync e resp o in
        let '(e, o) :=
          if synced : bool then (e, o)
          else if render_pending e && (id =? pending_render_id e) then (with_render e resp false, o)
          else if render_hops_pending e && (id =? pending_render_hops_id e) then
            (with_hops_resp e resp false (pending_render_hops_id e), o)
          else if on_key_pending e && (id =? pending_on_key_id e) then
            let e := with_key_pending e false (pending_on_key_id e) in
            match nsr_json_obj_get resp (str "result") with
            | Some (result, _) => plugin_handle_on_key_result e result o
            | None => (e, o)
            end
          else (e, o) in
        let '(e, o) := plugin_send_next_key e o in
        (true, e, o)
    end.

(** What is left to receive: an upper bound on the number of further lines. *)
Definition backlog (e : nsr_plugin_entry_t) (o : os) : nat :=
  length (rx_buf (e_rpc e)) + length (data (reads o)).

(** [while (plugin_drain_response(e, 0));] every round that succeeds takes a
    newline out of the backlog ([drain_rounds]). *)
Fixpoint drain_key_loop (fuel : nat) (e : nsr_plugin_entry_t) (o : os) : nsr_plugin_entry_t * os :=
  match fuel with
  | O => (e, o)
  | S f =>
      let '(more, e, o) := plugin_drain_response e 0 o in
      if more : bool then drain_key_loop f e o else (e, o)
  end.

Definition drain_all (e : nsr_plugin_entry_t) (o : os) : nsr_plugin_entry_t * os :=
  drain_key_loop (S (backlog e o)) e o.

(** [now_ms]: milliseconds of the monotonic clock, 0 when it fails. *)
Definition host_now_ms (o : os) : Z * os :=
  let '(t, o) := clock_gettime o in
  (match t with None => 0 | Some (sec, nsec) => sec * 1000 + Z.quot nsec 1000000 end, o).

(** The queue step of [plugin_try_on_key]: the oldest event makes room. *)
Definition enqueue_dropping (e : nsr_plugin_entry_t) (ch : Z) (modal_input : bool) : nsr_plugin_entry_t :=
  let '(ok, e1) := plugin_key_queue_enqueue e ch modal_input in
  if ok : bool then e1
  else (plugin_key_queue_enqueue (plugin_key_queue_dequeue e).2 ch modal_input).2.

Definition plugin_try_on_key (e : nsr_plugin_entry_t) (ch : Z) (modal_input reserved : bool) (o : os)
    : bool * nsr_plugin_entry_t * os :=
  let '(e, o) := drain_all e o in
  let '(throttled, e, o) :=
    if modal_input then
      let '(t, o) := host_now_ms o in
      if (0 <? t) && (0 <? last_on_key_ms e)
         && (t - last_on_key_ms e <? NSR_PLUGIN_MODAL_KEY_INTERVAL_MS)
      then (true, e, o) else (false, with_on_key_ms e t, o)
    else (false, e, o) in
  if throttled : bool then (true, e, o)
  else
    let '(t, o) := host_now_ms o in
    if (ch =? last_key_ch e) && (0 <? t) && (0 <? last_key_ms e)
       && (t - last_key_ms e <? NSR_PLUGIN_KEY_COALESCE_MS)
    then (modal_input || reserved, e, o)
    else
      let e := enqueue_dropping (with_last_key e ch t) ch modal_input in
      let '(e, o) := plugin_send_next_key e o in
      (modal_input || reserved, e, o).

(** ** The registry *)

Definition plugin_check_alive (e : nsr_plugin_entry_t) (o : os) : nsr_plugin_entry_t * os :=
  if negb (e_initialized e) || (pid (e_rpc e) <=? 0) then (e, o)
  else
    let '(alive, o) := still_running o in
    if alive : bool then (e, o) else (with_flags e false true, o).

Definition active (e : nsr_plugin_entry_t) : bool := e_enabled e && e_initialized e && negb (e_dead e).

(** The first loop of [nsr_plugins_on_key]; the list holds the files for which an
    editor was started. *)
Definition drain_pass_step (e : nsr_plugin_entry_t) (o : os) : nsr_plugin_entry_t * os * list cstr :=
  let '(e, o) := plugin_check_alive e o in
  if negb (active e) then (e, o, [])
  else
    let '(e, o) := drain_all e o in
    if pending_open_editor e then (with_editor e false [], o, [pending_open_editor_file e])
    else (e, o, []).

Fixpoint drain_pass (es : list nsr_plugin_entry_t) (o : os) : list nsr_plugin_entry_t * os * list cstr :=
  match es with
  | [] => ([], o, [])
  | e :: es' =>
      let '(e, o, f1) := drain_pass_step e o in
      let '(es', o, f2) := drain_pass es' o in
      (e :: es', o, f1 ++ f2)
  end.

(** The other loops: each entry that is active after the liveness check and
    [wants] the key is tried until one handles it.  The result also says whether
    an entry was tried. *)
Fixpoint key_pass (wants : nsr_plugin_entry_t -> bool) (modal_input reserved : bool) (ch : Z)
    (es : list nsr_plugin_entry_t) (o : os) : bool * bool * list nsr_plugin_entry_t * os :=
  match es with
  | [] => (false, false, [], o)
  | e :: es' =>
      let '(e, o) := plugin_check_alive e o in
      if negb (active e) || negb (wants e) then
        let '(handled, tried, es', o) := key_pass wants modal_input reserved ch es' o in
        (handled, tried, e :: es', o)
      else
        let '(h, e, o) := plugin_try_on_key e ch modal_input reserved o in
        if h : bool then (true, true, e :: es', o)
        else
          let '(handled, tried, es', o) := key_pass wants modal_input reserved ch es' o in
          (handled, true, e :: es', o)
  end.

Definition nsr_plugins_on_key (es : list nsr_plugin_entry_t) (ch : Z) (o : os)
    : bool * list nsr_plugin_entry_t * os * list cstr :=
  if ch <? 0 then (false, es, o, [])
  else
    let '(es, o, files) := drain_pass es o in
    if negb (bool_decide (files = [])) then (true, es, o, files)
    else
      let '(handled, _, es, o) := key_pass is_modal true false ch es o in
      if handled : bool then (true, es, o, [])
      else
        let '(handled, targeted, es, o) :=
          key_pass (fun e => plugin_reserves_key (reserved_keys e) ch) false true ch es o in
        if handled || targeted then (handled, es, o, [])
        else
          let '(handled, _, es, o) := key_pass (fun _ => true) false false ch es o in
          (handled, es, o, []).

Fixpoint modal_active_loop (es : list nsr_plugin_entry_t) (o : os) : bool * list nsr_plugin_entry_t * os :=
  match es with
  | [] => (false, [], o)
  | e :: es' =>
      let '(e, o) := plugin_check_alive e o in
      if active e && is_modal e then (true, e :: es', o)
      else let '(b, es', o) := modal_active_loop es' o in (b, e :: es', o)
  end.

Definition nsr_plugins_modal_active (es : list nsr_plugin_entry_t) (o : os)
    : bool * list nsr_plugin_entry_t * os := modal_active_loop es o.

(** [count] is the number of entries. *)
Record nsr_plugin_registry_t := mk_registry {
  entries : list nsr_plugin_entry_t;
  config_path : cstr;
  plugin_dir : cstr;
}.

Definition with_entries (reg : nsr_plugin_registry_t) (es : list nsr_plugin_entry_t) : nsr_plugin_registry_t :=
  mk_registry es (config_path reg) (plugin_dir reg).

Definition nsr_plugins_init (config : cstr) : nsr_plugin_registry_t := mk_registry [] (strncpy 255 config) [].

Definition nsr_plugins_count (reg : nsr_plugin_registry_t) : Z := Z.of_nat (length (entries reg)).

Definition nsr_plugins_name (reg : nsr_plugin_registry_t) (idx : Z) : option cstr :=
  e_name <$> aget (entries reg) idx.

Definition nsr_plugins_description (reg : nsr_plugin_registry_t) (idx : Z) : option cstr :=
  (fun e => if ceq (deref (e_description e)) NUL then e_name e else e_description e)
    <$> aget (entries reg) idx.

Definition nsr_plugins_enabled (reg : nsr_plugin_registry_t) (idx : Z) : bool :=
  match aget (entries reg) idx with Some e => e_enabled e | None => false end.

(** ** Starting and stopping a plugin *)

Definition clear_responses (e : nsr_plugin_entry_t) : nsr_plugin_entry_t :=
  with_hops_resp (with_render e [] (render_pending e)) [] (render_hops_pending e) (pending_render_hops_id e).

Definition plugin_stop (e : nsr_plugin_entry_t) (o : os) : nsr_plugin_entry_t * os :=
  let '(e, o) :=
    if 0 <? pid (e_rpc e) then
      let '(_, r, o) := nsr_json_rpc_notify (e_rpc e) (str "cleanup") None o in
      (with_rpc e (nsr_json_rpc_close r), o)
    else (e, o) in
  let e := with_flags (clear_reserved (clear_responses e)) false false in
  let e := plugin_key_queue_reset (with_no_pending (with_modal e false)) in
  (with_editor e false [], o).

Fixpoint stop_all (es : list nsr_plugin_entry_t) (o : os) : os :=
  match es with
  | [] => o
  | e :: es' => let '(_, o) := plugin_stop e o in stop_all es' o
  end.

Definition nsr_plugins_cleanup (reg : nsr_plugin_registry_t) (o : os) : nsr_plugin_registry_t * os :=
  (mk_registry [] [] [], stop_all (entries reg) o).

Definition init_params (config dir : cstr) : list json_call :=
  CObjStart :: keyed "config_path" (cstring config) ++ keyed "plugin_dir" (cstring dir) ++ [CObjEnd].

(** The result object of a positive answer to [init]. *)
Definition init_result (resp : cstr) : option cstr :=
  match nsr_json_obj_get resp (str "result") with
  | None => None
  | Some (result, _) =>
      match nsr_json_obj_get result (str "status") with
      | None => None
      | Some (status, len) =>
          if (len =? 4) && streq (take 4 status) (QUOTE :: str "ok" ++ [QUOTE]) then Some result else None
      end
  end.

(** The process, when it was created, with its two pipe ends. *)
Definition spawn_result : Type := option (Z * Z * Z).

Definition plugin_spawn (e : nsr_plugin_entry_t) (config dir : cstr) (sp : spawn_result) (o : os)
    : bool * nsr_plugin_entry_t * os :=
  match sp with
  | None => (false, with_rpc e (spawned 0 0 0), o)
  | Some (p, i, fo) =>
      let '(resp, r, o) :=
        nsr_json_rpc_call (spawned p i fo) (str "init") (Some (emit (init_params config dir))) 2000 o in
      match resp with
      | Some resp =>
          match init_result resp with
          | Some result =>
              let description := str_member result "description" 256 (e_description e) in
              let keys := match nsr_json_obj_get result (str "reserved_keys") with
                          | Some (v, len) => parse_reserved_keys v len
                          | None => reserved_keys e
                          end in
              (true, with_init_answer (with_rpc e r) description keys, o)
          | None => (false, with_flags (with_rpc e (nsr_json_rpc_close r)) (e_initialized e) true, o)
          end
      | None => (false, with_flags (with_rpc e (nsr_json_rpc_close r)) (e_initialized e) true, o)
      end
  end.

Definition setting_key (name : cstr) : cstr := take 127 (str "NSR_PLUGIN_" ++ name).

(** [file]: the configuration file; [writable]: it can be rewritten. *)
Definition nsr_plugins_set_enabled (reg : nsr_plugin_registry_t) (idx : Z) (enabled : bool)
    (file : option cstr) (writable : bool) (sp : spawn_result) (o : os)
    : nsr_plugin_registry_t * option cstr * os :=
  match aget (entries reg) idx with
  | None => (reg, file, o)
  | Some e =>
      if Bool.eqb (e_enabled e) enabled then (reg, file, o)
      else
        let e := with_enabled e enabled in
        let file := config_set_bool file writable (setting_key (e_name e)) enabled in
        let '(e, o) :=
          if enabled then let '(_, e, o) := plugin_spawn e (config_path reg) (plugin_dir reg) sp o in (e, o)
          else plugin_stop e o in
        (with_entries reg (<[Z.to_nat idx := e]> (entries reg)), file, o)
  end.

(** A zeroed entry with its name and path. *)
Definition new_plugin (name path : cstr) : nsr_plugin_entry_t :=
  mk_entry (strncpy 63 name) (strncpy 511 path) [] false false false (mk_rpc 0 0 0 0 0 false [] [])
    [] [] false false false false 0 0 0 0 [] (replicate 8 (mk_event 0 false)) 0 0 (-1) 0 false [].

(** One directory entry: its name and the [st_mode] of its path, when [stat] works. *)
Definition dirent : Type := cstr * option Z.

(** [S_ISREG] and the three execution bits, 0111. *)
Definition is_executable (st_mode : option Z) : bool :=
  match st_mode with
  | Some m => (Z.land m 61440 =? 32768) && negb (Z.land m 73 =? 0)
  | None => false
  end.

(** The loop of [nsr_plugins_load_dir]; [sps] are the results of the process
    creations it makes. *)
Fixpoint load_loop (ds : list dirent) (dir : cstr) (file : option cstr) (reg : nsr_plugin_registry_t)
    (sps : list spawn_result) (loaded : Z) (o : os) : Z * nsr_plugin_registry_t * os :=
  match ds with
  | [] => (loaded, reg, o)
  | (name, st_mode) :: ds' =>
      if ceq (deref name) "." || negb (is_executable st_mode)
         || existsb (fun e => streq (e_name e) name) (entries reg)
      then load_loop ds' dir file reg sps loaded o
      else if NSR_MAX_PLUGINS <=? nsr_plugins_count reg then (loaded, reg, o)
      else
        let e := new_plugin name (take 767 (dir ++ str "/" ++ name)) in
        let e := with_enabled e (config_get_bool_default file (setting_key (e_name e)) false) in
        let '(e, o, sps) :=
          if e_enabled e then
            let '(_, e, o) := plugin_spawn e (config_path reg) (plugin_dir reg) (default None (head sps)) o in
            (e, o, tail sps)
          else (e, o, sps) in
        load_loop ds' dir file (with_entries reg (entries reg ++ [e])) sps (loaded + 1) o
  end.

(** [listing] is [None] when the directory cannot be opened. *)
Definition nsr_plugins_load_dir (reg : nsr_plugin_registry_t) (dir : cstr) (listing : option (list dirent))
    (file : option cstr) (sps : list spawn_result) (o : os) : Z * nsr_plugin_registry_t * os :=
  let reg := mk_registry (entries reg) (config_path reg) (strncpy 511 dir) in
  match listing with
  | None => (-1, reg, o)
  | Some ds => load_loop ds dir file reg sps 0 o
  end.

(** ** Telemetry and annotations *)

(** The notification loop of [nsr_plugins_update_telemetry]. *)
Fixpoint notify_all (params : cstr) (es : list nsr_plugin_entry_t) (o : os) : list nsr_plugin_entry_t * os :=
  match es with
  | [] => ([], o)
  | e :: es' =>
      let '(e, o) := plugin_check_alive e o in
      let '(e, o) :=
        if active e then
          let '(_, r, o) := nsr_json_rpc_notify (e_rpc e) (str "update_telemetry") (Some params) o in
          (with_rpc e r, o)
        else (e, o) in
      let '(es', o) := notify_all params es' o in
      (e :: es', o)
  end.

Definition nsr_plugins_update_telemetry (es : list nsr_plugin_entry_t) (tel : nsr_telemetry_state_t)
    (topo : option nsr_topology_state_t) (o : os) : list nsr_plugin_entry_t * os :=
  notify_all (emit (telemetry_calls tel topo)) es o.

Definition render_hops_step (params : cstr) (e : nsr_plugin_entry_t) (out : list nsr_hop_annotation_t)
    (max_out : Z) (o : os) : nsr_plugin_entry_t * list nsr_hop_annotation_t * os :=
  let out := match last_render_hops_resp e with
             | [] => out
             | resp => parse_render_hops_response resp out max_out
             end in
  let '(_, e, o) := plugin_drain_response e 5 o in
  if render_hops_pending e then (e, out, o)
  else
    let '(ok, id, r, o) := nsr_json_rpc_send_request (e_rpc e) (str "render_hops") (Some params) o in
    let e := with_hops_resp (with_rpc e r) (last_render_hops_resp e) ok (default (pending_render_hops_id e) id) in
    (if negb ok && rpc_dead r then with_flags e (e_initialized e) true else e, out, o).

Fixpoint render_hops_loop (params : cstr) (es : list nsr_plugin_entry_t) (out : list nsr_hop_annotation_t)
    (max_out : Z) (o : os) : list nsr_plugin_entry_t * list nsr_hop_annotation_t * os :=
  match es with
  | [] => ([], out, o)
  | e :: es' =>
      if Z.of_nat (length out) <? max_out then
        let '(e, o) := plugin_check_alive e o in
        let '(e, out, o) := if active e then render_hops_step params e out max_out o else (e, out, o) in
        let '(es', out, o) := render_hops_loop params es' out max_out o in
        (e :: es', out, o)
      else (e :: es', out, o)
  end.

(** The annotations, whose number is the return value. *)
Definition nsr_plugins_render_hops (es : list nsr_plugin_entry_t) (hs : list nsr_hop_info_t)
    (hop_count max_out : Z) (o : os) : list nsr_plugin_entry_t * list nsr_hop_annotation_t * os :=
  if max_out <=? 0 then (es, [], o)
  else render_hops_loop (emit (render_hops_calls hs hop_count)) es [] max_out o.

(** ** The queue holds the last eight events in order *)

Definition kq_rep (e : nsr_plugin_entry_t) (l : list nsr_key_event_t) : Prop :=
  length (key_queue e) = 8%nat /\ 0 <= key_queue_head e < 8 /\
  key_queue_count e = Z.of_nat (length l) /\ (length l <= 8)%nat /\
  forall i, (i < length l)%nat ->
    key_queue e !! Z.to_nat (Z.rem (key_queue_head e + Z.of_nat i) 8) = l !! i.

Lemma rem_once a : 0 <= a < 16 -> Z.rem a 8 = if a <? 8 then a else a - 8.
Proof.
  intros H. rewrite Z.rem_mod_nonneg by lia. destruct (a <? 8) eqn:E; bool_facts.
  - apply Z.mod_small. lia.
  - symmetry. apply Z.mod_unique with 1; lia.
Qed.

Lemma enqueue_spec e l ch m :
  kq_rep e l ->
  let '(ok, e') := plugin_key_queue_enqueue e ch m in
  if ok then (length l < 8)%nat /\ kq_rep e' (l ++ [mk_event ch m]) else length l = 8%nat /\ e' = e.
Proof.
  intros (Hl & Hh & Hc & Hle & Hq). unfold plugin_key_queue_enqueue.
  change NSR_PLUGIN_KEY_QUEUE with 8. destruct (8 <=? key_queue_count e) eqn:E; bool_facts; [split; [lia|done]|].
  split; [lia|]. unfold kq_rep. cbn [key_queue key_queue_head key_queue_count with_queue].
  rewrite length_insert, length_app. cbn [length]. split_and!; try done; try lia.
  intros i Hi. rewrite rem_once by lia. rewrite (rem_once (key_queue_head e + key_queue_count e)) by lia.
  destruct (decide (i = length l)) as [->|Hne].
  - rewrite <- Hc, list_lookup_insert_eq by (rewrite Hl; split_if; bool_facts; lia).
    by rewrite list_lookup_middle.
  - rewrite list_lookup_insert_ne by (repeat split_if; bool_facts; lia).
    rewrite lookup_app_l by lia. rewrite <- Hq by lia. by rewrite rem_once by lia.
Qed.

Lemma dequeue_spec e l :
  kq_rep e l ->
  let '(ev, e') := plugin_key_queue_dequeue e in
  match l with
  | [] => ev = None /\ e' = e
  | x :: l' => ev = Some x /\ kq_rep e' l'
  end.
Proof.
  intros (Hl & Hh & Hc & Hle & Hq). unfold plugin_key_queue_dequeue.
  change NSR_PLUGIN_KEY_QUEUE with 8. destruct l as [|x l]; cbn [length] in *.
  { by rewrite (proj2 (Z.leb_le _ _)) by lia. }
  rewrite (proj2 (Z.leb_gt _ _)) by lia. split.
  - specialize (Hq 0%nat ltac:(lia)). rewrite Z.add_0_r, rem_once in Hq by lia.
    rewrite (proj2 (Z.ltb_lt _ 8)) in Hq by lia. by rewrite Hq.
  - unfold kq_rep. cbn [key_queue key_queue_head key_queue_count with_queue].
    rewrite rem_once by lia. split_and!; try done; try lia; try (split_if; bool_facts; lia).
    intros i Hi. specialize (Hq (S i) ltac:(lia)). cbn [lookup list_lookup] in Hq. etrans; [|exact Hq].
    do 2 f_equal. rewrite !rem_once by (try split_if; bool_facts; lia). repeat split_if; bool_facts; lia.
Qed.

Lemma kq_rep_ext e e' l :
  kq_rep e l -> key_queue e' = key_queue e -> key_queue_head e' = key_queue_head e ->
  key_queue_count e' = key_queue_count e -> kq_rep e' l.
Proof. unfold kq_rep. by intros H -> -> ->. Qed.

(** Keeping at most the eight newest events. *)
Definition newest8 (l : list nsr_key_event_t) : list nsr_key_event_t := drop (length l - 8) l.

Lemma enqueue_dropping_spec e l ch m :
  kq_rep e l -> kq_rep (enqueue_dropping e ch m) (newest8 (l ++ [mk_event ch m])).
Proof.
  intros Hr. unfold enqueue_dropping, newest8. rewrite length_app. cbn [length].
  pose proof (enqueue_spec e l ch m Hr) as H1. destruct (plugin_key_queue_enqueue e ch m) as [[] e1].
  - destruct H1 as [Hl H1]. replace (length l + 1 - 8)%nat with 0%nat by lia. done.
  - destruct H1 as [Hl ->]. pose proof (dequeue_spec e l Hr) as H2.
    destruct (plugin_key_queue_dequeue e) as [ev e2]. destruct l as [|x l]; [done|]. destruct H2 as [_ H2].
    cbn [snd]. pose proof (enqueue_spec e2 l ch m H2) as H3.
    destruct (plugin_key_queue_enqueue e2 ch m) as [[] e3]; cbn [length snd] in *; [|lia].
    replace (S (length l) + 1 - 8)%nat with 1%nat by lia. apply H3.
Qed.

(** ** Sending the next key *)

Definition key_request (id : Z) (ev : nsr_key_event_t) : cstr :=
  build_request (str "on_key") (Some (emit (build_key_params (ev_ch ev) (ev_modal_input ev)))) id.

Lemma send_request_spec r method params o :
  let '(ok, id, r', o') := nsr_json_rpc_send_request r method params o in
  rx_buf r' = rx_buf r /\ reads o' = reads o /\ fd_out r' = fd_out r /\
  (ok = true -> id = Some (rpc_next_id r) /\ tx r' = tx r ++ build_request method params (rpc_next_id r) ++ [chr 10]) /\
  (ok = false -> exists part, tx r' = tx r ++ part /\ part `prefix_of` build_request method params (rpc_next_id r) /\
                   (part = [] \/ rpc_dead r' = true)).
Proof.
  unfold nsr_json_rpc_send_request. destruct (rpc_dead r || (fd_in r <? 0)).
  { split_and!; try done. intros _. exists []. rewrite app_nil_r. split_and!; auto. apply prefix_nil. }
  cbn [take_id]. set (r0 := mk_rpc _ _ _ _ _ _ _ _). set (req := build_request _ _ _).
  pose proof (rpc_send_spec r0 req o) as Hs. unfold rpc_send in *.
  destruct (rpc_dead r0 || (fd_in r0 <? 0)).
  { split_and!; try done. intros _. exists []. rewrite app_nil_r. split_and!; auto. apply prefix_nil. }
  assert (Hweak : forall r1, (exists part, tx r1 = tx r0 ++ part /\ part `prefix_of` req /\
      (rpc_dead r1 = true \/ (fd_in r1 < 0 /\ part = []))) ->
    exists part, tx (set_pending r1 (-1)) = tx r ++ part /\ part `prefix_of` req /\
      (part = [] \/ rpc_dead (set_pending r1 (-1)) = true)).
  { intros r1 (part & H1 & H2 & H3). exists part. split_and!; [exact H1|done|].
    destruct H3 as [H3|[_ H3]]; auto. }
  destruct (write_all (writes o) req) as [[out []] ws]; cbn [negb] in *.
  - destruct ws as [|[[|[|n]]|b] ws]; split_and!; try done; intros _; try (by apply Hweak).
    destruct Hs as [Ht _]. split; [done|exact Ht].
  - split_and!; try done. intros _. by apply Hweak.
Qed.

(** Key events reach the plugin one at a time and in order.  With a request
    outstanding, a dead or closed connection or an empty queue nothing happens.
    Otherwise the oldest event leaves the queue; when the request is written it is
    complete, carries the next identifier and becomes the outstanding one;
    otherwise part of it was written at most, and if any was the plugin is given
    up. *)
Theorem key_sent_in_order e l o :
  kq_rep e l ->
  let '(e', o') := plugin_send_next_key e o in
  if on_key_pending e || rpc_dead (e_rpc e) || (fd_in (e_rpc e) <? 0) then e' = e /\ o' = o
  else match l with
       | [] => e' = e /\ o' = o
       | ev :: l' =>
           let id := rpc_next_id (e_rpc e) in
           kq_rep e' l' /\
           ((on_key_pending e' = true /\ pending_on_key_id e' = id /\
             tx (e_rpc e') = tx (e_rpc e) ++ key_request id ev ++ [chr 10]) \/
            (on_key_pending e' = false /\ exists part,
               tx (e_rpc e') = tx (e_rpc e) ++ part /\ part `prefix_of` key_request id ev /\
               (part = [] \/ e_dead e' = true)))
       end.
Proof.
  intros Hr. unfold plugin_send_next_key.
  destruct (on_key_pending e || rpc_dead (e_rpc e) || (fd_in (e_rpc e) <? 0)) eqn:E; [done|].
  apply orb_false_iff in E as [E _]. apply orb_false_iff in E as [Ep _].
  pose proof (dequeue_spec e l Hr) as Hd.
  assert (Hrpc : e_rpc (plugin_key_queue_dequeue e).2 = e_rpc e /\
                 on_key_pending (plugin_key_queue_dequeue e).2 = false).
  { unfold plugin_key_queue_dequeue. by split_if. }
  destruct (plugin_key_queue_dequeue e) as [ev e1]. cbn [snd] in Hrpc. destruct Hrpc as [Hrpc Hp1].
  destruct l as [|x l]; destruct Hd as [-> Hd]; [by subst e1|]. rewrite Hrpc.
  pose proof (send_request_spec (e_rpc e) (str "on_key")
    (Some (emit (build_key_params (ev_ch x) (ev_modal_input x)))) o) as Hs.
  destruct (nsr_json_rpc_send_request _ _ _ _) as [[[ok id] r] o1].
  destruct Hs as (_ & _ & _ & Hok & Hfail). destruct ok.
  - destruct (Hok eq_refl) as [-> Ht]. split; [by eapply kq_rep_ext|]. left. auto.
  - destruct (Hfail eq_refl) as (part & Ht & Hpre & Hd'). destruct (rpc_dead r) eqn:Er.
    + split; [by eapply kq_rep_ext|]. right. split; [done|]. exists part. auto.
    + split; [by eapply kq_rep_ext|]. right. split; [done|]. exists part. destruct Hd' as [->|]; [auto|congruence].
Qed.

(** ** What key handling leaves alone

    Along every step of key handling the name, the reserved keys and the switch of
    a plugin stay, no plugin becomes active, and the input still to be received
    never grows. *)

Definition evolves (e : nsr_plugin_entry_t) (o : os) (e' : nsr_plugin_entry_t) (o' : os) : Prop :=
  e_name e' = e_name e /\ reserved_keys e' = reserved_keys e /\ e_enabled e' = e_enabled e /\
  (active e' = true -> active e = true) /\ (backlog e' o' <= backlog e o)%nat.

Lemma evolves_refl e o : evolves e o e o.
Proof. by unfold evolves. Qed.

Lemma evolves_trans e o e1 o1 e2 o2 : evolves e o e1 o1 -> evolves e1 o1 e2 o2 -> evolves e o e2 o2.
Proof.
  intros (? & ? & ? & H & ?) (? & ? & ? & H' & ?). unfold evolves. split_and!; try congruence; [auto|lia].
Qed.

#[local] Hint Resolve evolves_refl : nsr.

(** A step that changes none of the fields involved. *)
Lemma evolves_same e o e' o' :
  e_name e' = e_name e -> reserved_keys e' = reserved_keys e -> e_enabled e' = e_enabled e ->
  active e' = active e -> rx_buf (e_rpc e') = rx_buf (e_rpc e) -> reads o' = reads o -> evolves e o e' o'.
Proof. intros ? ? ? Ha Hx Hr. unfold evolves, backlog. rewrite Ha, Hx, Hr. auto. Qed.

Lemma data_suffix l k : (length (data k) <= length (data (l ++ k)))%nat.
Proof. unfold data. rewrite map_app, concat_app, length_app. lia. Qed.

Lemma discard_loop_spec n r o :
  rx_buf r = [] ->
  let '(r', o') := discard_loop n r o in
  rx_buf r' = [] /\ (length (data (reads o')) <= length (data (reads o)))%nat.
Proof.
  revert r o. induction n as [|n IH]; intros r o Hr; cbn [discard_loop]; [auto|].
  destruct (polls o) as [|[[]| |] ps]; auto.
  - exact (IH r (with_polls o ps) Hr).
  - unfold read_fd. destruct (reads (with_polls o ps)) as [|[[]|[|c b]] l] eqn:E; cbn [reads with_polls] in E;
      try (cbn; rewrite E; split; [done|apply (data_suffix [_])]; fail); try (cbn; auto; fail);
      specialize (IH r (with_reads (with_polls o ps) l) Hr); destruct (discard_loop n r _) as [r' o'];
      destruct IH as [H1 H2]; split; auto; etrans; try exact H2; rewrite E; apply (data_suffix [_]).
Qed.

Lemma force_sync_evolves e o :
  let '(e', o') := plugin_force_sync e o in evolves e o e' o'.
Proof.
  unfold plugin_force_sync, nsr_json_rpc_discard_queued.
  pose proof (discard_loop_spec 64 (set_rx (e_rpc e) []) o eq_refl) as H.
  destruct (rpc_dead _ || _).
  { unfold evolves, backlog. cbn. split_and!; auto. lia. }
  destruct (discard_loop 64 (set_rx (e_rpc e) []) o) as [r o']. destruct H as [Hx Hd].
  unfold evolves, backlog. cbn. rewrite Hx. split_and!; auto. simpl. lia.
Qed.

Lemma set_modal_evolves e m o : evolves e o (set_modal_if e m) o.
Proof. destruct m; by apply evolves_same. Qed.

Lemma handle_force_sync_evolves e msg o :
  let '(_, e', o') := plugin_handle_force_sync e msg o in evolves e o e' o'.
Proof.
  unfold plugin_handle_force_sync. split_if; [apply evolves_refl|].
  pose proof (force_sync_evolves e o) as H. destruct (plugin_force_sync e o) as [e1 o1].
  eapply evolves_trans; [exact H|apply set_modal_evolves].
Qed.

Lemma result_sync_evolves e result o :
  let '(_, e', o') := plugin_result_requests_force_sync e result o in evolves e o e' o'.
Proof.
  unfold plugin_result_requests_force_sync. pose proof (force_sync_evolves e o) as H.
  destruct (bool_member result "force_sync") as [[]|]; try apply evolves_refl.
  destruct (plugin_force_sync e o) as [e1 o1]. eapply evolves_trans; [exact H|apply set_modal_evolves].
Qed.

Lemma send_next_key_evolves e o :
  let '(e', o') := plugin_send_next_key e o in evolves e o e' o'.
Proof.
  unfold plugin_send_next_key. split_if; [apply evolves_refl|].
  assert (He : evolves e o (plugin_key_queue_dequeue e).2 o /\
               e_rpc (plugin_key_queue_dequeue e).2 = e_rpc e).
  { unfold plugin_key_queue_dequeue. split_if; [auto using evolves_refl|]. split; [by apply evolves_same|done]. }
  destruct (plugin_key_queue_dequeue e) as [[ev|] e1]; cbn [snd] in He; destruct He as [He Hr]; [|exact He].
  pose proof (send_request_spec (e_rpc e1) (str "on_key")
    (Some (emit (build_key_params (ev_ch ev) (ev_modal_input ev)))) o) as Hs.
  destruct (nsr_json_rpc_send_request _ _ _ _) as [[[ok id] r] o1]. destruct Hs as (Hx & Ho & _).
  destruct ok; [eapply evolves_trans; [exact He|by apply evolves_same]|].
  destruct (rpc_dead r); (eapply evolves_trans; [exact He|]); [|by apply evolves_same].
  unfold evolves, backlog, active. cbn. rewrite Hx, Ho. split_and!; auto.
  rewrite !andb_true_iff. by intros [_ ?].
Qed.

Lemma on_key_result_evolves e result o :
  let '(e', o') := plugin_handle_on_key_result e result o in evolves e o e' o'.
Proof.
  unfold plugin_handle_on_key_result. pose proof (result_sync_evolves e result o) as H.
  destruct (plugin_result_requests_force_sync e result o) as [[[] e1] o1]; [done|].
  pose proof (set_modal_evolves e1 (bool_member result "is_modal") o1) as H2.
  split_if; [split_if|]; (eapply evolves_trans; [exact H|]); (eapply evolves_trans; [exact H2|]);
    [apply evolves_refl|by apply evolves_same|].
  by destruct (bool_member result "handled") as [[]|]; apply evolves_same.
Qed.

(** A response that was received took its newline out of the backlog. *)
Lemma try_recv_any_backlog e t o :
  let '(msg, r, o') := nsr_json_rpc_try_recv_any (e_rpc e) t o in
  evolves e o (with_rpc e r) o' /\
  match msg with Some _ => (backlog (with_rpc e r) o' < backlog e o)%nat | None => True end.
Proof.
  unfold nsr_json_rpc_try_recv_any. destruct (rpc_dead (e_rpc e) || (fd_out (e_rpc e) <? 0)).
  { split; [|done]. by apply evolves_same. }
  pose proof (recv_line_spec (e_rpc e) t o) as H. destruct (recv_line (e_rpc e) t o) as [[line r] o'].
  destruct H as (got & (l & Hl & Hd) & Hx & _). unfold evolves, backlog. cbn.
  assert (length (data (reads o)) = length got + length (data (reads o')))%nat as Hlen.
  { rewrite Hl. unfold data in *. by rewrite map_app, concat_app, length_app, Hd. }
  apply (f_equal length) in Hx. rewrite length_app in Hx.
  destruct line as [line|]; cbn in *; rewrite ?length_app in Hx; cbn in Hx; split_and!; auto; lia.
Qed.

Lemma drain_evolves e t o :
  let '(more, e', o') := plugin_drain_response e t o in
  evolves e o e' o' /\ (more = true -> (backlog e' o' < backlog e o)%nat).
Proof.
  unfold plugin_drain_response. destruct (rpc_dead (e_rpc e) || (fd_out (e_rpc e) <? 0)).
  { split; [apply evolves_refl|done]. }
  pose proof (try_recv_any_backlog e t o) as H.
  destruct (nsr_json_rpc_try_recv_any (e_rpc e) t o) as [[[[resp id]|] r] o1]; destruct H as [He Hb]; [|done].
  set (e1 := with_rpc e r) in *.
  assert (Hrest : forall e2 o2, evolves e1 o1 e2 o2 ->
    let '(e', o') := plugin_send_next_key e2 o2 in
    evolves e o e' o' /\ (true = true -> (backlog e' o' < backlog e o)%nat)).
  { intros e2 o2 H2. pose proof (send_next_key_evolves e2 o2) as H3.
    destruct (plugin_send_next_key e2 o2) as [e' o'].
    pose proof (evolves_trans _ _ _ _ _ _ H2 H3) as H4. split; [by eapply evolves_trans|].
    destruct H4 as (_ & _ & _ & _ & Hle). lia. }
  assert (Hfin : forall e2 o2, evolves e1 o1 e2 o2 ->
    let '(more, e', o') := (let '(e, o) := plugin_send_next_key e2 o2 in (true, e, o)) in
    evolves e o e' o' /\ (more = true -> (backlog e' o' < backlog e o)%nat)).
  { intros e2 o2 H2. specialize (Hrest e2 o2 H2). by destruct (plugin_send_next_key e2 o2). }
  pose proof (handle_force_sync_evolves e1 resp o1) as Hf.
  destruct (plugin_handle_force_sync e1 resp o1) as [[[] e2] o2]; [by apply Hfin|].
  repeat (split_if; [apply Hfin; eapply evolves_trans; [exact Hf|by apply evolves_same]|]).
  split_if; [|by apply Hfin].
  destruct (nsr_json_obj_get resp (str "result")) as [[result len]|].
  - pose proof (on_key_result_evolves (with_key_pending e2 false (pending_on_key_id e2)) result o2) as Hk.
    destruct (plugin_handle_on_key_result _ result o2) as [e3 o3]. apply Hfin.
    eapply evolves_trans; [exact Hf|]. eapply evolves_trans; [|exact Hk]. by apply evolves_same.
  - apply Hfin. eapply evolves_trans; [exact Hf|by apply evolves_same].
Qed.

(** ** The drain loop ends because the input does *)

Lemma drain_rounds f g e o :
  (backlog e o < f)%nat -> (backlog e o < g)%nat -> drain_key_loop f e o = drain_key_loop g e o.
Proof.
  revert g e o. induction f as [|f IH]; intros [|g] e o Hf Hg; try lia. cbn [drain_key_loop].
  pose proof (drain_evolves e 0 o) as H. destruct (plugin_drain_response e 0 o) as [[[] e1] o1]; [|done].
  destruct H as [_ H]. specialize (H eq_refl). apply IH; lia.
Qed.

Lemma drain_key_loop_evolves f e o : let '(e', o') := drain_key_loop f e o in evolves e o e' o'.
Proof.
  revert e o. induction f as [|f IH]; intros e o; cbn [drain_key_loop]; [apply evolves_refl|].
  pose proof (drain_evolves e 0 o) as H.
  destruct (plugin_drain_response e 0 o) as [[[] e1] o1]; destruct H as [H _]; [|done].
  specialize (IH e1 o1). destruct (drain_key_loop f e1 o1) as [e2 o2]. by eapply evolves_trans.
Qed.

(** The drain loop of the code is left only by a round that receives nothing. *)
Lemma drain_all_done e o :
  exists e1 o1, evolves e o e1 o1 /\
    plugin_drain_response e1 0 o1 = (false, (drain_all e o).1, (drain_all e o).2).
Proof.
  unfold drain_all. assert (H : forall f e o, (backlog e o < f)%nat ->
    exists e1 o1, evolves e o e1 o1 /\
      plugin_drain_response e1 0 o1 = (false, (drain_key_loop f e o).1, (drain_key_loop f e o).2)).
  2: { apply H. lia. }
  clear e o. induction f as [|f IH]; intros e o Hf; [lia|]. cbn [drain_key_loop].
  pose proof (drain_evolves e 0 o) as H. destruct (plugin_drain_response e 0 o) as [[[] e1] o1] eqn:E.
  - destruct H as [He Hb]. specialize (Hb eq_refl).
    destruct (IH e1 o1 ltac:(lia)) as (e2 & o2 & H2 & E2). exists e2, o2. split; [by eapply evolves_trans|done].
  - exists e, o. split; [apply evolves_refl|done].
Qed.

(** ** Reserved keys never reach the built-in bindings *)

Definition keeps (e e' : nsr_plugin_entry_t) : Prop :=
  reserved_keys e' = reserved_keys e /\ e_enabled e' = e_enabled e /\ (active e' = true -> active e = true).

Lemma keeps_refl e : keeps e e.
Proof. by unfold keeps. Qed.

Lemma keeps_trans e e1 e2 : keeps e e1 -> keeps e1 e2 -> keeps e e2.
Proof. intros (? & ? & H) (? & ? & H'). split_and!; [congruence|congruence|auto]. Qed.

Lemma evolves_keeps e o e' o' : evolves e o e' o' -> keeps e e'.
Proof. intros (_ & ? & ? & ? & _). by split_and!. Qed.

Lemma check_alive_keeps e o : keeps e (plugin_check_alive e o).1.
Proof.
  unfold plugin_check_alive, still_running. split_if; [apply keeps_refl|].
  destruct (waits o) as [|[] w]; cbn; try apply keeps_refl; unfold keeps, active; cbn;
    (split; [done|split; [done|]]); by rewrite andb_false_r.
Qed.

Lemma enqueue_dropping_keeps e ch m : keeps e (enqueue_dropping e ch m).
Proof.
  unfold enqueue_dropping, plugin_key_queue_enqueue, plugin_key_queue_dequeue.
  repeat split_if; cbn; repeat split_if; cbn; by unfold keeps, active.
Qed.

Lemma try_on_key_spec e ch m r o :
  let '(h, e', _) := plugin_try_on_key e ch m r o in keeps e e' /\ h = (m || r).
Proof.
  unfold plugin_try_on_key. pose proof (drain_key_loop_evolves (S (backlog e o)) e o) as Hd.
  unfold drain_all. destruct (drain_key_loop (S (backlog e o)) e o) as [e1 o1].
  apply evolves_keeps in Hd.
  assert (Hrest : forall e2 o2, keeps e e2 ->
    let '(h, e', _) :=
      (let '(t, o) := host_now_ms o2 in
       if (ch =? last_key_ch e2) && (0 <? t) && (0 <? last_key_ms e2)
          && (t - last_key_ms e2 <? NSR_PLUGIN_KEY_COALESCE_MS)
       then (m || r, e2, o)
       else let '(e, o) := plugin_send_next_key (enqueue_dropping (with_last_key e2 ch t) ch m) o in (m || r, e, o)) in
    keeps e e' /\ h = (m || r)).
  { intros e2 o2 H2. destruct (host_now_ms o2) as [t o3]. split_if; [done|].
    pose proof (send_next_key_evolves (enqueue_dropping (with_last_key e2 ch t) ch m) o3) as Hs.
    destruct (plugin_send_next_key _ o3) as [e4 o4]. apply evolves_keeps in Hs. split; [|done].
    eapply keeps_trans; [exact H2|]. eapply keeps_trans; [|exact Hs].
    eapply (keeps_trans _ (with_last_key e2 ch t)); [by unfold keeps, active|apply enqueue_dropping_keeps]. }
  destruct m; [|by apply Hrest].
  destruct (host_now_ms o1) as [t o2]. split_if; [done|]. apply Hrest.
  eapply keeps_trans; [exact Hd|]. by unfold keeps, active.
Qed.

Section Passes.
Context (wants : nsr_plugin_entry_t -> bool) (m r : bool) (ch : Z).

Lemma key_pass_keeps es o :
  let '(_, _, es', _) := key_pass wants m r ch es o in Forall2 keeps es es'.
Proof.
  revert o. induction es as [|e es IH]; intros o; cbn [key_pass]; [constructor|].
  pose proof (check_alive_keeps e o) as Ha. destruct (plugin_check_alive e o) as [e1 o1]. cbn [fst] in Ha.
  split_if.
  { specialize (IH o1). destruct (key_pass wants m r ch es o1) as [[[h t] es'] o2]. by constructor. }
  pose proof (try_on_key_spec e1 ch m r o1) as Ht.
  destruct (plugin_try_on_key e1 ch m r o1) as [[[] e2] o2]; destruct Ht as [Ht _].
  - constructor; [by eapply keeps_trans|]. clear. induction es; constructor; auto using keeps_refl.
  - specialize (IH o2). destruct (key_pass wants m r ch es o2) as [[[h t] es'] o3].
    constructor; [by eapply keeps_trans|done].
Qed.

(** When a trial consumes the key, a pass that did not handle it met no active
    plugin that wants it. *)
Lemma key_pass_unhandled es o :
  m || r = true -> 
  let '(h, _, es', _) := key_pass wants m r ch es o in
  h = false -> Forall (fun e => active e = true -> wants e = false) es'.
Proof.
  intros Hmr. revert o. induction es as [|e es IH]; intros o; cbn [key_pass]; [constructor|].
  destruct (plugin_check_alive e o) as [e1 o1].
  destruct (negb (active e1) || negb (wants e1)) eqn:E.
  - specialize (IH o1). destruct (key_pass wants m r ch es o1) as [[[h t] es'] o2]. intros Hh.
    constructor; [|auto]. intros Ha. rewrite Ha in E. by apply negb_true_iff in E.
  - pose proof (try_on_key_spec e1 ch m r o1) as Ht.
    destruct (plugin_try_on_key e1 ch m r o1) as [[h e2] o2]. destruct Ht as [_ ->]. rewrite Hmr. done.
Qed.

End Passes.

(** C15: a key that some active plugin has reserved is consumed: when the host
    reports a key as not handled, no plugin that is still active reserves it, in
    either case of the letter, so that the built-in bindings only ever see keys no
    active plugin owns. *)
Theorem reserved_key_consumed es ch o :
  0 <= ch ->
  let '(handled, es', _, _) := nsr_plugins_on_key es ch o in
  handled = false -> Forall (fun e => active e = true -> plugin_reserves_key (reserved_keys e) ch = false) es'.
Proof.
  intros Hch. unfold nsr_plugins_on_key. rewrite (proj2 (Z.ltb_ge _ _)) by done.
  destruct (drain_pass es o) as [[es1 o1] files]. split_if; [done|].
  destruct (key_pass is_modal true false ch es1 o1) as [[[[] t] es2] o2]; [done|].
  set (w := fun e => plugin_reserves_key (reserved_keys e) ch).
  pose proof (key_pass_unhandled w false true ch es2 o2 eq_refl) as H.
  destruct (key_pass w false true ch es2 o2) as [[[h tgt] es3] o3].
  destruct h; cbn [orb]; [done|]. specialize (H eq_refl). destruct tgt; [done|].
  pose proof (key_pass_keeps (fun _ => true) false false ch es3 o3) as Hk.
  destruct (key_pass (fun _ => true) false false ch es3 o3) as [[[h t2] es4] o4]. intros _.
  clear -H Hk. induction Hk as [|e e' es es' (Hr & _ & Ha) Hk IH]; [constructor|].
  inversion_clear H as [|? ? He Hes]. constructor; [|auto]. intros Hact. rewrite Hr. apply He. auto.
Qed.

(** A plugin that has reserved [t], with an empty queue and an idle connection. *)
Definition demo_entry : nsr_plugin_entry_t :=
  with_init_answer (with_enabled (with_rpc (new_plugin (str "demo") (str "p/demo")) (spawned 7 3 4)) true)
    [] (str "t").

Definition demo_script : os :=
  mk_os (replicate 9 (Some (9, 0))) [] [] (replicate 9 true) [Wrote 99; Wrote 1].

Lemma reserved_key_consumed_witness :
  let '(handled, es', _, _) := nsr_plugins_on_key [demo_entry] 113 demo_script in
  handled = false /\ Forall (fun e => active e = true -> plugin_reserves_key (reserved_keys e) 113 = false) es'.
Proof.
  pose proof (reserved_key_consumed [demo_entry] 113 demo_script) as H.
  assert (E : (nsr_plugins_on_key [demo_entry] 113 demo_script).1.1.1 = false) by (vm_compute; reflexivity).
  destruct (nsr_plugins_on_key [demo_entry] 113 demo_script) as [[[handled es'] o'] files].
  cbn in E. split; [exact E|]. apply H; [lia|exact E].
Defined.

Lemma empty_queue_rep name path : kq_rep (new_plugin name path) [].
Proof. unfold kq_rep. cbn. split_and!; try done; try lia. Qed.

Lemma key_sent_in_order_witness :
  let e := enqueue_dropping demo_entry 113 false in
  let '(e', _) := plugin_send_next_key e demo_script in kq_rep e' [].
Proof.
  cbn zeta.
  assert (Hq : kq_rep (enqueue_dropping demo_entry 113 false) [mk_event 113 false]).
  { apply (enqueue_dropping_spec demo_entry []). eapply kq_rep_ext; [apply (empty_queue_rep [] [])|done..]. }
  pose proof (key_sent_in_order (enqueue_dropping demo_entry 113 false) [mk_event 113 false] demo_script Hq) as H.
  destruct (plugin_send_next_key (enqueue_dropping demo_entry 113 false) demo_script) as [e' o'].
  apply H.
Defined.

(** ** Switching a plugin is remembered *)

Lemma spawn_enabled e config dir sp o : e_enabled (plugin_spawn e config dir sp o).1.2 = e_enabled e.
Proof.
  unfold plugin_spawn. destruct sp as [[[p i] fo]|]; [|done].
  destruct (nsr_json_rpc_call _ _ _ _ _) as [[[resp|] r] o1]; [|done]. by destruct (init_result resp).
Qed.

Lemma stop_enabled e o : e_enabled (plugin_stop e o).1 = e_enabled e.
Proof.
  unfold plugin_stop. split_if; [|done].
  by destruct (nsr_json_rpc_notify (e_rpc e) (str "cleanup") None o) as [[ok r] o1].
Qed.

(** Switching a plugin on or off takes effect in the registry, whether or not
    the plugin starts, and is remembered: reading the rewritten settings file, as
    the next start does, gives the same choice, and the choices for all other
    plugins are untouched. *)
Theorem switch_is_remembered reg idx e enabled text sp o :
  aget (entries reg) idx = Some e -> e_enabled e <> enabled -> good_key (setting_key (e_name e)) ->
  nul_free text -> terminated text -> (length (fgets_all text) < 256)%nat ->
  let '(reg', file, _) := nsr_plugins_set_enabled reg idx enabled (Some text) true sp o in
  nsr_plugins_enabled reg' idx = enabled /\
  config_get_bool_default file (setting_key (e_name e)) false = enabled /\
  forall name, setting_key name <> setting_key (e_name e) ->
    config_get_bool_default file (setting_key name) false
    = config_get_bool_default (Some text) (setting_key name) false.
Proof.
  intros He Hne Hk Hn Ht Hl. unfold nsr_plugins_set_enabled. rewrite He.
  assert (Bool.eqb (e_enabled e) enabled = false) as ->.
  { destruct (Bool.eqb (e_enabled e) enabled) eqn:E; [|done]. by apply Bool.eqb_prop in E. }
  destruct (config_set_get text (setting_key (e_name e)) enabled false Hk Hn Ht Hl) as [H1 H2].
  set (sw := if enabled then _ else _).
  assert (Hsw : e_enabled sw.1 = enabled).
  { unfold sw. destruct enabled.
    - pose proof (spawn_enabled (with_enabled e true) (config_path reg) (plugin_dir reg) sp o) as H.
      by destruct (plugin_spawn _ _ _ _ _) as [[b e1] o1].
    - apply (stop_enabled (with_enabled e false) o). }
  destruct sw as [e1 o1]. cbn [fst] in Hsw. split_and!; [|exact H1|intros; by apply H2].
  unfold nsr_plugins_enabled, aget in *. cbn [entries with_entries].
  destruct (0 <=? idx); [|done]. rewrite list_lookup_insert_eq; [done|by eapply lookup_lt_Some].
Qed.

Lemma switch_is_remembered_witness :
  let reg := mk_registry [demo_entry] [] [] in
  let '(reg', file, _) := nsr_plugins_set_enabled reg 0 false (Some demo_text) true None demo_script in
  nsr_plugins_enabled reg' 0 = false /\
  config_get_bool_default file (str "NSR_PLUGIN_demo") false = false.
Proof.
  cbn zeta.
  pose proof (switch_is_remembered (mk_registry [demo_entry] [] []) 0 demo_entry false demo_text None demo_script) as H.
  destruct (nsr_plugins_set_enabled (mk_registry [demo_entry] [] []) 0 false (Some demo_text) true None demo_script)
    as [[reg' file] o'].
  destruct H as (H1 & H2 & _).
  - reflexivity.
  - discriminate.
  - split; [|vm_compute; lia].
    repeat first [apply Forall_nil_2 | apply Forall_cons_2;
      [split; [discriminate|split; [discriminate|split; discriminate]]|]].
  - vm_compute. intros H. repeat (inversion H as [|? ? ? H']; subst; clear H; rename H' into H).
  - right. reflexivity.
  - vm_compute. lia.
  - split; [exact H1|exact H2].
Defined.
