(* ===== verification/PluginLoad.v ===== *)
(** * Finding plugins (src/plugin/plugin.c)

    What [nsr_plugins_load_dir] of PluginHost.v makes of a directory: which of its
    files become plugins, under which names, and which it starts; and the command
    line of the editor that a plugin can ask for. *)

From S2P Require Import Prelude JsonScan PluginConfig RpcConn PluginDocs PluginHost.

(** ** Loading a directory *)

(** The files of a listing that can be plugins. *)
Definition loadable (d : dirent) : Prop := ceq (deref d.1) "." = false /\ is_executable d.2 = true.

(** The entry of a file: name and path, and enabled as its setting says. *)
Definition entry_of (dir : cstr) (file : option cstr) (name : cstr) (e : nsr_plugin_entry_t) : Prop :=
  e_name e = strncpy 63 name /\ e_path e = strncpy 511 (take 767 (dir ++ str "/" ++ name)) /\
  e_enabled e = config_get_bool_default file (setting_key (e_name e)) false.

Lemma spawn_identity e config dir sp o :
  let e' := (plugin_spawn e config dir sp o).1.2 in
  e_name e' = e_name e /\ e_path e' = e_path e /\ e_enabled e' = e_enabled e.
Proof.
  unfold plugin_spawn. destruct sp as [[[p i] fo]|]; [|done].
  destruct (nsr_json_rpc_call _ _ _ _ _) as [[[resp|] r] o']; [|done]. by destruct (init_result resp).
Qed.

(** One round of the loop that loads a file. *)
Lemma load_round config pdir dir file name sps o :
  let e := new_plugin name (take 767 (dir ++ str "/" ++ name)) in
  let e := with_enabled e (config_get_bool_default file (setting_key (e_name e)) false) in
  let r := if e_enabled e then
             let '(_, e, o) := plugin_spawn e config pdir (default None (head sps)) o in (e, o, tail sps)
           else (e, o, sps) in
  entry_of dir file name r.1.1.
Proof.
  cbn zeta. set (e := with_enabled _ _). assert (He : entry_of dir file name e) by done. destruct (e_enabled e); [|done].
  pose proof (spawn_identity e config pdir (default None (head sps)) o) as Hs.
  destruct (plugin_spawn e config pdir (default None (head sps)) o) as [[b e'] o']. cbn in Hs |- *.
  destruct Hs as (Hn & Hp & Hen). unfold entry_of in *. by rewrite Hn, Hp, Hen.
Qed.

Definition names (reg : nsr_plugin_registry_t) : list cstr := map e_name (entries reg).

Lemma name_taken reg name :
  existsb (fun e => streq (e_name e) name) (entries reg) = true <-> name ∈ names reg.
Proof.
  unfold names. rewrite existsb_exists, list_elem_of_fmap. split.
  - intros (e & He & E). exists e. apply list_elem_of_In in He. apply bool_decide_eq_true in E. by split.
  - intros (e & -> & He). exists e. apply list_elem_of_In in He. split; [done|]. by apply bool_decide_eq_true.
Qed.

Lemma load_loop_spec ds dir file reg sps loaded o :
  Z.of_nat (length (entries reg)) <= NSR_MAX_PLUGINS ->
  let '(n, reg', _) := load_loop ds dir file reg sps loaded o in
  config_path reg' = config_path reg /\ plugin_dir reg' = plugin_dir reg /\
  nsr_plugins_count reg' <= NSR_MAX_PLUGINS /\
  (exists new, entries reg' = entries reg ++ new /\ n = loaded + Z.of_nat (length new) /\
     Forall (fun e => exists d, d ∈ ds /\ loadable d /\ (d.1 ∉ names reg) /\ entry_of dir file d.1 e) new) /\
  (NoDup (names reg) -> Forall (fun d => (length d.1 <= 63)%nat) ds -> NoDup (names reg')) /\
  (nsr_plugins_count reg' < NSR_MAX_PLUGINS ->
     forall d, d ∈ ds -> loadable d -> d.1 ∈ names reg \/ strncpy 63 d.1 ∈ names reg').
Proof.
  revert reg sps loaded o. induction ds as [|[name mode] ds IH]; intros reg sps loaded o Hc; cbn [load_loop].
  - split_and!; try done; [|by intros _ d []%not_elem_of_nil]. exists []. rewrite app_nil_r. split_and!; [done|cbn; lia|constructor].
  - destruct (ceq (deref name) "." || negb (is_executable mode) || _) eqn:Es.
    + specialize (IH reg sps loaded o Hc). destruct (load_loop ds dir file reg sps loaded o) as [[n reg'] o'].
      destruct IH as (H1 & H2 & H3 & (new & H4 & H5 & H6) & H7 & H8). split_and!; try done.
      * exists new. split_and!; [done..|]. eapply Forall_impl; [exact H6|]. intros e (d & Hd & ?). exists d. split; [by right|done].
      * intros Hnd Hl. apply Forall_cons in Hl as [_ Hl]. by apply H7.
      * intros Hlt d Hd Hl. apply elem_of_cons in Hd as [->|Hd]; [|by apply H8]. left.
        destruct Hl as [Hl1 Hl2]. cbn [fst snd] in *. rewrite Hl1, Hl2 in Es. cbn [negb orb] in Es. by apply name_taken.
    + apply orb_false_iff in Es as [Es Ht]. apply orb_false_iff in Es as [Eh Ex]. apply negb_false_iff in Ex.
      assert (Hni : name ∉ names reg) by (intros Hin; apply name_taken in Hin; congruence).
      assert (Hld : loadable (name, mode)) by by split.
      destruct (NSR_MAX_PLUGINS <=? nsr_plugins_count reg) eqn:Em; bool_facts.
      { split_and!; try done; [|intros; lia]. exists []. rewrite app_nil_r. split_and!; [done|cbn; lia|constructor]. }
      pose proof (load_round (config_path reg) (plugin_dir reg) dir file name sps o) as Hr. cbn zeta in Hr |- *.
      destruct (if e_enabled _ then _ else _) as [[e o1] sps1]. cbn [fst] in Hr.
      specialize (IH (with_entries reg (entries reg ++ [e])) sps1 (loaded + 1) o1).
      destruct (load_loop ds dir file _ sps1 (loaded + 1) o1) as [[n reg'] o'].
      assert (Hnames : names (with_entries reg (entries reg ++ [e])) = names reg ++ [strncpy 63 name]).
      { unfold names. cbn [entries with_entries]. rewrite map_app. cbn. by destruct Hr as [-> _]. }
      destruct IH as (H1 & H2 & H3 & (new & H4 & H5 & H6) & H7 & H8).
      { cbn [entries with_entries]. unfold nsr_plugins_count in Em. rewrite length_app. cbn. lia. }
      rewrite Hnames in *. split_and!; try done.
      * exists (e :: new). cbn [entries with_entries] in H4. rewrite H4, <- app_assoc. split_and!; [done|cbn; lia|].
        constructor.
        { exists (name, mode). split_and!; [by left|done..]. }
        eapply Forall_impl; [exact H6|]. intros e' (d & Hd & Hl & Hn & He). exists d. split_and!; [by right|done| |done].
        intros Hin. apply Hn, elem_of_app. by left.
      * intros Hnd Hl. apply Forall_cons in Hl as [Hl0 Hl]. cbn [fst] in Hl0. apply H7; [|done].
        apply NoDup_app. split_and!; [done| |by apply NoDup_singleton]. intros x Hx Hx'.
        apply list_elem_of_singleton in Hx' as ->. unfold strncpy in Hx. rewrite take_ge in Hx by lia. done.
      * intros Hlt d Hd Hl. apply elem_of_cons in Hd as [->|Hd].
        { right. unfold names. rewrite H4, map_app. apply elem_of_app. left. cbn [entries with_entries]. fold (names reg).
          rewrite map_app. apply elem_of_app. right. cbn. destruct Hr as [-> _]. by left. }
        destruct (H8 Hlt d Hd Hl) as [Hin|Hin]; [|by right]. apply elem_of_app in Hin as [Hin|Hin]; [by left|].
        right. apply list_elem_of_singleton in Hin. unfold names. rewrite H4, map_app. apply elem_of_app. left.
        cbn [entries with_entries]. rewrite map_app. apply elem_of_app. right. cbn. destruct Hr as [-> _].
        rewrite Hin. apply list_elem_of_singleton. unfold strncpy. by rewrite take_take.
Qed.


(** A file name of 64 characters is stored without its last one, and the next load of
    the directory does not recognise it. *)
Theorem long_name_loads_twice :
  let d := (replicate 64 "a"%char, Some 33261) in
  let '(_, reg, o) := nsr_plugins_load_dir (nsr_plugins_init []) (str "/p") (Some [d]) None [] demo_script in
  let '(n, reg', _) := nsr_plugins_load_dir reg (str "/p") (Some [d]) None [] o in
  n = 1 /\ names reg' = replicate 2 (replicate 63 "a"%char).
Proof. vm_compute. auto. Qed.

(** ** The editor *)

(** The command that [plugin_run_open_editor] hands to [system]; none for an empty
    file name.  [editor] is the variable EDITOR. *)
Definition plugin_run_open_editor (editor : option cstr) (file : cstr) : option cstr :=
  if ceq (deref file) NUL then None
  else
    let editor := match editor with
                  | Some e => if ceq (deref e) NUL then str "nano" else e
                  | None => str "nano"
                  end in
    Some (take 511 (editor ++ str " " ++ file)).

(** The text of a plugin reaches the shell as it is: a file name can hold a second
    command, and a long name is cut. *)
Theorem editor_text_is_not_quoted :
  plugin_run_open_editor None (str "notes;reboot") = Some (str "nano notes;reboot") /\
  forall editor file cmd, plugin_run_open_editor editor file = Some cmd -> (length cmd <= 511)%nat.
Proof.
  split; [reflexivity|]. intros editor file cmd. unfold plugin_run_open_editor. split_if; [done|].
  intros [= <-]. rewrite length_take. lia.
Qed.

(** ** Witness *)

