(* ===== verification/Percentile.v ===== *)
(** * The percentile plugin (plugins/percentile/percentile.c)

    The plugin keeps two rings: [pctl_state_t], the last 4096 round-trip samples
    with their address, and [pctl_bucket_ring_t], per-minute aggregates of the
    last hour.  [ring_rep] relates a ring (slots, head, count) to the sequence it
    holds, oldest first.  The sample ring refines "the last 4096 accepted
    samples"; for samples that arrive in order of time the bucket ring refines
    "the last 60 minutes that saw a sample, each with all its samples", and the
    statistics of a window are the minimum, mean and maximum of those samples.
    The wall clock is a parameter of the operations that read it. *)

From stdpp Require Import sorting.
From S2P Require Import Prelude CFloat JsonBuf JsonScan JsonDoc JsonRpc.

Definition PCTL_SAMPLE_MAX : Z := 4096.
Definition PCTL_ADDR_MAX : Z := 48.
Definition PCTL_BUCKET_MAX : Z := 60.
Definition UINT64_MAX : Z := 2 ^ 64 - 1.

(** ** Data *)

Record pctl_sample_t := mk_sample {
  sm_rtt_us : Z;
  sm_ts_ms : Z;
  sm_addr : cstr;
}.

Record pctl_state_t := mk_samples {
  samples : list pctl_sample_t;
  s_head : Z;
  s_count : Z;
}.

Record pctl_bucket_t := mk_bucket {
  start_ms : Z;
  b_min_us : Z;
  b_max_us : Z;
  b_sum_us : Z;
  b_count : Z;
}.

Record pctl_bucket_ring_t := mk_buckets {
  buckets : list pctl_bucket_t;
  b_head : Z;
  b_ring_count : Z;
}.

Record pctl_stats_t := mk_stats {
  min_us : Z;
  max_us : Z;
  avg_us : Z;
  stats_valid : bool;
}.

Record pctl_window_t := mk_window {
  w_label : cstr;
  w_buckets : Z;
  w_window_ms : Z;
}.

Definition WINDOWS : list pctl_window_t :=
  [mk_window (str "1min") 1 60000; mk_window (str "5min") 5 300000;
   mk_window (str "15min") 15 900000; mk_window (str "1hr") 60 3600000].

#[export] Instance sample_inhabited : Inhabited pctl_sample_t := populate (mk_sample 0 0 []).
#[export] Instance bucket_inhabited : Inhabited pctl_bucket_t := populate (mk_bucket 0 0 0 0 0).

(** The static state of the plugin, zeroed by [main]. *)
Record pctl_globals := mk_globals {
  g_samples : pctl_state_t;
  g_buckets : pctl_bucket_ring_t;
}.

Definition zero_globals : pctl_globals :=
  {| g_samples := mk_samples (replicate 4096 inhabitant) 0 0;
     g_buckets := mk_buckets (replicate 60 inhabitant) 0 0 |}.

(** ** Operations *)

(** [(head + cap - n + i) % cap] on [uint32_t]. *)
Definition ring_idx (cap head n i : Z) : nat := Z.to_nat (u32 (head + cap - n + i) mod cap).

Definition bucket_start_ms (ts_ms : Z) : Z := ts_ms / 60000 * 60000.

(** The 47 bytes copied from [addr] hold its text up to that length. *)
Definition pctl_add (g : pctl_state_t) (addr : cstr) (rtt_us ts_ms : Z) : pctl_state_t :=
  if ceq (deref addr) NUL || (rtt_us =? 0) then g
  else
    let s := mk_sample rtt_us ts_ms (strncpy 47 addr) in
    {| samples := <[Z.to_nat (s_head g) := s]> (samples g);
       s_head := (s_head g + 1) mod PCTL_SAMPLE_MAX;
       s_count := if s_count g <? PCTL_SAMPLE_MAX then s_count g + 1 else s_count g |}.

Fixpoint find_bucket (g : pctl_bucket_ring_t) (start : Z) (ix : list nat) : option nat :=
  match ix with
  | [] => None
  | i :: ix' =>
      let idx := ring_idx PCTL_BUCKET_MAX (b_head g) (b_ring_count g) (Z.of_nat i) in
      if start_ms (buckets g !!! idx) =? start then Some idx else find_bucket g start ix'
  end.

(** The ring after the call and the index of the bucket returned. *)
Definition get_current_bucket (g : pctl_bucket_ring_t) (ts_ms : Z) : pctl_bucket_ring_t * nat :=
  let start := bucket_start_ms ts_ms in
  match find_bucket g start (seq 0 (Z.to_nat (b_ring_count g))) with
  | Some idx => (g, idx)
  | None =>
      let idx := Z.to_nat (b_head g) in
      ({| buckets := <[idx := mk_bucket start UINT64_MAX 0 0 0]> (buckets g);
          b_head := (b_head g + 1) mod PCTL_BUCKET_MAX;
          b_ring_count := if b_ring_count g <? PCTL_BUCKET_MAX then b_ring_count g + 1
                          else b_ring_count g |}, idx)
  end.

Definition add_to_bucket (b : pctl_bucket_t) (rtt_us : Z) : pctl_bucket_t :=
  {| start_ms := start_ms b;
     b_min_us := if rtt_us <? b_min_us b then rtt_us else b_min_us b;
     b_max_us := if b_max_us b <? rtt_us then rtt_us else b_max_us b;
     b_sum_us := u64 (b_sum_us b + rtt_us);
     b_count := u32 (b_count b + 1) |}.

Definition bucket_add (g : pctl_bucket_ring_t) (ts_ms rtt_us : Z) : pctl_bucket_ring_t :=
  let '(g, idx) := get_current_bucket g ts_ms in
  {| buckets := <[idx := add_to_bucket (buckets g !!! idx) rtt_us]> (buckets g);
     b_head := b_head g; b_ring_count := b_ring_count g |}.

Definition no_stats : pctl_stats_t := mk_stats 0 0 0 false.

(** The running minimum, maximum, sum and count of the two statistics loops. *)
Definition acc_t : Type := Z * Z * Z * Z.

Definition acc0 : acc_t := (UINT64_MAX, 0, 0, 0).

Definition acc_stats (a : acc_t) : pctl_stats_t :=
  let '(mn, mx, sum, count) := a in
  if count =? 0 then no_stats else mk_stats mn mx (sum / count) true.

Definition window_step (g : pctl_bucket_ring_t) (n : Z) (a : acc_t) (i : nat) : acc_t :=
  let '(mn, mx, sum, count) := a in
  let b := buckets g !!! ring_idx PCTL_BUCKET_MAX (b_head g) n (Z.of_nat i) in
  if b_count b =? 0 then a
  else (if b_min_us b <? mn then b_min_us b else mn,
        if mx <? b_max_us b then b_max_us b else mx,
        u64 (sum + b_sum_us b), u64 (count + b_count b)).

Definition compute_window_stats (g : pctl_bucket_ring_t) (num_buckets : Z) : pctl_stats_t :=
  if (b_ring_count g =? 0) || (num_buckets =? 0) then no_stats
  else
    let n := if num_buckets <? b_ring_count g then num_buckets else b_ring_count g in
    acc_stats (foldl (window_step g n) acc0 (seq 0 (Z.to_nat n))).

Definition addr_step (g : pctl_state_t) (addr : cstr) (cutoff : Z) (a : acc_t) (i : nat) : acc_t :=
  let '(mn, mx, sum, count) := a in
  let s := samples g !!! ring_idx PCTL_SAMPLE_MAX (s_head g) (s_count g) (Z.of_nat i) in
  if negb (streq (sm_addr s) addr) then a
  else if sm_ts_ms s <? cutoff then a
  else (if sm_rtt_us s <? mn then sm_rtt_us s else mn,
        if mx <? sm_rtt_us s then sm_rtt_us s else mx,
        u64 (sum + sm_rtt_us s), u32 (count + 1)).

Definition compute_window_stats_for_addr (g : pctl_state_t) (addr : cstr) (window_ms now : Z)
    : pctl_stats_t :=
  if ceq (deref addr) NUL || (s_count g =? 0) then no_stats
  else
    let cutoff := u64 (now - window_ms) in
    acc_stats (foldl (addr_step g addr cutoff) acc0 (seq 0 (Z.to_nat (s_count g)))).

(** ** Responses

    The calls on the response buffer are lists of [json_call]; a response is the
    text they leave in a fresh buffer, followed by a newline. *)

(** [%6.2f] of a [double]: hundredths rounded to nearest even, padded on the
    left to six characters. *)
Definition centi_units (m : positive) (e : Z) : Z :=
  if 0 <=? e then Z.pos m * 2 ^ e * 100 else div_half_even (Z.pos m * 100) (2 ^ (- e)).

Definition fmt_f2 (x : cfloat) : cstr :=
  match x with
  | S754_zero s => (if s then str "-" else []) ++ str "0.00"
  | S754_infinity s => (if s then str "-" else []) ++ str "inf"
  | S754_nan => str "nan"
  | S754_finite s m e =>
      let n := centi_units m e in
      (if s then str "-" else []) ++ dec_digits 310 (n / 100) []
        ++ str "." ++ [chr (48 + n / 10 mod 10); chr (48 + n mod 10)]
  end.

Definition ms_text (us : Z) : cstr := pad_left 6 (fmt_f2 (f64_div (f64_of_Z us) (f64_of_Z 1000))).

(** The text of [emit_stats_line], cut by [snprintf] to the 79 characters of its
    array. *)
Definition stats_text (label : cstr) (s : pctl_stats_t) : cstr :=
  let cells :=
    if stats_valid s then [ms_text (min_us s); ms_text (avg_us s); ms_text (max_us s)]
    else replicate 3 (pad_left 6 (str "N/A")) in
  let body := match cells with
              | [a; b; c] => a ++ str "/" ++ b ++ str "/" ++ c
              | _ => []
              end in
  take 79 (pad_right 5 label ++ str " min/avg/max  " ++ body ++ str " ms").

(** The emitters also return the next line number. *)
Definition emit_title (title : cstr) (line_y start_x : Z) : list json_call * Z :=
  (CObjStart :: keyed "y" (CInt line_y) ++ keyed "x" (CInt start_x)
     ++ keyed "text" (cstring title) ++ keyed "color" (cstring (str "cyan")) ++ [CObjEnd],
   line_y + 1).

Definition emit_stats_line (label : cstr) (s : pctl_stats_t) (line_y start_x : Z)
    : list json_call * Z :=
  (CObjStart :: keyed "y" (CInt line_y) ++ keyed "x" (CInt start_x)
     ++ keyed "text" (cstring (stats_text label s)) ++ [CObjEnd], line_y + 1).

(** [clock_gettime(CLOCK_REALTIME)]: [None] on failure. *)
Definition now_ms (ts : option (Z * Z)) : Z :=
  match ts with
  | None => 0
  | Some (sec, nsec) => u64 (u64 (u64 sec * 1000) + u64 nsec / 1000000)
  end.

Section Handlers.

(** The successive readings of the clock while one message is handled. *)
Variable clock_gettime : nat -> option (Z * Z).

Fixpoint emit_windows (g : pctl_globals) (ws : list pctl_window_t) (i : nat) (line_y start_x : Z)
    (focus : option cstr) : list json_call * Z :=
  match ws with
  | [] => ([], line_y)
  | w :: ws' =>
      let s := match focus with
               | None => compute_window_stats (g_buckets g) (w_buckets w)
               | Some addr => compute_window_stats_for_addr (g_samples g) addr (w_window_ms w)
                                (now_ms (clock_gettime i))
               end in
      let '(c1, line_y) := emit_stats_line (w_label w) s line_y start_x in
      let '(c2, line_y) := emit_windows g ws' (S i) line_y start_x focus in
      (c1 ++ c2, line_y)
  end.

(** [focus] is [None] for [use_buckets]. *)
Definition emit_window_stats (g : pctl_globals) (title : cstr) (line_y start_x : Z)
    (focus : option cstr) : list json_call * Z :=
  let '(c1, line_y) := emit_title title line_y start_x in
  let '(c2, line_y) := emit_windows g WINDOWS 0 line_y start_x focus in
  (c1 ++ c2, line_y).

Definition handle_init (id : Z) : cstr :=
  respond (response_head id "result" ++ keyed "status" (cstring (str "ok"))
    ++ keyed "description" (cstring (str "Show RTT min/avg/max for 1m/5m/15m/1h windows"))
    ++ [CObjEnd; CObjEnd]).

Definition handle_render (g : pctl_globals) (params : cstr) (id : Z) : cstr :=
  let focus_addr := str_member params "focused_addr" 64 [] in
  let '(c1, y) := emit_window_stats g (str "RTT Statistics (Global)") 1 1 None in
  let c2 :=
    if ceq (deref focus_addr) NUL then []
    else (emit_window_stats g (str "RTT Statistics (Focused)") (y + 1) 1 (Some focus_addr)).1 in
  respond (response_head id "result" ++ keyed "lines" CArrStart ++ c1 ++ c2
    ++ [CArrEnd; CObjEnd; CObjEnd]).

(** ** Telemetry *)

Fixpoint add_times (k : nat) (g : pctl_globals) (addr : cstr) (rtt_us ts : Z) : pctl_globals :=
  match k with
  | O => g
  | S k' =>
      add_times k' {| g_samples := pctl_add (g_samples g) addr rtt_us ts;
                      g_buckets := bucket_add (g_buckets g) ts rtt_us |} addr rtt_us ts
  end.

(** One element of the [hops] array. *)
Definition handle_hop (ts : Z) (g : pctl_globals) (elem : cstr) : pctl_globals :=
  let addr := str_member elem "addr" 64 [] in
  let rtt_us := int_member elem "rtt_us" 0 in
  let recv := int_member elem "recv" 0 in
  add_times (Z.to_nat (Z.min recv 64)) g addr (u64 rtt_us) ts.

Definition handle_update_telemetry (g : pctl_globals) (params : cstr) : pctl_globals :=
  match nsr_json_obj_get params (str "hops") with
  | None => g
  | Some (hops, _) =>
      foldl (handle_hop (now_ms (clock_gettime 0))) g (arr_elements hops)
  end.

(** One round of the loop of [main]: the new state and what is printed. *)
Definition pctl_main_line (g : pctl_globals) (line : cstr) : pctl_globals * cstr :=
  match parse_request line with
  | None => (g, [])
  | Some rq =>
      if streq (rq_method rq) (str "init") then
        (g, match rq_id rq with Some id => handle_init id | None => [] end)
      else if streq (rq_method rq) (str "update_telemetry") then
        (handle_update_telemetry g (rq_params rq), [])
      else if streq (rq_method rq) (str "render") then
        (g, match rq_id rq with Some id => handle_render g (rq_params rq) id | None => [] end)
      else if streq (rq_method rq) (str "cleanup") then (g, [])
      else (g, match rq_id rq with Some id => send_error id (str "Method not found") | None => [] end)
  end.

End Handlers.

(** ** Rings as sequences *)

Definition last_n {A} (n : nat) (l : list A) : list A := drop (length l - n) l.

Lemma last_n_length {A} n (l : list A) : length (last_n n l) = (n `min` length l)%nat.
Proof. unfold last_n. rewrite length_drop. lia. Qed.

Lemma last_n_all {A} n (l : list A) : (length l <= n)%nat -> last_n n l = l.
Proof. intros H. unfold last_n. by replace (length l - n)%nat with 0%nat by lia. Qed.

Lemma last_n_lookup {A} n (l : list A) i :
  last_n n l !! i = l !! (length l - n + i)%nat.
Proof. apply lookup_drop. Qed.

(** Keeping the last elements while appending is keeping them at the end. *)
Lemma last_n_push {A} n (l : list A) x :
  last_n n (last_n n l ++ [x]) = last_n n (l ++ [x]).
Proof.
  unfold last_n. rewrite !length_app, length_drop. simpl length.
  destruct (decide (length l <= n)%nat).
  - replace (length l - n)%nat with 0%nat by lia. rewrite drop_0. f_equal. lia.
  - rewrite <- (drop_app_le l [x]) by lia. rewrite drop_drop. f_equal. lia.
Qed.

Lemma last_n_min {A} n m (l : list A) :
  (n <= m)%nat -> last_n n (last_n m l) = last_n n l.
Proof. intros H. unfold last_n. rewrite length_drop, drop_drop. f_equal. lia. Qed.

Lemma last_n_map {A B} (f : A -> B) n l : map f (last_n n l) = last_n n (map f l).
Proof. unfold last_n. by rewrite fmap_drop, length_map. Qed.

Lemma mod_once cap a : 0 <= a < 2 * cap -> a mod cap = if a <? cap then a else a - cap.
Proof.
  intros H. destruct (a <? cap) eqn:E; bool_facts; [apply Z.mod_small; lia|].
  symmetry. apply Z.mod_unique with 1; lia.
Qed.

Section Ring.
Context {A : Type} (cap : Z) (cap_range : 0 < cap < 2 ^ 30).

(** The ring holds the sequence [l], oldest element first. *)
Definition ring_rep (slots : list A) (head count : Z) (l : list A) : Prop :=
  length slots = Z.to_nat cap /\ 0 <= head < cap /\ count = Z.of_nat (length l) /\ count <= cap /\
  forall i, (i < length l)%nat -> slots !! ring_idx cap head count (Z.of_nat i) = l !! i.

Lemma ring_idx_eq head n i :
  0 <= head < cap -> 0 <= i < n -> n <= cap ->
  ring_idx cap head n i = Z.to_nat (if head - n + i <? 0 then head - n + i + cap else head - n + i).
Proof.
  intros Hh Hi Hn. unfold ring_idx. rewrite u32_small by lia. rewrite mod_once by lia.
  f_equal. repeat split_if; bool_facts; lia.
Qed.

Lemma ring_idx_bound head n i :
  0 <= head < cap -> 0 <= i < n -> n <= cap -> (ring_idx cap head n i < Z.to_nat cap)%nat.
Proof. intros. rewrite ring_idx_eq by done. split_if; bool_facts; lia. Qed.

Lemma ring_idx_inj head n i j :
  0 <= head < cap -> 0 <= i < n -> 0 <= j < n -> n <= cap ->
  ring_idx cap head n i = ring_idx cap head n j -> i = j.
Proof.
  intros Hh Hi Hj Hn. rewrite !ring_idx_eq by done. repeat split_if; bool_facts; lia.
Qed.

Definition next_count (count : Z) : Z := if count <? cap then count + 1 else count.

Lemma ring_push slots head count l x :
  ring_rep slots head count l ->
  ring_rep (<[Z.to_nat head := x]> slots) ((head + 1) mod cap) (next_count count)
    (last_n (Z.to_nat cap) (l ++ [x])).
Proof.
  intros (Hlen & Hh & Hc & Hle & Hl). rewrite mod_once by lia. unfold ring_rep.
  rewrite length_insert, last_n_length, length_app. simpl length.
  assert (next_count count = Z.of_nat (Z.to_nat cap `min` (length l + 1))) as Hn.
  { unfold next_count. split_if; bool_facts; lia. }
  split; [done|]. split; [split_if; bool_facts; lia|]. split; [done|]. split; [lia|].
  intros i Hi. rewrite last_n_lookup, length_app. simpl length.
  set (d := (length l + 1 - Z.to_nat cap)%nat).
  rewrite ring_idx_eq by (try split_if; bool_facts; lia).
  destruct (decide (d + i = length l)%nat) as [E|E].
  - rewrite E, list_lookup_middle by done.
    match goal with |- _ !! ?k = _ => replace k with (Z.to_nat head) end.
    { apply list_lookup_insert_eq. rewrite Hlen. lia. }
    f_equal. repeat split_if; bool_facts; lia.
  - rewrite lookup_app_l by lia. rewrite <- Hl by lia.
    rewrite list_lookup_insert_ne by (repeat split_if; bool_facts; lia).
    f_equal. rewrite ring_idx_eq by lia. f_equal. repeat split_if; bool_facts; lia.
Qed.

Lemma ring_update slots head count l i x :
  ring_rep slots head count l -> (i < length l)%nat ->
  ring_rep (<[ring_idx cap head count (Z.of_nat i) := x]> slots) head count (<[i := x]> l).
Proof.
  intros (Hlen & Hh & Hc & Hle & Hl) Hi. unfold ring_rep. rewrite !length_insert.
  split_and!; try done; try lia. intros j Hj. destruct (decide (i = j)) as [->|Hne].
  - rewrite !list_lookup_insert_eq; [done|lia|]. rewrite Hlen. apply ring_idx_bound; lia.
  - rewrite !list_lookup_insert_ne; [by apply Hl|done|].
    intros E%ring_idx_inj; lia.
Qed.

(** Pushing an element and then replacing it is pushing the replacement. *)
Lemma ring_push_update slots head count l x y :
  ring_rep slots head count l ->
  ring_rep (<[Z.to_nat head := y]> (<[Z.to_nat head := x]> slots)) ((head + 1) mod cap)
    (next_count count) (last_n (Z.to_nat cap) (l ++ [y])).
Proof. intros Hr. rewrite list_insert_insert_eq. by apply ring_push. Qed.

(** The newest elements form a ring with the same head. *)
Lemma ring_suffix slots head count l n :
  ring_rep slots head count l -> 0 <= n <= count ->
  ring_rep slots head n (last_n (Z.to_nat n) l).
Proof.
  intros (Hlen & Hh & Hc & Hle & Hl) Hn. unfold ring_rep. rewrite last_n_length.
  split_and!; try done; try lia. intros i Hi. rewrite last_n_lookup, <- Hl by lia.
  f_equal. rewrite !ring_idx_eq by lia. f_equal. repeat split_if; bool_facts; lia.
Qed.

Context `{Inhabited A}.

Lemma ring_lookup_total slots head count l i x :
  ring_rep slots head count l -> l !! i = Some x ->
  slots !!! ring_idx cap head count (Z.of_nat i) = x.
Proof.
  intros (_ & _ & _ & _ & Hl) Hx. apply list_lookup_total_correct.
  rewrite Hl; [done|by eapply lookup_lt_Some].
Qed.

(** A loop over the ring is a fold over its sequence. *)
Lemma ring_fold {B} (f : B -> A -> B) slots head count l b :
  ring_rep slots head count l ->
  foldl (fun b i => f b (slots !!! ring_idx cap head count (Z.of_nat i))) b
    (seq 0 (Z.to_nat count)) = foldl f b l.
Proof.
  intros Hr. rewrite <- (foldl_fmap f b (seq 0 (Z.to_nat count))). f_equal.
  assert (Z.to_nat count = length l) as -> by (destruct Hr as (_ & _ & Hc & _); lia).
  apply list_eq. intros i. rewrite list_lookup_fmap.
  destruct (l !! i) as [x|] eqn:E.
  - rewrite lookup_seq_lt by (by eapply lookup_lt_Some). cbn [fmap option_fmap option_map].
    f_equal. by apply (ring_lookup_total _ _ _ l).
  - apply lookup_ge_None in E. by rewrite lookup_seq_ge.
Qed.

End Ring.

(** ** Statistics of a list of round-trip times *)

Definition sum_list (l : list Z) : Z := foldl Z.add 0 l.

(** Minimum, mean and maximum, invalid for the empty list; the sum is kept in
    64 bits. *)
Definition stats_of (l : list Z) : pctl_stats_t :=
  match l with
  | [] => no_stats
  | _ => mk_stats (foldl Z.min UINT64_MAX l) (foldl Z.max 0 l)
           (u64 (sum_list l) / Z.of_nat (length l)) true
  end.

Definition acc_of (l : list Z) : acc_t :=
  (foldl Z.min UINT64_MAX l, foldl Z.max 0 l, u64 (sum_list l), Z.of_nat (length l)).

Lemma acc_stats_of l : acc_stats (acc_of l) = stats_of l.
Proof. destruct l; [done|]. unfold acc_stats, acc_of. by rewrite (proj2 (Z.eqb_neq _ _)) by (simpl; lia). Qed.

Lemma if_min a b : (if a <? b then a else b) = Z.min b a.
Proof. split_if; bool_facts; lia. Qed.

Lemma if_max a b : (if b <? a then a else b) = Z.max b a.
Proof. split_if; bool_facts; lia. Qed.

Lemma u64_add_l a b : u64 (u64 a + b) = u64 (a + b).
Proof. unfold u64, wrap. by rewrite Zplus_mod_idemp_l. Qed.

Lemma u64_add_r a b : u64 (a + u64 b) = u64 (a + b).
Proof. unfold u64, wrap. by rewrite Zplus_mod_idemp_r. Qed.

Lemma acc_of_snoc l r :
  acc_of (l ++ [r]) =
  (Z.min (foldl Z.min UINT64_MAX l) r, Z.max (foldl Z.max 0 l) r, u64 (sum_list l + r),
   Z.of_nat (length l) + 1).
Proof. unfold acc_of, sum_list. rewrite !foldl_app, length_app. simpl. repeat f_equal. lia. Qed.

(** The statistics of the samples of one address since [cutoff]. *)
Definition matching (addr : cstr) (cutoff : Z) (l : list pctl_sample_t) : list Z :=
  map sm_rtt_us (filter (fun s => sm_addr s = addr /\ cutoff <= sm_ts_ms s) l).

Definition sample_rep (g : pctl_state_t) (l : list pctl_sample_t) : Prop :=
  ring_rep PCTL_SAMPLE_MAX (samples g) (s_head g) (s_count g) l.

Lemma sample_cap : 0 < PCTL_SAMPLE_MAX < 2 ^ 30.
Proof. done. Qed.

Lemma pctl_add_rep g l addr rtt ts :
  sample_rep g l -> ceq (deref addr) NUL = false -> rtt <> 0 ->
  sample_rep (pctl_add g addr rtt ts) (last_n 4096 (l ++ [mk_sample rtt ts (take 47 addr)])).
Proof.
  intros Hr Ha Hn%Z.eqb_neq. unfold pctl_add. rewrite Ha, Hn. cbn [orb].
  apply (ring_push PCTL_SAMPLE_MAX sample_cap _ _ _ _ _ Hr).
Qed.

Definition sample_step (addr : cstr) (cutoff : Z) (a : acc_t) (s : pctl_sample_t) : acc_t :=
  let '(mn, mx, sum, count) := a in
  if negb (streq (sm_addr s) addr) then a
  else if sm_ts_ms s <? cutoff then a
  else (if sm_rtt_us s <? mn then sm_rtt_us s else mn,
        if mx <? sm_rtt_us s then sm_rtt_us s else mx,
        u64 (sum + sm_rtt_us s), u32 (count + 1)).

Lemma sample_fold addr cutoff l :
  (length l <= 4096)%nat ->
  foldl (sample_step addr cutoff) acc0 l = acc_of (matching addr cutoff l).
Proof.
  induction l as [|s l IH] using rev_ind; intros Hl; [done|].
  rewrite length_app in Hl. simpl in Hl. rewrite foldl_snoc, IH by lia.
  unfold matching. rewrite filter_app, map_app, filter_cons, filter_nil.
  unfold sample_step, acc_of at 1.
  destruct (streq (sm_addr s) addr) eqn:E1; cbn [negb]; bool_facts.
  2: { rewrite decide_False by (intros [? _]; by apply streq_false in E1).
       cbn [map]. by rewrite app_nil_r. }
  apply streq_true in E1. destruct (sm_ts_ms s <? cutoff) eqn:E2; bool_facts.
  { rewrite decide_False by lia. cbn [map]. by rewrite app_nil_r. }
  rewrite decide_True by done. cbn [map]. rewrite acc_of_snoc, if_min, if_max, u64_add_l.
  f_equal. apply u32_small. rewrite length_map.
  pose proof (length_filter (fun s => sm_addr s = addr /\ cutoff <= sm_ts_ms s) l). lia.
Qed.

Lemma window_addr_spec g l addr window now :
  sample_rep g l -> ceq (deref addr) NUL = false ->
  compute_window_stats_for_addr g addr window now
  = stats_of (matching addr (u64 (now - window)) l).
Proof.
  intros Hr Ha. unfold compute_window_stats_for_addr. rewrite Ha. cbn [orb].
  assert (Hl : s_count g = Z.of_nat (length l) /\ (length l <= 4096)%nat).
  { destruct Hr as (_ & _ & Hc & Hle & _). change PCTL_SAMPLE_MAX with 4096 in Hle. lia. }
  destruct (s_count g =? 0) eqn:E; bool_facts.
  { by destruct l; [|simpl in Hl; lia]. }
  rewrite <- acc_stats_of, <- sample_fold by apply Hl. f_equal.
  exact (ring_fold PCTL_SAMPLE_MAX (sample_step addr (u64 (now - window))) _ _ _ _ acc0 Hr).
Qed.

(** ** Buckets of a chronological history

    A history is the list of the calls [bucket_add(ts, rtt)] so far, oldest
    first. *)

Abbreviation history := (list (Z * Z)).

Definition chronological (h : history) : Prop := StronglySorted Z.le h.*1.

Definition add_minute (ms : list Z) (e : Z * Z) : list Z :=
  if bool_decide (bucket_start_ms e.1 ∈ ms) then ms else ms ++ [bucket_start_ms e.1].

(** The minutes that saw a sample, in order of appearance. *)
Definition minutes (h : history) : list Z := foldl add_minute [] h.

(** The round-trip times of a minute. *)
Definition rtts_in (h : history) (m : Z) : list Z :=
  (filter (fun e => bucket_start_ms e.1 = m) h).*2.

Definition bucket_of (h : history) (m : Z) : pctl_bucket_t :=
  let l := rtts_in h m in
  mk_bucket m (foldl Z.min UINT64_MAX l) (foldl Z.max 0 l) (u64 (sum_list l))
    (u32 (Z.of_nat (length l))).

Definition last_hour (h : history) : list Z := last_n 60 (minutes h).

Definition bucket_rep (g : pctl_bucket_ring_t) (h : history) : Prop :=
  ring_rep PCTL_BUCKET_MAX (buckets g) (b_head g) (b_ring_count g) (map (bucket_of h) (last_hour h)).

Lemma bucket_cap : 0 < PCTL_BUCKET_MAX < 2 ^ 30.
Proof. done. Qed.

Lemma bucket_start_mono a b : a <= b -> bucket_start_ms a <= bucket_start_ms b.
Proof. intros H. unfold bucket_start_ms. pose proof (Z.div_le_mono a b 60000). lia. Qed.

Lemma chronological_snoc h e :
  chronological (h ++ [e]) -> chronological h /\ forall x, x ∈ h -> x.1 <= e.1.
Proof.
  unfold chronological. rewrite fmap_app, StronglySorted_app. intros (H & Hs & _). split; [done|].
  intros x Hx. apply H; [|by apply list_elem_of_singleton]. by apply (list_elem_of_fmap_2 fst).
Qed.

Lemma minutes_snoc h e : minutes (h ++ [e]) = add_minute (minutes h) e.
Proof. apply foldl_snoc. Qed.

Lemma minutes_elem h m : m ∈ minutes h -> exists e, e ∈ h /\ bucket_start_ms e.1 = m.
Proof.
  induction h as [|e h IH] using rev_ind; [by intros ?%elem_of_nil|].
  rewrite minutes_snoc. unfold add_minute. intros Hm.
  assert (m ∈ minutes h \/ m = bucket_start_ms e.1) as [Hx|Hx].
  { split_if_in Hm; [by left|]. apply elem_of_app in Hm as [?|?%list_elem_of_singleton]; auto. }
  - destruct (IH Hx) as (x & ? & ?). exists x. split; [|done]. apply elem_of_app. by left.
  - exists e. split; [|done]. apply elem_of_app. right. by apply list_elem_of_singleton.
Qed.

Lemma minutes_NoDup h : NoDup (minutes h).
Proof.
  induction h as [|e h IH] using rev_ind; [by constructor|].
  rewrite minutes_snoc. unfold add_minute. split_if; [done|]. bool_facts.
  apply NoDup_app. split_and!; [done| |apply NoDup_singleton].
  by intros x Hx ->%list_elem_of_singleton.
Qed.

(** In a chronological history the current minute is the last one. *)
Lemma minutes_last h e :
  chronological (h ++ [e]) -> last (minutes (h ++ [e])) = Some (bucket_start_ms e.1).
Proof.
  revert e. induction h as [|x h IH] using rev_ind; intros e Hc.
  { cbn. unfold add_minute. by rewrite bool_decide_eq_false_2 by apply not_elem_of_nil. }
  apply chronological_snoc in Hc as [Hc Hle]. rewrite minutes_snoc. unfold add_minute.
  split_if; [|by rewrite last_snoc]. bool_facts. rewrite IH by done. f_equal.
  destruct (minutes_elem _ _ Heqb) as (y & Hy & Ey).
  assert (y.1 <= x.1) as Hyx.
  { apply elem_of_app in Hy as [Hy| ->%list_elem_of_singleton]; [|done].
    by apply (chronological_snoc h x). }
  pose proof (bucket_start_mono _ _ Hyx).
  assert (x.1 <= e.1) as Hxe by (apply Hle, elem_of_app; right; by apply list_elem_of_singleton).
  pose proof (bucket_start_mono _ _ Hxe). lia.
Qed.

Lemma rtts_in_snoc h e m :
  rtts_in (h ++ [e]) m = rtts_in h m ++ (if bool_decide (bucket_start_ms e.1 = m) then [e.2] else []).
Proof.
  unfold rtts_in. rewrite filter_app, fmap_app, filter_cons, filter_nil. f_equal.
  case_bool_decide; [by rewrite decide_True|by rewrite decide_False].
Qed.

Lemma bucket_of_other h e m :
  bucket_start_ms e.1 <> m -> bucket_of (h ++ [e]) m = bucket_of h m.
Proof.
  intros Hm. unfold bucket_of. rewrite rtts_in_snoc, bool_decide_eq_false_2 by done.
  by rewrite app_nil_r.
Qed.

Lemma bucket_of_same h e :
  bucket_of (h ++ [e]) (bucket_start_ms e.1) = add_to_bucket (bucket_of h (bucket_start_ms e.1)) e.2.
Proof.
  unfold bucket_of, add_to_bucket. rewrite rtts_in_snoc, bool_decide_eq_true_2 by done.
  cbn [start_ms b_min_us b_max_us b_sum_us b_count]. rewrite if_min, if_max, u64_add_l.
  unfold sum_list. rewrite !foldl_snoc, length_app. f_equal.
  unfold u32, wrap. rewrite Zplus_mod_idemp_l. f_equal. simpl. lia.
Qed.

Lemma bucket_of_new h m :
  m ∉ minutes h -> bucket_of h m = mk_bucket m UINT64_MAX 0 0 0.
Proof.
  intros Hm. unfold bucket_of. replace (rtts_in h m) with (@nil Z); [done|].
  symmetry. unfold rtts_in.
  induction h as [|e h IH] using rev_ind; [done|].
  rewrite minutes_snoc in Hm. unfold add_minute in Hm.
  assert ((m ∉ minutes h) /\ bucket_start_ms e.1 <> m) as [H1 H2].
  { split_if_in Hm; bool_facts.
    - split; [done|]. by intros <-.
    - apply not_elem_of_app in Hm as [H1 H2]. split; [done|]. intros <-. apply H2. by left. }
  rewrite filter_app, fmap_app, IH by done. rewrite filter_cons, filter_nil.
  by rewrite decide_False.
Qed.

Lemma map_bucket_other h e l :
  bucket_start_ms e.1 ∉ l -> map (bucket_of (h ++ [e])) l = map (bucket_of h) l.
Proof.
  intros Hl. apply map_ext_in. intros m Hm. apply bucket_of_other. intros <-.
  apply Hl. by apply list_elem_of_In.
Qed.

Lemma find_bucket_skip g start l1 l2 :
  Forall (fun i => start_ms (buckets g !!!
    ring_idx PCTL_BUCKET_MAX (b_head g) (b_ring_count g) (Z.of_nat i)) <> start) l1 ->
  find_bucket g start (l1 ++ l2) = find_bucket g start l2.
Proof.
  induction 1 as [|i l1 Hi Hl IH]; [done|]. cbn [app find_bucket].
  by rewrite (proj2 (Z.eqb_neq _ _) Hi).
Qed.

(** The bucket found at position [i] is the bucket of the [i]-th minute. *)
Lemma bucket_at g h i m :
  bucket_rep g h -> last_hour h !! i = Some m ->
  buckets g !!! ring_idx PCTL_BUCKET_MAX (b_head g) (b_ring_count g) (Z.of_nat i) = bucket_of h m.
Proof.
  intros Hr Hi. eapply (ring_lookup_total PCTL_BUCKET_MAX); [exact Hr|].
  change (map (bucket_of h)) with (fmap (bucket_of h) : list Z -> _).
  by rewrite list_lookup_fmap, Hi.
Qed.

Lemma bucket_rep_count g h :
  bucket_rep g h -> Z.to_nat (b_ring_count g) = length (last_hour h).
Proof. intros (_ & _ & Hc & _). rewrite length_map in Hc. lia. Qed.

Lemma find_bucket_spec g h t pre :
  bucket_rep g h -> pre `prefix_of` last_hour h -> bucket_start_ms t ∉ pre ->
  find_bucket g (bucket_start_ms t) (seq 0 (length (last_hour h)))
  = find_bucket g (bucket_start_ms t) (seq (length pre) (length (last_hour h) - length pre)).
Proof.
  intros Hr [suf E] Hp.
  rewrite E, length_app, seq_app, Nat.add_0_l, Nat.add_sub', find_bucket_skip; [done|].
  apply Forall_forall. intros i [_ Hi]%elem_of_seq. simpl in Hi.
  destruct (lookup_lt_is_Some_2 pre i Hi) as [m Hm].
  rewrite (bucket_at g h i m Hr) by (rewrite E; by apply lookup_app_l_Some).
  cbn [bucket_of start_ms]. intros ->. apply Hp. by eapply list_elem_of_lookup_2.
Qed.

Lemma last_hour_elem h m : m ∈ last_hour h -> m ∈ minutes h.
Proof.
  unfold last_hour, last_n. intros H. rewrite <- (take_drop (length (minutes h) - 60) (minutes h)).
  apply elem_of_app. by right.
Qed.

(** When the current minute is already known, it is the newest bucket. *)
Lemma last_hour_current h e :
  chronological (h ++ [e]) -> bucket_start_ms e.1 ∈ minutes h ->
  exists pre, last_hour h = pre ++ [bucket_start_ms e.1] /\ bucket_start_ms e.1 ∉ pre.
Proof.
  intros Hc Hm. pose proof (minutes_last _ _ Hc) as Hl. rewrite minutes_snoc in Hl.
  unfold add_minute in Hl. rewrite bool_decide_eq_true_2 in Hl by done.
  pose proof (minutes_NoDup h) as Hd. unfold last_hour, last_n.
  apply last_Some in Hl as [l E]. rewrite E in *. rewrite length_app. simpl length.
  rewrite drop_app_le by lia. eexists. split; [done|].
  apply NoDup_app in Hd as (_ & Hd & _). intros Hin. eapply (Hd (bucket_start_ms e.1)).
  - rewrite <- (take_drop (length l + 1 - 60) l). apply elem_of_app. by right.
  - by apply list_elem_of_singleton.
Qed.

Lemma bucket_add_known g h e :
  bucket_rep g h -> chronological (h ++ [e]) -> bucket_start_ms e.1 ∈ minutes h ->
  bucket_rep (bucket_add g e.1 e.2) (h ++ [e]).
Proof.
  intros Hr Hc Hm. destruct (last_hour_current h e Hc Hm) as (pre & E & Hp).
  pose proof (bucket_rep_count g h Hr) as Hn.
  assert (Hlast : last_hour h !! length pre = Some (bucket_start_ms e.1))
    by (rewrite E; by apply list_lookup_middle).
  pose proof (bucket_at g h _ _ Hr Hlast) as Hb.
  unfold bucket_add, get_current_bucket.
  rewrite Hn, (find_bucket_spec g h e.1 pre Hr) by (done || by (rewrite E; apply prefix_app_r)).
  rewrite E, length_app. simpl length. rewrite Nat.add_sub'. cbn [seq find_bucket].
  rewrite Hb. cbn [bucket_of start_ms]. rewrite Z.eqb_refl. cbn iota beta. rewrite Hb.
  rewrite <- bucket_of_same. unfold bucket_rep. cbn [buckets b_head b_ring_count].
  replace (last_hour (h ++ [e])) with (last_hour h).
  2: { unfold last_hour. rewrite minutes_snoc. unfold add_minute. by rewrite bool_decide_eq_true_2. }
  replace (map (bucket_of (h ++ [e])) (last_hour h))
    with (<[length pre := bucket_of (h ++ [e]) (bucket_start_ms e.1)]> (map (bucket_of h) (last_hour h))).
  { apply (ring_update PCTL_BUCKET_MAX bucket_cap); [exact Hr|].
    rewrite length_map, E, length_app. simpl. lia. }
  rewrite E, !map_app. rewrite <- (length_map (bucket_of h) pre) at 1.
  rewrite insert_app_r_alt by done. rewrite Nat.sub_diag. by rewrite map_bucket_other.
Qed.

Lemma bucket_add_new g h e :
  bucket_rep g h -> bucket_start_ms e.1 ∉ minutes h ->
  bucket_rep (bucket_add g e.1 e.2) (h ++ [e]).
Proof.
  intros Hr Hm. pose proof (bucket_rep_count g h Hr) as Hn.
  assert (Hh : bucket_start_ms e.1 ∉ last_hour h) by (by intros ?%last_hour_elem).
  unfold bucket_add, get_current_bucket.
  rewrite Hn, (find_bucket_spec g h e.1 (last_hour h) Hr) by done.
  rewrite Nat.sub_diag. cbn [seq find_bucket]. rewrite <- (bucket_of_new h) by done.
  cbn [buckets b_head b_ring_count]. rewrite list_lookup_total_insert_eq.
  2: { destruct Hr as (Hl & Hd & _). rewrite Hl. lia. }
  rewrite <- bucket_of_same. unfold bucket_rep. cbn [buckets b_head b_ring_count].
  replace (map (bucket_of (h ++ [e])) (last_hour (h ++ [e])))
    with (last_n 60 (map (bucket_of h) (last_hour h) ++ [bucket_of (h ++ [e]) (bucket_start_ms e.1)])).
  { apply (ring_push_update PCTL_BUCKET_MAX bucket_cap _ _ _ _ _ _ Hr). }
  rewrite <- (map_bucket_other h e) by done.
  change [bucket_of (h ++ [e]) ?m] with (map (bucket_of (h ++ [e])) [m]).
  rewrite <- map_app, <- last_n_map. f_equal. unfold last_hour.
  rewrite last_n_push, minutes_snoc. unfold add_minute. by rewrite bool_decide_eq_false_2.
Qed.

Lemma bucket_add_rep g h e :
  bucket_rep g h -> chronological (h ++ [e]) -> bucket_rep (bucket_add g e.1 e.2) (h ++ [e]).
Proof.
  intros Hr Hc. destruct (decide (bucket_start_ms e.1 ∈ minutes h)).
  - by apply bucket_add_known.
  - by apply bucket_add_new.
Qed.

(** *** Statistics over buckets *)

Lemma foldl_min_bound a l : foldl Z.min a l <= a.
Proof. revert a. induction l as [|x l IH]; intros a; [done|]. simpl. pose proof (IH (Z.min a x)). lia. Qed.

Lemma foldl_max_bound a l : a <= foldl Z.max a l.
Proof. revert a. induction l as [|x l IH]; intros a; [done|]. simpl. pose proof (IH (Z.max a x)). lia. Qed.

Lemma foldl_min_start a l : a <= UINT64_MAX -> foldl Z.min a l = Z.min a (foldl Z.min UINT64_MAX l).
Proof.
  revert a. induction l as [|x l IH]; intros a Ha; simpl; [lia|].
  rewrite IH by lia. rewrite (IH (Z.min UINT64_MAX x)) by lia. lia.
Qed.

Lemma foldl_max_start a l : 0 <= a -> foldl Z.max a l = Z.max a (foldl Z.max 0 l).
Proof.
  revert a. induction l as [|x l IH]; intros a Ha; simpl; [lia|].
  rewrite IH by lia. rewrite (IH (Z.max 0 x)) by lia. lia.
Qed.

Lemma sum_start a l : foldl Z.add a l = a + sum_list l.
Proof.
  unfold sum_list. revert a. induction l as [|x l IH]; intros a; simpl; [lia|].
  rewrite (IH (a + x)), (IH (0 + x)). lia.
Qed.

Lemma sum_list_app l k : sum_list (l ++ k) = sum_list l + sum_list k.
Proof. unfold sum_list at 1. by rewrite foldl_app, sum_start. Qed.

Definition bucket_step (a : acc_t) (b : pctl_bucket_t) : acc_t :=
  let '(mn, mx, sum, count) := a in
  if b_count b =? 0 then a
  else (if b_min_us b <? mn then b_min_us b else mn,
        if mx <? b_max_us b then b_max_us b else mx,
        u64 (sum + b_sum_us b), u64 (count + b_count b)).

(** Adding a bucket to the running values is adding its samples. *)
Lemma bucket_step_acc h m l :
  Z.of_nat (length (l ++ rtts_in h m)) < 2 ^ 32 ->
  bucket_step (acc_of l) (bucket_of h m) = acc_of (l ++ rtts_in h m).
Proof.
  intros Hl. rewrite length_app in Hl. unfold bucket_step, bucket_of, acc_of.
  cbn [b_count b_min_us b_max_us b_sum_us].
  rewrite u32_small by lia. destruct (rtts_in h m) as [|r rs] eqn:E.
  { by rewrite app_nil_r. }
  rewrite (proj2 (Z.eqb_neq _ _)) by (simpl; lia). rewrite <- E in *.
  rewrite if_min, if_max, !foldl_app, u64_add_l, u64_add_r, length_app.
  rewrite (foldl_min_start (foldl _ _ l)) by apply foldl_min_bound.
  rewrite (foldl_max_start (foldl _ _ l)) by apply foldl_max_bound.
  rewrite sum_list_app, Nat2Z.inj_add, (u64_small (Z.of_nat _ + _)) by lia. done.
Qed.

Lemma bucket_fold h ms l :
  Z.of_nat (length (l ++ concat (map (rtts_in h) ms))) < 2 ^ 32 ->
  foldl bucket_step (acc_of l) (map (bucket_of h) ms) = acc_of (l ++ concat (map (rtts_in h) ms)).
Proof.
  revert l. induction ms as [|m ms IH]; intros l Hl; cbn [map concat foldl] in *.
  { by rewrite app_nil_r. }
  rewrite app_assoc in *. rewrite bucket_step_acc by (rewrite length_app in Hl; lia). by apply IH.
Qed.

(** The samples of the last [n] minutes that saw one. *)
Definition window_rtts (h : history) (n : nat) : list Z :=
  concat (map (rtts_in h) (last_n n (last_hour h))).

Lemma window_spec g h n :
  bucket_rep g h -> 0 <= n -> Z.of_nat (length (window_rtts h (Z.to_nat n))) < 2 ^ 32 ->
  compute_window_stats g n = stats_of (window_rtts h (Z.to_nat n)).
Proof.
  intros Hr Hn Hl. unfold compute_window_stats.
  assert (Hc : b_ring_count g = Z.of_nat (length (last_hour h))).
  { destruct Hr as (_ & _ & Hc & _). by rewrite length_map in Hc. }
  destruct ((b_ring_count g =? 0) || (n =? 0)) eqn:E.
  { replace (window_rtts h (Z.to_nat n)) with (@nil Z); [done|].
    apply orb_true_iff in E as [E|E]; bool_facts; unfold window_rtts, last_n.
    - by destruct (last_hour h); [rewrite drop_nil|simpl in Hc; lia].
    - subst. by rewrite drop_ge by (simpl; lia). }
  bool_facts. set (k := if n <? b_ring_count g then n else b_ring_count g).
  assert (Hk : 0 <= k <= b_ring_count g) by (unfold k; split_if; bool_facts; lia).
  pose proof (ring_suffix PCTL_BUCKET_MAX bucket_cap _ _ _ _ k Hr Hk) as Hs.
  rewrite <- acc_stats_of. f_equal.
  transitivity (foldl bucket_step acc0 (last_n (Z.to_nat k) (map (bucket_of h) (last_hour h)))).
  { exact (ring_fold PCTL_BUCKET_MAX bucket_step _ _ _ _ acc0 Hs). }
  assert (last_n (Z.to_nat k) (last_hour h) = last_n (Z.to_nat n) (last_hour h)) as E.
  { unfold last_n. f_equal. unfold k. split_if; bool_facts; lia. }
  rewrite <- last_n_map, E. apply (bucket_fold h _ []). exact Hl.
Qed.

Lemma rtts_other h m m' :
  m' <> m -> rtts_in (filter (fun e => bucket_start_ms e.1 <> m) h) m' = rtts_in h m'.
Proof.
  intros Hm. unfold rtts_in. rewrite list_filter_filter. f_equal. apply list_filter_iff.
  intros e. split; [intuition|]. intros ->. auto.
Qed.

Lemma filter_partition {X} (P : X -> Prop) `{!forall x, Decision (P x)} (l : list X) :
  (length (filter P l) + length (filter (fun x => ~ P x) l) = length l)%nat.
Proof.
  induction l as [|x l IH]; [done|]. rewrite !filter_cons. simpl length.
  destruct (decide (P x)); [rewrite decide_False by tauto|rewrite decide_True by tauto]; simpl; lia.
Qed.

Lemma minutes_samples_length h ms :
  NoDup ms -> (length (concat (map (rtts_in h) ms)) <= length h)%nat.
Proof.
  intros Hd. revert h. induction Hd as [|m ms Hm Hd IH]; intros h; [simpl; lia|].
  cbn [map concat]. rewrite length_app.
  pose proof (filter_partition (fun e => bucket_start_ms e.1 = m) h) as Hp.
  pose proof (IH (filter (fun e => bucket_start_ms e.1 <> m) h)) as Hi.
  replace (map (rtts_in (filter (fun e => bucket_start_ms e.1 <> m) h)) ms)
    with (map (rtts_in h) ms) in Hi.
  2: { apply map_ext_in. intros m' Hm'. symmetry. apply rtts_other. intros ->.
       by apply Hm, list_elem_of_In. }
  unfold rtts_in at 1. rewrite length_fmap. lia.
Qed.

Lemma window_rtts_length h n : (length (window_rtts h n) <= length h)%nat.
Proof.
  apply minutes_samples_length. unfold last_hour, last_n.
  pose proof (minutes_NoDup h) as Hd.
  rewrite <- (take_drop (length (minutes h) - 60) (minutes h)) in Hd.
  apply NoDup_app in Hd as (_ & _ & Hd).
  set (l := drop _ (minutes h)) in *. clearbody l.
  rewrite <- (take_drop (length l - n) l) in Hd. by apply NoDup_app in Hd as (_ & _ & ?).
Qed.

Definition bucket_run (h : history) : pctl_bucket_ring_t :=
  foldl (fun g e => bucket_add g e.1 e.2) (g_buckets zero_globals) h.

Lemma ring_empty {A} cap (cap_range : 0 < cap < 2 ^ 30) (x : A) :
  ring_rep cap (replicate (Z.to_nat cap) x) 0 0 [].
Proof.
  unfold ring_rep. rewrite length_replicate. split_and!; try done; try lia.
  intros i Hi. simpl in Hi. lia.
Qed.

Lemma bucket_run_rep h : chronological h -> bucket_rep (bucket_run h) h.
Proof.
  induction h as [|e h IH] using rev_ind; intros Hc.
  { exact (ring_empty PCTL_BUCKET_MAX bucket_cap inhabitant). }
  unfold bucket_run. rewrite foldl_snoc. apply bucket_add_rep; [|done].
  apply IH. by apply chronological_snoc in Hc as [? _].
Qed.

(** *** The statistics are the minimum, the mean and the maximum *)

Lemma foldl_min_spec l a :
  foldl Z.min a l ∈ a :: l /\ Forall (fun x => foldl Z.min a l <= x) (a :: l).
Proof.
  revert a. induction l as [|x l IH]; intros a; simpl.
  { split; [by left|by repeat constructor]. }
  destruct (IH (Z.min a x)) as [Hin Hle]. inversion_clear Hle as [|? ? H1 H2]. split.
  - apply elem_of_cons in Hin as [->|Hin]; [|by do 2 right].
    destruct (Z.min_dec a x) as [->| ->]; [by left|by right; left].
  - repeat constructor; [lia..|done].
Qed.

Lemma foldl_max_spec l a :
  foldl Z.max a l ∈ a :: l /\ Forall (fun x => x <= foldl Z.max a l) (a :: l).
Proof.
  revert a. induction l as [|x l IH]; intros a; simpl.
  { split; [by left|by repeat constructor]. }
  destruct (IH (Z.max a x)) as [Hin Hle]. inversion_clear Hle as [|? ? H1 H2]. split.
  - apply elem_of_cons in Hin as [->|Hin]; [|by do 2 right].
    destruct (Z.max_dec a x) as [->| ->]; [by left|by right; left].
  - repeat constructor; [lia..|done].
Qed.

Lemma sum_bounds l lo hi :
  Forall (fun x => lo <= x <= hi) l ->
  lo * Z.of_nat (length l) <= sum_list l <= hi * Z.of_nat (length l).
Proof.
  induction 1 as [|x l Hx Hl IH]; [simpl; unfold sum_list; simpl; lia|].
  change (x :: l) with ([x] ++ l). rewrite sum_list_app, length_app. unfold sum_list at 1 3. simpl. lia.
Qed.

(** A valid result is what its name says. *)
Definition is_stats (l : list Z) (s : pctl_stats_t) : Prop :=
  stats_valid s = true /\ min_us s ∈ l /\ max_us s ∈ l /\
  Forall (fun x => min_us s <= x <= max_us s) l /\ min_us s <= avg_us s <= max_us s /\
  avg_us s = sum_list l / Z.of_nat (length l).

Lemma stats_of_spec l :
  l <> [] -> Forall (fun x => 0 <= x < 2 ^ 64) l -> sum_list l < 2 ^ 64 -> is_stats l (stats_of l).
Proof.
  intros Hne Hr Hs. destruct (foldl_min_spec l UINT64_MAX) as [Hmin Hmle].
  destruct (foldl_max_spec l 0) as [Hmax Hxle].
  assert (E : stats_of l = mk_stats (foldl Z.min UINT64_MAX l) (foldl Z.max 0 l)
                             (u64 (sum_list l) / Z.of_nat (length l)) true) by (by destruct l).
  assert (Hn : 0 < Z.of_nat (length l)) by (destruct l; [done|simpl; lia]).
  inversion_clear Hmle as [|? ? _ Hmle']. inversion_clear Hxle as [|? ? _ Hxle'].
  set (mn := foldl Z.min UINT64_MAX l) in *. set (mx := foldl Z.max 0 l) in *.
  assert (Hb : Forall (fun x => mn <= x <= mx) l).
  { rewrite Forall_forall in *. intros x Hx. split; auto. }
  pose proof (sum_bounds l mn mx Hb).
  assert (0 <= sum_list l).
  { pose proof (sum_bounds l 0 (2 ^ 64)) as H0. rewrite Z.mul_0_l in H0. apply H0.
    eapply Forall_impl; [exact Hr|]. simpl. lia. }
  rewrite E. unfold is_stats. cbn [stats_valid min_us max_us avg_us].
  rewrite u64_small by lia. split_and!; try done.
  - apply elem_of_cons in Hmin as [Hmin|?]; [|done]. rewrite Hmin.
    assert (mn = UINT64_MAX) as Hu by (unfold UINT64_MAX in *; lia).
    destruct l as [|x l]; [done|]. inversion_clear Hb. inversion_clear Hr.
    replace UINT64_MAX with x by (unfold UINT64_MAX in *; lia). by left.
  - apply elem_of_cons in Hmax as [Hmax|?]; [|done]. rewrite Hmax.
    destruct l as [|x l]; [done|]. inversion_clear Hb. inversion_clear Hr.
    replace 0 with x by lia. by left.
  - apply Z.div_le_lower_bound; lia.
  - apply Z.div_le_upper_bound; lia.
Qed.


Definition demo_history : history := [(59000, 7); (60000, 10); (61000, 30); (125000, 5)].


(** ** The samples of one address *)

Definition accept (e : cstr * Z * Z) : option pctl_sample_t :=
  let '(addr, rtt_us, ts_ms) := e in
  if ceq (deref addr) NUL || (rtt_us =? 0) then None
  else Some (mk_sample rtt_us ts_ms (take 47 addr)).

Definition sample_adds (es : list (cstr * Z * Z)) : pctl_state_t :=
  foldl (fun g '(addr, rtt_us, ts_ms) => pctl_add g addr rtt_us ts_ms) (g_samples zero_globals) es.

Lemma sample_adds_rep es : sample_rep (sample_adds es) (last_n 4096 (omap accept es)).
Proof.
  induction es as [|[[addr rtt] ts] es IH] using rev_ind.
  { exact (ring_empty PCTL_SAMPLE_MAX sample_cap inhabitant). }
  unfold sample_adds. rewrite foldl_snoc, omap_app. fold (sample_adds es). cbn [omap list_omap].
  unfold accept at 2. destruct (ceq (deref addr) NUL || (rtt =? 0)) eqn:E.
  - rewrite app_nil_r. unfold pctl_add. by rewrite E.
  - apply orb_false_iff in E as [E1 E2]. bool_facts.
    rewrite <- last_n_push. by apply pctl_add_rep.
Qed.

(** The statistics of the focused address over a window are those of exactly
    the samples of that address since the start of the window among the last 4096
    accepted samples (samples without address or with a zero time are refused). *)
Theorem focused_statistics es addr window now :
  addr <> [] -> NUL ∉ addr ->
  compute_window_stats_for_addr (sample_adds es) addr window now
  = stats_of (matching addr (u64 (now - window)) (last_n 4096 (omap accept es))).
Proof.
  intros Hne Hn. apply window_addr_spec; [apply sample_adds_rep|].
  destruct addr as [|c addr]; [done|]. apply ceq_false. cbn [deref]. intros ->. apply Hn. by left.
Qed.

Lemma focused_statistics_witness :
  compute_window_stats_for_addr
    (sample_adds [(str "a", 9, 1000); (str "b", 5, 5000); (str "a", 7, 6000); (str "a", 0, 6000)])
    (str "a") 1000 6500 = mk_stats 7 7 7 true.
Proof.
  rewrite (focused_statistics _ (str "a") 1000 6500).
  - vm_compute. reflexivity.
  - done.
  - intros H. apply list_elem_of_singleton in H. discriminate H.
Defined.
