(* ===== verification/GeoIP.v ===== *)
(** * The GeoIP plugin (plugins/geoip/geoip.c)

    The plugin resolves hop addresses to a country and a provider and caches the
    answers in a 256-slot table with linear probing; entries are never removed.
    The table refines a finite map from addresses to answers ([cached]).  The
    IP2Location database and the HTTP client are parameters: [ip2loc] is the
    opened database, when there is one, and [http_get] is a transfer (its result,
    the status code and the chunks passed to the write callback).  [stale] is the
    content the uninitialised receive array of [web_lookup] happens to have.  The
    build with HAVE_IP2LOCATION is modelled; [ip2_open] is [IP2Location_open] and
    [files] gives the text of a file that can be opened. *)

From S2P Require Import Prelude CFloat JsonBuf JsonScan JsonDoc JsonRpc PluginConfig.

Definition GEO_CACHE_SIZE : Z := 256.
Definition GEO_COUNTRY_MAX : Z := 32.
Definition GEO_PROVIDER_MAX : Z := 64.

Record geo_entry_t := mk_geo {
  g_ip : cstr;
  g_country : cstr;
  g_provider : cstr;
  g_valid : bool;
}.

#[export] Instance geo_inhabited : Inhabited geo_entry_t := populate (mk_geo [] [] [] false).

Abbreviation geo_cache := (list geo_entry_t).

Definition empty_cache : geo_cache := replicate 256 inhabitant.

(** ** The cache *)

(** On [unsigned int]. *)
Definition hash_step (h : Z) (c : ascii) : Z := u32 (u32 (u32 (Z.shiftl h 5) + h) + ord c).

Definition geo_hash (ip : cstr) : Z := foldl hash_step 5381 ip mod GEO_CACHE_SIZE.

Definition geo_slot (idx i : Z) : nat := Z.to_nat (u32 (idx + i) mod GEO_CACHE_SIZE).

Fixpoint find_loop (fuel : nat) (c : geo_cache) (ip : cstr) (idx i : Z) : option geo_entry_t :=
  match fuel with
  | O => None
  | S f =>
      let e := c !!! geo_slot idx i in
      if g_valid e && streq (g_ip e) ip then Some e
      else if negb (g_valid e) then None
      else find_loop f c ip idx (i + 1)
  end.

Definition geo_cache_find (c : geo_cache) (ip : cstr) : option geo_entry_t :=
  find_loop 256 c ip (geo_hash ip) 0.

Definition new_entry (ip country provider : cstr) : geo_entry_t :=
  mk_geo (strncpy 47 ip) (strncpy 31 country) (strncpy 63 provider) true.

Fixpoint store_loop (fuel : nat) (c : geo_cache) (ip country provider : cstr) (idx i : Z) : geo_cache :=
  match fuel with
  | O => c
  | S f =>
      let e := c !!! geo_slot idx i in
      if negb (g_valid e) || streq (g_ip e) ip
      then <[geo_slot idx i := new_entry ip country provider]> c
      else store_loop f c ip country provider idx (i + 1)
  end.

Definition geo_cache_store (c : geo_cache) (ip country provider : cstr) : geo_cache :=
  store_loop 256 c ip country provider (geo_hash ip) 0.

(** ** Lookups *)

Definition json_extract (json : cstr) (key : string) (out_len : Z) : option cstr :=
  match nsr_json_obj_get json (str key) with
  | None => None
  | Some (v, len) => nsr_json_parse_str v len out_len
  end.

(** The receive buffer: its capacity and the text written so far. *)
Record curl_buf := mk_curl {
  cb_cap : Z;
  cb_text : cstr;
}.

(** The second component is the return value, the number of bytes offered. *)
Definition curl_write_cb (cb : curl_buf) (data : cstr) : curl_buf * Z :=
  let len := Z.of_nat (length (cb_text cb)) in
  let total := Z.of_nat (length data) in
  let n := if cb_cap cb <=? len + total then cb_cap cb - len - 1 else total in
  (if 0 <? n then mk_curl (cb_cap cb) (cb_text cb ++ take (Z.to_nat n) data) else cb, total).

Fixpoint contains (hay needle : cstr) : bool :=
  bool_decide (needle `prefix_of` hay) ||
  match hay with [] => false | _ :: hay' => contains hay' needle end.

(** The fields of an [IP2LocationRecord] the code reads; [None] is null. *)
Record ip2_record := mk_ip2 {
  country_short : option cstr;
  isp : option cstr;
}.

Record transfer := mk_transfer {
  curle_ok : bool;
  http_code : Z;
  chunks : list cstr;
}.

Section Lookups.

Variable ip2loc : option (cstr -> option ip2_record).
Variable http_get : cstr -> option transfer.
Variable stale : cstr.

(** [None]: the function returns false.  [Some]: it returns true with the new
    contents of [country] and [provider], which start out empty. *)
Definition local_lookup (ip : cstr) : option (cstr * cstr) :=
  match ip2loc with
  | None => None
  | Some get_all =>
      match get_all ip with
      | None => None
      | Some rec =>
          let country := match country_short rec with
                         | Some c => if ceq (deref c) NUL then None else Some (strncpy 31 c)
                         | None => None
                         end in
          let provider := match isp rec with
                          | Some p => if ceq (deref p) NUL || streq p (str "-") then None
                                      else Some (strncpy 63 p)
                          | None => None
                          end in
          match country, provider with
          | None, None => None
          | _, _ => Some (default [] country, default [] provider)
          end
      end
  end.

Definition lookup_url (ip : cstr) : cstr :=
  take 255 (str "http://ip-api.com/json/" ++ ip ++ str "?fields=status,country,countryCode,isp").

(** The text in the receive array after the transfer; without any byte written
    the array keeps its old content. *)
Definition received_text (ch : list cstr) : cstr :=
  let cb := foldl (fun cb d => (curl_write_cb cb d).1) (mk_curl 2048 []) ch in
  match cb_text cb with [] => c_content stale | t => c_content t end.

Definition quote_key (k v : string) : cstr := [QUOTE] ++ str k ++ [QUOTE] ++ str ":" ++ [QUOTE] ++ str v ++ [QUOTE].

Definition web_lookup (ip : cstr) : option (cstr * cstr) :=
  match http_get (lookup_url ip) with
  | None => None
  | Some t =>
      if negb (curle_ok t) || negb (http_code t =? 200) then None
      else
        let buf := received_text (chunks t) in
        if contains buf (quote_key "status" "fail") then None
        else
          let country := match json_extract buf "countryCode" 64 with
                         | Some c => Some (strncpy 31 c)
                         | None => strncpy 31 <$> json_extract buf "country" 64
                         end in
          let provider := strncpy 63 <$> json_extract buf "isp" 64 in
          match country, provider with
          | None, None => None
          | _, _ => Some (default [] country, default [] provider)
          end
  end.

(** The answer that is cached for an address. *)
Definition answer (ip : cstr) : cstr * cstr :=
  match local_lookup ip with
  | Some r => r
  | None => match web_lookup ip with Some r => r | None => (str "?", str "?") end
  end.

Definition resolve_one (c : geo_cache) (ip : cstr) : geo_cache :=
  if ceq (deref ip) NUL || streq ip (str "Reply Received") then c
  else match geo_cache_find c ip with
       | Some _ => c
       | None => let '(country, provider) := answer ip in geo_cache_store c ip country provider
       end.

(** ** Handlers *)

Definition geo_handle_init (id : Z) : cstr :=
  respond (response_head id "result" ++ keyed "status" (cstring (str "ok"))
    ++ keyed "description" (cstring (str "Resolve hop IPs to country & provider"))
    ++ [CObjEnd; CObjEnd]).

Definition geo_handle_update_telemetry (c : geo_cache) (params : cstr) : geo_cache :=
  match nsr_json_obj_get params (str "hops") with
  | None => c
  | Some (hops, _) =>
      foldl (fun c elem => resolve_one c (default [] (json_extract elem "addr" 64)))
        c (arr_elements hops)
  end.

Definition annotation_calls (c : geo_cache) (elem : cstr) : list json_call :=
  let hop_idx := int_member elem "hop_idx" (-1) in
  let addr := default [] (json_extract elem "addr" 64) in
  match geo_cache_find c addr with
  | Some e =>
      if g_valid e then
        CObjStart :: keyed "hop_idx" (CInt hop_idx)
          ++ keyed "text" (cstring (take 127 (str "[" ++ g_country e ++ str " " ++ g_provider e ++ str "]")))
          ++ [CObjEnd]
      else []
  | None => []
  end.

Definition geo_handle_render_hops (c : geo_cache) (params : cstr) (id : Z) : cstr :=
  let elems := match nsr_json_obj_get params (str "hops") with
               | Some (hops, _) => arr_elements hops
               | None => []
               end in
  respond (response_head id "result" ++ keyed "annotations" CArrStart
    ++ concat (map (annotation_calls c) elems) ++ [CArrEnd; CObjEnd; CObjEnd]).

(** The plugin's own copy of the error response. *)
Definition geo_send_error (id : Z) (message : cstr) : cstr :=
  respond (response_head id "error" ++ keyed "code" (CInt (-32601)) ++ keyed "message" (cstring message) ++ [CObjEnd; CObjEnd]).

(** One round of the loop of [main]. *)
Definition geo_main_line (c : geo_cache) (line : cstr) : geo_cache * cstr :=
  match parse_request line with
  | None => (c, [])
  | Some rq =>
      if streq (rq_method rq) (str "init") then
        (c, match rq_id rq with Some id => geo_handle_init id | None => [] end)
      else if streq (rq_method rq) (str "update_telemetry") then
        (geo_handle_update_telemetry c (rq_params rq), [])
      else if streq (rq_method rq) (str "render_hops") then
        (c, match rq_id rq with Some id => geo_handle_render_hops c (rq_params rq) id | None => [] end)
      else if streq (rq_method rq) (str "cleanup") then (c, [])
      else (c, match rq_id rq with Some id => geo_send_error id (str "Method not found") | None => [] end)
  end.

End Lookups.

(** The two plugins write errors the same way. *)
Lemma geo_error_same id message : geo_send_error id message = send_error id message.
Proof. reflexivity. Qed.

(** ** The database *)

Definition ip2_db : Type := cstr -> option ip2_record.

Record geoip_state_t := mk_geoip {
  gs_ip2loc : option ip2_db;
  gs_cache : geo_cache;
}.

Section Plugin.

Variable ip2_open : cstr -> option ip2_db.
Variable files : cstr -> option cstr.
Variable http_get : cstr -> option transfer.
Variable stale : cstr.

(** The part of [handle_init] before the answer. *)
Definition open_database (st : geoip_state_t) (params : cstr) : option ip2_db :=
  let config_path := default [] (json_extract params "config_path" 512) in
  match files config_path with
  | None => gs_ip2loc st
  | Some text =>
      match find_setting (fgets_all text) (str "IP2_LOCATION_DB") with
      | Some path => ip2_open path
      | None => gs_ip2loc st
      end
  end.

(** One line of input: the new state and what is printed. *)
Definition geo_step (st : geoip_state_t) (line : cstr) : geoip_state_t * cstr :=
  let db := match parse_request line with
            | Some rq =>
                if streq (rq_method rq) (str "init") && bool_decide (is_Some (rq_id rq))
                then open_database st (rq_params rq) else gs_ip2loc st
            | None => gs_ip2loc st
            end in
  let '(c, out) := geo_main_line db http_get stale (gs_cache st) line in
  (mk_geoip db c, out).

End Plugin.

(** ** Probing *)

Lemma geo_hash_range ip : 0 <= geo_hash ip < 256.
Proof. apply Z.mod_pos_bound. done. Qed.

(** The [i]-th slot on the probe path of an address. *)
Definition path (ip : cstr) (i : nat) : nat := geo_slot (geo_hash ip) (Z.of_nat i).

Lemma path_bound ip i : (path ip i < 256)%nat.
Proof.
  unfold path, geo_slot. pose proof (Z.mod_pos_bound (u32 (geo_hash ip + Z.of_nat i)) GEO_CACHE_SIZE).
  change GEO_CACHE_SIZE with 256 in *. lia.
Qed.

Lemma path_inj ip i j : (i < 256)%nat -> (j < 256)%nat -> path ip i = path ip j -> i = j.
Proof.
  intros Hi Hj. unfold path, geo_slot. change GEO_CACHE_SIZE with 256.
  pose proof (geo_hash_range ip). rewrite !u32_small by lia. intros E.
  assert ((geo_hash ip + Z.of_nat i) mod 256 = (geo_hash ip + Z.of_nat j) mod 256) as E'.
  { pose proof (Z.mod_pos_bound (geo_hash ip + Z.of_nat i) 256).
    pose proof (Z.mod_pos_bound (geo_hash ip + Z.of_nat j) 256). lia. }
  rewrite !Zmod_eq_full in E' by done. lia.
Qed.

(** Where a probe for an address stops: a free slot or the address itself. *)
Definition stops (ip : cstr) (e : geo_entry_t) : bool := negb (g_valid e) || streq (g_ip e) ip.

Fixpoint stop_at (fuel : nat) (c : geo_cache) (ip : cstr) (i : nat) : option nat :=
  match fuel with
  | O => None
  | S f => if stops ip (c !!! path ip i) then Some i else stop_at f c ip (S i)
  end.

Definition stop (c : geo_cache) (ip : cstr) : option nat := stop_at 256 c ip 0.

Lemma stop_at_spec f c ip i :
  match stop_at f c ip i with
  | Some j => (i <= j < i + f)%nat /\ stops ip (c !!! path ip j) = true /\
              forall k, (i <= k < j)%nat -> stops ip (c !!! path ip k) = false
  | None => forall k, (i <= k < i + f)%nat -> stops ip (c !!! path ip k) = false
  end.
Proof.
  revert i. induction f as [|f IH]; intros i; cbn [stop_at]; [intros; lia|].
  destruct (stops ip (c !!! path ip i)) eqn:E; [split_and!; [lia..|done|intros; lia]|].
  specialize (IH (S i)). destruct (stop_at f c ip (S i)) as [j|].
  - destruct IH as (? & ? & H). split_and!; [lia..|done|]. intros k Hk.
    destruct (decide (k = i)) as [->|]; [done|]. apply H. lia.
  - intros k Hk. destruct (decide (k = i)) as [->|]; [done|]. apply IH. lia.
Qed.

Lemma stop_spec c ip :
  match stop c ip with
  | Some j => (j < 256)%nat /\ stops ip (c !!! path ip j) = true /\
              forall k, (k < j)%nat -> stops ip (c !!! path ip k) = false
  | None => forall k, (k < 256)%nat -> stops ip (c !!! path ip k) = false
  end.
Proof.
  pose proof (stop_at_spec 256 c ip 0) as H. unfold stop.
  destruct (stop_at 256 c ip 0) as [j|].
  - destruct H as (? & ? & H). split_and!; [lia|done|]. intros k Hk. apply H. lia.
  - intros k Hk. apply H. lia.
Qed.

Lemma stop_unique c ip j :
  (j < 256)%nat -> stops ip (c !!! path ip j) = true ->
  (forall k, (k < j)%nat -> stops ip (c !!! path ip k) = false) -> stop c ip = Some j.
Proof.
  intros Hj Hs Hb. pose proof (stop_spec c ip) as H. destruct (stop c ip) as [i|].
  - destruct H as (Hi & Hsi & Hbi). f_equal.
    destruct (lt_eq_lt_dec i j) as [[?|?]|?]; [|done|].
    + by rewrite Hb in Hsi.
    + by rewrite Hbi in Hs.
  - by rewrite H in Hs.
Qed.

Lemma find_loop_stop f c ip i :
  find_loop f c ip (geo_hash ip) (Z.of_nat i)
  = match stop_at f c ip i with
    | Some j => let e := c !!! path ip j in if g_valid e then Some e else None
    | None => None
    end.
Proof.
  revert i. induction f as [|f IH]; intros i; [done|]. cbn [find_loop stop_at].
  change (geo_slot (geo_hash ip) (Z.of_nat i)) with (path ip i). unfold stops.
  replace (Z.of_nat i + 1) with (Z.of_nat (S i)) by lia. rewrite IH.
  destruct (g_valid (c !!! path ip i)) eqn:E1, (streq _ ip) eqn:E2; cbn; by rewrite ?E1.
Qed.

Lemma geo_find_stop c ip :
  geo_cache_find c ip
  = match stop c ip with
    | Some j => let e := c !!! path ip j in if g_valid e then Some e else None
    | None => None
    end.
Proof. apply (find_loop_stop 256 c ip 0). Qed.

Lemma store_loop_stop f c ip country provider i :
  store_loop f c ip country provider (geo_hash ip) (Z.of_nat i)
  = match stop_at f c ip i with
    | Some j => <[path ip j := new_entry ip country provider]> c
    | None => c
    end.
Proof.
  revert i. induction f as [|f IH]; intros i; [done|]. cbn [store_loop stop_at].
  change (geo_slot (geo_hash ip) (Z.of_nat i)) with (path ip i). unfold stops.
  replace (Z.of_nat i + 1) with (Z.of_nat (S i)) by lia. rewrite IH.
  by destruct (negb _ || _).
Qed.

Lemma geo_store_stop c ip country provider :
  geo_cache_store c ip country provider
  = match stop c ip with
    | Some j => <[path ip j := new_entry ip country provider]> c
    | None => c
    end.
Proof. apply (store_loop_stop 256 c ip country provider 0). Qed.

(** ** The invariant: every entry is where its probe stops *)

Definition geo_wf (c : geo_cache) : Prop :=
  length c = 256%nat /\
  forall p, (p < 256)%nat -> g_valid (c !!! p) = true ->
    (length (g_ip (c !!! p)) <= 47)%nat /\
    exists i, stop c (g_ip (c !!! p)) = Some i /\ path (g_ip (c !!! p)) i = p.

(** The answer the table holds for an address. *)
Definition cached (c : geo_cache) (ip : cstr) : option (cstr * cstr) :=
  (fun e => (g_country e, g_provider e)) <$> geo_cache_find c ip.

Lemma empty_wf : geo_wf empty_cache.
Proof.
  split; [apply length_replicate|]. intros p Hp.
  unfold empty_cache. rewrite lookup_total_replicate_2 by done. done.
Qed.

Lemma stops_new ip country provider :
  (length ip <= 47)%nat -> stops ip (new_entry ip country provider) = true.
Proof.
  intros H. unfold stops, new_entry, strncpy. cbn [g_valid g_ip negb orb].
  rewrite take_ge by done. by apply streq_true.
Qed.

Lemma stops_other ip ip' country provider :
  (length ip <= 47)%nat -> ip' <> ip -> stops ip' (new_entry ip country provider) = false.
Proof.
  intros H Hne. unfold stops, new_entry, strncpy. cbn [g_valid g_ip negb orb].
  rewrite take_ge by done. apply streq_false. congruence.
Qed.

Section Store.
Context (c : geo_cache) (ip country provider : cstr) (j : nat).
Hypothesis Hwf : geo_wf c.
Hypothesis Hip : (length ip <= 47)%nat.
Hypothesis Hstop : stop c ip = Some j.

Let c' := <[path ip j := new_entry ip country provider]> c.

Lemma stored_length : length c' = 256%nat.
Proof. unfold c'. rewrite length_insert. apply Hwf. Qed.

Lemma stored_slot p : (p < 256)%nat ->
  c' !!! p = if decide (p = path ip j) then new_entry ip country provider else c !!! p.
Proof.
  intros Hp. unfold c'. case_decide as E.
  - subst p. apply list_lookup_total_insert_eq. rewrite (proj1 Hwf). apply path_bound.
  - by apply list_lookup_total_insert_ne.
Qed.

(** The probe of the stored address stops where it did. *)
Lemma stop_stored : stop c' ip = Some j.
Proof.
  pose proof (stop_spec c ip) as H. rewrite Hstop in H. destruct H as (Hj & _ & Hb).
  apply stop_unique; [done| |].
  - rewrite stored_slot, decide_True by (done || apply path_bound). by apply stops_new.
  - intros k Hk. rewrite stored_slot, decide_False; [by apply Hb| |apply path_bound].
    intros E%path_inj; lia.
Qed.

(** A probe for another address that did not stop in a free slot is unchanged. *)
Lemma stop_other ip' i :
  ip' <> ip -> stop c ip' = Some i -> g_valid (c !!! path ip' i) = true -> stop c' ip' = Some i.
Proof.
  intros Hne Hs Hv. pose proof (stop_spec c ip') as H. rewrite Hs in H. destruct H as (Hi & Hst & Hb).
  pose proof (stop_spec c ip) as H. rewrite Hstop in H. destruct H as (_ & Hstj & _).
  unfold stops in Hst, Hstj. rewrite Hv in Hst. cbn in Hst. apply streq_true in Hst.
  apply stop_unique; [done| |].
  - rewrite stored_slot by apply path_bound. case_decide as E.
    + rewrite E in Hv, Hst. rewrite Hv in Hstj. cbn in Hstj. apply streq_true in Hstj. congruence.
    + unfold stops. rewrite Hv. by apply streq_true.
  - intros k Hk. rewrite stored_slot by apply path_bound. case_decide; [|by apply Hb].
    by apply stops_other.
Qed.

Lemma stored_wf : geo_wf c'.
Proof.
  split; [apply stored_length|]. intros p Hp. rewrite stored_slot by done. case_decide as E.
  - intros _. cbn [new_entry g_ip]. unfold strncpy. rewrite take_ge by done. split; [done|].
    exists j. split; [apply stop_stored|done].
  - intros Hv. destruct (proj2 Hwf p Hp Hv) as (Hl & i & Hs & Hpath). split; [done|].
    exists i. split; [|done]. apply stop_other; [|done|by rewrite Hpath].
    intros Heq. apply E. rewrite <- Hpath. rewrite Heq in *. congruence.
Qed.

Lemma cached_stored : cached c' ip = Some (take 31 country, take 63 provider).
Proof.
  unfold cached. rewrite geo_find_stop, stop_stored. cbn zeta.
  rewrite stored_slot, decide_True by (done || apply path_bound). done.
Qed.

(** A probe that stopped in a free slot still finds nothing. *)
Lemma find_other_absent ip' i :
  ip' <> ip -> stop c ip' = Some i -> g_valid (c !!! path ip' i) = false -> geo_cache_find c' ip' = None.
Proof.
  intros Hne Hs Hv. destruct (geo_cache_find c' ip') as [e|] eqn:E; [|done].
  rewrite geo_find_stop in E. pose proof (stop_spec c' ip') as H.
  destruct (stop c' ip') as [k|]; [|done]. cbn zeta in E.
  destruct (g_valid (c' !!! path ip' k)) eqn:Hvk; [|done]. destruct H as (Hk & Hst & Hb).
  unfold stops in Hst. rewrite Hvk in Hst. cbn in Hst. apply streq_true in Hst.
  rewrite stored_slot in Hvk, Hst by apply path_bound. case_decide as Ek.
  - cbn [new_entry g_ip] in Hst. unfold strncpy in Hst. rewrite take_ge in Hst by done. congruence.
  - destruct (proj2 Hwf _ (path_bound ip' k) Hvk) as (_ & i' & Hs' & Hp').
    rewrite Hst in Hs', Hp'. rewrite Hs in Hs'. injection Hs' as <-. by rewrite Hp', Hvk in Hv.
Qed.

Lemma cached_other ip' : ip' <> ip -> cached c' ip' = cached c ip'.
Proof.
  intros Hne. unfold cached. f_equal. rewrite (geo_find_stop c ip').
  destruct (stop c ip') as [i|] eqn:Hs.
  - cbn zeta. destruct (g_valid (c !!! path ip' i)) eqn:Hv; [|by eapply find_other_absent].
    rewrite geo_find_stop, (stop_other ip' i) by done. cbn zeta. rewrite stored_slot by apply path_bound.
    case_decide as E; [|by rewrite Hv]. exfalso.
    pose proof (stop_spec c ip') as H. rewrite Hs in H. destruct H as (_ & H1 & _).
    pose proof (stop_spec c ip) as H. rewrite Hstop in H. destruct H as (_ & H2 & _).
    unfold stops in H1, H2. rewrite <- E in H2. rewrite Hv in *. cbn in *.
    apply streq_true in H1, H2. congruence.
  - rewrite geo_find_stop. destruct (stop c' ip') as [k|] eqn:Hs'; [|done]. exfalso.
    pose proof (stop_spec c ip') as H. rewrite Hs in H.
    pose proof (stop_spec c' ip') as H'. rewrite Hs' in H'. destruct H' as (Hk & Hst & _).
    rewrite stored_slot in Hst by apply path_bound. case_decide.
    + by rewrite stops_other in Hst.
    + by rewrite H in Hst.
Qed.

End Store.

(** ** The cache as a map *)

Lemma path_surj ip p : (p < 256)%nat -> exists i, (i < 256)%nat /\ path ip i = p.
Proof.
  intros Hp. exists (Z.to_nat ((Z.of_nat p - geo_hash ip) mod 256)).
  pose proof (Z.mod_pos_bound (Z.of_nat p - geo_hash ip) 256). split; [lia|].
  unfold path, geo_slot. change GEO_CACHE_SIZE with 256. pose proof (geo_hash_range ip).
  rewrite u32_small by lia. rewrite Z2Nat.id by lia.
  rewrite Zplus_mod_idemp_r. replace (geo_hash ip + (Z.of_nat p - geo_hash ip)) with (Z.of_nat p) by lia.
  rewrite Z.mod_small by lia. lia.
Qed.

Definition has_room (c : geo_cache) : Prop := exists p, (p < 256)%nat /\ g_valid (c !!! p) = false.

Lemma stop_total c ip : has_room c \/ is_Some (cached c ip) -> is_Some (stop c ip).
Proof.
  intros H. destruct (stop c ip) as [j|] eqn:E; [done|]. exfalso.
  destruct H as [(p & Hp & Hv)|Hc].
  - destruct (path_surj ip p Hp) as (i & Hi & <-).
    pose proof (stop_spec c ip) as Hs. rewrite E in Hs. specialize (Hs i Hi).
    unfold stops in Hs. by rewrite Hv in Hs.
  - unfold cached in Hc. rewrite geo_find_stop, E in Hc. by destruct Hc.
Qed.

Lemma store_spec c ip country provider :
  geo_wf c -> (length ip <= 47)%nat ->
  let c' := geo_cache_store c ip country provider in
  geo_wf c' /\
  (forall ip', ip' <> ip -> cached c' ip' = cached c ip') /\
  (has_room c \/ is_Some (cached c ip) -> cached c' ip = Some (take 31 country, take 63 provider)) /\
  (~ has_room c -> cached c ip = None -> c' = c).
Proof.
  intros Hwf Hip c'. unfold c'. rewrite geo_store_stop. destruct (stop c ip) as [j|] eqn:E.
  - split_and!.
    + by apply stored_wf.
    + intros. by apply cached_other.
    + intros _. by apply cached_stored.
    + intros Hr Hn. exfalso. unfold cached in Hn. rewrite geo_find_stop, E in Hn. cbn zeta in Hn.
      apply Hr. exists (path ip j). split; [apply path_bound|]. by destruct (g_valid (c !!! path ip j)).
  - split_and!; try done. intros H%stop_total. rewrite E in H. by destruct H.
Qed.

(** C30: the answer table is a finite map that grows until its 256 slots are in
    use.  Storing an answer keeps the table well formed and the answers of all
    other addresses, and makes the (truncated) answer the one found for its
    address; only when every slot belongs to another address is the answer
    dropped and the table left as it was. *)
Theorem geo_cache_is_map c ip country provider :
  geo_wf c -> (length ip <= 47)%nat ->
  let c' := geo_cache_store c ip country provider in
  geo_wf c' /\
  (forall ip', ip' <> ip -> cached c' ip' = cached c ip') /\
  (has_room c \/ is_Some (cached c ip) -> cached c' ip = Some (take 31 country, take 63 provider)) /\
  (~ has_room c -> cached c ip = None -> c' = c).
Proof. exact (store_spec c ip country provider). Qed.

Lemma empty_room : has_room empty_cache.
Proof. exists 0%nat. split; [lia|done]. Qed.

Lemma geo_cache_is_map_witness :
  cached (geo_cache_store empty_cache (str "1.1.1.1") (str "AU") (str "APNIC")) (str "1.1.1.1")
  = Some (str "AU", str "APNIC").
Proof.
  apply (geo_cache_is_map empty_cache (str "1.1.1.1") (str "AU") (str "APNIC")).
  - exact empty_wf.
  - vm_compute. lia.
  - left. exact empty_room.
Defined.

(** ** Resolution *)

(** The addresses that are looked up. *)
Definition resolvable (ip : cstr) : Prop :=
  ceq (deref ip) NUL = false /\ ip <> str "Reply Received" /\ (length ip <= 47)%nat.

(** The number of slots in use. *)
Definition used_slots (c : geo_cache) : nat := length (filter (fun e => g_valid e = true) c).

Lemma used_room c : length c = 256%nat -> (used_slots c < 256)%nat -> has_room c.
Proof.
  intros Hl Hu. destruct (decide (Exists (fun e => g_valid e = false) c)) as [H|H].
  - apply Exists_exists in H as (e & He & Hv). apply list_elem_of_lookup in He as [p Hp].
    exists p. split; [rewrite <- Hl; by eapply lookup_lt_Some|].
    by rewrite (list_lookup_total_correct _ _ _ Hp).
  - exfalso. rewrite <- Hl in Hu. clear Hl. unfold used_slots in Hu.
    induction c as [|e c IH]; [simpl in Hu; lia|].
    rewrite filter_cons in Hu. destruct (g_valid e) eqn:Hv; [|by destruct H; left].
    rewrite decide_True in Hu by done. simpl in Hu. apply IH; [apply Nat.succ_lt_mono, Hu|]. intros Hx. by apply H; right.
Qed.

Lemma used_insert c p e : (used_slots (<[p := e]> c) <= S (used_slots c))%nat.
Proof.
  unfold used_slots. revert p. induction c as [|x c IH]; intros p; [simpl; lia|].
  destruct p as [|p].
  - change (<[0%nat := e]> (x :: c)) with (e :: c). rewrite !filter_cons. repeat case_decide; simpl; lia.
  - change (<[S p := e]> (x :: c)) with (x :: <[p := e]> c). rewrite !filter_cons.
    specialize (IH p). case_decide; cbn [length] in *; lia.
Qed.

Lemma used_store c ip country provider :
  (used_slots (geo_cache_store c ip country provider) <= S (used_slots c))%nat.
Proof. rewrite geo_store_stop. destruct (stop c ip); [apply used_insert|lia]. Qed.

Section Resolve.
Context (ip2loc : option (cstr -> option ip2_record)) (http_get : cstr -> option transfer) (stale : cstr).

Abbreviation resolve := (resolve_one ip2loc http_get stale).

(** The answer as it is stored. *)
Definition stored_answer (ip : cstr) : cstr * cstr :=
  let '(country, provider) := answer ip2loc http_get stale ip in (take 31 country, take 63 provider).

Lemma resolve_spec c ip :
  geo_wf c -> (length ip <= 47)%nat ->
  geo_wf (resolve c ip) /\ (used_slots (resolve c ip) <= S (used_slots c))%nat /\
  (forall ip' r, cached c ip' = Some r -> cached (resolve c ip) ip' = Some r) /\
  (forall ip', ip' <> ip -> cached (resolve c ip) ip' = cached c ip') /\
  (resolvable ip -> (used_slots c < 256)%nat -> cached c ip = None ->
   cached (resolve c ip) ip = Some (stored_answer ip)).
Proof.
  intros Hwf Hip. unfold resolve_one, stored_answer.
  destruct (ceq (deref ip) NUL || streq ip (str "Reply Received")) eqn:E.
  { split_and!; auto. intros (Hn & Hr & _). exfalso. apply orb_true_iff in E as [E|E]; [congruence|].
    by apply streq_true in E. }
  destruct (geo_cache_find c ip) as [e|] eqn:Hf.
  { split_and!; auto. intros _ _ Hn. unfold cached in Hn. by rewrite Hf in Hn. }
  destruct (answer ip2loc http_get stale ip) as [country provider].
  destruct (store_spec c ip country provider Hwf Hip) as (H1 & H2 & H3 & _).
  split_and!; auto using used_store.
  - intros ip' r Hr. rewrite H2; [done|]. intros ->. unfold cached in Hr. by rewrite Hf in Hr.
  - intros _ Hu Hn. apply H3. left. apply used_room; [apply Hwf|done].
Qed.

(** Resolving a list of addresses while there is room. *)
Lemma resolve_all c ips :
  geo_wf c -> Forall (fun ip => (length ip <= 47)%nat) ips -> (used_slots c + length ips <= 256)%nat ->
  geo_wf (foldl resolve c ips) /\
  (forall ip' r, cached c ip' = Some r -> cached (foldl resolve c ips) ip' = Some r) /\
  (forall ip, ip ∈ ips -> resolvable ip ->
     cached (foldl resolve c ips) ip
     = Some (match cached c ip with Some r => r | None => stored_answer ip end)).
Proof.
  revert c. induction ips as [|x ips IH]; intros c Hwf Hl Hu.
  { split_and!; try done. by intros ip ?%elem_of_nil. }
  inversion_clear Hl as [|? ? Hx Hl']. simpl in Hu. cbn [foldl].
  destruct (resolve_spec c x Hwf Hx) as (H1 & H2 & H3 & H4 & H5).
  destruct (IH (resolve c x) H1 Hl' ltac:(lia)) as (I1 & I2 & I3).
  split_and!; auto. intros ip Hin Hr. destruct (decide (ip = x)) as [->|Hne].
  - apply I2. destruct (cached c x) as [r|] eqn:Ec; [auto|]. apply H5; [done|lia|done].
  - apply elem_of_cons in Hin as [?|Hin]; [done|]. rewrite I3 by done. by rewrite H4.
Qed.

End Resolve.

(** An HTTP answer with status 200 and an empty body is decided by whatever
    the uninitialised receive array contains: two runs that differ only there
    cache different answers for the same address. *)
Theorem empty_body_reads_stale :
  exists ip stale1 stale2,
    let get := fun _ : cstr => Some (mk_transfer true 200 []) in
    cached (resolve_one None get stale1 empty_cache ip) ip
    <> cached (resolve_one None get stale2 empty_cache ip) ip.
Proof.
  exists (str "1.1.1.1"), [], (encode (JObj [(str "isp", JStr (str "old"))])).
  vm_compute. discriminate.
Qed.
