(* ===== verification/PluginSystem.v ===== *)
(** * Host and plugins together

    The line the host writes for a telemetry update, read by the plugins: every
    row of the snapshot reaches the plugin with its address, round-trip time and
    reply count. *)

From S2P Require Import Prelude CFloat JsonBuf JsonScan JsonDoc JsonRpc Telemetry Topology.
From S2P Require Import PluginConfig PluginDocs RpcConn PluginHost Percentile GeoIP.

(** The notification line of [nsr_plugins_update_telemetry]. *)
Definition telemetry_line (tel : nsr_telemetry_state_t) (topo : option nsr_topology_state_t) : cstr :=
  build_notification (str "update_telemetry") (Some (emit (telemetry_calls tel topo))) ++ [chr 10].

(** A row whose text and numbers the encoding carries: an address without
    control characters that fits the reader's 64-byte array, and values of 64
    bits. *)
Definition row_ok (r : row) : Prop :=
  plain (r_addr r) /\ (length (r_addr r) < 64)%nat /\
  - 2 ^ 63 <= r_idx r < 2 ^ 63 /\ - 2 ^ 63 <= r_rtt r < 2 ^ 63 /\ - 2 ^ 63 <= r_recv r < 2 ^ 63.

Definition telemetry_request (tel : nsr_telemetry_state_t) (topo : option nsr_topology_state_t) : json :=
  request_doc (str "update_telemetry") (telemetry_doc tel topo) None.

Lemma params_fit method p id :
  fits (print (request_doc method p id)) -> fits (print p).
Proof.
  unfold fits. intros H. enough (length (print p) <= length (print (request_doc method p id)))%nat by lia.
  unfold request_doc. destruct id; cbn [app print map join]; unfold print_member; cbn [fst snd];
    repeat (rewrite length_app || cbn [length]); lia.
Qed.

Lemma telemetry_line_text tel topo :
  fits (print (telemetry_request tel topo)) ->
  telemetry_line tel topo = print (telemetry_request tel topo) ++ [chr 10].
Proof.
  intros Hf. unfold telemetry_line.
  rewrite (emit_doc (telemetry_doc tel topo)).
  - by rewrite build_notification_doc.
  - rewrite telemetry_calls_doc. apply doc_calls_text.
  - by apply params_fit in Hf.
Qed.

Lemma telemetry_parsed tel topo :
  fits (print (telemetry_request tel topo)) ->
  exists rest, parse_request (telemetry_line tel topo)
    = Some (mk_request (str "update_telemetry") (print (telemetry_doc tel topo) ++ rest) None).
Proof.
  intros Hf. rewrite telemetry_line_text by done.
  destruct (parse_request_print (str "update_telemetry") (telemetry_doc tel topo) None)
    as (rest & _ & E); [|vm_compute; lia|done|by exists rest].
  repeat first [apply Forall_nil_2 | apply Forall_cons_2; [right; vm_compute; discriminate|]].
Qed.

Lemma row_members r rest :
  row_ok r ->
  str_member (print (row_doc r) ++ rest) "addr" 64 [] = r_addr r /\
  int_member (print (row_doc r) ++ rest) "rtt_us" 0 = r_rtt r /\
  int_member (print (row_doc r) ++ rest) "recv" 0 = r_recv r /\
  int_member (print (row_doc r) ++ rest) "hop_idx" (-1) = r_idx r.
Proof.
  intros (Hp & Hl & Hi & Hr & Hv). unfold row_doc. split_and!.
  - rewrite (str_member_print _ _ _ _ (r_addr r)) by (done || lia). apply take_ge. lia.
  - by apply int_member_print.
  - by apply int_member_print.
  - by apply int_member_print.
Qed.

(** What a reader of the [hops] array gets. *)
Lemma telemetry_elements tel topo rest :
  exists hops_text len, nsr_json_obj_get (print (telemetry_doc tel topo) ++ rest) (str "hops") = Some (hops_text, len) /\
    Forall2 (fun r e => exists q, e = print (row_doc r) ++ q) (telemetry_rows tel topo)
      (arr_elements hops_text).
Proof.
  unfold telemetry_doc. set (ms := _ :: _).
  pose proof (obj_get_print ms rest (str "hops")) as Hp.
  replace (find_member ms (str "hops"))
    with (Some (JArr (map row_doc (telemetry_rows tel topo)))) in Hp by done.
  destruct Hp as (r & -> & _). eexists _, _. split; [done|].
  pose proof (arr_elements_print (map row_doc (telemetry_rows tel topo)) r) as H.
  apply Forall2_fmap_l in H. eapply Forall2_impl; [exact H|]. intros x e (q & -> & _). eauto.
Qed.

(** ** The percentile plugin *)

(** The samples a row stands for. *)
Definition pctl_row (ts : Z) (g : pctl_globals) (r : row) : pctl_globals :=
  add_times (Z.to_nat (Z.min (r_recv r) 64)) g (r_addr r) (u64 (r_rtt r)) ts.

Lemma handle_hops_rows ts rs es g :
  Forall row_ok rs -> Forall2 (fun r e => exists q, e = print (row_doc r) ++ q) rs es ->
  foldl (handle_hop ts) g es = foldl (pctl_row ts) g rs.
Proof.
  intros Hok H. revert g Hok. induction H as [|r e rs es [q ->] H IH]; intros g Hok; [done|].
  inversion_clear Hok. cbn [foldl]. unfold handle_hop at 2.
  destruct (row_members r q) as (-> & -> & -> & _); [done|]. by apply IH.
Qed.

(** A telemetry notification written by the host is understood by the
    percentile plugin: it prints nothing, and for every probed hop and every
    further topology node, in order, it adds the round-trip time under the
    address as often as replies were received, up to 64 times. *)
Theorem telemetry_reaches_percentile clock g tel topo :
  Forall row_ok (telemetry_rows tel topo) -> fits (print (telemetry_request tel topo)) ->
  pctl_main_line clock g (telemetry_line tel topo)
  = (foldl (pctl_row (now_ms (clock 0%nat))) g (telemetry_rows tel topo), []).
Proof.
  intros Hok Hf. destruct (telemetry_parsed tel topo Hf) as [rest E].
  unfold pctl_main_line. rewrite E. apply (f_equal2 pair); [|done]. unfold handle_update_telemetry.
  cbn [rq_params].
  destruct (telemetry_elements tel topo rest) as (t & len & -> & He).
  by apply handle_hops_rows.
Qed.

(** A snapshot with one probed hop. *)
Definition demo_hop : nsr_hop_info_t :=
  {| addr := str "10.0.0.1"; rtt_us := 1500; sent := 2; recv := 1; primary_recv := 1;
     last_status := NSR_OBS_EXCEEDED; alias_count := 0; aliases := replicate 3 zero_alias |}.

Definition demo_telemetry : nsr_telemetry_state_t :=
  {| hops := zero_hop :: demo_hop :: replicate 62 zero_hop; target_ip := str "10.0.0.9";
     target_host := str "host"; start_time_us := 0; interval_ms := 1000 |}.

Lemma plain_printable s : Forall (fun c => 32 <= ord c) s -> plain s.
Proof. intros H. eapply Forall_impl; [exact H|]. by right. Qed.

Lemma demo_rows_ok : Forall row_ok (telemetry_rows demo_telemetry None).
Proof.
  change (telemetry_rows demo_telemetry None) with [hop_row 1 demo_hop].
  apply Forall_cons_2; [|apply Forall_nil_2]. unfold row_ok. cbn [hop_row r_addr r_idx r_rtt r_recv demo_hop].
  split; [|split; [vm_compute; lia|]].
  - apply plain_printable. repeat first [apply Forall_nil_2 | apply Forall_cons_2; [vm_compute; discriminate|]].
  - change (s64 (rtt_us demo_hop)) with 1500. cbn. lia.
Qed.

Lemma telemetry_reaches_percentile_witness :
  pctl_main_line (fun _ => Some (0, 0)) zero_globals (telemetry_line demo_telemetry None)
  = (pctl_row 0 zero_globals (hop_row 1 demo_hop), []).
Proof.
  apply (telemetry_reaches_percentile (fun _ => Some (0, 0)) zero_globals demo_telemetry None).
  - exact demo_rows_ok.
  - vm_compute. reflexivity.
Defined.

(** ** The GeoIP plugin *)

Lemma str_member_extract json key n : str_member json key n [] = default [] (json_extract json key n).
Proof. unfold str_member, json_extract. by destruct (nsr_json_obj_get json (str key)) as [[v len]|]. Qed.

Lemma resolve_hops_rows (f : geo_cache -> cstr -> geo_cache) rs es c :
  Forall row_ok rs -> Forall2 (fun r e => exists q, e = print (row_doc r) ++ q) rs es ->
  foldl (fun c elem => f c (default [] (json_extract elem "addr" 64))) c es = foldl f c (map r_addr rs).
Proof.
  intros Hok H. revert c Hok. induction H as [|r e rs es [q ->] H IH]; intros c Hok; [done|].
  inversion_clear Hok. cbn [foldl map]. rewrite <- str_member_extract.
  destruct (row_members r q) as (-> & _); [done|]. by apply IH.
Qed.

(** A telemetry notification written by the host is understood by the GeoIP
    plugin: it prints nothing, keeps every answer it has, and, as long as its
    table has room for the rows, afterwards holds an answer for every address of
    the snapshot that can be looked up: the answer it had, or else the result of
    one lookup. *)
Theorem telemetry_reaches_geoip ip2loc http_get stale c tel topo :
  geo_wf c -> Forall row_ok (telemetry_rows tel topo) ->
  Forall (fun r => (length (r_addr r) <= 47)%nat) (telemetry_rows tel topo) ->
  fits (print (telemetry_request tel topo)) ->
  (used_slots c + length (telemetry_rows tel topo) <= 256)%nat ->
  exists c', geo_main_line ip2loc http_get stale c (telemetry_line tel topo) = (c', []) /\ geo_wf c' /\
    (forall ip a, cached c ip = Some a -> cached c' ip = Some a) /\
    (forall r, r ∈ telemetry_rows tel topo -> resolvable (r_addr r) ->
       cached c' (r_addr r)
       = Some (match cached c (r_addr r) with
               | Some a => a
               | None => stored_answer ip2loc http_get stale (r_addr r)
               end)).
Proof.
  intros Hwf Hok Hl Hf Hu. destruct (telemetry_parsed tel topo Hf) as [rest E].
  unfold geo_main_line. rewrite E.
  cbn [rq_method rq_params rq_id].
  change (streq (str "update_telemetry") (str "init")) with false.
  change (streq (str "update_telemetry") (str "update_telemetry")) with true. cbn iota.
  unfold geo_handle_update_telemetry.
  destruct (telemetry_elements tel topo rest) as (t & len & -> & He).
  rewrite (resolve_hops_rows _ _ _ _ Hok He).
  destruct (resolve_all ip2loc http_get stale c (map r_addr (telemetry_rows tel topo)) Hwf)
    as (H1 & H2 & H3); [by apply Forall_map|by rewrite length_map|].
  eexists. split; [done|]. split_and!; auto. intros r Hr. apply H3. by apply list_elem_of_fmap_2.
Qed.

Lemma telemetry_reaches_geoip_witness :
  exists c', geo_main_line None (fun _ => None) [] empty_cache (telemetry_line demo_telemetry None) = (c', []) /\
    cached c' (str "10.0.0.1") = Some (str "?", str "?").
Proof.
  destruct (telemetry_reaches_geoip None (fun _ => None) [] empty_cache demo_telemetry None)
    as (c' & E & _ & _ & H).
  - exact empty_wf.
  - exact demo_rows_ok.
  - apply Forall_cons_2; [vm_compute; lia|apply Forall_nil_2].
  - vm_compute. reflexivity.
  - vm_compute. lia.
  - exists c'. split; [exact E|].
    apply (H (hop_row 1 demo_hop)); [by left|].
    split; [reflexivity|split; [discriminate|vm_compute; lia]].
Defined.

(** ** Settings *)

Definition init_doc (config dir : cstr) : json :=
  JObj [(str "config_path", JStr config); (str "plugin_dir", JStr dir)].

(** The line that starts a plugin. *)
Definition init_line (config dir : cstr) (id : Z) : cstr :=
  build_request (str "init") (Some (emit (init_params config dir))) id ++ [chr 10].

Lemma init_line_text config dir id :
  fits (print (request_doc (str "init") (init_doc config dir) (Some id))) ->
  init_line config dir id = print (request_doc (str "init") (init_doc config dir) (Some id)) ++ [chr 10].
Proof.
  intros Hf. unfold init_line. rewrite (emit_doc (init_doc config dir)).
  - by rewrite build_request_doc.
  - exact (doc_calls_text (init_doc config dir) []).
  - by apply params_fit in Hf.
Qed.

Abbreviation db_key := (str "IP2_LOCATION_DB").

(** What the plugin opens when it is started. *)
Lemma init_opens ip2_open files http_get stale st config dir id text path :
  plain config -> (length config <= 511)%nat -> - 2 ^ 63 <= id < 2 ^ 63 ->
  fits (print (request_doc (str "init") (init_doc config dir) (Some id))) ->
  files config = Some text -> find_setting (fgets_all text) db_key = Some path ->
  geo_step ip2_open files http_get stale st (init_line config dir id)
  = (mk_geoip (ip2_open path) (gs_cache st), geo_handle_init id).
Proof.
  intros Hp Hl Hid Hf Hfile Hset. rewrite init_line_text by done. unfold geo_step, geo_main_line.
  destruct (parse_request_print (str "init") (init_doc config dir) (Some id)) as (rest & _ & ->).
  - repeat first [apply Forall_nil_2 | apply Forall_cons_2; [right; vm_compute; discriminate|]].
  - vm_compute. lia.
  - by intros i [= <-].
  - cbn [rq_method rq_params rq_id]. change (streq (str "init") (str "init")) with true.
    rewrite (bool_decide_eq_true_2 (is_Some (Some id))) by done. cbn [andb]. unfold open_database.
    rewrite <- str_member_extract. unfold init_doc.
    rewrite (str_member_print _ _ _ _ config) by (done || lia). rewrite take_ge by lia. by rewrite Hfile, Hset.
Qed.

(** The settings file is shared safely.  The host rewrites it when a plugin is
    switched on or off, the GeoIP plugin reads the path of its database from it when
    it is started; whatever plugin is switched, and however, the database named in
    the first 256 lines is still the one that the plugin opens afterwards, and it
    answers the start with its description. *)
Theorem switch_keeps_database ip2_open files http_get stale st reg idx enabled text writable sp o e dir id path :
  aget (entries reg) idx = Some e -> good_key (setting_key (e_name e)) -> nul_free text -> terminated text ->
  find_setting (take 256 (fgets_all text)) db_key = Some path ->
  plain (config_path reg) -> (length (config_path reg) <= 511)%nat -> - 2 ^ 63 <= id < 2 ^ 63 ->
  fits (print (request_doc (str "init") (init_doc (config_path reg) dir) (Some id))) ->
  let '(reg', file, _) := nsr_plugins_set_enabled reg idx enabled (Some text) writable sp o in
  files (config_path reg') = file ->
  geo_step ip2_open files http_get stale st (init_line (config_path reg') dir id)
  = (mk_geoip (ip2_open path) (gs_cache st), geo_handle_init id).
Proof.
  intros He Hk Hn Ht Hset Hp Hl Hid Hf. unfold nsr_plugins_set_enabled. rewrite He.
  assert (Hall : find_setting (fgets_all text) db_key = Some path).
  { rewrite <- (take_drop 256 (fgets_all text)), find_setting_app. by rewrite Hset. }
  destruct (Bool.eqb (e_enabled e) enabled); [intros Hfile; by eapply init_opens|].
  cbn zeta. destruct (if enabled then _ else _) as [e' o']. cbn [config_path with_entries e_name with_enabled].
  unfold config_set_bool. destruct writable; [|intros Hfile; by eapply init_opens].
  intros Hfile. eapply init_opens; try done. by rewrite find_after_set.
Qed.

Lemma switch_keeps_database_witness :
  let text := str "IP2_LOCATION_DB=/db" ++ [chr 10] ++ str "NSR_PLUGIN_geoip=0" ++ [chr 10] in
  let reg := mk_registry [new_plugin (str "geoip") (str "/p/geoip")] (str "/c") (str "/p") in
  let file := config_set_bool (Some text) true (str "NSR_PLUGIN_geoip") true in
  geo_step (fun p => if streq p (str "/db") then Some (fun _ => None) else None) (fun _ => file) (fun _ => None) []
    (mk_geoip None empty_cache) (init_line (str "/c") (str "/p") 1)
  = (mk_geoip (Some (fun _ => None)) empty_cache, geo_handle_init 1).
Proof.
  cbn zeta.
  pose proof (switch_keeps_database (fun p => if streq p (str "/db") then Some (fun _ => None) else None)
    (fun _ => config_set_bool (Some (str "IP2_LOCATION_DB=/db" ++ [chr 10] ++ str "NSR_PLUGIN_geoip=0" ++ [chr 10]))
       true (str "NSR_PLUGIN_geoip") true) (fun _ => None) [] (mk_geoip None empty_cache)
    (mk_registry [new_plugin (str "geoip") (str "/p/geoip")] (str "/c") (str "/p")) 0 true
    (str "IP2_LOCATION_DB=/db" ++ [chr 10] ++ str "NSR_PLUGIN_geoip=0" ++ [chr 10]) true None
    (mk_os [] [] [] [] []) (new_plugin (str "geoip") (str "/p/geoip")) (str "/p") 1 (str "/db")) as H.
  apply H.
  - reflexivity.
  - split; [|vm_compute; lia].
    repeat first [apply Forall_nil_2 | apply Forall_cons_2; [split; [discriminate|split; [discriminate|split; discriminate]]|]].
  - vm_compute. intros Hin. repeat (inversion Hin as [|? ? ? Hx]; subst; clear Hin; rename Hx into Hin).
  - right. reflexivity.
  - vm_compute. reflexivity.
  - apply plain_printable. repeat first [apply Forall_nil_2 | apply Forall_cons_2; [vm_compute; discriminate|]].
  - vm_compute. lia.
  - lia.
  - vm_compute. reflexivity.
  - reflexivity.
Defined.
