(* ===== verification/Draw.v ===== *)
(** * Drawing on the terminal (src/ui/tui.c, the helpers)

    What the program draws is the sequence of ncurses calls it makes ([draw]);
    ncurses itself is not modelled.  [screen] is the size [getmaxyx] reports during
    a frame.  Texts are byte strings as the [printf] formats of the source produce
    them.  [on_screen] says that a call stays inside the screen. *)

From S2P Require Import Prelude CFloat JsonBuf.

Record screen := mk_screen {
  max_y : Z;
  max_x : Z;
}.

(** The colour pairs of the enumeration at the top of tui.c. *)
Definition CP_ACCENT : Z := 1.
Definition CP_HEALTH_GOOD : Z := 2.
Definition CP_HEALTH_DEGRADED : Z := 3.
Definition CP_HEALTH_POOR : Z := 4.
Definition CP_HEALTH_CRITICAL : Z := 5.
Definition CP_HEALTH_UNREACHABLE : Z := 6.
Definition CP_CTRL_PLANE : Z := 7.
Definition CP_HIGHLIGHT : Z := 8.

Inductive attribute :=
| COLOR_PAIR (n : Z)
| A_BOLD
| A_UNDERLINE.

(** A character cell; [ACS_DEFAULT] is the 0 that makes [mvhline] and [mvvline]
    use their line-drawing character. *)
Inductive glyph :=
| Glyph (c : ascii)
| ACS_DEFAULT | ACS_ULCORNER | ACS_URCORNER | ACS_LLCORNER | ACS_LRCORNER.

Inductive draw :=
| Erase
| Refresh
| AttrOn (a : list attribute)
| AttrOff (a : list attribute)
| Print (y x : Z) (text : cstr)
| HLine (y x : Z) (g : glyph) (n : Z)
| VLine (y x : Z) (g : glyph) (n : Z)
| AddCh (y x : Z) (g : glyph).

#[export] Instance attribute_eq_dec : EqDecision attribute.
Proof. solve_decision. Defined.
#[export] Instance glyph_eq_dec : EqDecision glyph.
Proof. solve_decision. Defined.
#[export] Instance draw_eq_dec : EqDecision draw.
Proof. solve_decision. Defined.

(** ** Numbers in formats *)

(** The magnitude of a finite value in units of [10^-d], rounded as [%.df] does. *)
Definition decimal_units (d : Z) (m : positive) (e : Z) : Z :=
  if 0 <=? e then Z.pos m * 2 ^ e * 10 ^ d else div_half_even (Z.pos m * 10 ^ d) (2 ^ (- e)).

(** [%.0f] and [%.1f]. *)
Definition fmt_f0 (x : cfloat) : cstr :=
  match x with
  | S754_zero s => (if s then str "-" else []) ++ str "0"
  | S754_infinity s => (if s then str "-" else []) ++ str "inf"
  | S754_nan => str "nan"
  | S754_finite s m e => (if s then str "-" else []) ++ dec_digits 310 (decimal_units 0 m e) []
  end.

Definition fmt_f1 (x : cfloat) : cstr :=
  match x with
  | S754_zero s => (if s then str "-" else []) ++ str "0.0"
  | S754_infinity s => (if s then str "-" else []) ++ str "inf"
  | S754_nan => str "nan"
  | S754_finite s m e =>
      let n := decimal_units 1 m e in
      (if s then str "-" else []) ++ dec_digits 310 (n / 10) [] ++ str "." ++ [chr (48 + n mod 10)]
  end.

(** ** Clipped text and boxes *)

Definition tui_print_clipped (sc : screen) (y x width : Z) (text : cstr) : list draw :=
  if (y <? 0) || (x <? 0) || (width <=? 0) then []
  else if (max_y sc <=? y) || (max_x sc <=? x) then []
  else
    let width := if max_x sc <? x + width then max_x sc - x else width in
    if width <=? 0 then [] else [Print y x (take (Z.to_nat width) text)].

Definition draw_box (sc : screen) (y x h w : Z) (title : option cstr) : list draw :=
  if (y <? 0) || (x <? 0) || (h <? 1) || (w <? 1) || (max_y sc <=? y) || (max_x sc <=? x) then []
  else
    let h := if max_y sc <=? y + h then max_y sc - y - 1 else h in
    let w := if max_x sc <=? x + w then max_x sc - x - 1 else w in
    if (h <? 1) || (w <? 1) then []
    else
      [AttrOn [COLOR_PAIR CP_ACCENT]; HLine y x ACS_DEFAULT w; HLine (y + h) x ACS_DEFAULT w;
       VLine y x ACS_DEFAULT h; VLine y (x + w) ACS_DEFAULT h; AddCh y x ACS_ULCORNER;
       AddCh y (x + w) ACS_URCORNER; AddCh (y + h) x ACS_LLCORNER; AddCh (y + h) (x + w) ACS_LRCORNER]
      ++ match title with
         | Some title => [AttrOn [A_BOLD]] ++ tui_print_clipped sc y (x + 2) (w - 3) title ++ [AttrOff [A_BOLD]]
         | None => []
         end
      ++ [AttrOff [COLOR_PAIR CP_ACCENT]].

(** [for (int i = 0; i < h; i++) mvhline(y + i, x, ' ', w)]. *)
Definition blank_rows (y x h w : Z) : list draw :=
  map (fun i => HLine (y + i) x (Glyph " ") w) (seqZ 0 h).

(** ** Staying on the screen *)

Definition on_screen (sc : screen) (d : draw) : bool :=
  match d with
  | Print y x t => (0 <=? y) && (y <? max_y sc) && (0 <=? x) && (x + Z.of_nat (length t) <=? max_x sc)
  | HLine y x _ n => (0 <=? y) && (y <? max_y sc) && (0 <=? x) && (x + n <=? max_x sc)
  | VLine y x _ n => (0 <=? y) && (y + n <=? max_y sc) && (0 <=? x) && (x <? max_x sc)
  | AddCh y x _ => (0 <=? y) && (y <? max_y sc) && (0 <=? x) && (x <? max_x sc)
  | _ => true
  end.

Definition all_on_screen (sc : screen) (ds : list draw) : Prop := Forall (fun d => on_screen sc d = true) ds.

Lemma on_screen_app sc ds ds' :
  all_on_screen sc ds -> all_on_screen sc ds' -> all_on_screen sc (ds ++ ds').
Proof. intros. by apply Forall_app_2. Qed.

Lemma on_screen_attr sc a : all_on_screen sc [AttrOn a] /\ all_on_screen sc [AttrOff a].
Proof. split; repeat constructor. Qed.

(** Splits a list of calls into its elements and turns the coordinates into
    arithmetic. *)
Ltac on_screen_calls :=
  repeat first [apply Forall_nil_2 | apply Forall_cons_2];
  unfold on_screen; rewrite ?andb_true_iff, ?Z.leb_le, ?Z.ltb_lt; repeat split; try lia.

Lemma print_clipped_on_screen sc y x width text : all_on_screen sc (tui_print_clipped sc y x width text).
Proof.
  unfold tui_print_clipped. repeat split_if; bool_facts; on_screen_calls;
    rewrite length_take; lia.
Qed.

Lemma box_on_screen sc y x h w title : all_on_screen sc (draw_box sc y x h w title).
Proof.
  unfold draw_box. destruct ((y <? 0) || _ || _ || _ || _ || _) eqn:E; [constructor|]. bool_facts.
  set (h' := if max_y sc <=? y + h then _ else _). set (w' := if max_x sc <=? x + w then _ else _).
  assert (y + h' < max_y sc /\ x + w' < max_x sc) as [Hh Hw]
    by (unfold h', w'; split; split_if; bool_facts; lia).
  destruct ((h' <? 1) || (w' <? 1)) eqn:E'; [constructor|]. bool_facts.
  apply on_screen_app; [on_screen_calls|]. apply on_screen_app; [|apply on_screen_attr].
  destruct title; [|constructor].
  apply on_screen_app; [apply on_screen_attr|]. apply on_screen_app; [|apply on_screen_attr].
  apply print_clipped_on_screen.
Qed.

Lemma blank_rows_on_screen sc y x h w :
  0 <= y -> 0 <= x -> y + h <= max_y sc -> x + w <= max_x sc -> all_on_screen sc (blank_rows y x h w).
Proof.
  intros. unfold blank_rows, all_on_screen. rewrite Forall_map. apply Forall_forall. intros i Hi.
  apply elem_of_seqZ in Hi. unfold on_screen. rewrite !andb_true_iff, !Z.leb_le, !Z.ltb_lt. lia.
Qed.

#[export] Hint Resolve on_screen_app print_clipped_on_screen box_on_screen : nsr.
