(* ===== verification/TuiState.v ===== *)
(** * State of the user interface (include/nsr/ui/tui.h, src/ui/tui.c)

    Modes, the navigation stack and the other fields of [nsr_tui_state_t], with the
    operations on the navigation stack and on the message line.  The fields
    [grid_scroll_x], [last_max_y] and [last_max_x] are never used by the code and
    are left out.  The stack operations refine a list of at most eight modes
    ([nav_refines_stack]). *)

From S2P Require Import Prelude KeySlots.

Inductive nsr_ui_mode_t := NSR_UI_NORMAL | NSR_UI_GRID | NSR_UI_TREE | NSR_UI_TOOLS.

#[export] Instance ui_mode_eq_dec : EqDecision nsr_ui_mode_t.
Proof. solve_decision. Defined.

Definition mode_is (m m' : nsr_ui_mode_t) : bool := bool_decide (m = m').

Definition NSR_UI_STACK_DEPTH : Z := 8.

(** [modes] is the array, of which the first [count] entries are in use. *)
Record nsr_ui_stack_t := mk_stack {
  modes : list nsr_ui_mode_t;
  count : Z;
}.

(** [keys] is the remap table of the key manager. *)
Record nsr_tui_state_t := mk_tui {
  current_mode : nsr_ui_mode_t;
  nav_stack : nsr_ui_stack_t;
  grid_cursor : Z;
  tree_cursor : Z;
  tree_scroll : Z;
  grid_scroll_y : Z;
  tools_cursor : Z;
  tools_scroll : Z;
  focused_node_id : Z;
  show_stats : bool;
  show_dashboard : bool;
  frozen : bool;
  msg : cstr;
  msg_until : Z;
  keys : list Z;
}.

(** The state [main] starts with: zeroed, then the key manager's table. *)
Definition tui_start (table : list Z) : nsr_tui_state_t :=
  mk_tui NSR_UI_NORMAL (mk_stack (replicate 8 NSR_UI_NORMAL) 0) 0 0 0 0 0 0 0 false false false [] 0 table.

(** *** Field updates *)

Definition with_nav (t : nsr_tui_state_t) (m : nsr_ui_mode_t) (s : nsr_ui_stack_t) : nsr_tui_state_t :=
  mk_tui m s (grid_cursor t) (tree_cursor t) (tree_scroll t) (grid_scroll_y t) (tools_cursor t)
    (tools_scroll t) (focused_node_id t) (show_stats t) (show_dashboard t) (frozen t) (msg t)
    (msg_until t) (keys t).
Definition with_grid (t : nsr_tui_state_t) (cursor scroll : Z) : nsr_tui_state_t :=
  mk_tui (current_mode t) (nav_stack t) cursor (tree_cursor t) (tree_scroll t) scroll (tools_cursor t)
    (tools_scroll t) (focused_node_id t) (show_stats t) (show_dashboard t) (frozen t) (msg t)
    (msg_until t) (keys t).
Definition with_tree (t : nsr_tui_state_t) (cursor scroll : Z) : nsr_tui_state_t :=
  mk_tui (current_mode t) (nav_stack t) (grid_cursor t) cursor scroll (grid_scroll_y t) (tools_cursor t)
    (tools_scroll t) (focused_node_id t) (show_stats t) (show_dashboard t) (frozen t) (msg t)
    (msg_until t) (keys t).
Definition with_tools (t : nsr_tui_state_t) (cursor scroll : Z) : nsr_tui_state_t :=
  mk_tui (current_mode t) (nav_stack t) (grid_cursor t) (tree_cursor t) (tree_scroll t) (grid_scroll_y t)
    cursor scroll (focused_node_id t) (show_stats t) (show_dashboard t) (frozen t) (msg t)
    (msg_until t) (keys t).
Definition with_focus (t : nsr_tui_state_t) (id : Z) : nsr_tui_state_t :=
  mk_tui (current_mode t) (nav_stack t) (grid_cursor t) (tree_cursor t) (tree_scroll t) (grid_scroll_y t)
    (tools_cursor t) (tools_scroll t) id (show_stats t) (show_dashboard t) (frozen t) (msg t)
    (msg_until t) (keys t).
Definition with_switches (t : nsr_tui_state_t) (stats dashboard frz : bool) : nsr_tui_state_t :=
  mk_tui (current_mode t) (nav_stack t) (grid_cursor t) (tree_cursor t) (tree_scroll t) (grid_scroll_y t)
    (tools_cursor t) (tools_scroll t) (focused_node_id t) stats dashboard frz (msg t)
    (msg_until t) (keys t).
Definition with_msg (t : nsr_tui_state_t) (text : cstr) (till : Z) : nsr_tui_state_t :=
  mk_tui (current_mode t) (nav_stack t) (grid_cursor t) (tree_cursor t) (tree_scroll t) (grid_scroll_y t)
    (tools_cursor t) (tools_scroll t) (focused_node_id t) (show_stats t) (show_dashboard t) (frozen t) text
    till (keys t).

(** ** Operations *)

(** [now]: the result of [time]. *)
Definition show_tui_msg (t : nsr_tui_state_t) (text : cstr) (seconds now : Z) : nsr_tui_state_t :=
  with_msg t (strncpy 127 text) (now + seconds).

Definition push_nav (t : nsr_tui_state_t) (mode : nsr_ui_mode_t) : nsr_tui_state_t :=
  let s := nav_stack t in
  if count s <? NSR_UI_STACK_DEPTH
  then with_nav t mode (mk_stack (<[Z.to_nat (count s) := current_mode t]> (modes s)) (count s + 1))
  else with_nav t mode s.

Definition pop_nav (t : nsr_tui_state_t) : nsr_tui_state_t :=
  let s := nav_stack t in
  if 0 <? count s
  then with_nav t (nth (Z.to_nat (count s - 1)) (modes s) NSR_UI_NORMAL) (mk_stack (modes s) (count s - 1))
  else with_nav t NSR_UI_NORMAL s.

Definition goto_normal (t : nsr_tui_state_t) : nsr_tui_state_t :=
  with_nav t NSR_UI_NORMAL (mk_stack (modes (nav_stack t)) 0).

Definition nsr_tui_toggle_dashboard (t : nsr_tui_state_t) : nsr_tui_state_t :=
  with_switches t (show_stats t) (negb (show_dashboard t)) (frozen t).

(** [tui->keys.vt->matches(&tui->keys, c, ch)]. *)
Definition is_key_for (t : nsr_tui_state_t) (c : ascii) (ch : Z) : bool := key_mgr_matches (keys t) c ch.

(** ** The navigation stack refines a bounded list *)

Definition stack_wf (s : nsr_ui_stack_t) : Prop :=
  length (modes s) = 8%nat /\ 0 <= count s <= NSR_UI_STACK_DEPTH.

(** The modes to return to, the next one first. *)
Definition history (t : nsr_tui_state_t) : list nsr_ui_mode_t :=
  reverse (take (Z.to_nat (count (nav_stack t))) (modes (nav_stack t))).

Lemma history_length t : stack_wf (nav_stack t) -> Z.of_nat (length (history t)) = count (nav_stack t).
Proof.
  intros [Hl Hc]. unfold history, NSR_UI_STACK_DEPTH in *. rewrite length_reverse, length_take. lia.
Qed.

Lemma push_nav_spec t m :
  stack_wf (nav_stack t) ->
  stack_wf (nav_stack (push_nav t m)) /\ current_mode (push_nav t m) = m /\
  history (push_nav t m) = if (length (history t) <? 8)%nat then current_mode t :: history t else history t.
Proof.
  intros Hwf. pose proof (history_length t Hwf) as Hlen. destruct Hwf as [Hl Hc].
  unfold push_nav, NSR_UI_STACK_DEPTH in *. split_if; bool_facts.
  - rewrite (proj2 (Nat.ltb_lt _ _)) by lia. cbn. unfold stack_wf, NSR_UI_STACK_DEPTH. cbn.
    rewrite length_insert. split_and!; try lia; try done.
    unfold history. cbn [nav_stack with_nav count modes]. replace (Z.to_nat (count (nav_stack t) + 1)) with (S (Z.to_nat (count (nav_stack t)))) by lia.
    rewrite (take_S_r _ _ (current_mode t)) by (apply list_lookup_insert_eq; lia).
    rewrite take_insert_ge by lia. by rewrite reverse_snoc.
  - rewrite (proj2 (Nat.ltb_ge _ _)) by lia. unfold stack_wf, NSR_UI_STACK_DEPTH. cbn. auto.
Qed.

Lemma pop_nav_spec t :
  stack_wf (nav_stack t) ->
  stack_wf (nav_stack (pop_nav t)) /\
  current_mode (pop_nav t) = hd NSR_UI_NORMAL (history t) /\ history (pop_nav t) = tl (history t).
Proof.
  intros Hwf. pose proof (history_length t Hwf) as Hlen. destruct Hwf as [Hl Hc].
  unfold pop_nav, stack_wf, NSR_UI_STACK_DEPTH in *. split_if; bool_facts; cbn; split_and!; try lia; try done.
  - unfold history. cbn [nav_stack with_nav count modes]. replace (Z.to_nat (count (nav_stack t))) with (S (Z.to_nat (count (nav_stack t) - 1))) by lia.
    destruct (lookup_lt_is_Some_2 (modes (nav_stack t)) (Z.to_nat (count (nav_stack t) - 1))) as [x Hx]; [lia|].
    rewrite (take_S_r _ _ x) by done. rewrite reverse_snoc. cbn. by apply nth_lookup_Some.
  - unfold history. cbn [nav_stack with_nav count modes]. replace (Z.to_nat (count (nav_stack t))) with (S (Z.to_nat (count (nav_stack t) - 1))) by lia.
    destruct (lookup_lt_is_Some_2 (modes (nav_stack t)) (Z.to_nat (count (nav_stack t) - 1))) as [x Hx]; [lia|].
    rewrite (take_S_r _ _ x) by done. by rewrite reverse_snoc.
  - destruct (history t); [done|]. cbn in Hlen. lia.
  - change (history (with_nav t NSR_UI_NORMAL (nav_stack t))) with (history t).
    destruct (history t); [done|]. cbn in Hlen. lia.
Qed.

Lemma goto_normal_spec t :
  stack_wf (nav_stack t) ->
  stack_wf (nav_stack (goto_normal t)) /\ current_mode (goto_normal t) = NSR_UI_NORMAL /\
  history (goto_normal t) = [].
Proof. intros [Hl Hc]. unfold stack_wf, NSR_UI_STACK_DEPTH. cbn. auto with lia. Qed.

(** ** Sequences of navigation calls *)

Inductive nav_call := Push (m : nsr_ui_mode_t) | Pop | GotoNormal.

Definition run_nav (t : nsr_tui_state_t) (c : nav_call) : nsr_tui_state_t :=
  match c with Push m => push_nav t m | Pop => pop_nav t | GotoNormal => goto_normal t end.

(** The abstract navigation: the current mode and the modes to return to. *)
Definition nav_spec (s : nsr_ui_mode_t * list nsr_ui_mode_t) (c : nav_call)
    : nsr_ui_mode_t * list nsr_ui_mode_t :=
  match c with
  | Push m => (m, if (length s.2 <? 8)%nat then s.1 :: s.2 else s.2)
  | Pop => (hd NSR_UI_NORMAL s.2, tl s.2)
  | GotoNormal => (NSR_UI_NORMAL, [])
  end.

Lemma run_nav_spec t c :
  stack_wf (nav_stack t) ->
  stack_wf (nav_stack (run_nav t c)) /\
  (current_mode (run_nav t c), history (run_nav t c)) = nav_spec (current_mode t, history t) c.
Proof.
  intros Hwf. destruct c as [m| |]; cbn.
  - destruct (push_nav_spec t m Hwf) as (? & -> & ->). auto.
  - destruct (pop_nav_spec t Hwf) as (? & -> & ->). auto.
  - by destruct (goto_normal_spec t Hwf) as (? & _ & _).
Qed.

Lemma run_navs_spec cs t :
  stack_wf (nav_stack t) ->
  let t' := foldl run_nav t cs in
  stack_wf (nav_stack t') /\
  (current_mode t', history t') = foldl nav_spec (current_mode t, history t) cs.
Proof.
  revert t. induction cs as [|c cs IH]; intros t Hwf; [done|]. cbn [foldl].
  destruct (run_nav_spec t c Hwf) as [Hwf' <-]. by apply IH.
Qed.

Lemma start_stack_wf table : stack_wf (nav_stack (tui_start table)).
Proof. done. Qed.

(** The navigation stack of the interface, an array of eight modes with a
    counter, refines an abstract history: whatever pushes, pops and returns to the
    normal mode are made from the start, the array is never indexed out of
    bounds, the current mode and the modes still to return to are those of the
    abstract run, where a push on a full history forgets the mode it leaves and a
    pop of an empty one gives the normal mode. *)
Theorem nav_refines_stack table cs :
  let t := foldl run_nav (tui_start table) cs in
  stack_wf (nav_stack t) /\ (length (history t) <= 8)%nat /\
  (current_mode t, history t) = foldl nav_spec (NSR_UI_NORMAL, []) cs.
Proof.
  cbn zeta. destruct (run_navs_spec cs (tui_start table) (start_stack_wf table)) as [Hwf He].
  split; [done|]. split; [|exact He].
  pose proof (history_length _ Hwf) as Hl. destruct Hwf as [_ Hc]. unfold NSR_UI_STACK_DEPTH in Hc. lia.
Qed.
