(* ===== verification/PluginRender.v ===== *)
(** * Plugin panels (src/plugin/plugin.c, drawing part)

    [nsr_plugins_render]: for every active plugin the last answer to [render] is
    drawn, pending answers are collected and, when no request is outstanding, the
    next one is sent.  Arguments are never null.  [int] sums of coordinates are
    not wrapped: coordinates that plugins send are taken to be small enough, as the
    code does. *)

From S2P Require Import Prelude CFloat JsonBuf JsonScan JsonDoc JsonRpc RpcConn Telemetry Topology.
From S2P Require Import PluginConfig PluginDocs PluginHost Draw TuiState.

(** ** Drawing an answer *)

(** The pair of a named colour, 0 for none. *)
Definition color_for_name (name : cstr) : Z :=
  if streq name (str "cyan") then 1
  else if streq name (str "green") then 2
  else if streq name (str "yellow") then 3
  else if streq name (str "red") then 4
  else if streq name (str "magenta") then 5
  else if streq name (str "blue") then 6
  else if streq name (str "white") then 7
  else if streq name (str "highlight") then 8
  else 0.

Definition draw_text (y x pair : Z) (text : cstr) : list draw :=
  if pair =? 0 then [Print y x text]
  else [AttrOn [COLOR_PAIR pair]; Print y x text; AttrOff [COLOR_PAIR pair]].

(** The body of the loop of [draw_render_response]. *)
Definition draw_elem (y x : Z) (elem : cstr) : list draw :=
  let ly := int_member elem "y" (-1) in
  let lx := int_member elem "x" (-1) in
  let text := str_member elem "text" 128 [] in
  let color := str_member elem "color" 32 [] in
  if (0 <=? ly) && (0 <=? lx) && negb (ceq (deref text) NUL)
  then draw_text (s32 ly + y) (s32 lx + x) (color_for_name color) text
  else [].

Definition draw_render_response (json : cstr) (y x : Z) : list draw :=
  match nsr_json_obj_get json (str "result") with
  | None => []
  | Some (result, _) =>
      match nsr_json_obj_get result (str "lines") with
      | None => []
      | Some (lines, _) => concat (map (draw_elem y x) (arr_elements lines))
      end
  end.

(** ** The panel of a plugin *)

Record panel := mk_panel {
  p_y : Z;
  p_x : Z;
  p_h : Z;
  p_w : Z;
}.

(** The blanked area with its frame in colour pair [pair]. *)
Definition panel_frame (p : panel) (pair : Z) : list draw :=
  let '(mk_panel py px ph pw) := p in
  blank_rows py px ph pw
  ++ [AttrOn [COLOR_PAIR pair]; HLine py px ACS_DEFAULT pw; HLine (py + ph - 1) px ACS_DEFAULT pw;
      VLine py px ACS_DEFAULT ph; VLine py (px + pw - 1) ACS_DEFAULT ph; AddCh py px ACS_ULCORNER;
      AddCh py (px + pw - 1) ACS_URCORNER; AddCh (py + ph - 1) px ACS_LLCORNER;
      AddCh (py + ph - 1) (px + pw - 1) ACS_LRCORNER; AttrOff [COLOR_PAIR pair]].

(** What the answer says about the panel: modal flag, width, height. *)
Definition modal_request (resp : cstr) : bool * Z * Z :=
  match resp with
  | [] => (false, 60, 13)
  | _ =>
      match nsr_json_obj_get resp (str "result") with
      | None => (false, 60, 13)
      | Some (res, _) =>
          (default false (bool_member res "is_modal"), int_member res "modal_width" 60,
           int_member res "modal_height" 13)
      end
  end.

(** The panel, and the drawing of its background. *)
Definition place_panel (name : cstr) (modal : bool) (m_w m_h y x h w screen_h screen_w : Z)
    : panel * list draw :=
  if modal then
    let ph := s32 m_h in
    let pw := s32 m_w in
    let p := mk_panel (Z.max 0 (Z.quot (screen_h - ph) 2)) (Z.max 0 (Z.quot (screen_w - pw) 2)) ph pw in
    (p, panel_frame p 3)
  else if streq name (str "sniffer") then
    let p := mk_panel (Z.max 0 (screen_h - 18 - 2)) (Z.max 0 (screen_w - 60 - 2)) 18 60 in
    (p, panel_frame p 1)
  else (mk_panel y x h w, []).

Definition mode_name (m : nsr_ui_mode_t) : cstr :=
  match m with
  | NSR_UI_GRID => str "grid"
  | NSR_UI_TREE => str "tree"
  | NSR_UI_TOOLS => str "tools"
  | NSR_UI_NORMAL => str "normal"
  end.

(** The address of the focused node, empty when there is none. *)
Definition focused_addr (id : Z) (topo : nsr_topology_state_t) : cstr :=
  if id =? 0 then []
  else match node_by_id topo id with Some (_, n) => n_addr n | None => [] end.

Definition render_calls (mode : nsr_ui_mode_t) (pw ph id : Z) (addr : cstr) : list json_call :=
  CObjStart :: keyed "mode" (cstring (mode_name mode)) ++ keyed "width" (CInt pw)
    ++ keyed "height" (CInt ph) ++ keyed "focused_node_id" (CInt id)
    ++ keyed "focused_addr" (cstring addr) ++ [CObjEnd].

Definition with_render_id (e : nsr_plugin_entry_t) (p : bool) (id : Z) : nsr_plugin_entry_t :=
  mk_entry (e_name e) (e_path e) (e_description e) (e_enabled e) (e_initialized e) (e_dead e) (e_rpc e)
    (last_render_resp e) (last_render_hops_resp e) p (render_hops_pending e)
    (on_key_pending e) (is_modal e) id (pending_render_hops_id e)
    (pending_on_key_id e) (last_on_key_ms e) (reserved_keys e) (key_queue e) (key_queue_head e)
    (key_queue_count e) (last_key_ch e) (last_key_ms e) (pending_open_editor e)
    (pending_open_editor_file e).

(** The request that follows the drawing. *)
Definition request_render (mode : nsr_ui_mode_t) (focus : Z) (topo : nsr_topology_state_t) (p : panel)
    (e : nsr_plugin_entry_t) (o : os) : nsr_plugin_entry_t * os :=
  if render_pending e then (e, o)
  else
    let params := emit (render_calls mode (p_w p) (p_h p) focus (focused_addr focus topo)) in
    let '(ok, id, r, o) := nsr_json_rpc_send_request (e_rpc e) (str "render") (Some params) o in
    let e := with_rpc e r in
    if ok : bool then (with_render_id e true (default (pending_render_id e) id), o)
    else (if rpc_dead r then with_flags (with_render_id e false (default (pending_render_id e) id)) (e_initialized e) true
          else with_render_id e false (default (pending_render_id e) id), o).

(** The body of the loop for an active plugin. *)
Definition render_active (mode : nsr_ui_mode_t) (focus : Z) (topo : nsr_topology_state_t)
    (y x h w screen_h screen_w : Z) (e : nsr_plugin_entry_t) (o : os)
    : list draw * nsr_plugin_entry_t * os :=
  let '(modal, m_w, m_h) := modal_request (last_render_resp e) in
  let e := with_modal e modal in
  let '(p, frame) := place_panel (e_name e) modal m_w m_h y x h w screen_h screen_w in
  let lines := match last_render_resp e with
               | [] => []
               | resp => draw_render_response resp (p_y p) (p_x p)
               end in
  let '(_, e, o) := plugin_drain_response e 5 o in
  let '(e, o) := request_render mode focus topo p e o in
  (frame ++ lines, e, o).

Fixpoint nsr_plugins_render (mode : nsr_ui_mode_t) (focus : Z) (topo : nsr_topology_state_t)
    (y x h w screen_h screen_w : Z) (es : list nsr_plugin_entry_t) (o : os)
    : list draw * list nsr_plugin_entry_t * os :=
  match es with
  | [] => ([], [], o)
  | e :: es' =>
      let '(e, o) := plugin_check_alive e o in
      let '(d1, e, o) :=
        if active e then render_active mode focus topo y x h w screen_h screen_w e o else ([], e, o) in
      let '(d2, es', o) := nsr_plugins_render mode focus topo y x h w screen_h screen_w es' o in
      (d1 ++ d2, e :: es', o)
  end.

(** ** Answers of plugins and what becomes of them *)

(** One entry of the [lines] array of an answer; without a colour the member is
    left out. *)
Record panel_line := mk_line {
  pl_y : Z;
  pl_x : Z;
  pl_text : cstr;
  pl_color : option cstr;
}.

Definition line_doc (l : panel_line) : json :=
  JObj ([(str "y", JInt (pl_y l)); (str "x", JInt (pl_x l)); (str "text", JStr (pl_text l))]
        ++ match pl_color l with Some c => [(str "color", JStr c)] | None => [] end).

(** Coordinates of an [int], texts that fit the 128-byte and 32-byte arrays. *)
Definition line_ok (l : panel_line) : Prop :=
  - 2 ^ 31 <= pl_y l < 2 ^ 31 /\ - 2 ^ 31 <= pl_x l < 2 ^ 31 /\
  plain (pl_text l) /\ (length (pl_text l) < 128)%nat /\
  plain (default [] (pl_color l)) /\ (length (default [] (pl_color l)) < 32)%nat.

(** What a line is meant to draw: its text at the given offset of the origin in
    its colour, nothing when it is empty or lies outside. *)
Definition line_draws (y x : Z) (l : panel_line) : list draw :=
  if (pl_y l <? 0) || (pl_x l <? 0) || bool_decide (pl_text l = []) then []
  else draw_text (y + pl_y l) (x + pl_x l) (color_for_name (default [] (pl_color l))) (pl_text l).

Lemma s32_id z : - 2 ^ 31 <= z < 2 ^ 31 -> s32 z = z.
Proof. intros Hz. unfold s32. rewrite Z.mod_small by lia. lia. Qed.

Lemma str_member_absent m rest key n dflt :
  find_member m (str key) = None -> str_member (print (JObj m) ++ rest) key n dflt = dflt.
Proof.
  intros Hm. pose proof (obj_get_print m rest (str key)) as Hp. rewrite Hm in Hp. cbn [points_to] in Hp.
  unfold str_member. by rewrite Hp.
Qed.

Lemma draw_elem_print y x l rest :
  line_ok l -> draw_elem y x (print (line_doc l) ++ rest) = line_draws y x l.
Proof.
  intros (Hy & Hx & Ht & Htl & Hc & Hcl). unfold draw_elem, line_doc, line_draws.
  rewrite (int_member_print _ rest "y" (pl_y l)) by (try done; lia).
  rewrite (int_member_print _ rest "x" (pl_x l)) by (try done; lia).
  rewrite (str_member_print _ rest "text" 128 (pl_text l)) by done.
  assert (str_member (print (JObj ([(str "y", JInt (pl_y l)); (str "x", JInt (pl_x l)); (str "text", JStr (pl_text l))]
        ++ match pl_color l with Some c => [(str "color", JStr c)] | None => [] end)) ++ rest) "color" 32 []
    = default [] (pl_color l)) as ->.
  { destruct (pl_color l) as [c|]; cbn [default] in *.
    - rewrite (str_member_print _ rest "color" 32 c) by done. apply take_ge. lia.
    - by apply str_member_absent. }
  rewrite (take_ge (pl_text l)) by lia. rewrite !s32_id by lia.
  rewrite (Z.add_comm (pl_y l)), (Z.add_comm (pl_x l)).
  assert (ceq (deref (pl_text l)) NUL = bool_decide (pl_text l = [])) as ->.
  { destruct (pl_text l) as [|c t] eqn:E; [done|]. rewrite bool_decide_eq_false_2 by done.
    apply ceq_false. cbn. intros ->. apply plain_nul_free in Ht. apply Ht. by left. }
  rewrite !Z.ltb_antisym. by destruct (0 <=? pl_y l), (0 <=? pl_x l), (bool_decide _).
Qed.

(** An answer whose result has these lines. *)
Definition answer_lines (m rm : list (cstr * json)) (ls : list panel_line) : Prop :=
  find_member m (str "result") = Some (JObj rm) /\
  find_member rm (str "lines") = Some (JArr (map line_doc ls)).

Lemma draw_response_lines m rm ls y x :
  answer_lines m rm ls -> Forall line_ok ls ->
  draw_render_response (print (JObj m)) y x = concat (map (line_draws y x) ls).
Proof.
  intros [Hr Hl] Hok. unfold draw_render_response.
  pose proof (obj_get_print m [] (str "result")) as Hp. rewrite Hr, app_nil_r in Hp.
  destruct Hp as (q & -> & _).
  pose proof (obj_get_print rm q (str "lines")) as Hp. rewrite Hl in Hp. destruct Hp as (q' & -> & _).
  pose proof (arr_elements_print (map line_doc ls) q') as He. apply Forall2_fmap_l in He.
  f_equal. revert He. generalize (arr_elements (print (JArr (map line_doc ls)) ++ q')). intros els He.
  clear Hl. induction He as [|l elem ls' es (rest & -> & _) He IH]; [done|].
  inversion_clear Hok. cbn [map]. by rewrite draw_elem_print, IH.
Qed.

Lemma bool_member_print m rest key b :
  find_member m (str key) = Some (JBool b) -> bool_member (print (JObj m) ++ rest) key = Some b.
Proof.
  intros Hm. pose proof (obj_get_print m rest (str key)) as Hp. rewrite Hm in Hp.
  destruct Hp as (r & E & _). unfold bool_member. by rewrite E, parse_bool_print.
Qed.

Lemma frame_on_screen sc h w pair :
  1 <= h <= max_y sc -> 1 <= w <= max_x sc ->
  all_on_screen sc (panel_frame (mk_panel (Z.max 0 (Z.quot (max_y sc - h) 2))
                                          (Z.max 0 (Z.quot (max_x sc - w) 2)) h w) pair).
Proof.
  intros Hh Hw. rewrite !Z.quot_div_nonneg by lia.
  pose proof (Z.div_mod (max_y sc - h) 2). pose proof (Z.mod_pos_bound (max_y sc - h) 2).
  pose proof (Z.div_mod (max_x sc - w) 2). pose proof (Z.mod_pos_bound (max_x sc - w) 2).
  unfold panel_frame. apply on_screen_app; [apply blank_rows_on_screen; lia|].
  set (y := _ / 2) in *. set (x := (max_x sc - w) / 2) in *. clearbody x y.
  on_screen_calls.
Qed.


Definition demo_lines : list panel_line :=
  [mk_line 1 2 (str "p99 12.3 ms") (Some (str "cyan")); mk_line 2 2 (str "p50") None].

Definition demo_result : list (cstr * json) :=
  [(str "is_modal", JBool true); (str "modal_width", JInt 40); (str "modal_height", JInt 10);
   (str "lines", JArr (map line_doc demo_lines))].

Definition demo_answer : list (cstr * json) := [(str "id", JInt 2); (str "result", JObj demo_result)].

Lemma demo_lines_ok : Forall line_ok demo_lines.
Proof.
  repeat first [apply Forall_nil_2 | apply Forall_cons_2];
    unfold line_ok; cbn [pl_y pl_x pl_text pl_color default]; split_and!; try lia;
    try (vm_compute; lia);
    repeat first [apply Forall_nil_2 | apply Forall_cons_2; [right; vm_compute; discriminate|]].
Qed.

