(* ===== verification/HostLink.v ===== *)
(** * What the host writes to a plugin and takes from it

    The lines on the pipes, the messages they carry, and an invariant that relates the
    entry of a plugin (PluginHost.v) to the messages written and the lines taken:
    identifiers, the slots for answers, the queue of keys.  Every piece of work the
    host does for a plugin keeps it, as long as what it reads does not ask to start
    over. *)

From S2P Require Import Prelude CFloat JsonBuf JsonScan JsonDoc JsonRpc RpcConn Telemetry Topology.
From S2P Require Import PluginConfig PluginDocs PluginHost Draw TuiState PluginRender PluginSystem.

(** ** Lines *)

Abbreviation newline := (chr 10).

Definition one_line (s : cstr) : Prop := newline ∉ s.

(** The bytes of some lines. *)
Definition flat (ls : list cstr) : cstr := concat (map (fun l => l ++ [newline]) ls).

Lemma flat_app ls ks : flat (ls ++ ks) = flat ls ++ flat ks.
Proof. unfold flat. by rewrite map_app, concat_app. Qed.

Lemma flat_one l : flat [l] = l ++ [newline].
Proof. unfold flat. cbn. by rewrite app_nil_r. Qed.

Lemma flat_cons l ls : flat (l :: ls) = l ++ newline :: flat ls.
Proof. unfold flat. cbn. by rewrite <- app_assoc. Qed.

Lemma one_line_app s t : one_line s -> one_line t -> one_line (s ++ t).
Proof. unfold one_line. rewrite elem_of_app. tauto. Qed.

Lemma one_line_cons c s : c <> newline -> one_line s -> one_line (c :: s).
Proof. unfold one_line. rewrite elem_of_cons. intros ? ? [?|?]; auto. Qed.

Lemma one_line_nil : one_line [].
Proof. apply not_elem_of_nil. Qed.

(** A line is taken off in one way only. *)
Lemma line_unique l k s t : one_line l -> one_line k -> l ++ newline :: s = k ++ newline :: t -> l = k /\ s = t.
Proof.
  unfold one_line. revert k. induction l as [|c l IH]; intros [|d k] Hl Hk E; cbn in E.
  - by injection E as ->.
  - injection E as <- _. destruct Hk. by left.
  - injection E as -> _. destruct Hl. by left.
  - injection E as -> E. apply not_elem_of_cons in Hl as [_ Hl], Hk as [_ Hk]. by destruct (IH k Hl Hk E) as [-> ->].
Qed.

(** Whole lines at the front of some lines are the first of them. *)
Lemma flat_prefix ls ks rest more :
  Forall one_line ls -> Forall one_line ks -> flat ls ++ rest ++ more = flat ks -> ls `prefix_of` ks.
Proof.
  intros Hl. revert ks. induction Hl as [|l ls Hl Hls IH]; intros ks Hk E; [apply prefix_nil|].
  destruct ks as [|k ks]; [rewrite flat_cons in E; by destruct l|]. inversion_clear Hk as [|? ? Hk1 Hk2].
  rewrite !flat_cons, <- app_assoc in E. cbn [app] in E. apply line_unique in E as [-> E]; [|done..].
  apply prefix_cons. by apply IH.
Qed.

Lemma split_line_flat l ls rest : one_line l -> split_line (flat (l :: ls) ++ rest) = Some (l, flat ls ++ rest).
Proof.
  intros Hl. rewrite flat_cons. pose proof (split_line_spec ((l ++ newline :: flat ls) ++ rest)) as Hs.
  destruct (split_line _) as [[k t]|].
  - destruct Hs as [E Hk]. rewrite <- app_assoc in E. cbn [app] in E. apply line_unique in E as [-> ->]; done.
  - destruct Hs. rewrite !elem_of_app, elem_of_cons. auto.
Qed.

(** ** Printed documents are one line *)

Lemma esc_char_one_line c : one_line (esc_char c).
Proof. apply (bool_decide_unpack _). by destruct c as [[] [] [] [] [] [] [] []]. Qed.

Lemma quoted_one_line s : one_line (quoted s).
Proof.
  unfold quoted. apply one_line_cons; [done|]. apply one_line_app; [|by apply one_line_cons, one_line_nil].
  unfold esc. induction (c_content s) as [|c t IH]; [apply one_line_nil|]. cbn [map concat].
  apply one_line_app; [apply esc_char_one_line|done].
Qed.

Lemma scalar_one_line s : scalar_text s -> one_line s.
Proof. intros [_ Hs] Hin. rewrite Forall_forall in Hs. by specialize (Hs _ Hin). Qed.

Lemma join_one_line l : Forall one_line l -> one_line (join l).
Proof.
  induction 1 as [|x l Hx Hl IH]; [apply one_line_nil|].
  destruct l; [done|]. cbn [join] in *. apply one_line_app; [done|]. by apply one_line_cons.
Qed.

Lemma print_one_line v : one_line (print v).
Proof.
  induction v as [|b|z|x|s|l IH|m IH] using json_nested_ind; cbn [print].
  - apply scalar_one_line. by repeat constructor.
  - apply scalar_one_line. destruct b; by repeat constructor.
  - apply scalar_one_line, fmt_lld_scalar.
  - apply scalar_one_line, scalar_take; [lia|apply fmt_f6_scalar].
  - apply quoted_one_line.
  - apply one_line_cons; [done|]. apply one_line_app; [|by apply one_line_cons, one_line_nil].
    by apply join_one_line, Forall_map.
  - apply one_line_cons; [done|]. apply one_line_app; [|by apply one_line_cons, one_line_nil].
    apply join_one_line, Forall_map. eapply Forall_impl; [exact IH|]. intros [k v] Hv.
    unfold print_member. apply one_line_app; [apply quoted_one_line|]. by apply one_line_cons.
Qed.

(** ** The size of a printed document *)

Fixpoint size_bound (v : json) : Z :=
  match v with
  | JNull | JBool _ => 5
  | JInt _ => 32
  | JDouble _ => 63
  | JStr s => 2 + 6 * Z.of_nat (length s)
  | JArr l => 2 + foldr Z.add 0 (map (fun v => 1 + size_bound v) l)
  | JObj m => 2 + foldr Z.add 0 (map (fun '(k, v) => 4 + 6 * Z.of_nat (length k) + size_bound v) m)
  end.

Lemma esc_char_length c : (length (esc_char c) <= 6)%nat.
Proof. apply (bool_decide_unpack _). by destruct c as [[] [] [] [] [] [] [] []]. Qed.

Lemma quoted_length s : Z.of_nat (length (quoted s)) <= 2 + 6 * Z.of_nat (length s).
Proof.
  assert (H : (length (esc s) <= 6 * length s)%nat).
  { unfold esc. induction s as [|c s IH]; [done|]. cbn [c_content]. split_if; [cbn; lia|]. cbn [map concat].
    rewrite length_app. pose proof (esc_char_length c). cbn [length]. lia. }
  unfold quoted. cbn [length]. rewrite length_app. cbn [length]. lia.
Qed.

Lemma join_length ls : Z.of_nat (length (join ls)) <= foldr Z.add 0 (map (fun l => 1 + Z.of_nat (length l)) ls).
Proof.
  induction ls as [|l ls IH]; [done|]. destruct ls as [|k ls]; [cbn; lia|].
  change (join (l :: k :: ls)) with (l ++ [","%char] ++ join (k :: ls)). rewrite !length_app.
  cbn [map foldr length] in *. lia.
Qed.

Lemma sum_mono {A} (f g : A -> Z) l : Forall (fun x => f x <= g x) l -> foldr Z.add 0 (map f l) <= foldr Z.add 0 (map g l).
Proof. induction 1; cbn; lia. Qed.

Lemma print_size v : Z.of_nat (length (print v)) <= size_bound v.
Proof.
  induction v as [|b|z|x|s|l IH|m IH] using json_nested_ind; cbn [print size_bound].
  - done.
  - by destruct b.
  - pose proof (fmt_lld_length z). lia.
  - rewrite length_take. lia.
  - apply quoted_length.
  - rewrite !length_app. pose proof (join_length (map print l)) as Hj. rewrite map_map in Hj.
    pose proof (sum_mono (fun v => 1 + Z.of_nat (length (print v))) (fun v => 1 + size_bound v) l) as Hs.
    cbn [length]. assert (Forall (fun v => 1 + Z.of_nat (length (print v)) <= 1 + size_bound v) l) as Hf.
    { eapply Forall_impl; [exact IH|]. cbn. lia. }
    specialize (Hs Hf). lia.
  - rewrite !length_app. pose proof (join_length (map (print_member print) m)) as Hj. rewrite map_map in Hj.
    pose proof (sum_mono (fun kv => 1 + Z.of_nat (length (print_member print kv)))
      (fun '(k, v) => 4 + 6 * Z.of_nat (length k) + size_bound v) m) as Hs.
    assert (Forall (fun kv => 1 + Z.of_nat (length (print_member print kv))
      <= (let '(k, v) := kv in 4 + 6 * Z.of_nat (length k) + size_bound v)) m) as Hf.
    { eapply Forall_impl; [exact IH|]. intros [k v] Hv. cbn [snd] in Hv. unfold print_member.
      rewrite ?length_app. cbn [length fst snd]. rewrite ?length_app. cbn [length]. pose proof (quoted_length k). lia. }
    specialize (Hs Hf). cbn [length]. lia.
Qed.

Lemma sum_bound docs b : 0 <= b -> Forall (fun d => size_bound d <= b) docs ->
  foldr Z.add 0 (map (fun v => 1 + size_bound v) docs) <= Z.of_nat (length docs) * (1 + b).
Proof. intros Hb. induction 1; cbn [map foldr length]; lia. Qed.

Lemma fits_bound v : size_bound v < 2 ^ 62 -> fits (print v).
Proof. intros H. unfold fits. pose proof (print_size v). lia. Qed.

(** ** Messages *)

(** A request with its method and its parameters, or the news of a snapshot. *)
Inductive message :=
| Req (id : Z) (method : cstr) (params : json)
| Tell (tel : nsr_telemetry_state_t) (topo : option nsr_topology_state_t).

Definition message_doc (m : message) : json :=
  match m with
  | Req id me p => request_doc me p (Some id)
  | Tell tel topo => telemetry_request tel topo
  end.

Definition line_of (m : message) : cstr := print (message_doc m).

(** The probed hops an annotation is asked for. *)
Definition asked_rows (hs : list nsr_hop_info_t) (hop_count : Z) : list row :=
  hop_rows 1 (drop 1 (take (Z.to_nat (Z.min 64 hop_count)) hs)).

Definition hops_doc (hs : list nsr_hop_info_t) (hop_count : Z) : json :=
  JObj [(str "hops", JArr (map row_doc (asked_rows hs hop_count)))].

(** What the host asks for, and what it tells. *)
Definition message_ok (m : message) : Prop :=
  fits (line_of m) /\
  match m with
  | Req id me p => (- 2 ^ 31 <= id < 2 ^ 31) /\ Z.of_nat (length (line_of m)) < 2 ^ 50 /\ me ∈ [str "init"; str "on_key"; str "render"; str "render_hops"] /\
      (me = str "render_hops" -> exists hs n, p = hops_doc hs n)
  | Tell _ _ => True
  end.

Definition req_id (m : message) : option Z := match m with Req id _ _ => Some id | Tell _ _ => None end.

(** The identifiers of the requests, in order. *)
Definition req_ids (ms : list message) : list Z := omap req_id ms.

Lemma req_ids_app ms ns : req_ids (ms ++ ns) = req_ids ms ++ req_ids ns.
Proof. apply omap_app. Qed.

Lemma req_ids_length ms : (length (req_ids ms) <= length ms)%nat.
Proof.
  induction ms as [|m ms IH]; [done|]. change (req_ids (m :: ms)) with (req_ids ([m] ++ ms)). rewrite req_ids_app, length_app.
  destruct m; cbn in *; lia.
Qed.

(** An answer that does not ask the host to start over. *)
Definition quiet (l : cstr) : Prop :=
  streq (str_member l "method" 64 []) (str "force_sync") = false /\
  forall result len, nsr_json_obj_get l (str "result") = Some (result, len) -> bool_member result "force_sync" <> Some true.

(** ** The host's side *)

(** What the host knows when it has written the messages [S] and taken the lines [R]:
    identifiers count the requests, and the two slots for answers hold answers to
    requests of their method. *)
Definition slot_ok (S : list message) (R : list cstr) (method : string) (pending : bool) (id : Z) (resp : cstr) : Prop :=
  (pending = true -> exists p, Req id (str method) p ∈ S) /\
  (resp = [] \/ exists l p, l ∈ R /\ resp = c_content l /\ Req (message_id (c_content l)) (str method) p ∈ S).

Record host_inv (e : nsr_plugin_entry_t) (S : list message) (R : list cstr) : Prop := mk_host_inv {
  hi_tx : exists part, tx (e_rpc e) = flat (map line_of S) ++ part /\ one_line part /\
            (rpc_dead (e_rpc e) = false -> part = []);
  hi_ok : Forall message_ok S;
  hi_next : - 2 ^ 31 <= rpc_next_id (e_rpc e) < 2 ^ 31;
  hi_ids : Z.of_nat (length S) < 2 ^ 31 - 1 ->
    req_ids S = seqZ 1 (Z.of_nat (length (req_ids S))) /\
    (rpc_dead (e_rpc e) = false -> rpc_next_id (e_rpc e) = 1 + Z.of_nat (length (req_ids S)));
  hi_render : slot_ok S R "render" (render_pending e) (pending_render_id e) (last_render_resp e);
  hi_hops : slot_ok S R "render_hops" (render_hops_pending e) (pending_render_hops_id e) (last_render_hops_resp e);
}.

Lemma slot_more S R S' R' me p id resp : slot_ok S R me p id resp -> slot_ok (S ++ S') (R ++ R') me p id resp.
Proof.
  intros [Hp Hr]. split.
  - intros Hpd. destruct (Hp Hpd) as [q Hq]. exists q. apply elem_of_app. by left.
  - destruct Hr as [|(l & q & Hl & -> & Hq)]; [by left|]. right. exists l, q. rewrite !elem_of_app. auto.
Qed.

Lemma slot_cleared S R me id : slot_ok S R me false id [].
Proof. by split; [|left]. Qed.

(** The key event that a message carries. *)
Definition key_of (m : message) : option nsr_key_event_t :=
  match m with
  | Req _ me (JObj ms) =>
      if bool_decide (me = str "on_key") then
        match find_member ms (str "key") with
        | Some (JInt ch) =>
            Some (mk_event ch (match find_member ms (str "modal_input") with Some (JBool b) => b | _ => false end))
        | _ => None
        end
      else None
  | _ => None
  end.

Definition keys_of (S : list message) : list nsr_key_event_t := omap key_of S.

Definition not_key (m : message) : Prop := match m with Req _ me _ => me <> str "on_key" | Tell _ _ => True end.

(** The plugin asks for an editor on a file. *)
Definition asks_editor (resp : cstr) (file : cstr) : Prop :=
  exists result len, nsr_json_obj_get resp (str "result") = Some (result, len) /\
    streq (str_member result "action" 64 []) (str "open_editor") = true /\
    file = strncpy 255 (str_member result "file" 256 []).

(** The keys: those that were sent and then those in the queue were pressed, in this
    order ([A]: all that were pressed); every key that was sent is answered, but for the
    one the host waits for; an editor is to be opened because the answer to a key asks
    for it. *)
Record key_inv (e : nsr_plugin_entry_t) (S : list message) (R : list cstr) (A : list nsr_key_event_t) : Prop := mk_key_inv {
  ki_order : exists q, kq_rep e q /\ keys_of S ++ q `sublist_of` A;
  ki_waiting : on_key_pending e = true -> exists p, Req (pending_on_key_id e) (str "on_key") p ∈ S;
  ki_single : forall id p, Req id (str "on_key") p ∈ S ->
    (exists l, l ∈ R /\ message_id (c_content l) = id) \/ (on_key_pending e = true /\ pending_on_key_id e = id);
  ki_editor : pending_open_editor e = true -> exists l p,
    l ∈ R /\ Req (message_id (c_content l)) (str "on_key") p ∈ S /\ asks_editor (c_content l) (pending_open_editor_file e);
}.

(** What the invariant of the keys depends on. *)
Definition key_part (e : nsr_plugin_entry_t) :=
  (key_queue e, key_queue_head e, key_queue_count e, on_key_pending e, pending_on_key_id e, pending_open_editor e,
   pending_open_editor_file e).

Lemma key_inv_local e e' S R A : key_part e' = key_part e -> key_inv e S R A -> key_inv e' S R A.
Proof.
  intros [= E1 E2 E3 E4 E5 E6 E7] [(q & Hq & Ho) Hw Hs He]. split; rewrite ?E4, ?E5, ?E6, ?E7; try done.
  exists q. split; [by eapply kq_rep_ext|done].
Qed.

Lemma not_key_of m : not_key m -> key_of m = None.
Proof. destruct m as [id me p|]; [|done]. cbn. intros Hm. destruct p; try done. by rewrite bool_decide_false. Qed.

Lemma key_inv_more e S R A S' R' K :
  Forall not_key S' -> key_inv e S R A -> key_inv e (S ++ S') (R ++ R') (A ++ K).
Proof.
  intros Hn [(q & Hq & Ho) Hw Hs He].
  assert (Hold : forall id p, Req id (str "on_key") p ∈ S ++ S' -> Req id (str "on_key") p ∈ S).
  { intros id p [?|Hin]%elem_of_app; [done|]. rewrite Forall_forall in Hn. by specialize (Hn _ Hin). }
  assert (Hk : keys_of (S ++ S') = keys_of S).
  { unfold keys_of. rewrite omap_app. rewrite <- (app_nil_r (omap key_of S)) at 2. f_equal.
    induction Hn as [|m l Hm Hl IH]; [done|]. cbn. rewrite (not_key_of m Hm). apply IH.
    intros id p Hin. apply Hold. apply elem_of_app in Hin as [?|?]; apply elem_of_app; [by left|right; by right]. }
  split.
  - exists q. rewrite Hk. split; [done|]. by apply sublist_inserts_r.
  - intros Hp. destruct (Hw Hp) as [p Hin]. exists p. apply elem_of_app. by left.
  - intros id p Hin. destruct (Hs id p (Hold _ _ Hin)) as [(l & Hl & E)|?]; [left|by right]. exists l. rewrite elem_of_app. auto.
  - intros Hp. destruct (He Hp) as (l & p & Hl & Hin & Ha). exists l, p. rewrite !elem_of_app. auto.
Qed.

Lemma key_inv_sent e S R A m : not_key m -> key_inv e S R A -> key_inv e (S ++ [m]) R A.
Proof.
  intros Hm Hk. rewrite <- (app_nil_r R), <- (app_nil_r A). apply key_inv_more; [|done]. by constructor.
Qed.

Lemma key_inv_taken e S R A R' : key_inv e S R A -> key_inv e S (R ++ R') A.
Proof. intros Hk. rewrite <- (app_nil_r S), <- (app_nil_r A). by apply key_inv_more. Qed.

(** All whole lines of a text are quiet. *)
Definition quiet_text (t : cstr) : Prop :=
  forall ls rest, Forall one_line ls -> t = flat ls ++ rest -> Forall quiet (map c_content ls).

Lemma quiet_text_front s t : quiet_text (s ++ t) -> quiet_text s.
Proof. intros Hq ls rest Hls ->. apply (Hq ls (rest ++ t) Hls). by rewrite <- app_assoc. Qed.

Lemma quiet_text_after ls s t : Forall one_line ls -> s = flat ls ++ t -> quiet_text s -> quiet_text t.
Proof.
  intros Hls -> Hq ks rest Hks ->. specialize (Hq (ls ++ ks) rest). rewrite map_app, !Forall_app, flat_app, <- app_assoc in Hq.
  by apply Hq.
Qed.

Definition entry_inv (e : nsr_plugin_entry_t) (S : list message) (R : list cstr) (A : list nsr_key_event_t) : Prop :=
  host_inv e S R /\ key_inv e S R A.

(** What an operation does during which the keys [K] are pressed: it reads some bytes;
    as long as they ask for nothing, it takes their lines and writes messages. *)
Definition goes (K : list nsr_key_event_t) (e : nsr_plugin_entry_t) (o : os) (e' : nsr_plugin_entry_t) (o' : os) : Prop :=
  exists got, consumed o o' got /\
  forall S R A, entry_inv e S R A -> quiet_text (rx_buf (e_rpc e) ++ got) ->
  exists S1 R1, entry_inv e' (S ++ S1) (R ++ R1) (A ++ K) /\ Forall one_line R1 /\
    rx_buf (e_rpc e) ++ got = flat R1 ++ rx_buf (e_rpc e').

Lemma data_app l k : data (l ++ k) = data l ++ data k.
Proof. unfold data. by rewrite map_app, concat_app. Qed.

Lemma goes_trans K1 K2 e o e1 o1 e2 o2 : goes K1 e o e1 o1 -> goes K2 e1 o1 e2 o2 -> goes (K1 ++ K2) e o e2 o2.
Proof.
  intros (g1 & Hc1 & H1) (g2 & Hc2 & H2). exists (g1 ++ g2). split; [by eapply consumed_trans|]. intros S R A Hi Hq. rewrite (app_assoc (rx_buf (e_rpc e))) in Hq |- *.
  destruct (H1 S R A Hi (quiet_text_front _ _ Hq)) as (S1 & R1 & Hi1 & HR1 & E1). rewrite E1 in Hq |- *.
  destruct (H2 _ _ _ Hi1) as (S2 & R2 & Hi2 & HR2 & E2).
  { eapply quiet_text_after; [exact HR1| |exact Hq]. by rewrite <- app_assoc. }
  exists (S1 ++ S2), (R1 ++ R2). rewrite !app_assoc, flat_app. split; [by rewrite <- !app_assoc in *|].
  split; [by apply Forall_app|]. by rewrite <- !app_assoc, E2.
Qed.

(** The slots and the connection, as far as messages go. *)
Definition same_slots (e e' : nsr_plugin_entry_t) : Prop :=
  (forall S R, slot_ok S R "render" (render_pending e) (pending_render_id e) (last_render_resp e) ->
     slot_ok S R "render" (render_pending e') (pending_render_id e') (last_render_resp e')) /\
  (forall S R, slot_ok S R "render_hops" (render_hops_pending e) (pending_render_hops_id e) (last_render_hops_resp e) ->
     slot_ok S R "render_hops" (render_hops_pending e') (pending_render_hops_id e') (last_render_hops_resp e')).

Lemma host_inv_local e e' S R : e_rpc e' = e_rpc e -> same_slots e e' -> host_inv e S R -> host_inv e' S R.
Proof. intros E [H1 H2] []. split; rewrite ?E; auto. Qed.

(** A step that neither reads nor writes. *)
Lemma goes_keys K e e' o o' :
  e_rpc e' = e_rpc e -> same_slots e e' -> (forall S R A, key_inv e S R A -> key_inv e' S R (A ++ K)) -> reads o' = reads o ->
  goes K e o e' o'.
Proof.
  intros E Hs Hk Hr. exists []. split; [by apply consumed_refl|]. intros S R A [Hi Hki] _. exists [], []. rewrite !app_nil_r, E.
  split; [split; [by eapply host_inv_local|by apply Hk]|]. by split; [constructor|].
Qed.

Lemma goes_local e e' o o' :
  e_rpc e' = e_rpc e -> same_slots e e' -> key_part e' = key_part e -> reads o' = reads o -> goes [] e o e' o'.
Proof. intros E Hs Hk Hr. apply goes_keys; try done. intros S R A Hi. rewrite app_nil_r. by eapply key_inv_local. Qed.

Lemma goes_refl e o : goes [] e o e o.
Proof. by apply goes_local. Qed.

(** The connection when lines were taken and nothing was written. *)
Lemma received_inv e S R R1 r' :
  host_inv e S R -> tx r' = tx (e_rpc e) -> rpc_next_id r' = rpc_next_id (e_rpc e) ->
  (rpc_dead (e_rpc e) = true -> rpc_dead r' = true) -> host_inv (with_rpc e r') S (R ++ R1).
Proof.
  intros [(part & Htx & Hp & Hd) Hok Hn Hi Hs Hh] Et En Hdd.
  assert (Hlive : rpc_dead r' = false -> rpc_dead (e_rpc e) = false) by (destruct (rpc_dead (e_rpc e)); [by rewrite Hdd|done]).
  split; cbn [with_rpc e_rpc render_pending pending_render_id last_render_resp render_hops_pending pending_render_hops_id
    last_render_hops_resp]; rewrite ?Et, ?En; try done.
  - exists part. split; [done|]. split; [done|]. auto.
  - intros Hb. destruct (Hi Hb) as [H1 H2]. auto.
  - rewrite <- (app_nil_r S). by apply slot_more.
  - rewrite <- (app_nil_r S). by apply slot_more.
Qed.

(** Receiving a line. *)
Lemma recv_goes e S R r t o line r' o' :
  recv_line r t o = (line, r', o') -> r = e_rpc e -> host_inv e S R ->
  exists got, host_inv (with_rpc e r') S (R ++ match line with Some l => [l] | None => [] end) /\
    (forall l, line = Some l -> one_line l) /\ consumed o o' got /\
    rx_buf r ++ got = flat (match line with Some l => [l] | None => [] end) ++ rx_buf r'.
Proof.
  intros E -> Hinv. pose proof (recv_line_spec (e_rpc e) t o) as Hr.
  pose proof (recv_line_dead (e_rpc e) t o) as Hdd. rewrite E in Hr, Hdd. cbn [fst snd] in Hdd.
  destruct Hr as (got & Hc & Hx & Hl & Et & _ & En). exists got. split; [|split; [|split]]; try done.
  - by apply received_inv.
  - rewrite Hx. destruct line as [l|]; [|done]. rewrite flat_one, <- app_assoc. done.
Qed.

Lemma s32_range z : - 2 ^ 31 <= s32 z < 2 ^ 31.
Proof. unfold s32. pose proof (Z.mod_pos_bound (z + 2 ^ 31) (2 ^ 32)). lia. Qed.

(** Sending, in its two outcomes. *)
Lemma rpc_send_cases r req o :
  rpc_dead r || (fd_in r <? 0) = false ->
  (exists o1, rpc_send r req o = (true, add_tx r (req ++ [newline]), o1) /\ reads o1 = reads o) \/
  (exists part o1, rpc_send r req o = (false, set_dead (add_tx r part), o1) /\ part `prefix_of` req /\ reads o1 = reads o).
Proof.
  intros Hg. unfold rpc_send. rewrite Hg. pose proof (write_all_spec (writes o) req) as Hw.
  destruct (write_all (writes o) req) as [[out []] ws]; destruct Hw as [Hp Hok]; cbn [negb]; [|right; eexists out, _; by split].
  specialize (Hok eq_refl) as ->.
  destruct ws as [|[[|[|n]]|b] ws];
    try (right; eexists req, _; split; [done|]; by split).
  left. exists (with_writes o ws). split; [|done]. do 2 f_equal. unfold add_tx. cbn. by rewrite app_assoc.
Qed.

Lemma one_line_prefix s t : s `prefix_of` t -> one_line t -> one_line s.
Proof. intros [k ->] Ht Hin. apply Ht, elem_of_app. by left. Qed.

Lemma message_one_line m : one_line (line_of m).
Proof. apply print_one_line. Qed.

Lemma live_tx e S R : host_inv e S R -> rpc_dead (e_rpc e) = false -> tx (e_rpc e) = flat (map line_of S).
Proof. intros [(part & -> & _ & Hp) _ _ _ _ _] Hd. by rewrite Hp, app_nil_r. Qed.

(** The connection after a message was written or was not. *)
Lemma sent_inv e S R m r' :
  host_inv e S R -> message_ok m -> rpc_dead (e_rpc e) = false ->
  tx r' = tx (e_rpc e) ++ line_of m ++ [newline] ->
  match m with
  | Req id _ _ => id = rpc_next_id (e_rpc e) /\ rpc_next_id r' = s32 (id + 1)
  | Tell _ _ => rpc_next_id r' = rpc_next_id (e_rpc e)
  end ->
  host_inv (with_rpc e r') (S ++ [m]) R.
Proof.
  intros Hinv Hm Hd Ht Hid. pose proof (live_tx e S R Hinv Hd) as Etx. destruct Hinv as [_ Hok Hn Hi Hs Hh].
  split; cbn [with_rpc e_rpc render_pending pending_render_id last_render_resp render_hops_pending pending_render_hops_id
      last_render_hops_resp].
  - exists []. rewrite Ht, Etx, map_app, flat_app, app_nil_r. cbn [map]. rewrite flat_one. by split_and!; [|apply one_line_nil|].
  - apply Forall_app_2; [done|by constructor].
  - destruct m; [destruct Hid as [_ ->]; apply s32_range|by rewrite Hid].
  - rewrite length_app, req_ids_app. cbn [length]. intros Hb. destruct Hi as [H1 H2]; [lia|]. specialize (H2 Hd).
    pose proof (req_ids_length S) as Hl. destruct m as [id me p|me p]; cbn.
    + destruct Hid as [-> Hid]. rewrite length_app. cbn [length]. split.
      * rewrite Nat2Z.inj_add, seqZ_app, <- H1 by lia. f_equal. rewrite H2. unfold seqZ. done.
      * intros _. rewrite Hid, H2. rewrite s32_id; lia.
    + rewrite app_nil_r, Hid. by split.
  - rewrite <- (app_nil_r R). by apply slot_more.
  - rewrite <- (app_nil_r R). by apply slot_more.
Qed.

Lemma unsent_inv e S R r' part req :
  host_inv e S R -> one_line req -> part `prefix_of` req -> rpc_dead (e_rpc e) = false ->
  tx r' = tx (e_rpc e) ++ part -> rpc_dead r' = true -> - 2 ^ 31 <= rpc_next_id r' < 2 ^ 31 -> host_inv (with_rpc e r') S R.
Proof.
  intros Hinv Hreq Hp Hd Ht Hdd Hn'. pose proof (live_tx e S R Hinv Hd) as Etx. destruct Hinv as [_ Hok Hn Hi Hs Hh].
  split; try done; cbn [with_rpc e_rpc].
  - exists part. rewrite Ht, Etx. split; [done|]. split; [by eapply one_line_prefix|]. by rewrite Hdd.
  - intros Hb. destruct (Hi Hb) as [H1 _]. by rewrite Hdd.
Qed.

(** A request: the slots stay as they were, a pending one may be set afterwards. *)
Lemma request_inv e S R me p o :
  host_inv e S R -> message_ok (Req (rpc_next_id (e_rpc e)) me p) ->
  let '(ok, id, r', o') := nsr_json_rpc_send_request (e_rpc e) me (Some (print p)) o in
  reads o' = reads o /\ rx_buf r' = rx_buf (e_rpc e) /\
  if ok : bool then id = Some (rpc_next_id (e_rpc e)) /\ host_inv (with_rpc e r') (S ++ [Req (rpc_next_id (e_rpc e)) me p]) R
  else host_inv (with_rpc e r') S R.
Proof.
  intros Hinv Hm. unfold nsr_json_rpc_send_request. destruct (rpc_dead (e_rpc e) || (fd_in (e_rpc e) <? 0)) eqn:Hg.
  { split; [done|]. split; [done|]. by destruct e. }
  cbn [take_id]. set (r0 := mk_rpc _ _ _ _ _ _ _ _).
  assert (Ereq : build_request me (Some (print p)) (rpc_next_id (e_rpc e)) = line_of (Req (rpc_next_id (e_rpc e)) me p)).
  { by apply build_request_doc, Hm. }
  rewrite Ereq. pose proof (proj1 (orb_false_iff _ _) Hg) as [Hd _].
  assert (Hs32 : - 2 ^ 31 <= s32 (rpc_next_id (e_rpc e) + 1) < 2 ^ 31).
  { apply s32_range. }
  destruct (rpc_send_cases r0 (line_of (Req (rpc_next_id (e_rpc e)) me p)) o Hg) as [(o1 & -> & Hr)|(part & o1 & -> & Hp & Hr)].
  - split; [done|]. split; [done|]. split; [done|]. by apply sent_inv.
  - split; [done|]. split; [done|]. eapply (unsent_inv e S R _ part); try done. apply message_one_line.
Qed.

(** ** The operations of the host *)

Definition key_doc (ch : Z) (modal_input : bool) : json :=
  JObj ((str "key", JInt ch) :: if modal_input then [(str "modal_input", JBool true)] else []).

Lemma key_doc_ok id ch modal : - 2 ^ 31 <= id < 2 ^ 31 ->
  message_ok (Req id (str "on_key") (key_doc ch modal)) /\ emit (build_key_params ch modal) = print (key_doc ch modal).
Proof.
  intros Hid. assert (Hf : fits (line_of (Req id (str "on_key") (key_doc ch modal)))).
  { apply fits_bound. by destruct modal. }
  split.
  - split; [exact Hf|]. split; [done|]. split; [|split; [right; by left|done]].
    pose proof (print_size (message_doc (Req id (str "on_key") (key_doc ch modal)))) as Hl.
    assert (Hb : size_bound (message_doc (Req id (str "on_key") (key_doc ch modal))) < 2 ^ 50) by by destruct modal.
    unfold line_of. lia.
  - apply emit_doc; [|by apply params_fit in Hf].
    assert (E : build_key_params ch modal = doc_calls (key_doc ch modal)) by by destruct modal.
    rewrite E. apply doc_calls_text.
Qed.

(** Steps on the entry that leave the connection and the slots alone. *)
Lemma dequeue_local e : e_rpc (plugin_key_queue_dequeue e).2 = e_rpc e /\ same_slots e (plugin_key_queue_dequeue e).2 /\
  on_key_pending (plugin_key_queue_dequeue e).2 = on_key_pending e.
Proof. unfold plugin_key_queue_dequeue. by split_if. Qed.

Lemma enqueue_local e ch m : e_rpc (plugin_key_queue_enqueue e ch m).2 = e_rpc e /\ same_slots e (plugin_key_queue_enqueue e ch m).2.
Proof. unfold plugin_key_queue_enqueue. by split_if. Qed.

Lemma same_slots_trans e1 e2 e3 : same_slots e1 e2 -> same_slots e2 e3 -> same_slots e1 e3.
Proof. intros [H1 H2] [H3 H4]. split; auto. Qed.

Lemma enqueue_dropping_local e ch m : e_rpc (enqueue_dropping e ch m) = e_rpc e /\ same_slots e (enqueue_dropping e ch m).
Proof.
  unfold enqueue_dropping. destruct (enqueue_local e ch m) as [H1 H2].
  destruct (plugin_key_queue_enqueue e ch m) as [[] e1]; [done|].
  destruct (dequeue_local e) as (H3 & H4 & _). destruct (enqueue_local (plugin_key_queue_dequeue e).2 ch m) as [H5 H6].
  split; [congruence|by eapply same_slots_trans].
Qed.

(** A step that writes and does not read. *)
Lemma goes_write e o e' o' :
  reads o' = reads o -> rx_buf (e_rpc e') = rx_buf (e_rpc e) ->
  (forall S R A, entry_inv e S R A -> exists S1, entry_inv e' (S ++ S1) R A) -> goes [] e o e' o'.
Proof.
  intros Hr Hx Hi. exists []. split; [by apply consumed_refl|]. intros S R A Hinv _. destruct (Hi S R A Hinv) as [S1 H1]. exists S1, [].
  rewrite !app_nil_r, Hx. split; [done|]. by split; [constructor|].
Qed.

(** The key that leaves the queue is on its way, or it is lost. *)
Lemma key_sent_inv e e1 e' S R A ev id :
  key_inv e S R A -> on_key_pending e = false -> (forall l, kq_rep e l -> exists l', l = ev :: l' /\ kq_rep e1 l') ->
  key_part e' = (key_queue e1, key_queue_head e1, key_queue_count e1, true, id, pending_open_editor e, pending_open_editor_file e) ->
  key_inv e' (S ++ [Req id (str "on_key") (key_doc (ev_ch ev) (ev_modal_input ev))]) R A.
Proof.
  intros [(q & Hq & Ho) Hw Hs He] Hp Hd [= E1 E2 E3 E4 E5 E6 E7]. destruct (Hd q Hq) as (q' & -> & Hq').
  split; rewrite ?E4, ?E5, ?E6, ?E7.
  - exists q'. split; [by eapply kq_rep_ext|]. unfold keys_of in *. rewrite omap_app, <- app_assoc.
    destruct ev as [ch []]; exact Ho.
  - intros _. eexists. apply elem_of_app. right. by left.
  - intros id' p [Hin|Hin]%elem_of_app.
    + destruct (Hs id' p Hin) as [?|[Hp' _]]; [by left|congruence].
    + apply list_elem_of_singleton in Hin as [= -> _]. by right.
  - intros Hpe. destruct (He Hpe) as (l & p & Hl & Hin & Ha). exists l, p. rewrite elem_of_app. auto.
Qed.

Lemma key_lost_inv e e1 e' S R A ev :
  key_inv e S R A -> (forall l, kq_rep e l -> exists l', l = ev :: l' /\ kq_rep e1 l') ->
  key_part e' = (key_queue e1, key_queue_head e1, key_queue_count e1, on_key_pending e, pending_on_key_id e,
    pending_open_editor e, pending_open_editor_file e) ->
  key_inv e' S R A.
Proof.
  intros [(q & Hq & Ho) Hw Hs He] Hd [= E1 E2 E3 E4 E5 E6 E7]. destruct (Hd q Hq) as (q' & -> & Hq').
  split; rewrite ?E4, ?E5, ?E6, ?E7; try done. exists q'. split; [by eapply kq_rep_ext|]. etrans; [|exact Ho].
  apply sublist_app; [done|]. by apply sublist_cons.
Qed.

Lemma dequeued e : let '(ev, e1) := plugin_key_queue_dequeue e in
  key_part e1 = (key_queue e1, key_queue_head e1, key_queue_count e1, on_key_pending e, pending_on_key_id e,
    pending_open_editor e, pending_open_editor_file e) /\
  match ev with
  | Some ev => forall l, kq_rep e l -> exists l', l = ev :: l' /\ kq_rep e1 l'
  | None => e1 = e
  end.
Proof.
  pose proof (dequeue_spec e) as Hd. assert (He : plugin_key_queue_dequeue e = (None, e) \/
    exists ev e1, plugin_key_queue_dequeue e = (Some ev, e1)).
  { unfold plugin_key_queue_dequeue. split_if; [by left|right; eauto]. }
  destruct He as [E|(ev & e1 & E)]; rewrite E; [done|]. split.
  - unfold plugin_key_queue_dequeue in E. split_if_in E; [done|]. by injection E as _ <-.
  - intros l Hl. specialize (Hd l Hl). rewrite E in Hd. destruct l as [|x l]; [by destruct Hd|].
    destruct Hd as [[= ->] Hd]. by exists l.
Qed.

Lemma send_next_key_goes e o : let '(e', o') := plugin_send_next_key e o in goes [] e o e' o'.
Proof.
  unfold plugin_send_next_key. destruct (on_key_pending e || rpc_dead (e_rpc e) || (fd_in (e_rpc e) <? 0)) eqn:Hguard; [apply goes_refl|].
  apply orb_false_iff in Hguard as [[Hpend _]%orb_false_iff _].
  destruct (dequeue_local e) as (Hrpc & Hs & _). pose proof (dequeued e) as Hdq.
  destruct (plugin_key_queue_dequeue e) as [[ev|] e1]; cbn [snd] in *; destruct Hdq as [Hpart Hdq]; [|subst e1; apply goes_refl].
  assert (Hg : forall S R, host_inv e S R -> host_inv e1 S R) by (intros S R; by apply host_inv_local).
  pose proof (send_request_spec (e_rpc e1) (str "on_key") (Some (emit (build_key_params (ev_ch ev) (ev_modal_input ev)))) o) as Hsp.
  destruct (nsr_json_rpc_send_request (e_rpc e1) _ _ o) as [[[ok id] r] o1] eqn:E. destruct Hsp as (Hx & Hr & _).
  assert (Hreq : forall S R, host_inv e S R ->
    if ok : bool then id = Some (rpc_next_id (e_rpc e1)) /\
      host_inv (with_rpc e1 r) (S ++ [Req (rpc_next_id (e_rpc e1)) (str "on_key") (key_doc (ev_ch ev) (ev_modal_input ev))]) R
    else host_inv (with_rpc e1 r) S R).
  { intros S R Hinv. destruct (key_doc_ok (rpc_next_id (e_rpc e1)) (ev_ch ev) (ev_modal_input ev)) as [Hm Hp].
    { rewrite Hrpc. by destruct Hinv. }
    rewrite Hp in E. pose proof (request_inv e1 S R _ _ o (Hg S R Hinv) Hm) as Hq. rewrite E in Hq.
    by destruct Hq as (_ & _ & Hq). }
  destruct ok.
  - apply goes_write; [done|by cbn; rewrite Hx, Hrpc|]. intros S R A [Hinv Hk]. destruct (Hreq S R Hinv) as [-> Hi].
    eexists. split; [by apply (host_inv_local (with_rpc e1 r))|]. eapply (key_sent_inv e e1); try done.
    injection Hpart as Q1 Q2 Q3 Q4. unfold key_part. cbn. by rewrite Q3, Q4.
  - enough (Hend : forall e', e_rpc e' = r -> same_slots (with_rpc e1 r) e' -> key_part e' = key_part e1 -> goes [] e o e' o1)
      by (destruct (rpc_dead r); by apply Hend).
    intros e' Ee Hse Hpe. apply goes_write; [done|by rewrite Ee, Hx, Hrpc|]. intros S R A [Hinv Hk]. exists []. rewrite app_nil_r.
    split; [by apply (host_inv_local (with_rpc e1 r)); [| |apply (Hreq S R)]|].
    eapply (key_lost_inv e e1); [done|exact Hdq|]. by rewrite Hpe.
Qed.

(** Starting over reads and throws away. *)
Lemma read_fd_consumed o : exists got, consumed o (read_fd o).2 got.
Proof. unfold read_fd. destruct (reads o) as [|x l] eqn:E; [exists []; by apply consumed_refl|]. exists (data [x]), [x]. by rewrite E. Qed.

Lemma discard_consumed n r o : exists got, consumed o (discard_loop n r o).2 got.
Proof.
  assert (Hhere : forall o1 r1, reads o1 = reads o -> exists got, consumed o ((r1, o1) : nsr_json_rpc_t * os).2 got)
    by (intros; exists []; by apply consumed_refl).
  revert r o Hhere. induction n as [|n IH]; intros r o Hhere; cbn [discard_loop]; [by apply Hhere|].
  assert (Hgo : forall o1, reads o1 = reads o -> exists got, consumed o (discard_loop n r o1).2 got).
  { intros o1 E. destruct (IH r o1) as (g & k & Ek & Hk); [intros; exists []; by apply consumed_refl|]. exists g, k. by rewrite <- E. }
  destruct (polls o) as [|[[]| |] ps]; try (by apply Hhere); try (by apply Hgo).
  destruct (read_fd_consumed (with_polls o ps)) as (g & Hc). destruct (read_fd (with_polls o ps)) as [res o1]. cbn [snd] in Hc.
  assert (Hmore : exists got, consumed o (discard_loop n r o1).2 got).
  { destruct (IH r o1) as (g2 & Hc2); [intros; exists []; by apply consumed_refl|]. exists (g ++ g2). by eapply (consumed_trans (with_polls o ps)). }
  destruct res as [[]|[]]; [exact Hmore|by exists g|by exists g|exact Hmore].
Qed.

Lemma force_sync_consumed e o : exists got, consumed o (plugin_force_sync e o).2 got.
Proof.
  unfold plugin_force_sync, nsr_json_rpc_discard_queued. split_if; [exists []; by apply consumed_refl|].
  destruct (discard_consumed 64 (set_rx (e_rpc e) []) o) as (g & Hc).
  destruct (discard_loop 64 (set_rx (e_rpc e) []) o) as [r o1]. by exists g.
Qed.

(** What becomes of a message the host has taken. *)
Lemma on_key_result_local e result o :
  bool_member result "force_sync" <> Some true ->
  let '(e', o') := plugin_handle_on_key_result e result o in e_rpc e' = e_rpc e /\ same_slots e e' /\ o' = o.
Proof.
  intros Hq. unfold plugin_handle_on_key_result, plugin_result_requests_force_sync.
  assert (Hm : forall m, e_rpc (set_modal_if e m) = e_rpc e /\ same_slots e (set_modal_if e m)) by (intros [m|]; done).
  destruct (bool_member result "force_sync") as [[]|]; [done| |].
  all: destruct (Hm (bool_member result "is_modal")) as [H1 H2]; split_if; [split_if; done|].
  all: destruct (bool_member result "handled") as [[]|]; cbn [with_last_key with_render e_rpc]; try done.
  all: split; [done|]; split; [|done]; eapply same_slots_trans; [exact H2|]; split; intros S R [Hp Hr];
    (split; [exact Hp|]); cbn; auto.
Qed.

(** The routing of a message in [plugin_drain_response]. *)
Definition route_message (e : nsr_plugin_entry_t) (resp : cstr) (o : os) : nsr_plugin_entry_t * os :=
  let '(synced, e, o) := plugin_handle_force_sync e resp o in
  if synced : bool then (e, o)
  else if render_pending e && (message_id resp =? pending_render_id e) then (with_render e resp false, o)
  else if render_hops_pending e && (message_id resp =? pending_render_hops_id e) then
    (with_hops_resp e resp false (pending_render_hops_id e), o)
  else if on_key_pending e && (message_id resp =? pending_on_key_id e) then
    let e := with_key_pending e false (pending_on_key_id e) in
    match nsr_json_obj_get resp (str "result") with
    | Some (result, _) => plugin_handle_on_key_result e result o
    | None => (e, o)
    end
  else (e, o).

Lemma drain_received e t o l r1 o1 :
  rpc_dead (e_rpc e) || (fd_out (e_rpc e) <? 0) = false -> recv_line (e_rpc e) t o = (Some l, r1, o1) ->
  plugin_drain_response e t o =
    (let '(e2, o2) := route_message (with_rpc e r1) (c_content l) o1 in
     let '(e3, o3) := plugin_send_next_key e2 o2 in (true, e3, o3)).
Proof.
  intros Hg Hr. unfold plugin_drain_response, nsr_json_rpc_try_recv_any, route_message. rewrite Hg, Hr.
  by destruct (plugin_handle_force_sync (with_rpc e r1) (c_content l) o1) as [[[] e2] o2].
Qed.

(** An answer goes to the slot that waits for it; nothing else gets into a slot. *)
Lemma route_inv e S R l o :
  host_inv e S R -> l ∈ R -> quiet (c_content l) ->
  let '(e', o') := route_message e (c_content l) o in host_inv e' S R /\ e_rpc e' = e_rpc e /\ o' = o.
Proof.
  intros Hinv Hin [Hq1 Hq2]. unfold route_message, plugin_handle_force_sync. rewrite Hq1. cbn [negb].
  set (resp := c_content l) in *.
  assert (Hsl : forall m p id sr, slot_ok S R m p id sr -> p && (message_id resp =? id) = true -> slot_ok S R m false id resp).
  { intros m p id sr [Hpend _] Hp. apply andb_true_iff in Hp as [-> Hid]. bool_facts. split; [done|]. right.
    destruct (Hpend eq_refl) as [q Hq]. exists l, q. by rewrite <- Hid in Hq. }
  pose proof Hinv as [H1 H2 H3 H4 H5 H6].
  destruct (render_pending e && (message_id resp =? pending_render_id e)) eqn:E1.
  { split; [|done]. split; try done. by eapply Hsl. }
  destruct (render_hops_pending e && (message_id resp =? pending_render_hops_id e)) eqn:E2.
  { split; [|done]. split; try done. by eapply Hsl. }
  destruct (on_key_pending e && (message_id resp =? pending_on_key_id e)); [|done].
  set (e2 := with_key_pending e false (pending_on_key_id e)).
  assert (Hi2 : host_inv e2 S R) by (by apply (host_inv_local e)).
  destruct (nsr_json_obj_get resp (str "result")) as [[result len]|] eqn:Eg; [|done].
  pose proof (on_key_result_local e2 result o (Hq2 result len eq_refl)) as Hk.
  destruct (plugin_handle_on_key_result e2 result o) as [e3 o3]. destruct Hk as (K1 & K2 & ->).
  split; [by apply (host_inv_local e2)|done].
Qed.

Lemma route_consumed e resp o : exists got, consumed o (route_message e resp o).2 got.
Proof.
  assert (Hsame : forall o1, o1 = o -> exists got, consumed o o1 got) by (intros o1 ->; exists []; by apply consumed_refl).
  unfold route_message, plugin_handle_force_sync. split_if.
  - repeat (split_if; [by apply Hsame|]). split_if; [|by apply Hsame].
    destruct (nsr_json_obj_get resp (str "result")) as [[result len]|]; [|by apply Hsame].
    unfold plugin_handle_on_key_result, plugin_result_requests_force_sync.
    destruct (bool_member result "force_sync") as [[]|]; [|split_if; by apply Hsame..].
    set (e1 := with_key_pending _ _ _). destruct (force_sync_consumed e1 o) as (g & Hc). destruct (plugin_force_sync e1 o) as [e2 o2].
    by exists g.
  - destruct (force_sync_consumed e o) as (g & Hc). destruct (plugin_force_sync e o) as [e2 o2]. by exists g.
Qed.

Lemma consumed_unique o o' g1 g2 : consumed o o' g1 -> consumed o o' g2 -> g1 = g2.
Proof. intros (k1 & E1 & <-) (k2 & E2 & <-). rewrite E1 in E2. apply app_inv_tail in E2. by subst. Qed.

Lemma consumed_none o got : consumed o o got -> got = [].
Proof. intros Hc. apply (consumed_unique o o); [done|by apply consumed_refl]. Qed.

(** The answer to a key is taken; it may ask for an editor. *)
Lemma on_key_result_keys e result o S R A l p len :
  bool_member result "force_sync" <> Some true -> nsr_json_obj_get (c_content l) (str "result") = Some (result, len) ->
  l ∈ R -> Req (message_id (c_content l)) (str "on_key") p ∈ S -> key_inv e S R A ->
  key_inv (plugin_handle_on_key_result e result o).1 S R A.
Proof.
  intros Hq Hg Hl Hin Hk. unfold plugin_handle_on_key_result, plugin_result_requests_force_sync.
  assert (Hm : forall m, key_inv (set_modal_if e m) S R A) by (intros [m|]; [by apply (key_inv_local e)|done]).
  destruct (bool_member result "force_sync") as [[]|]; [done| |].
  all: specialize (Hm (bool_member result "is_modal")); set (e1 := set_modal_if _ _) in *;
    destruct (streq (str_member result "action" 64 []) (str "open_editor")) eqn:Ha;
    [split_if; [done|]|destruct (bool_member result "handled") as [[]|]; by apply (key_inv_local e1)];
    destruct Hm as [Ho Hw Hs He]; split; try done; cbn; intros _; exists l, p; split; [done|]; split; [done|];
    by exists result, len.
Qed.

Lemma route_keys e S R A l o :
  key_inv e S R A -> l ∈ R -> quiet (c_content l) -> key_inv (route_message e (c_content l) o).1 S R A.
Proof.
  intros Hk Hin [Hq1 Hq2]. unfold route_message, plugin_handle_force_sync. rewrite Hq1. cbn [negb].
  split_if; [by apply (key_inv_local e)|]. split_if; [by apply (key_inv_local e)|]. split_if; [|done].
  bool_facts. destruct (ki_waiting _ _ _ _ Hk) as [p Hp]; [done|].
  set (e2 := with_key_pending e false (pending_on_key_id e)).
  assert (Hk2 : key_inv e2 S R A).
  { destruct Hk as [Ho Hw Hs He]. split; try done. intros id q Hid. left.
    destruct (Hs id q Hid) as [?|[_ <-]]; [done|]. by exists l. }
  destruct (nsr_json_obj_get (c_content l) (str "result")) as [[result len]|] eqn:Eg; [|done].
  eapply on_key_result_keys; [by eapply Hq2|exact Eg|exact Hin| |exact Hk2].
  replace (message_id (c_content l)) with (pending_on_key_id e) by lia. exact Hp.
Qed.

(** The message that was taken is routed, and the next key is sent. *)
Lemma taken_goes e t o l r1 o1 :
  recv_line (e_rpc e) t o = (Some l, r1, o1) ->
  let '(e2, o2) := route_message (with_rpc e r1) (c_content l) o1 in
  let '(e3, o3) := plugin_send_next_key e2 o2 in goes [] e o e3 o3.
Proof.
  intros Er. pose proof (route_consumed (with_rpc e r1) (c_content l) o1) as (g2 & Hc2).
  destruct (route_message (with_rpc e r1) (c_content l) o1) as [e2 o2] eqn:Ero. cbn [snd] in Hc2.
  pose proof (send_next_key_goes e2 o2) as Hsn. destruct (plugin_send_next_key e2 o2) as [e3 o3].
  destruct Hsn as (g3 & Hc3 & Hsn). pose proof (recv_line_spec (e_rpc e) t o) as Hr. rewrite Er in Hr. destruct Hr as (g1 & Hc1 & _).
  exists (g1 ++ g2 ++ g3). split; [eapply consumed_trans; [exact Hc1|by eapply consumed_trans]|]. intros S R A [Hinv Hkeys] Hqu.
  destruct (recv_goes e S R _ t o (Some l) r1 o1 Er eq_refl Hinv) as (got & Hi & Hl & Hc & Hx).
  rewrite (consumed_unique o o1 got g1 Hc Hc1) in Hx.
  specialize (Hl l eq_refl). rewrite app_nil_r, (app_assoc (rx_buf (e_rpc e))) in *. rewrite Hx in Hqu |- *.
  assert (Hone : Forall one_line [l]) by by apply Forall_singleton.
  assert (Hq : quiet (c_content l)).
  { specialize (Hqu [l] (rx_buf r1 ++ g2 ++ g3) Hone). rewrite <- app_assoc in Hqu. specialize (Hqu eq_refl).
    by apply Forall_cons in Hqu as [? _]. }
  pose proof (route_inv _ S (R ++ [l]) l o1 Hi ltac:(apply elem_of_app; right; by left) Hq) as Hro. rewrite Ero in Hro.
  assert (Hk2 : key_inv e2 S (R ++ [l]) A).
  { pose proof (route_keys (with_rpc e r1) S (R ++ [l]) A l o1) as Hk. rewrite Ero in Hk. apply Hk; [|apply elem_of_app; right; by left|done].
    apply key_inv_taken. by apply (key_inv_local e). }
  destruct Hro as (Hi2 & Erpc & ->). apply consumed_none in Hc2 as ->. cbn [with_rpc e_rpc app] in *.
  destruct (Hsn S (R ++ [l]) A (conj Hi2 Hk2)) as (S2 & R2 & Hi3 & HR2 & Hx2).
  { rewrite Erpc. eapply quiet_text_after; [exact Hone| |exact Hqu]. by rewrite <- app_assoc. }
  exists S2, ([l] ++ R2). rewrite flat_app, (app_assoc R). rewrite app_nil_r in Hi3. split; [exact Hi3|]. split; [by apply Forall_app|].
  rewrite <- !app_assoc. f_equal. by rewrite <- Erpc.
Qed.

Lemma drain_goes e t o : let '(_, e', o') := plugin_drain_response e t o in goes [] e o e' o'.
Proof.
  destruct (rpc_dead (e_rpc e) || (fd_out (e_rpc e) <? 0)) eqn:Hg.
  { unfold plugin_drain_response. rewrite Hg. apply goes_refl. }
  destruct (recv_line (e_rpc e) t o) as [[[l|] r1] o1] eqn:Er.
  - rewrite (drain_received e t o l r1 o1 Hg Er). pose proof (taken_goes e t o l r1 o1 Er) as Ht.
    destruct (route_message _ _ _) as [e2 o2]. by destruct (plugin_send_next_key e2 o2) as [e3 o3].
  - unfold plugin_drain_response, nsr_json_rpc_try_recv_any. rewrite Hg, Er.
    pose proof (recv_line_spec (e_rpc e) t o) as Hr. rewrite Er in Hr. destruct Hr as (g1 & Hc1 & _).
    exists g1. split; [done|]. intros S R A [Hinv Hk] _.
    destruct (recv_goes e S R _ t o None r1 o1 Er eq_refl Hinv) as (got & Hi & _ & Hc & Hx).
    rewrite (consumed_unique o o1 got g1 Hc Hc1) in Hx. rewrite app_nil_r in Hi.
    exists [], []. rewrite !app_nil_r. split; [split; [done|by apply (key_inv_local e)]|done].
Qed.

(** What [plugin_try_on_key] does when it has taken the answers that are there. *)
Definition queue_key (e : nsr_plugin_entry_t) (ch : Z) (modal_input reserved : bool) (o : os) : nsr_plugin_entry_t * os :=
  let '(throttled, e, o) :=
    if modal_input then
      let '(t, o) := host_now_ms o in
      if (0 <? t) && (0 <? last_on_key_ms e) && (t - last_on_key_ms e <? NSR_PLUGIN_MODAL_KEY_INTERVAL_MS)
      then (true, e, o) else (false, with_on_key_ms e t, o)
    else (false, e, o) in
  if throttled : bool then (e, o)
  else
    let '(t, o) := host_now_ms o in
    if (ch =? last_key_ch e) && (0 <? t) && (0 <? last_key_ms e) && (t - last_key_ms e <? NSR_PLUGIN_KEY_COALESCE_MS)
    then (e, o)
    else plugin_send_next_key (enqueue_dropping (with_last_key e ch t) ch modal_input) o.

Lemma try_on_key_queues e ch modal reserved o :
  let '(e1, o1) := drain_all e o in
  let '(_, e2, o2) := plugin_try_on_key e ch modal reserved o in queue_key e1 ch modal reserved o1 = (e2, o2).
Proof.
  unfold plugin_try_on_key, queue_key. destruct (drain_all e o) as [e1 o1].
  assert (Hrest : forall e o,
    let '(_, e2, o2) := (let '(t, o) := host_now_ms o in
      if (ch =? last_key_ch e) && (0 <? t) && (0 <? last_key_ms e) && (t - last_key_ms e <? NSR_PLUGIN_KEY_COALESCE_MS)
      then (modal || reserved, e, o)
      else let e := enqueue_dropping (with_last_key e ch t) ch modal in
           let '(e, o) := plugin_send_next_key e o in (modal || reserved, e, o)) in
    (let '(t, o) := host_now_ms o in
      if (ch =? last_key_ch e) && (0 <? t) && (0 <? last_key_ms e) && (t - last_key_ms e <? NSR_PLUGIN_KEY_COALESCE_MS)
      then (e, o) else plugin_send_next_key (enqueue_dropping (with_last_key e ch t) ch modal) o) = (e2, o2)).
  { intros e2 o2. destruct (host_now_ms o2) as [t o3]. split_if; [done|]. cbv zeta. by destruct (plugin_send_next_key _ o3). }
  destruct modal; [|apply Hrest]. destruct (host_now_ms o1) as [t o2]. split_if; [done|]. apply Hrest.
Qed.

(** What the host does for one plugin, in pieces that read before they write. *)
Inductive host_op :=
| HostAlive
| HostEditorTaken
| HostTelemetry (tel : nsr_telemetry_state_t) (topo : option nsr_topology_state_t)
| HostKey (ch : Z) (modal_input reserved : bool)
| HostDrain (timeout_ms : Z)
| HostHops (hs : list nsr_hop_info_t) (hop_count : Z) (out : list nsr_hop_annotation_t) (max_out : Z)
| HostRender (mode : nsr_ui_mode_t) (focus : Z) (topo : nsr_topology_state_t) (y x h w screen_h screen_w : Z).

Definition host_do (op : host_op) (e : nsr_plugin_entry_t) (o : os) : nsr_plugin_entry_t * os :=
  match op with
  | HostAlive => plugin_check_alive e o
  | HostTelemetry tel topo =>
      let '(_, r, o) := nsr_json_rpc_notify (e_rpc e) (str "update_telemetry") (Some (emit (telemetry_calls tel topo))) o in
      (with_rpc e r, o)
  | HostEditorTaken => (with_editor e false [], o)
  | HostKey ch modal_input reserved => queue_key e ch modal_input reserved o
  | HostDrain timeout_ms => let '(_, e, o) := plugin_drain_response e timeout_ms o in (e, o)
  | HostHops hs hop_count out max_out =>
      let '(e, _, o) := render_hops_step (emit (render_hops_calls hs hop_count)) e out max_out o in (e, o)
  | HostRender mode focus topo y x h w screen_h screen_w =>
      let '(_, e, o) := render_active mode focus topo y x h w screen_h screen_w e o in (e, o)
  end.

Definition render_doc (mode : nsr_ui_mode_t) (pw ph id : Z) (addr : cstr) : json :=
  JObj [(str "mode", JStr (mode_name mode)); (str "width", JInt pw); (str "height", JInt ph);
        (str "focused_node_id", JInt id); (str "focused_addr", JStr addr)].

(** The documents are of a size that the buffers can hold. *)
Definition op_ok (op : host_op) : Prop :=
  match op with
  | HostTelemetry tel topo => fits (print (telemetry_request tel topo))
  | HostHops hs hop_count _ _ => size_bound (hops_doc hs hop_count) < 2 ^ 48
  | HostRender _ focus topo _ _ _ _ _ _ => Z.of_nat (length (focused_addr focus topo)) < 2 ^ 44
  | _ => True
  end.

Lemma request_message_ok id me p :
  - 2 ^ 31 <= id < 2 ^ 31 -> me ∈ [str "init"; str "on_key"; str "render"; str "render_hops"] -> size_bound p < 2 ^ 49 ->
  (me = str "render_hops" -> exists hs n, p = hops_doc hs n) ->
  message_ok (Req id me p) /\ fits (print p).
Proof.
  intros Hid Hme Hp Hh. assert (Hb : size_bound (message_doc (Req id me p)) < 2 ^ 50).
  { unfold message_doc, request_doc. cbn [app size_bound map foldr fst snd].
    assert (Hl : (length me <= 20)%nat).
    { repeat (apply elem_of_cons in Hme as [->|Hme]; [vm_compute; lia|]). by apply elem_of_nil in Hme. }
    change (Z.of_nat (length (str "jsonrpc"))) with 7. change (Z.of_nat (length (str "id"))) with 2.
    change (Z.of_nat (length (str "2.0"))) with 3. change (Z.of_nat (length (str "method"))) with 6.
    change (Z.of_nat (length (str "params"))) with 6. lia. }
  assert (Hf : fits (line_of (Req id me p))) by (apply fits_bound; lia). pose proof (print_size (message_doc (Req id me p))) as Hl.
  split; [|by apply params_fit in Hf]. split; [done|]. split; [done|]. split; [|done]. unfold line_of. lia.
Qed.

Lemma emit_print p cs : cs = doc_calls p -> fits (print p) -> emit cs = print p.
Proof. intros -> Hf. apply emit_doc; [apply doc_calls_text|done]. Qed.

Lemma hops_calls_doc hs n : render_hops_calls hs n = doc_calls (hops_doc hs n).
Proof.
  unfold render_hops_calls, hops_doc. rewrite hops_loop_rows. cbn [doc_calls map concat fst snd].
  change (concat (map doc_calls (map row_doc ?l))) with (rows_calls l). cbn [keyed app]. by rewrite app_nil_r, <- app_assoc.
Qed.

Lemma alive_goes e o : let '(e', o') := plugin_check_alive e o in goes [] e o e' o'.
Proof.
  unfold plugin_check_alive, still_running. split_if; [apply goes_refl|].
  destruct (waits o) as [|[] w]; by apply goes_local.
Qed.

Lemma notify_goes e tel topo o :
  fits (print (telemetry_request tel topo)) -> let '(e', o') := host_do (HostTelemetry tel topo) e o in goes [] e o e' o'.
Proof.
  intros Hf. cbn [host_do]. unfold nsr_json_rpc_notify.
  assert (Hline : build_notification (str "update_telemetry") (Some (emit (telemetry_calls tel topo)))
    = line_of (Tell tel topo)).
  { rewrite (emit_print (telemetry_doc tel topo)); [|apply telemetry_calls_doc|by apply params_fit in Hf]. by apply build_notification_doc. }
  rewrite Hline. destruct (rpc_dead (e_rpc e) || (fd_in (e_rpc e) <? 0)) eqn:Hg.
  { unfold rpc_send. rewrite Hg. by apply goes_local. }
  pose proof (proj1 (orb_false_iff _ _) Hg) as [Hd _].
  destruct (rpc_send_cases (e_rpc e) (line_of (Tell tel topo)) o Hg)
    as [(o1 & -> & Hr)|(part & o1 & -> & Hp & Hr)]; apply goes_write; try done; intros S R A [Hinv Hk].
  - eexists. split; [eapply sent_inv; try done; by split|]. apply key_inv_sent; [done|by apply (key_inv_local e)].
  - exists []. rewrite app_nil_r. split; [|by apply (key_inv_local e)].
    eapply (unsent_inv e S R _ part); try done; [apply message_one_line|by destruct Hinv].
Qed.

Lemma host_now_reads o : reads (host_now_ms o).2 = reads o.
Proof. unfold host_now_ms, clock_gettime. by destruct (clocks o). Qed.

(** A key that was pressed and is queued, or not. *)
Lemma enqueued_part e ch m :
  let e' := enqueue_dropping e ch m in
  on_key_pending e' = on_key_pending e /\ pending_on_key_id e' = pending_on_key_id e /\
  pending_open_editor e' = pending_open_editor e /\ pending_open_editor_file e' = pending_open_editor_file e.
Proof.
  unfold enqueue_dropping, plugin_key_queue_enqueue, plugin_key_queue_dequeue. split_if; [|done]. repeat (split_if; cbn); done.
Qed.

Lemma key_queued_inv e S R A ch m t :
  key_inv e S R A -> key_inv (enqueue_dropping (with_last_key e ch t) ch m) S R (A ++ [mk_event ch m]).
Proof.
  intros [(q & Hq & Ho) Hw Hs He]. destruct (enqueued_part (with_last_key e ch t) ch m) as (E1 & E2 & E3 & E4).
  split; rewrite ?E1, ?E2, ?E3, ?E4; try done.
  exists (newest8 (q ++ [mk_event ch m])). split; [by apply enqueue_dropping_spec|].
  etrans; [apply (sublist_app _ (keys_of S)); [done|apply sublist_drop]|]. rewrite app_assoc. by apply sublist_app.
Qed.

Lemma key_ignored_inv e S R A K : key_inv e S R A -> key_inv e S R (A ++ K).
Proof. intros Hk. rewrite <- (app_nil_r S), <- (app_nil_r R). by apply key_inv_more. Qed.

Lemma key_goes e ch modal reserved o : let '(e', o') := queue_key e ch modal reserved o in goes [mk_event ch modal] e o e' o'.
Proof.
  unfold queue_key.
  enough (Hrest : forall e2 o2, e_rpc e2 = e_rpc e -> same_slots e e2 -> key_part e2 = key_part e -> reads o2 = reads o ->
    let '(e', o') := (let '(t, o) := host_now_ms o2 in
      if (ch =? last_key_ch e2) && (0 <? t) && (0 <? last_key_ms e2) && (t - last_key_ms e2 <? NSR_PLUGIN_KEY_COALESCE_MS)
      then (e2, o) else plugin_send_next_key (enqueue_dropping (with_last_key e2 ch t) ch modal) o) in goes [mk_event ch modal] e o e' o').
  { destruct modal; [|by apply Hrest].
    pose proof (host_now_reads o) as Hr. destruct (host_now_ms o) as [t o2]. cbn [snd] in Hr. split_if; [|by apply Hrest].
    apply goes_keys; try done. intros S R A. apply key_ignored_inv. }
  intros e2 o2 Hrpc Hs Hpart Hr. pose proof (host_now_reads o2) as Hr2. destruct (host_now_ms o2) as [t o3]. cbn [snd] in Hr2.
  assert (H2 : forall e', e_rpc e' = e_rpc e2 -> same_slots e2 e' ->
    (forall S R A, key_inv e2 S R A -> key_inv e' S R (A ++ [mk_event ch modal])) -> goes [mk_event ch modal] e o e' o3).
  { intros e' He' Hse Hk. apply goes_keys; [congruence|by eapply same_slots_trans| |congruence].
    intros S R A Hi. apply Hk. by apply (key_inv_local e). }
  split_if; [apply H2; try done; intros S R A; apply key_ignored_inv|]. set (e3 := enqueue_dropping (with_last_key e2 ch t) ch modal).
  destruct (enqueue_dropping_local (with_last_key e2 ch t) ch modal) as [L1 L2].
  pose proof (send_next_key_goes e3 o3) as Hsn. destruct (plugin_send_next_key e3 o3) as [e4 o4].
  rewrite <- (app_nil_r [_]). eapply goes_trans; [apply (H2 e3); [exact L1|exact L2|]|exact Hsn].
  intros S R A. apply key_queued_inv.
Qed.

(** A request whose answer goes into a slot, when the slot has been set. *)
Lemma slot_request_goes e me p o (set_slot : bool -> option Z -> nsr_json_rpc_t -> nsr_plugin_entry_t) :
  (forall id, - 2 ^ 31 <= id < 2 ^ 31 -> message_ok (Req id me p)) ->
  (forall S R r id, host_inv (with_rpc e r) (S ++ [Req id me p]) R -> host_inv (set_slot true (Some id) r) (S ++ [Req id me p]) R) ->
  (forall S R r id, host_inv (with_rpc e r) S R -> host_inv (set_slot false id r) S R) ->
  (forall b id r, e_rpc (set_slot b id r) = r) -> (forall b id r, key_part (set_slot b id r) = key_part e) -> me <> str "on_key" ->
  let '(ok, id, r, o') := nsr_json_rpc_send_request (e_rpc e) me (Some (print p)) o in goes [] e o (set_slot ok id r) o'.
Proof.
  intros Hm Hyes Hno Hrpc Hpart Hme.
  pose proof (send_request_spec (e_rpc e) me (Some (print p)) o) as Hsp.
  destruct (nsr_json_rpc_send_request (e_rpc e) me (Some (print p)) o) as [[[ok id] r] o1] eqn:E. destruct Hsp as (Hx & Hr & _).
  apply goes_write; [done|by rewrite Hrpc|]. intros S R A [Hinv Hk].
  assert (Hk' : forall b i r', key_inv (set_slot b i r') S R A) by (intros; by apply (key_inv_local e)). pose proof (request_inv e S R me p o Hinv (Hm _ (hi_next _ _ _ Hinv))) as Hq. rewrite E in Hq.
  destruct Hq as (_ & _ & Hq). destruct ok.
  - destruct Hq as [-> Hq]. exists [Req (rpc_next_id (e_rpc e)) me p]. split; [by apply Hyes|by apply key_inv_sent].
  - exists []. rewrite app_nil_r. split; [by apply Hno|done].
Qed.

(** The slot of [render] when a request for it was sent. *)
Lemma slot_asked S R me id p resp pend old :
  slot_ok S R me pend old resp -> Req id (str me) p ∈ S -> slot_ok S R me true id resp.
Proof. intros [_ Hr] Hin. split; [|done]. intros _. by exists p. Qed.

Lemma slot_dropped S R me id resp pend old : slot_ok S R me pend old resp -> slot_ok S R me false id resp.
Proof. by intros [_ Hr]. Qed.

Lemma asked_last (S : list message) m : m ∈ S ++ [m].
Proof. apply elem_of_app. right. by left. Qed.

Lemma hops_goes e hs n out max_out o :
  op_ok (HostHops hs n out max_out) -> let '(e', o') := host_do (HostHops hs n out max_out) e o in goes [] e o e' o'.
Proof.
  cbn [op_ok host_do]. intros Hok. unfold render_hops_step.
  pose proof (drain_goes e 5 o) as Hd. destruct (plugin_drain_response e 5 o) as [[b e1] o1].
  destruct (render_hops_pending e1); [done|].
  assert (Hm : forall id, - 2 ^ 31 <= id < 2 ^ 31 -> message_ok (Req id (str "render_hops") (hops_doc hs n)) /\ fits (print (hops_doc hs n))).
  { intros id Hid. apply request_message_ok; [done| |lia|intros _; by exists hs, n]. do 3 right. by left. }
  rewrite (emit_print (hops_doc hs n)); [|apply hops_calls_doc|by apply (Hm 0)].
  pose proof (slot_request_goes e1 (str "render_hops") (hops_doc hs n) o1
    (fun ok id r => let e := with_hops_resp (with_rpc e1 r) (last_render_hops_resp e1) ok (default (pending_render_hops_id e1) id) in
       if negb ok && rpc_dead r then with_flags e (e_initialized e) true else e)) as Hs.
  destruct (nsr_json_rpc_send_request _ _ _ _) as [[[ok id] r] o2]. apply (goes_trans [] [] _ _ e1 o1); [exact Hd|]. apply Hs.
  - intros i Hi. by apply Hm.
  - intros S R r' i [H1 H2 H3 H4 H5 H6]. split; try done. cbn. eapply slot_asked; [exact H6|apply asked_last].
  - intros S R r' i Hi. cbn [negb andb]. set (e2 := with_hops_resp _ _ _ _).
    assert (Hi2 : host_inv e2 S R) by (destruct Hi as [H1 H2 H3 H4 H5 H6]; split; try done; by eapply slot_dropped).
    split_if; [|done]. by apply (host_inv_local e2).
  - intros [] i r'; [done|]. cbn. by split_if.
  - intros [] i r'; [done|]. cbn. by split_if.
  - done.
Qed.

Lemma render_goes e mode focus topo y x h w sh sw o :
  op_ok (HostRender mode focus topo y x h w sh sw) ->
  let '(e', o') := host_do (HostRender mode focus topo y x h w sh sw) e o in goes [] e o e' o'.
Proof.
  cbn [op_ok host_do]. intros Hok. unfold render_active. destruct (modal_request (last_render_resp e)) as [[modal m_w] m_h].
  set (e0 := with_modal e modal). destruct (place_panel _ _ _ _ _ _ _ _ _ _) as [p frame].
  assert (H0 : goes [] e o e0 o) by by apply goes_local.
  pose proof (drain_goes e0 5 o) as Hd. destruct (plugin_drain_response e0 5 o) as [[b e1] o1].
  unfold request_render. destruct (render_pending e1); [by apply (goes_trans [] [] _ _ e0 o)|].
  set (doc := render_doc mode (p_w p) (p_h p) focus (focused_addr focus topo)).
  assert (Hm : forall id, - 2 ^ 31 <= id < 2 ^ 31 -> message_ok (Req id (str "render") doc) /\ fits (print doc)).
  { intros id Hid. apply request_message_ok; [done|do 2 right; by left| |done]. unfold doc, render_doc.
    cbn [size_bound map foldr]. assert (Hmode : (length (mode_name mode) <= 20)%nat) by (destruct mode; vm_compute; lia).
    change (Z.of_nat (length (str "mode"))) with 4. change (Z.of_nat (length (str "width"))) with 5.
    change (Z.of_nat (length (str "height"))) with 6. change (Z.of_nat (length (str "focused_node_id"))) with 15.
    change (Z.of_nat (length (str "focused_addr"))) with 12. lia. }
  rewrite (emit_print doc); [|done|by apply (Hm 0)].
  pose proof (slot_request_goes e1 (str "render") doc o1
    (fun ok id r => let e := with_render_id (with_rpc e1 r) ok (default (pending_render_id e1) id) in
       if negb ok && rpc_dead r then with_flags e (e_initialized e1) true else e)) as Hs.
  destruct (nsr_json_rpc_send_request _ _ _ _) as [[[ok id] r] o2].
  assert (Hgo : goes [] e1 o1 (let e := with_render_id (with_rpc e1 r) ok (default (pending_render_id e1) id) in
       if negb ok && rpc_dead r then with_flags e (e_initialized e1) true else e) o2).
  { apply Hs.
    - intros i Hi. by apply Hm.
    - intros S R r' i [H1 H2 H3 H4 H5 H6]. split; try done. cbn. eapply slot_asked; [exact H5|apply asked_last].
    - intros S R r' i Hi. cbn [negb andb]. set (e2 := with_render_id _ _ _).
      assert (Hi2 : host_inv e2 S R) by (destruct Hi as [H1 H2 H3 H4 H5 H6]; split; try done; by eapply slot_dropped).
      split_if; [|done]. by apply (host_inv_local e2).
    - intros [] i r'; [done|]. cbn. by split_if.
    - intros [] i r'; [done|]. cbn. by split_if.
    - done. }
  pose proof (goes_trans [] [] _ _ _ _ _ _ H0 (goes_trans [] [] _ _ _ _ _ _ Hd Hgo)) as Hall. cbv zeta in Hall.
  destruct ok; [exact Hall|]. cbn [negb andb] in Hall. destruct (rpc_dead r); exact Hall.
Qed.

(** The keys a piece of work offers the plugin. *)
Definition pressed (op : host_op) : list nsr_key_event_t :=
  match op with HostKey ch modal_input _ => [mk_event ch modal_input] | _ => [] end.

Lemma host_do_goes op e o : op_ok op -> let '(e', o') := host_do op e o in goes (pressed op) e o e' o'.
Proof.
  destruct op as [| |tel topo|ch modal reserved|t|hs n out max_out|mode focus topo y x h w sh sw]; intros Hok.
  - apply alive_goes.
  - apply goes_keys; try done. intros S R A [Ho Hw Hs He]. rewrite app_nil_r. by split.
  - by apply notify_goes.
  - apply key_goes.
  - cbn [host_do]. pose proof (drain_goes e t o) as H. by destruct (plugin_drain_response e t o) as [[b e'] o'].
  - by apply hops_goes.
  - by apply render_goes.
Qed.

(** ** The start of a plugin *)

Lemma response_goes f b e S R r o resp r' o' :
  response_loop f b r o = (resp, r', o') -> r = e_rpc e -> host_inv e S R ->
  exists R1 got, host_inv (with_rpc e r') S (R ++ R1) /\ Forall one_line R1 /\ consumed o o' got /\
    rx_buf r ++ got = flat R1 ++ rx_buf r'.
Proof.
  revert b e R r o. induction f as [|f IH]; intros b e R r o E Er Hinv; cbn [response_loop] in E.
  { injection E as <- <- <-. subst r. exists [], []. rewrite !app_nil_r. split; [by destruct e|].
    split; [constructor|]. split; [by apply consumed_refl|done]. }
  destruct (recv_line r _ o) as [[line r1] o1] eqn:El.
  destruct (recv_goes e S R r _ o line r1 o1 El Er Hinv) as (got & Hi & Hl & Hc & Hx).
  assert (Hstop : Forall one_line (match line with Some l => [l] | None => [] end)).
  { destruct line as [l|]; [by apply Forall_singleton, Hl|constructor]. }
  assert (Hgo : forall b1, response_loop f b1 r1 o1 = (resp, r', o') ->
    exists R1 got0, host_inv (with_rpc e r') S (R ++ R1) /\ Forall one_line R1 /\ consumed o o' got0 /\
      rx_buf r ++ got0 = flat R1 ++ rx_buf r').
  { intros b1 E1. destruct (IH b1 (with_rpc e r1) _ r1 o1 E1 eq_refl Hi) as (R2 & g2 & Hi2 & HR2 & Hc2 & Hx2).
    exists (match line with Some l => [l] | None => [] end ++ R2), (got ++ g2). rewrite app_assoc, flat_app. split; [exact Hi2|].
    split; [by apply Forall_app|]. split; [by eapply consumed_trans|]. by rewrite app_assoc, Hx, <- !app_assoc, Hx2. }
  assert (Hhere : forall r2, tx r2 = tx r1 -> rpc_next_id r2 = rpc_next_id r1 -> rpc_dead r2 = rpc_dead r1 -> rx_buf r2 = rx_buf r1 ->
    r' = r2 -> o' = o1 -> exists R1 got0, host_inv (with_rpc e r') S (R ++ R1) /\ Forall one_line R1 /\ consumed o o' got0 /\
      rx_buf r ++ got0 = flat R1 ++ rx_buf r').
  { intros r2 H1 H2 H3 H4 -> ->. exists (match line with Some l => [l] | None => [] end), got. rewrite H4. split; [|done].
    rewrite <- (app_nil_r (R ++ _)). apply (received_inv (with_rpc e r1)); try done. cbn. by rewrite H3. }
  destruct line as [l|].
  - split_if_in E; [injection E as <- <- <-; by apply (Hhere (set_pending r1 (-1)))|].
    split_if_in E; [injection E as <- <- <-; by apply (Hhere r1)|by eapply Hgo].
  - split_if_in E; [injection E as <- <- <-; by apply (Hhere r1)|].
    split_if_in E; [injection E as <- <- <-; by apply (Hhere r1)|by eapply Hgo].
Qed.

(** Slots without an answer and without a request, no key in the queue or on its way. *)
Definition clear_slots (e : nsr_plugin_entry_t) : Prop :=
  render_pending e = false /\ last_render_resp e = [] /\ render_hops_pending e = false /\ last_render_hops_resp e = [] /\
  on_key_pending e = false /\ pending_open_editor e = false /\ kq_rep e [].

Lemma new_plugin_clear name path : clear_slots (new_plugin name path).
Proof. split_and!; try done. apply empty_queue_rep. Qed.

Lemma emptied_queue e : length (key_queue e) = 8%nat -> key_queue_head e = 0 -> key_queue_count e = 0 -> kq_rep e [].
Proof. intros Hl Hh Hc. unfold kq_rep. rewrite Hl, Hh, Hc. split_and!; cbn; lia. Qed.

Lemma stopped_plugin_clear e o : length (key_queue e) = 8%nat -> clear_slots (plugin_stop e o).1.
Proof.
  intros Hl. unfold plugin_stop.
  split_if; [destruct (nsr_json_rpc_notify (e_rpc e) (str "cleanup") None o) as [[b r] o1]|];
    (split_and!; try done; by apply emptied_queue).
Qed.

Lemma clear_keys e e' : clear_slots e -> key_part e' = key_part e -> key_inv e' [] [] [].
Proof.
  intros (_ & _ & _ & _ & H1 & H2 & H3) [= E1 E2 E3 E4 E5 E6 E7]. split; rewrite ?E4, ?E6, ?H1, ?H2; try done.
  - exists []. split; [by eapply kq_rep_ext|done].
  - intros id p Hin. by apply elem_of_nil in Hin.
Qed.

Lemma spawned_inv e p i fo : clear_slots e -> host_inv (with_rpc e (spawned p i fo)) [] [].
Proof.
  intros (H1 & H2 & H3 & H4 & _). split; cbn [with_rpc e_rpc render_pending pending_render_id last_render_resp render_hops_pending
    pending_render_hops_id last_render_hops_resp]; rewrite ?H1, ?H2, ?H3, ?H4; try apply slot_cleared.
  - exists []. split_and!; [done|apply one_line_nil|done].
  - done.
  - done.
  - done.
Qed.

(** The [init] request is the first message. *)
Lemma spawn_inv e config dir fds o e' o' :
  clear_slots e -> size_bound (init_doc config dir) < 2 ^ 48 -> plugin_spawn e config dir (Some fds) o = (true, e', o') ->
  exists R got, entry_inv e' [Req 1 (str "init") (init_doc config dir)] R [] /\ Forall one_line R /\ consumed o o' got /\
    got = flat R ++ rx_buf (e_rpc e').
Proof.
  intros Hc Hs. destruct fds as [[p i] fo]. unfold plugin_spawn, nsr_json_rpc_call.
  destruct (request_message_ok 1 (str "init") (init_doc config dir)) as [Hm Hf]; [lia|left|lia|done|].
  change (init_params config dir) with (doc_calls (init_doc config dir)). rewrite (emit_print (init_doc config dir)) by done.
  pose proof (request_inv (with_rpc e (spawned p i fo)) [] [] (str "init") (init_doc config dir) o (spawned_inv e p i fo Hc) Hm) as Hq.
  cbn [with_rpc e_rpc] in Hq. destruct (nsr_json_rpc_send_request (spawned p i fo) _ _ o) as [[[ok id] r] o1].
  destruct Hq as (Hr & Hx & Hq). destruct ok; [destruct Hq as [_ Hq]|done]. cbn [app rpc_next_id spawned] in Hq.
  unfold nsr_json_rpc_try_recv_response. split_if; [done|].
  destruct (response_loop _ 2000 r o1) as [[resp r'] o2] eqn:El.
  destruct (response_goes _ _ (with_rpc e r) _ [] r o1 resp r' o2 El eq_refl Hq) as (R & got & Hi & HR & Hco & Ex).
  destruct resp as [resp|]; [|done]. destruct (init_result resp) as [result|]; [|done]. intros [= <- <-].
  exists R, got. split; [split; [by apply (host_inv_local (with_rpc e r'))|]|].
  { apply (key_inv_more _ [] [] [] [Req 1 (str "init") (init_doc config dir)] R []); [by repeat constructor|]. by apply (clear_keys e). } split; [done|]. split.
  - destruct Hco as (k & Ek & Hk). exists k. by rewrite <- Hr.
  - rewrite Hx in Ex. exact Ex.
Qed.
