(* ===== verification/PluginLink.v ===== *)
(** * The host and a plugin process on their two pipes

    The connection of RpcConn.v and the routing of PluginHost.v on one side, the
    message loop of a plugin on the other (class [MessagePlugin]), and the bytes on
    their way between them.  The two run in any order; the host reads what is there
    in pieces of any size.  Bytes, partial reads, identifiers and slots for pending
    answers together implement an exchange of messages: the plugin handles the
    messages of the host in order, and what the host keeps as the answer to a request
    is the answer to that request. *)

From stdpp Require Import relations.
From S2P Require Import Prelude CFloat JsonBuf JsonScan JsonDoc JsonRpc RpcConn Telemetry Topology.
From S2P Require Import PluginConfig PluginDocs PluginHost Draw TuiState PluginRender Percentile GeoIP PluginSystem HostLink.

(** ** The plugin's side *)

(** One round of the loop of a plugin: a line with its newline, what it reads of the
    rest of the world ([E]: the clock, files), the new state and what it prints. *)
Class MessagePlugin (P E : Type) := react : E -> P -> cstr -> P * cstr.

(** The text of a message as the plugin reads it. *)
Definition input_of (m : message) : cstr := line_of m ++ [newline].

(** One line that carries the identifier of a request and asks for nothing more. *)
Definition answers (id : Z) (out : cstr) : Prop :=
  exists l, out = l ++ [newline] /\ one_line l /\ nul_free l /\ message_id l = id /\ quiet l.

(** A plugin says nothing to news and answers each request. *)
Class MessagePluginLaws (P E : Type) `{MessagePlugin P E} := {
  react_tell env p tel topo : message_ok (Tell tel topo) -> (react env p (input_of (Tell tel topo))).2 = [];
  react_request env p id me q : message_ok (Req id me q) -> answers id (react env p (input_of (Req id me q))).2;
}.

Section Link.
  Context {P E : Type} `{MessagePluginLaws P E}.

(** The state after some messages, and the bytes printed for them. *)
Definition replay (p : P) (h : list (E * message)) : P := foldl (fun p em => (react em.1 p (input_of em.2)).1) p h.

Fixpoint said (p : P) (h : list (E * message)) : cstr :=
  match h with
  | [] => []
  | (env, m) :: h' => let '(p', out) := react env p (input_of m) in out ++ said p' h'
  end.

(** [k_read] bytes of what the host wrote were read by the plugin, [k_got] bytes of
    what the plugin wrote were read by the host. *)
Record link := mk_link {
  k_host : nsr_plugin_entry_t;
  k_plugin : P;
  k_read : nat;
  k_out : cstr;
  k_got : nat;
}.

(** Steps of the two processes, with the keys that are pressed.  The host's [read]
    calls give what the plugin has written, in pieces; [getline] of the plugin takes
    one line. *)
Inductive link_move : list nsr_key_event_t -> link -> link -> Prop :=
| host_moves op o e p n out got e' o' g :
    op_ok op -> host_do op e o = (e', o') -> consumed o o' g -> g `prefix_of` drop got out ->
    link_move (pressed op) (mk_link e p n out got) (mk_link e' p n out (got + length g))
| plugin_moves env e p n out got line rest p' text :
    split_line (drop n (tx (e_rpc e))) = Some (line, rest) -> react env p (line ++ [newline]) = (p', text) ->
    link_move [] (mk_link e p n out got) (mk_link e p' (n + S (length line)) (out ++ text) got).

Definition link_step (k k' : link) : Prop := exists K, link_move K k k'.

Lemma host_acts op o e p n out got e' o' g :
  op_ok op -> host_do op e o = (e', o') -> consumed o o' g -> g `prefix_of` drop got out ->
  link_step (mk_link e p n out got) (mk_link e' p n out (got + length g)).
Proof. intros. eexists. by eapply host_moves. Qed.

Lemma plugin_acts env e p n out got line rest p' text :
  split_line (drop n (tx (e_rpc e))) = Some (line, rest) -> react env p (line ++ [newline]) = (p', text) ->
  link_step (mk_link e p n out got) (mk_link e p' (n + S (length line)) (out ++ text) got).
Proof. intros. eexists. by eapply plugin_moves. Qed.

(** A run in which the keys [A] are pressed. *)
Inductive key_run (k : link) : list nsr_key_event_t -> link -> Prop :=
| run_none : key_run k [] k
| run_more A K k1 k2 : key_run k A k1 -> link_move K k1 k2 -> key_run k (A ++ K) k2.

Lemma run_keys k k' : rtc link_step k k' -> exists A, key_run k A k'.
Proof.
  apply (rtc_ind_r (fun z => exists A, key_run k A z) k); [by exists []; constructor|].
  intros k1 k2 _ [K Hk] [A Ha]. exists (A ++ K). by apply (run_more k A K k1 k2).
Qed.

(** The plugin was started: the host has sent [init] and taken the answer. *)
Inductive link_started (env : E) (p0 : P) : link -> Prop :=
| started e config dir fds o p1 out e' o' g :
    clear_slots e -> size_bound (init_doc config dir) < 2 ^ 48 ->
    react env p0 (input_of (Req 1 (str "init") (init_doc config dir))) = (p1, out) ->
    plugin_spawn e config dir (Some fds) o = (true, e', o') -> consumed o o' g -> g `prefix_of` out ->
    link_started env p0 (mk_link e' p1 (length (input_of (Req 1 (str "init") (init_doc config dir)))) out (length g)).

(** The script of reads is used up and has given all that was printed. *)
Lemma reads_all o o' : reads o' = [] -> consumed o o' (data (reads o)).
Proof. intros Er. exists (reads o). by rewrite Er, app_nil_r. Qed.

Lemma started_all env p0 e config dir fds o p1 out e' o' :
  clear_slots e -> size_bound (init_doc config dir) < 2 ^ 48 ->
  react env p0 (input_of (Req 1 (str "init") (init_doc config dir))) = (p1, out) ->
  data (reads o) = out -> reads o' = [] -> plugin_spawn e config dir (Some fds) o = (true, e', o') ->
  link_started env p0 (mk_link e' p1 (length (input_of (Req 1 (str "init") (init_doc config dir)))) out (length out)).
Proof.
  intros Hc Hs Hr Ho Ho' Hsp. apply (started env p0 e config dir fds o p1 out e' o' out); try done.
  rewrite <- Ho. by apply reads_all.
Qed.

Definition link_inv (p0 : P) (k : link) (S : list message) (h : list (E * message)) (A : list nsr_key_event_t) : Prop :=
  h.*2 `prefix_of` S /\ k_plugin k = replay p0 h /\ k_read k = length (flat (map line_of h.*2)) /\ k_out k = said p0 h /\
  exists R, entry_inv (k_host k) S R A /\ Forall one_line R /\ (k_got k <= length (k_out k))%nat /\
    flat R ++ rx_buf (e_rpc (k_host k)) = take (k_got k) (k_out k).

Lemma replay_one p env m : replay p [(env, m)] = (react env p (input_of m)).1.
Proof. done. Qed.

Lemma said_one p env m : said p [(env, m)] = (react env p (input_of m)).2.
Proof. cbn [said]. destruct (react env p (input_of m)) as [p' out]. by rewrite app_nil_r. Qed.

Lemma replay_snoc p h env m : replay p (h ++ [(env, m)]) = (react env (replay p h) (input_of m)).1.
Proof. unfold replay. by rewrite foldl_app. Qed.

Lemma said_snoc p h env m : said p (h ++ [(env, m)]) = said p h ++ (react env (replay p h) (input_of m)).2.
Proof.
  revert p. induction h as [|[env' m'] h IH]; intros p; cbn [app said].
  - destruct (react env p (input_of m)) as [p' out] eqn:E1. cbn. rewrite E1. by rewrite app_nil_r.
  - destruct (react env' p (input_of m')) as [p' out] eqn:E1. rewrite IH, <- app_assoc. unfold replay. cbn. by rewrite E1.
Qed.

(** Steps that only write, on either side, for runs of concrete messages. *)
Lemma host_writes op o e p n out got e' o' :
  op_ok op -> reads o' = reads o -> host_do op e o = (e', o') -> link_step (mk_link e p n out got) (mk_link e' p n out got).
Proof.
  intros Hop Hr Hdo. pose proof (host_acts op o e p n out got e' o' [] Hop Hdo (consumed_refl _ _ Hr) (prefix_nil _)) as Hs.
  cbn [length] in Hs. by rewrite Nat.add_0_r in Hs.
Qed.

Lemma plugin_reads env e p n out got line rest p' text n' out' :
  split_line (drop n (tx (e_rpc e))) = Some (line, rest) -> react env p (line ++ [newline]) = (p', text) ->
  n' = (n + Datatypes.S (length line))%nat -> out' = out ++ text -> link_step (mk_link e p n out got) (mk_link e p' n' out' got).
Proof. intros Hl Hr -> ->. by apply (plugin_acts env) with (rest := rest). Qed.

(** The host reads all that is there. *)
Lemma host_takes op o e p n out got e' o' :
  op_ok op -> data (reads o) = drop got out -> (got <= length out)%nat -> reads o' = [] -> host_do op e o = (e', o') ->
  link_step (mk_link e p n out got) (mk_link e' p n out (length out)).
Proof.
  intros Hop Ho Hle Ho' Hdo.
  pose proof (host_acts op o e p n out got e' o' _ Hop Hdo (reads_all o o' Ho')) as Hs. rewrite Ho, length_drop in Hs.
  replace (length out) with (got + (length out - got))%nat by lia. by apply Hs.
Qed.

(** What the plugin prints is whole lines, each the answer to a request. *)
Definition answer_at (p0 : P) (h : list (E * message)) (l : cstr) : Prop :=
  exists j env id me q, h !! j = Some (env, Req id me q) /\ message_id l = id /\ nul_free l /\ quiet l /\
    l ++ [newline] = (react env (replay p0 (take j h)) (input_of (Req id me q))).2.

Lemma answer_at_cons p env m h l : answer_at (react env p (input_of m)).1 h l -> answer_at p ((env, m) :: h) l.
Proof.
  intros (j & env' & id & me & q & Hj & Hid & Hn & Hq & El). exists (S j), env', id, me, q. by split_and!.
Qed.

Lemma said_lines p h :
  Forall message_ok h.*2 -> exists ls, said p h = flat ls /\ Forall one_line ls /\ Forall (answer_at p h) ls.
Proof.
  revert p. induction h as [|[env m] h IH]; intros p Hm; cbn [said]; [by exists []|].
  inversion_clear Hm as [|? ? Hm1 Hm2]. destruct (react env p (input_of m)) as [p' out] eqn:Er.
  destruct (IH p' Hm2) as (ls & -> & Hls & Hans).
  assert (Hans' : Forall (answer_at p ((env, m) :: h)) ls).
  { eapply Forall_impl; [exact Hans|]. intros l Hl. apply answer_at_cons. by rewrite Er. }
  destruct m as [id me q|tel topo].
  - destruct (react_request env p id me q Hm1) as (l & El & Hl & Hn & Hid & Hq). rewrite Er in El. cbn [snd] in El. subst out.
    exists (l :: ls). rewrite flat_cons, <- app_assoc. split; [done|]. split; [by constructor|]. constructor; [|done].
    exists 0%nat, env, id, me, q. split_and!; try done. unfold replay. cbn [take foldl]. by rewrite Er.
  - pose proof (react_tell env p tel topo Hm1) as El. rewrite Er in El. cbn [snd] in El. subst out. by exists ls.
Qed.

(** The answers the host has taken and can take next are the plugin's, in order. *)
Lemma taken_answers p0 h R rx more rest :
  Forall message_ok h.*2 -> Forall one_line R -> flat R ++ rx ++ more = said p0 h ->
  Forall (answer_at p0 h) R /\
  forall ls, Forall one_line ls -> rx ++ more = flat ls ++ rest -> Forall (answer_at p0 h) ls.
Proof.
  intros Hm HR E1. destruct (said_lines p0 h Hm) as (outs & Eo & Ho & Hans). rewrite Eo in E1. split.
  - apply flat_prefix in E1 as [k ->]; [|done..]. by apply Forall_app in Hans as [? _].
  - intros ls Hls E2. rewrite E2, app_assoc, <- flat_app in E1. rewrite <- (app_nil_r rest) in E1.
    apply flat_prefix in E1 as [k ->]; [|by apply Forall_app|done]. apply Forall_app in Hans as [Hans _].
    by apply Forall_app in Hans as [_ ?].
Qed.

Lemma answers_quiet p0 h ls : Forall (answer_at p0 h) ls -> Forall quiet (map c_content ls).
Proof.
  intros Hl. apply Forall_map. eapply Forall_impl; [exact Hl|]. intros l (j & env & id & me & q & _ & _ & Hn & Hq & _).
  by rewrite c_content_nul_free.
Qed.

Lemma handled_ok (h : list (E * message)) S : h.*2 `prefix_of` S -> Forall message_ok S -> Forall message_ok h.*2.
Proof. intros [t ->] Hok. by apply Forall_app in Hok as [? _]. Qed.

Lemma host_acts_inv p0 op o e p n out got e' o' g S h A :
  op_ok op -> host_do op e o = (e', o') -> consumed o o' g -> g `prefix_of` drop got out ->
  link_inv p0 (mk_link e p n out got) S h A ->
  exists S1, link_inv p0 (mk_link e' p n out (got + length g)) (S ++ S1) h (A ++ pressed op).
Proof.
  intros Hop Hdo Hc [more Hmore] (Hpre & Hp & Hn & Ho & R & Hi & HR & Hgot & Hx). cbn [k_host k_plugin k_read k_out k_got] in *.
  pose proof (host_do_goes op e o Hop) as Hg. rewrite Hdo in Hg. destruct Hg as (g' & Hc' & Hg).
  rewrite (consumed_unique _ _ _ _ Hc' Hc) in Hg. pose proof (handled_ok h S Hpre (hi_ok _ _ _ (proj1 Hi))) as Hmh.
  destruct (Hg S R A Hi) as (S1 & R1 & Hi1 & HR1 & Ex).
  { intros ls rest Hls El. apply (answers_quiet p0 h).
    destruct (taken_answers p0 h R (rx_buf (e_rpc e)) (g ++ more) (rest ++ more) Hmh HR) as [_ Ht].
    - by rewrite <- Hmore, app_assoc, Hx, take_drop.
    - apply Ht; [done|]. by rewrite app_assoc, El, <- app_assoc. }
  pose proof (f_equal length Hmore) as Hl2. rewrite length_app, length_drop in Hl2.
  exists S1. split; [by apply prefix_app_r|]. split_and!; [done..|].
  exists (R ++ R1). cbn [k_host k_got k_out]. split; [done|]. split; [by apply Forall_app|]. split; [lia|].
  rewrite flat_app, <- app_assoc, <- Ex, app_assoc, Hx.
  rewrite <- (take_drop got out) at 2. rewrite Hmore, take_app_ge by (rewrite length_take; lia).
  rewrite length_take, Nat.min_l by lia. f_equal.
  replace (got + length g - got)%nat with (length g) by lia. by rewrite take_app_length.
Qed.

Lemma plugin_acts_inv p0 env e p n out got line rest p' text S h A :
  split_line (drop n (tx (e_rpc e))) = Some (line, rest) -> react env p (line ++ [newline]) = (p', text) ->
  link_inv p0 (mk_link e p n out got) S h A ->
  exists m, link_inv p0 (mk_link e p' (n + Datatypes.S (length line)) (out ++ text) got) S (h ++ [(env, m)]) A.
Proof.
  intros Hline Hre ([rest_msgs Hpre] & Hp & Hn & Ho & R & Hi & HR & Hgot & Hx). cbn [k_host k_plugin k_read k_out k_got] in *.
  destruct (hi_tx _ _ _ (proj1 Hi)) as (part & Htx & Hpart & _).
  rewrite Htx, Hn, Hpre, map_app, flat_app, <- app_assoc, drop_app_length in Hline.
  destruct rest_msgs as [|m msgs].
  { cbn in Hline. pose proof (split_line_spec part) as Hsp. rewrite Hline in Hsp. destruct Hsp as [-> _].
    destruct Hpart. apply elem_of_app. right. by left. }
  cbn [map] in Hline. rewrite split_line_flat in Hline by apply message_one_line. injection Hline as <- _.
  assert (Ere : react env (replay p0 h) (input_of m) = (p', text)) by (by rewrite <- Hp).
  exists m. split; [rewrite fmap_app, Hpre; cbn; exists msgs; by rewrite <- app_assoc|].
  split; [by rewrite replay_snoc, Ere|].
  split; [rewrite fmap_app, map_app, flat_app, length_app, Hn; cbn [map fmap list_fmap]; rewrite flat_one, length_app; cbn; lia|].
  split; [by rewrite said_snoc, Ere, Ho|].
  exists R. cbn [k_host k_got k_out]. split; [done|]. split; [done|]. rewrite length_app. split; [lia|].
  by rewrite take_app_le.
Qed.

Lemma link_move_inv p0 K k k' S h A :
  link_move K k k' -> link_inv p0 k S h A -> exists S1 h1, link_inv p0 k' S1 h1 (A ++ K).
Proof.
  intros [op o e p n out got e' o' g Hop Hdo Hc Hdata|env e p n out got line rest p' text Hline Hre] Hi.
  - destruct (host_acts_inv p0 op o e p n out got e' o' g S h A Hop Hdo Hc Hdata Hi) as [S1 H1]. eauto.
  - rewrite app_nil_r. destruct (plugin_acts_inv p0 env e p n out got line rest p' text S h A Hline Hre Hi) as [m H1]. eauto.
Qed.

Lemma link_started_inv env p0 k :
  link_started env p0 k -> exists config dir,
    let m := Req 1 (str "init") (init_doc config dir) in link_inv p0 k [m] [(env, m)] [].
Proof.
  intros [e config dir fds o p1 out e' o' g Hc Hs Hre Hsp Hg Hdata]. exists config, dir. cbv zeta.
  destruct (spawn_inv e config dir fds o e' o' Hc Hs Hsp) as (R & got & Hi & HR & Hcg & Hx).
  rewrite (consumed_unique _ _ _ _ Hcg Hg) in Hx. destruct Hdata as [more Hmore].
  unfold link_inv. cbn [k_host k_plugin k_read k_out k_got fmap list_fmap snd map].
  split; [done|]. split; [by rewrite replay_one, Hre|]. split; [by rewrite flat_one|].
  split; [by rewrite said_one, Hre|]. exists R. split; [exact Hi|]. split; [done|].
  rewrite Hmore, length_app. split; [lia|]. by rewrite take_app_length, <- Hx.
Qed.

Lemma link_reachable env p0 k0 A k :
  link_started env p0 k0 -> key_run k0 A k -> exists S h, link_inv p0 k S h A.
Proof.
  intros (config & dir & Hi)%link_started_inv Hrun. revert Hi. generalize (Req 1 (str "init") (init_doc config dir)). intros m Hi.
  induction Hrun as [|A K k1 k2 Hrun IH Hs]; [by eauto|]. destruct IH as (S & h & Hk).
  by apply (link_move_inv p0 K k1 k2 S h A).
Qed.

(** [resp] is what the plugin printed when it handled a request of the method. *)
Definition answered (p0 : P) (h : list (E * message)) (method : string) (resp : cstr) : Prop :=
  exists j env id q, h !! j = Some (env, Req id (str method) q) /\
    resp ++ [newline] = (react env (replay p0 (take j h)) (input_of (Req id (str method) q))).2.

Lemma req_unique S id me me' q q' :
  NoDup (req_ids S) -> Req id me q ∈ S -> Req id me' q' ∈ S -> Req id me q = Req id me' q'.
Proof.
  intros Hn (i & Hi)%list_elem_of_lookup (j & Hj)%list_elem_of_lookup.
  revert i j Hn Hi Hj. induction S as [|m S IH]; intros i j Hn Hi Hj; [done|].
  assert (Hin : forall k me0 q0, S !! k = Some (Req id me0 q0) -> id ∈ req_ids S).
  { intros k me0 q0 Hk. apply list_elem_of_omap. exists (Req id me0 q0). split; [by eapply list_elem_of_lookup_2|done]. }
  assert (Hn' : NoDup (req_ids S)) by (destruct m; [by apply NoDup_cons in Hn as [_ ?]|done]).
  destruct i as [|i], j as [|j]; cbn [lookup list_lookup] in Hi, Hj.
  - congruence.
  - injection Hi as ->. apply NoDup_cons in Hn as [[] _]. by eapply Hin.
  - injection Hj as ->. apply NoDup_cons in Hn as [[] _]. by eapply Hin.
  - by eapply IH.
Qed.

Lemma slot_answered p0 S R h me pend id resp :
  NoDup (req_ids S) -> h.*2 `prefix_of` S -> Forall (answer_at p0 h) R -> slot_ok S R me pend id resp ->
  resp = [] \/ answered p0 h me resp.
Proof.
  intros Hn [t Ht] HR [_ [Hr|(l & q & Hl & -> & Hq)]]; [by left|right].
  rewrite Forall_forall in HR. destruct (HR l Hl) as (j & env & id' & me' & q' & Hj & Hid & Hnul & _ & El).
  rewrite c_content_nul_free in Hq |- * by done. rewrite Hid in Hq.
  assert (Hin : Req id' me' q' ∈ S).
  { rewrite Ht. apply elem_of_app. left. apply (list_elem_of_fmap_2' snd h (env, Req id' me' q')); [by eapply list_elem_of_lookup_2|done]. }
  pose proof (req_unique S id' (str me) me' q q' Hn Hq Hin) as [= <- <-]. by exists j, env, id', q.
Qed.

(** The messages [S] were written, after them at most a part of one more on a
    connection that was given up; the plugin has handled the first of them, [h], each
    once and in order. *)
Record delivered (p0 : P) (k : link) (S : list message) (h : list (E * message)) : Prop := mk_delivered {
  dl_written : exists part, tx (e_rpc (k_host k)) = flat (map line_of S) ++ part /\ one_line part /\
                 (rpc_dead (e_rpc (k_host k)) = false -> part = []);
  dl_handled : h.*2 `prefix_of` S;
  dl_state : k_plugin k = replay p0 h;
  dl_read : k_read k = length (flat (map line_of h.*2));
  dl_said : k_out k = said p0 h;
}.

(** What the host keeps as an answer is one, or nothing. *)
Definition slots_answered (p0 : P) (e : nsr_plugin_entry_t) (h : list (E * message)) : Prop :=
  (last_render_resp e = [] \/ answered p0 h "render" (last_render_resp e)) /\
  (last_render_hops_resp e = [] \/ answered p0 h "render_hops" (last_render_hops_resp e)).

Lemma link_inv_taken p0 k S h A :
  link_inv p0 k S h A ->
  delivered p0 k S h /\ Forall message_ok S /\ (Z.of_nat (length S) < 2 ^ 31 - 1 -> NoDup (req_ids S)) /\
  exists R, entry_inv (k_host k) S R A /\ Forall (answer_at p0 h) R.
Proof.
  intros (Hpre & Hp & Hn & Ho & R & [Hi Hk] & HR & Hgot & Hx).
  split; [split; try done; exact (hi_tx _ _ _ Hi)|]. split; [exact (hi_ok _ _ _ Hi)|]. split.
  { intros Hb. destruct (hi_ids _ _ _ Hi Hb) as [Hids _]. rewrite Hids. apply NoDup_seqZ. }
  exists R. split; [done|].
  destruct (taken_answers p0 h R (rx_buf (e_rpc (k_host k))) (drop (k_got k) (k_out k)) [] (handled_ok h S Hpre (hi_ok _ _ _ Hi)) HR)
    as [? _]; [|done]. by rewrite app_assoc, Hx, take_drop, <- Ho.
Qed.

Lemma link_messages env p0 k0 k :
  link_started env p0 k0 -> rtc link_step k0 k ->
  exists S h, delivered p0 k S h /\ Forall message_ok S /\ (Z.of_nat (length S) < 2 ^ 31 - 1 -> slots_answered p0 (k_host k) h).
Proof.
  intros Hst (A & Hrun)%run_keys. destruct (link_reachable env p0 k0 A k Hst Hrun) as (S & h & Hinv).
  destruct (link_inv_taken p0 k S h A Hinv) as (Hd & Hm & Hn & R & [Hi _] & HR).
  exists S, h. split; [done|]. split; [done|]. intros Hb. specialize (Hn Hb). pose proof (dl_handled _ _ _ _ Hd).
  split; eapply slot_answered; try done; [exact (hi_render _ _ _ Hi)|exact (hi_hops _ _ _ Hi)].
Qed.

(** Pipes, buffers, partial reads and writes, request numbers and answer slots
    implement an exchange of messages.  Whatever the host does for a plugin after it
    was started (telemetry, keys, panels, annotations, liveness checks, in any order)
    and however the two processes and the pieces of their pipes interleave, the bytes
    the host has written are whole messages and, only on a connection it has given
    up, a part of one more; the plugin has handled the first of these messages, each
    once and in order; and the panel and the annotations that the host keeps are
    empty or exactly what the plugin printed for a request of that kind. *)
Theorem link_delivers_messages env p0 k0 k :
  link_started env p0 k0 -> rtc link_step k0 k ->
  exists S h, delivered p0 k S h /\ (Z.of_nat (length S) < 2 ^ 31 - 1 -> slots_answered p0 (k_host k) h).
Proof. intros Hst Hrun. destruct (link_messages env p0 k0 k Hst Hrun) as (S & h & Hd & _ & Ha). eauto. Qed.

End Link.

(** ** Plugins that keep the laws *)

Definition answer_doc (id : Z) (field : string) (body : list (cstr * json)) : json :=
  JObj [(str "jsonrpc", JStr (str "2.0")); (str "id", JInt id); (str field, JObj body)].

Lemma answer_doc_answers id field body :
  - 2 ^ 31 <= id < 2 ^ 31 -> field ∈ ["result"; "error"]%string -> find_member body (str "force_sync") = None ->
  answers id (print (answer_doc id field body) ++ [newline]).
Proof.
  intros Hid Hf Hb. exists (print (answer_doc id field body)). split; [done|]. split; [apply print_one_line|].
  split; [apply print_nul_free|]. rewrite <- (app_nil_r (print _)). unfold answer_doc.
  set (m := [(str "jsonrpc", JStr (str "2.0")); _; _]).
  assert (Hid' : find_member m (str "id") = Some (JInt id)) by reflexivity.
  split; [apply (int_member_print m [] "id" id (-1) Hid'); lia|]. split.
  - pose proof (obj_get_print m [] (str "method")) as Hp. unfold str_member.
    assert (Hn : find_member m (str "method") = None).
    { apply elem_of_cons in Hf as [->|Hf]; [reflexivity|]. apply list_elem_of_singleton in Hf as ->. reflexivity. }
    rewrite Hn in Hp. by rewrite Hp.
  - intros result len Hr. pose proof (obj_get_print m [] (str "result")) as Hp.
    apply elem_of_cons in Hf as [->|Hf].
    + assert (Hn : find_member m (str "result") = Some (JObj body)) by reflexivity.
      rewrite Hn in Hp. destruct Hp as (rest & Hp & _). rewrite Hp in Hr. injection Hr as <- _.
      pose proof (obj_get_print body rest (str "force_sync")) as Hq. rewrite Hb in Hq. unfold bool_member. by rewrite Hq.
    + apply list_elem_of_singleton in Hf as ->.
      assert (Hn : find_member m (str "result") = None) by reflexivity. rewrite Hn in Hp. by rewrite Hp in Hr.
Qed.

Lemma respond_answers cs id field body :
  - 2 ^ 31 <= id < 2 ^ 31 -> field ∈ ["result"; "error"]%string -> find_member body (str "force_sync") = None ->
  cs = doc_calls (answer_doc id field body) -> size_bound (JObj body) < 2 ^ 61 -> answers id (respond cs).
Proof.
  intros Hid Hf Hb E Hs. unfold respond. rewrite (emit_print _ _ E); [by apply answer_doc_answers|].
  apply fits_bound. unfold answer_doc. cbn [size_bound map foldr].
  assert (Hlen : (length (str field) <= 6)%nat).
  { apply elem_of_cons in Hf as [->|Hf]; [by vm_compute; lia|]. apply list_elem_of_singleton in Hf as ->. vm_compute. lia. }
  change (Z.of_nat (length (str "jsonrpc"))) with 7. change (Z.of_nat (length (str "id"))) with 2.
  change (Z.of_nat (length (str "2.0"))) with 3. cbn [size_bound] in Hs. lia.
Qed.

Lemma send_error_answers id : - 2 ^ 31 <= id < 2 ^ 31 -> answers id (send_error id (str "Method not found")).
Proof.
  intros Hid. apply (respond_answers _ id "error" [(str "code", JInt (-32601)); (str "message", JStr (str "Method not found"))]);
    [done|right; left|reflexivity..].
Qed.

(** What a plugin reads of a message of the host. *)
Lemma request_read id me q : message_ok (Req id me q) ->
  exists rest, parse_request (input_of (Req id me q)) = Some (mk_request me (print q ++ rest) (Some id)).
Proof.
  intros (_ & Hid & _ & Hme & _). destruct (parse_request_print me q (Some id)) as (rest & _ & E).
  - repeat (apply elem_of_cons in Hme as [->|Hme]; [apply plain_printable; by repeat constructor|]). by apply elem_of_nil in Hme.
  - repeat (apply elem_of_cons in Hme as [->|Hme]; [vm_compute; lia|]). by apply elem_of_nil in Hme.
  - intros i [= <-]. lia.
  - by exists rest.
Qed.

Lemma news_read tel topo : message_ok (Tell tel topo) ->
  exists params, parse_request (input_of (Tell tel topo)) = Some (mk_request (str "update_telemetry") params None).
Proof.
  intros [Hf _]. destruct (telemetry_parsed tel topo Hf) as [rest E]. rewrite telemetry_line_text in E by done. eauto.
Qed.

(** *** The percentile plugin *)

#[export] Instance pctl_plugin : MessagePlugin pctl_globals (nat -> option (Z * Z)) := fun clock g line => pctl_main_line clock g line.

Lemma windows_docs clock g ws i y x focus :
  Forall (fun w => (length (w_label w) <= 5)%nat) ws ->
  exists docs, (emit_windows clock g ws i y x focus).1 = concat (map doc_calls docs) /\
    length docs = length ws /\ Forall (fun d => size_bound d <= 800) docs.
Proof.
  revert i y. induction ws as [|w ws IH]; intros i y Hw; [by exists []|]. inversion_clear Hw as [|? ? Hw1 Hw2].
  cbn [emit_windows emit_stats_line]. set (s := match focus with Some _ => _ | None => _ end).
  destruct (IH (S i) (y + 1) Hw2) as (docs & E & Hl & Hb).
  destruct (emit_windows clock g ws (S i) (y + 1) x focus) as [c2 y2]. cbn [fst] in *.
  exists (JObj [(str "y", JInt y); (str "x", JInt x); (str "text", JStr (stats_text (w_label w) s))] :: docs).
  split; [by rewrite E|]. split; [cbn; lia|]. constructor; [|done]. cbn [size_bound map foldr].
  assert (Ht : (length (stats_text (w_label w) s) <= 79)%nat) by (unfold stats_text; rewrite length_take; lia).
  change (Z.of_nat (length (str "y"))) with 1. change (Z.of_nat (length (str "x"))) with 1.
  change (Z.of_nat (length (str "text"))) with 4. lia.
Qed.

Lemma stats_docs clock g title y x focus :
  (length title <= 24)%nat ->
  exists docs, (emit_window_stats clock g title y x focus).1 = concat (map doc_calls docs) /\
    length docs = 5%nat /\ Forall (fun d => size_bound d <= 800) docs.
Proof.
  intros Ht. unfold emit_window_stats, emit_title.
  destruct (windows_docs clock g WINDOWS 0 (y + 1) x focus) as (docs & E & Hl & Hb).
  { repeat constructor; vm_compute; lia. }
  destruct (emit_windows clock g WINDOWS 0 (y + 1) x focus) as [c2 y2]. cbn [fst] in *.
  exists (JObj [(str "y", JInt y); (str "x", JInt x); (str "text", JStr title); (str "color", JStr (str "cyan"))] :: docs).
  split; [by rewrite E|]. split; [cbn; by rewrite Hl|]. constructor; [|done]. cbn [size_bound map foldr].
  change (Z.of_nat (length (str "y"))) with 1. change (Z.of_nat (length (str "x"))) with 1.
  change (Z.of_nat (length (str "text"))) with 4. change (Z.of_nat (length (str "color"))) with 5.
  change (Z.of_nat (length (str "cyan"))) with 4. lia.
Qed.

Lemma render_answers clock g params id : - 2 ^ 31 <= id < 2 ^ 31 -> answers id (handle_render clock g params id).
Proof.
  intros Hid. unfold handle_render. set (focus := str_member params "focused_addr" 64 []).
  destruct (stats_docs clock g (str "RTT Statistics (Global)") 1 1 None) as (d1 & E1 & L1 & B1); [vm_compute; lia|].
  destruct (emit_window_stats clock g (str "RTT Statistics (Global)") 1 1 None) as [c1 y]. cbn [fst] in E1. subst c1.
  destruct (stats_docs clock g (str "RTT Statistics (Focused)") (y + 1) 1 (Some focus)) as (d2 & E2 & L2 & B2); [vm_compute; lia|].
  set (docs := d1 ++ if ceq (deref focus) NUL then [] else d2).
  assert (Hl : (length docs <= 10)%nat) by (unfold docs; rewrite length_app, L1; destruct (ceq _ _); cbn; lia).
  assert (Hb : Forall (fun d => size_bound d <= 800) docs) by (apply Forall_app; split; [done|by destruct (ceq _ _)]).
  apply (respond_answers _ id "result" [(str "lines", JArr docs)]); [done|left|reflexivity| |].
  - unfold docs. cbn [answer_doc doc_calls map concat fst snd]. rewrite map_app, concat_app.
    unfold response_head, keyed. destruct (ceq (deref focus) NUL); cbn [map concat app]; rewrite ?E2, <- ?app_assoc; reflexivity.
  - cbn [size_bound map foldr]. change (Z.of_nat (length (str "lines"))) with 5.
    pose proof (sum_bound docs 800 ltac:(lia) Hb) as Hs. lia.
Qed.

#[export] Instance pctl_laws : MessagePluginLaws pctl_globals (nat -> option (Z * Z)).
Proof.
  split.
  - intros clock g tel topo Hm. unfold react, pctl_plugin, pctl_main_line. by destruct (news_read tel topo Hm) as (params & ->).
  - intros clock g id me q Hm. destruct (request_read id me q Hm) as (params & E). destruct Hm as (_ & Hid & _ & Hme & _).
    unfold react, pctl_plugin, pctl_main_line. rewrite E. cbn [rq_method rq_id rq_params].
    repeat (apply elem_of_cons in Hme as [->|Hme]); [| | | |by apply elem_of_nil in Hme].
    + apply (respond_answers _ id "result" [(str "status", JStr (str "ok"));
        (str "description", JStr (str "Show RTT min/avg/max for 1m/5m/15m/1h windows"))]); [done|left|reflexivity..].
    + by apply send_error_answers.
    + by apply render_answers.
    + by apply send_error_answers.
Qed.

(** *** The GeoIP plugin *)

(** What the plugin finds in the world while it handles one message: databases,
    files, the web service, and the bytes an array held before. *)
Record geo_world := mk_geo_world {
  w_open : cstr -> option ip2_db;
  w_files : cstr -> option cstr;
  w_http : cstr -> option transfer;
  w_stale : cstr;
}.

#[export] Instance geo_plugin : MessagePlugin geoip_state_t geo_world :=
  fun w st line => geo_step (w_open w) (w_files w) (w_http w) (w_stale w) st line.

Lemma obj_get_shorter p key v len : nsr_json_obj_get p key = Some (v, len) -> (length v <= length p)%nat.
Proof.
  unfold nsr_json_obj_get. split_if; [|done].
  destruct (obj_get_loop_total (S (length (skip_ws p))) (tail (skip_ws p)) key) as (r & -> & Hr); [rewrite tail_length; lia|].
  intros Hv. change (r = Some (v, len)) in Hv. subst r. destruct (Hr v len eq_refl) as [Hs _]. apply suffix_length in Hs. rewrite tail_length in Hs.
  pose proof (suffix_length _ _ (skip_ws_suffix p)). lia.
Qed.

Lemma c_content_length s : (length (c_content s) <= length s)%nat.
Proof. induction s as [|c s IH]; [done|]. cbn [c_content]. split_if; cbn [length]; lia. Qed.

Lemma chop_length c s : (length (chop c s) <= length s)%nat.
Proof. unfold chop. destruct (last s) as [d|]; [|done]. split_if; [|done]. rewrite length_take. lia. Qed.

Lemma parse_request_length raw rq : parse_request raw = Some rq -> (length (rq_params rq) <= length raw + 2)%nat.
Proof.
  unfold parse_request. set (line := strip_eol (c_content raw)).
  assert (Hline : (length line <= length raw)%nat).
  { unfold line, strip_eol. pose proof (c_content_length raw). pose proof (chop_length (chr 10) (c_content raw)).
    pose proof (chop_length (chr 13) (chop (chr 10) (c_content raw))). lia. }
  destruct (nsr_json_obj_get line (str "method")) as [[me ml]|]; [|done].
  destruct (nsr_json_obj_get line (str "params")) as [[p l]|] eqn:Ep.
  - apply obj_get_shorter in Ep. destruct (nsr_json_parse_str me ml 64); [|done]. intros [= <-]. cbn [rq_params]. lia.
  - destruct (nsr_json_parse_str me ml 64); [|done]. intros [= <-]. cbn. lia.
Qed.

Lemma arr_elements_length s : (length (arr_elements s) <= length s)%nat.
Proof.
  unfold arr_elements. generalize (nsr_json_arr_first s). generalize (length s). intros n.
  induction n as [|n IH]; intros [[e|] [p|]]; cbn [arr_collect length]; try lia. pose proof (IH (nsr_json_arr_next p)). lia.
Qed.

Lemma annotation_docs c elems : exists docs, concat (map (annotation_calls c) elems) = concat (map doc_calls docs) /\
  (length docs <= length elems)%nat /\ Forall (fun d => size_bound d <= 900) docs.
Proof.
  induction elems as [|elem elems (docs & E & Hl & Hb)]; [by exists []|]. cbn [map concat]. rewrite E.
  unfold annotation_calls at 1. set (addr := default [] (json_extract elem "addr" 64)).
  destruct (geo_cache_find c addr) as [g|]; [|exists docs; by split_and!; [|cbn; lia|]].
  destruct (g_valid g); [|exists docs; by split_and!; [|cbn; lia|]].
  set (text := take 127 _). assert (Ht : (length text <= 127)%nat) by (unfold text; rewrite length_take; lia).
  exists (JObj [(str "hop_idx", JInt (int_member elem "hop_idx" (-1))); (str "text", JStr text)] :: docs).
  split; [done|]. split; [cbn; lia|]. constructor; [|done]. cbn [size_bound map foldr].
  change (Z.of_nat (length (str "hop_idx"))) with 7. change (Z.of_nat (length (str "text"))) with 4. lia.
Qed.

Lemma render_hops_answers c params id :
  - 2 ^ 31 <= id < 2 ^ 31 -> Z.of_nat (length params) < 2 ^ 50 + 10 -> answers id (geo_handle_render_hops c params id).
Proof.
  intros Hid Hp. unfold geo_handle_render_hops. set (elems := match nsr_json_obj_get params (str "hops") with Some _ => _ | None => _ end).
  assert (Hl : (length elems <= length params)%nat).
  { unfold elems. destruct (nsr_json_obj_get params (str "hops")) as [[v l]|] eqn:Ev; [|cbn; lia].
    apply obj_get_shorter in Ev. pose proof (arr_elements_length v). lia. }
  destruct (annotation_docs c elems) as (docs & -> & Hd & Hb).
  apply (respond_answers _ id "result" [(str "annotations", JArr docs)]); [done|left|reflexivity| |].
  - unfold response_head, keyed. cbn [answer_doc doc_calls map concat fst snd app]. rewrite <- ?app_assoc. reflexivity.
  - cbn [size_bound map foldr]. change (Z.of_nat (length (str "annotations"))) with 11.
    pose proof (sum_bound docs 900 ltac:(lia) Hb) as Hs. lia.
Qed.

#[export] Instance geo_laws : MessagePluginLaws geoip_state_t geo_world.
Proof.
  split.
  - intros w st tel topo Hm. unfold react, geo_plugin, geo_step, geo_main_line. by destruct (news_read tel topo Hm) as (params & ->).
  - intros w st id me q Hm. destruct (request_read id me q Hm) as (params & E). pose proof (parse_request_length _ _ E) as Hl.
    destruct Hm as (_ & Hid & Hb & Hme & _). unfold react, geo_plugin, geo_step, geo_main_line. rewrite E. cbn [rq_method rq_id rq_params] in *.
    repeat (apply elem_of_cons in Hme as [->|Hme]); [| | | |by apply elem_of_nil in Hme].
    + apply (respond_answers _ id "result" [(str "status", JStr (str "ok"));
        (str "description", JStr (str "Resolve hop IPs to country & provider"))]); [done|left|reflexivity..].
    + rewrite geo_error_same. by apply send_error_answers.
    + rewrite geo_error_same. by apply send_error_answers.
    + apply render_hops_answers; [done|]. unfold input_of in Hl. rewrite (length_app (line_of _)) in Hl. cbn [length] in Hl.
      change (length [newline]) with 1%nat in Hl. lia.
Qed.

(** ** A run *)

Definition demo_world : geo_world := mk_geo_world (fun _ => None) (fun _ => None) (fun _ => None) [].
Definition demo_geo : geoip_state_t := mk_geoip None empty_cache.
Definition demo_init : message := Req 1 (str "init") (init_doc (str "/c") (str "/p")).
Definition demo_asked : message := Req 2 (str "render_hops") (hops_doc [] 0).

(** The kernel takes a line in one piece and its newline in another. *)
Definition written (m : message) : list write_res := [Wrote (length (line_of m)); Wrote 1].

Definition demo_os (m : message) (incoming : cstr) : os :=
  mk_os (replicate 4 (Some (0, 0))) [PollReady] [ReadData incoming] [] (written m).

Definition demo_hello : cstr := (react demo_world demo_geo (input_of demo_init)).2.
Definition demo_answer : cstr := (react demo_world demo_geo (input_of demo_asked)).2.

Definition demo_up := plugin_spawn (new_plugin (str "geoip") (str "/p/geoip")) (str "/c") (str "/p") (Some (5, 6, 7)) (demo_os demo_init demo_hello).
Definition demo_e1 : nsr_plugin_entry_t := demo_up.1.2.
Definition demo_ask := host_do (HostHops [] 0 [] 64) demo_e1 (mk_os [Some (0, 0); Some (1, 0)] [] [] [] (written demo_asked)).
Definition demo_e2 : nsr_plugin_entry_t := demo_ask.1.
Definition demo_take := host_do (HostDrain 5) demo_e2 (demo_os demo_asked demo_answer).
Definition demo_e3 : nsr_plugin_entry_t := demo_take.1.

Definition demo_link (e : nsr_plugin_entry_t) (n : nat) (out : cstr) (got : nat) : link := mk_link (P := geoip_state_t) e demo_geo n out got.
Definition demo_n1 : nat := length (input_of demo_init).
Definition demo_n2 : nat := demo_n1 + length (input_of demo_asked).

Lemma demo_started : link_started demo_world demo_geo (demo_link demo_e1 demo_n1 demo_hello (length demo_hello)).
Proof.
  apply (started_all demo_world demo_geo (new_plugin (str "geoip") (str "/p/geoip")) (str "/c") (str "/p") (5, 6, 7)
    (demo_os demo_init demo_hello) demo_geo demo_hello demo_e1 demo_up.2); [apply new_plugin_clear|vm_compute; reflexivity..].
Qed.

Definition demo_end : link := demo_link demo_e3 demo_n2 (demo_hello ++ demo_answer) (length (demo_hello ++ demo_answer)).

Lemma demo_end_sent : tx (e_rpc (k_host demo_end)) = flat (map line_of [demo_init; demo_asked]).
Proof. vm_compute. reflexivity. Qed.

Definition demo_annotations : cstr := print (answer_doc 2 "result" [(str "annotations", JArr [])]).

Lemma demo_end_shown : last_render_hops_resp (k_host demo_end) = demo_annotations.
Proof. vm_compute. reflexivity. Qed.

Lemma demo_annotations_text : bool_decide (demo_annotations = []) = false.
Proof. vm_compute. reflexivity. Qed.

Lemma demo_run : rtc link_step (demo_link demo_e1 demo_n1 demo_hello (length demo_hello)) demo_end.
Proof.
  eapply rtc_l.
  { apply (host_writes (HostHops [] 0 [] 64) (mk_os [Some (0, 0); Some (1, 0)] [] [] [] (written demo_asked))
      _ _ _ _ _ demo_e2 demo_ask.2); vm_compute; reflexivity. }
  apply (rtc_l _ _ (demo_link demo_e2 demo_n2 (demo_hello ++ demo_answer) (length demo_hello))).
  { apply (plugin_reads demo_world _ _ _ _ _ (line_of demo_asked) [] demo_geo demo_answer); vm_compute; reflexivity. }
  apply (rtc_l _ _ demo_end); [|apply rtc_refl].
  apply (host_takes (HostDrain 5) (demo_os demo_asked demo_answer) _ _ _ _ _ demo_e3 demo_take.2);
    [done|vm_compute; reflexivity|vm_compute; lia|vm_compute; reflexivity..].
Qed.

Lemma link_delivers_messages_witness :
  exists S h part,
    flat (map line_of [demo_init; demo_asked]) = flat (map line_of S) ++ part /\ one_line part /\ h.*2 `prefix_of` S /\
    (Z.of_nat (length S) < 2 ^ 31 - 1 -> answered demo_geo h "render_hops" demo_annotations).
Proof.
  destruct (link_delivers_messages _ _ _ _ demo_started demo_run) as (S & h & [(part & H1 & H2 & _) H4 _ _ _] & H8).
  exists S, h, part. rewrite demo_end_sent in H1. unfold slots_answered in H8. rewrite demo_end_shown in H8.
  split; [exact H1|]. split; [exact H2|]. split; [exact H4|].
  intros Hb. destruct (H8 Hb) as [_ [Hnil|Hans]]; [|exact Hans].
  pose proof (bool_decide_eq_false_1 _ demo_annotations_text) as Hne. by destruct (Hne Hnil).
Defined.
