(* ===== verification/PluginKeys.v ===== *)
(** * The keys on their way to a plugin

    Keys are pressed while the host and the plugin run (PluginLink.v): the host queues
    them, leaves some out, sends one at a time and acts on the answers.  What of them
    reaches the plugin, in which order, and where the file comes from for which the
    host is to open an editor. *)

From stdpp Require Import relations.
From S2P Require Import Prelude CFloat JsonBuf JsonScan JsonDoc JsonRpc RpcConn Telemetry Topology.
From S2P Require Import PluginConfig PluginDocs PluginHost TuiState PluginRender GeoIP PluginSystem HostLink PluginLink.

Section Keys.
  Context {P E : Type} `{MessagePluginLaws P E}.

(** A request of which a line that was taken is the answer was handled. *)
Lemma answer_handled (p0 : P) S (h : list (E * message)) R l id me p :
  NoDup (req_ids S) -> h.*2 `prefix_of` S -> Forall (answer_at p0 h) R -> l ∈ R -> message_id (c_content l) = id ->
  Req id me p ∈ S -> exists env, (env, Req id me p) ∈ h.
Proof.
  intros Hn [t Ht] HR Hl Hid Hin. rewrite Forall_forall in HR. destruct (HR l Hl) as (j & env & id' & me' & q & Hj & Hid' & Hnul & _).
  rewrite c_content_nul_free in Hid by done. rewrite Hid in Hid'. subst id'. apply list_elem_of_lookup_2 in Hj.
  assert (Hin' : Req id me' q ∈ S) by (rewrite Ht; apply elem_of_app; left; by apply (list_elem_of_fmap_2' snd h (env, Req id me' q))).
  exists env. by rewrite (req_unique S id me me' p q Hn Hin Hin').
Qed.

(** Nobody asks for an editor with an empty text. *)
Lemma silence_asks_nothing file : ~ asks_editor [] file.
Proof. by intros (result & len & Hg & _). Qed.


(** Steps of a run that only write, for runs of concrete messages. *)
Lemma run_host_writes k A op o e p n out got e' o' :
  key_run k A (mk_link e p n out got) -> op_ok op -> reads o' = reads o -> host_do op e o = (e', o') ->
  key_run k (A ++ pressed op) (mk_link e' p n out got).
Proof.
  intros Hr Hop Ho Hdo. eapply run_more; [exact Hr|].
  pose proof (host_moves op o e p n out got e' o' [] Hop Hdo (consumed_refl _ _ Ho) (prefix_nil _)) as Hm.
  cbn [length] in Hm. by rewrite Nat.add_0_r in Hm.
Qed.

Lemma run_plugin_reads k A env e p n out got line rest p' text n' out' :
  key_run k A (mk_link e p n out got) ->
  split_line (drop n (tx (e_rpc e))) = Some (line, rest) -> react env p (line ++ [newline]) = (p', text) ->
  n' = (n + S (length line))%nat -> out' = out ++ text -> key_run k A (mk_link e p' n' out' got).
Proof.
  intros Hr Hl Hre -> ->. rewrite <- (app_nil_r A). eapply run_more; [exact Hr|]. by apply (plugin_moves env) with (rest := rest).
Qed.

End Keys.

(** ** A run: two keys for the GeoIP plugin, which declines the first *)

Definition key_x : host_op := HostKey 120 false false.
Definition key_y : host_op := HostKey 121 false false.

Definition ask_x : message := Req 2 (str "on_key") (key_doc 120 false).
Definition x_written : os := mk_os [Some (1, 0)] [] [] [] (written ask_x).
Definition x_sent := host_do key_x demo_e1 x_written.
Definition y_pressed : os := mk_os [Some (2, 0)] [] [] [] [].
Definition y_queued := host_do key_y x_sent.1 y_pressed.

Definition declined : cstr := (react demo_world demo_geo (input_of ask_x)).2.

Definition keys_end : link := demo_link y_queued.1 (demo_n1 + length (input_of ask_x)) (demo_hello ++ declined) (length demo_hello).

Lemma x_done : host_do key_x demo_e1 x_written = (x_sent.1, x_sent.2).
Proof. unfold x_sent. apply surjective_pairing. Qed.

Lemma y_done : host_do key_y x_sent.1 y_pressed = (y_queued.1, y_queued.2).
Proof. unfold y_queued. apply surjective_pairing. Qed.

Lemma x_reads : reads x_sent.2 = reads x_written.
Proof. vm_compute. reflexivity. Qed.

Lemma y_reads : reads y_queued.2 = reads y_pressed.
Proof. vm_compute. reflexivity. Qed.

Lemma x_taken : split_line (drop demo_n1 (tx (e_rpc y_queued.1))) = Some (line_of ask_x, []).
Proof. vm_compute. reflexivity. Qed.

Lemma x_answered : react demo_world demo_geo (line_of ask_x ++ [newline]) = (demo_geo, declined).
Proof. vm_compute. reflexivity. Qed.

Lemma keys_run : key_run (demo_link demo_e1 demo_n1 demo_hello (length demo_hello)) ([] ++ pressed key_x ++ pressed key_y) keys_end.
Proof.
  pose proof (run_host_writes _ _ key_x _ _ _ _ _ _ _ _ (run_none (demo_link demo_e1 demo_n1 demo_hello (length demo_hello))) I x_reads x_done) as H1.
  pose proof (run_host_writes _ _ key_y _ _ _ _ _ _ _ _ H1 I y_reads y_done) as H2.
  rewrite <- app_assoc in H2. refine (run_plugin_reads _ _ demo_world _ _ _ _ _ _ _ _ _ _ _ H2 x_taken x_answered _ _); [|reflexivity].
  unfold input_of. rewrite length_app. cbn [length]. by rewrite Nat.add_1_r.
Qed.

Lemma keys_end_sent : tx (e_rpc (k_host keys_end)) = flat (map line_of [demo_init; ask_x]).
Proof. vm_compute. reflexivity. Qed.

