(* ===== verification/PluginHub.v ===== *)
(** * The registry and the plugin processes behind it

    PluginLink.v follows one plugin through the pieces of work the host does for it.
    Here are the calls of the registry themselves ([nsr_plugins_update_telemetry],
    [nsr_plugins_render], [nsr_plugins_render_hops], [nsr_plugins_on_key],
    [nsr_plugins_modal_active]): each is a sequence of such pieces on the entries that
    run, between which the plugins go on by themselves.  Plugins are loaded, switched
    off and on again and fail to start; every one that runs has an exchange of
    messages of its own.  [play] is a call together with what the plugins do
    meanwhile, [hub_step] is a step of the whole. *)

From stdpp Require Import relations.
From S2P Require Import Prelude CFloat JsonBuf JsonScan JsonDoc JsonRpc RpcConn Telemetry Topology.
From S2P Require Import PluginConfig PluginDocs PluginHost Draw TuiState PluginRender Percentile GeoIP PluginSystem HostLink PluginLink.

(** ** Calls of the registry *)

Inductive host_call :=
| CallTelemetry (tel : nsr_telemetry_state_t) (topo : option nsr_topology_state_t)
| CallRender (mode : nsr_ui_mode_t) (focus : Z) (topo : nsr_topology_state_t) (y x h w screen_h screen_w : Z)
| CallHops (hs : list nsr_hop_info_t) (hop_count max_out : Z)
| CallKey (ch : Z)
| CallModal.

(** The entries and the rest of the script after a call. *)
Definition call_do (c : host_call) (es : list nsr_plugin_entry_t) (o : os) : list nsr_plugin_entry_t * os :=
  match c with
  | CallTelemetry tel topo => nsr_plugins_update_telemetry es tel topo o
  | CallRender mode focus topo y x h w screen_h screen_w =>
      let '(_, es, o) := nsr_plugins_render mode focus topo y x h w screen_h screen_w es o in (es, o)
  | CallHops hs hop_count max_out => let '(es, _, o) := nsr_plugins_render_hops es hs hop_count max_out o in (es, o)
  | CallKey ch => let '(_, es, o, _) := nsr_plugins_on_key es ch o in (es, o)
  | CallModal => let '(_, es, o) := nsr_plugins_modal_active es o in (es, o)
  end.

(** The documents are of a size that the buffers can hold. *)
Definition call_ok (c : host_call) : Prop :=
  match c with
  | CallTelemetry tel topo => fits (print (telemetry_request tel topo))
  | CallRender _ focus topo _ _ _ _ _ _ => Z.of_nat (length (focused_addr focus topo)) < 2 ^ 44
  | CallHops hs hop_count _ => size_bound (hops_doc hs hop_count) < 2 ^ 48
  | _ => True
  end.

(** ** Pieces of work on the entries *)

Fixpoint do_ops (ops : list host_op) (e : nsr_plugin_entry_t) (o : os) : nsr_plugin_entry_t * os :=
  match ops with
  | [] => (e, o)
  | op :: ops' => let '(e, o) := host_do op e o in do_ops ops' e o
  end.

Fixpoint do_moves (ms : list (nat * host_op)) (es : list nsr_plugin_entry_t) (o : os) : list nsr_plugin_entry_t * os :=
  match ms with
  | [] => (es, o)
  | (i, op) :: ms' =>
      match es !! i with
      | Some e => let '(e, o) := host_do op e o in do_moves ms' (<[i := e]> es) o
      | None => do_moves ms' es o
      end
  end.

Lemma do_ops_app ops ops' e o : do_ops (ops ++ ops') e o = (let '(e1, o1) := do_ops ops e o in do_ops ops' e1 o1).
Proof. revert e o. induction ops as [|op ops IH]; intros e o; [done|]. cbn. destruct (host_do op e o). apply IH. Qed.

Lemma do_moves_app ms ms' es o : do_moves (ms ++ ms') es o = (let '(es1, o1) := do_moves ms es o in do_moves ms' es1 o1).
Proof.
  revert es o. induction ms as [|[i op] ms IH]; intros es o; [done|]. cbn.
  destruct (es !! i) as [e|]; [destruct (host_do op e o)|]; apply IH.
Qed.

(** Work on the first entry, and on the others. *)
Lemma do_moves_head ops e es o : do_moves (map (pair 0%nat) ops) (e :: es) o = (let '(e1, o1) := do_ops ops e o in (e1 :: es, o1)).
Proof. revert e o. induction ops as [|op ops IH]; intros e o; [done|]. cbn. destruct (host_do op e o). apply IH. Qed.

Lemma do_moves_tail ms e es o :
  do_moves (map (prod_map S id) ms) (e :: es) o = (let '(es1, o1) := do_moves ms es o in (e :: es1, o1)).
Proof.
  revert es o. induction ms as [|[i op] ms IH]; intros es o; [done|]. cbn.
  destruct (es !! i) as [e1|]; [destruct (host_do op e1 o)|]; apply IH.
Qed.

(** An entry is worked on only when its plugin runs at the start. *)
Definition runs_at (es : list nsr_plugin_entry_t) (i : nat) : Prop := exists e, es !! i = Some e /\ e_initialized e = true.

Definition allowed (es : list nsr_plugin_entry_t) (m : nat * host_op) : Prop := op_ok m.2 /\ runs_at es m.1.

Definition works (es : list nsr_plugin_entry_t) (o : os) (es' : list nsr_plugin_entry_t) (o' : os) : Prop :=
  exists ms, Forall (allowed es) ms /\ do_moves ms es o = (es', o').

Lemma do_moves_others ms es o i : Forall (fun m => m.1 <> i) ms -> (do_moves ms es o).1 !! i = es !! i.
Proof.
  intros Hm. revert es o. induction Hm as [|[j op] ms Hj Hm IH]; intros es o; [done|]. cbn in *.
  destruct (es !! j) as [e|]; [|apply IH]. destruct (host_do op e o) as [e1 o1]. rewrite IH. by apply list_lookup_insert_ne.
Qed.

(** Nothing that did not run at the start runs later. *)
Lemma works_runs es o es' o' i : works es o es' o' -> runs_at es' i -> runs_at es i.
Proof.
  intros (ms & Hms & E) Hr. destruct (decide (Forall (fun m => m.1 <> i) ms)) as [Hn|Hn].
  - pose proof (do_moves_others ms es o i Hn) as Hi. rewrite E in Hi. destruct Hr as (e & He & Hini). exists e. by rewrite <- Hi.
  - apply not_Forall_Exists in Hn; [|apply _]. apply Exists_exists in Hn as ([j op] & Hin & Hj). cbn in Hj.
    assert (j = i) as -> by lia. rewrite Forall_forall in Hms. by destruct (Hms _ Hin).
Qed.

Lemma works_refl es o : works es o es o.
Proof. by exists []. Qed.

Lemma works_trans es o es1 o1 es2 o2 : works es o es1 o1 -> works es1 o1 es2 o2 -> works es o es2 o2.
Proof.
  intros H1 (ms2 & Hm2 & E2). pose proof (works_runs es o es1 o1) as Hr. destruct H1 as (ms1 & Hm1 & E1).
  exists (ms1 ++ ms2). rewrite do_moves_app, E1. split; [|done]. apply Forall_app_2; [done|].
  eapply Forall_impl; [exact Hm2|]. intros m [Hop Hi]. split; [done|]. apply Hr; [by exists ms1|done].
Qed.

(** ** One visit to an entry *)

Definition serves (e : nsr_plugin_entry_t) (o : os) (e' : nsr_plugin_entry_t) (o' : os) : Prop :=
  exists ops, Forall op_ok ops /\ (ops = [] \/ e_initialized e = true) /\ do_ops ops e o = (e', o').

Lemma works_cons e es o e1 o1 es' o' : serves e o e1 o1 -> works es o1 es' o' -> works (e :: es) o (e1 :: es') o'.
Proof.
  intros (ops & Hops & Hini & E1) (ms & Hms & E2). eapply works_trans with (es1 := e1 :: es) (o1 := o1).
  - exists (map (pair 0%nat) ops). rewrite do_moves_head, E1. split; [|done]. apply Forall_map.
    destruct Hini as [->|Hini]; [constructor|]. eapply Forall_impl; [exact Hops|]. intros op Hop. split; [done|]. by exists e.
  - exists (map (prod_map S id) ms). rewrite do_moves_tail, E2. split; [|done]. apply Forall_map.
    eapply Forall_impl; [exact Hms|]. intros [i op] Hm. exact Hm.
Qed.

Lemma works_first e es o e1 o1 : serves e o e1 o1 -> works (e :: es) o (e1 :: es) o1.
Proof. intros Hs. apply (works_cons e es o e1 o1); [done|apply works_refl]. Qed.

(** [visited f]: the liveness check, and [f] for an entry that is active. *)
Definition done_by_ops (f : nsr_plugin_entry_t -> os -> nsr_plugin_entry_t * os) : Prop :=
  forall e o, exists ops, Forall op_ok ops /\ do_ops ops e o = f e o.

Definition visited (f : nsr_plugin_entry_t -> os -> nsr_plugin_entry_t * os) (e : nsr_plugin_entry_t) (o : os) : nsr_plugin_entry_t * os :=
  let '(e, o) := plugin_check_alive e o in if active e then f e o else (e, o).

Lemma visited_serves f e o : done_by_ops f -> let '(e', o') := visited f e o in serves e o e' o'.
Proof.
  intros Hf. unfold visited. destruct (e_initialized e) eqn:Ei.
  - destruct (plugin_check_alive e o) as [e1 o1] eqn:Ea.
    assert (Hops : exists ops, Forall op_ok ops /\ do_ops ops e1 o1 = if active e1 then f e1 o1 else (e1, o1))
      by (split_if; [apply Hf|by exists []]).
    destruct Hops as (ops & Hops & E). destruct (if active e1 then f e1 o1 else (e1, o1)) as [e2 o2].
    exists (HostAlive :: ops). split; [by constructor|]. split; [by right|]. cbn [do_ops host_do]. by rewrite Ea.
  - unfold plugin_check_alive. rewrite Ei. cbn [negb orb]. unfold active. rewrite Ei, andb_false_r. cbn [andb].
    exists []. split; [constructor|]. split; [by left|done].
Qed.

Lemma alive_serves e o : let '(e', o') := plugin_check_alive e o in serves e o e' o'.
Proof.
  pose proof (visited_serves pair e o) as Hv. unfold visited in Hv. destruct (plugin_check_alive e o) as [e1 o1].
  destruct (active e1); (apply Hv; intros e2 o2; by exists []).
Qed.

Lemma one_op op : op_ok op -> done_by_ops (host_do op).
Proof. intros Hop e o. exists [op]. split; [by constructor|]. cbn. by destruct (host_do op e o). Qed.

Lemma drain_all_ops : done_by_ops drain_all.
Proof.
  intros e o. unfold drain_all. generalize (S (backlog e o)). intros f. revert e o. induction f as [|f IH]; intros e o; [by exists []|].
  cbn [drain_key_loop]. destruct (plugin_drain_response e 0 o) as [[more e1] o1] eqn:Ed.
  assert (Hhd : host_do (HostDrain 0) e o = (e1, o1)) by (cbn [host_do]; by rewrite Ed).
  destruct more.
  - destruct (IH e1 o1) as (ops & Hops & E). exists (HostDrain 0 :: ops). split; [by constructor|]. cbn [do_ops]. by rewrite Hhd.
  - exists [HostDrain 0]. split; [by constructor|]. cbn [do_ops]. by rewrite Hhd.
Qed.

Lemma then_ops f g : done_by_ops f -> done_by_ops g -> done_by_ops (fun e o => let '(e1, o1) := f e o in g e1 o1).
Proof.
  intros Hf Hg e o. destruct (Hf e o) as (ops1 & H1 & E1). destruct (f e o) as [e1 o1]. destruct (Hg e1 o1) as (ops2 & H2 & E2).
  exists (ops1 ++ ops2). split; [by apply Forall_app|]. by rewrite do_ops_app, E1.
Qed.

(** ** Every call is a sequence of pieces of work *)

Lemma telemetry_works tel topo es o :
  call_ok (CallTelemetry tel topo) -> let '(es', o') := call_do (CallTelemetry tel topo) es o in works es o es' o'.
Proof.
  intros Hok. cbn [call_do]. unfold nsr_plugins_update_telemetry. revert o.
  induction es as [|e es IH]; intros o; cbn [notify_all]; [apply works_refl|].
  pose proof (visited_serves _ e o (one_op (HostTelemetry tel topo) Hok)) as Hv. unfold visited in Hv. cbn [host_do] in Hv.
  destruct (plugin_check_alive e o) as [e1 o1].
  destruct (if active e1 then _ else _) as [e2 o2]. specialize (IH o2). destruct (notify_all _ es o2) as [es' o3].
  by eapply works_cons.
Qed.

Lemma render_works mode focus topo y x h w sh sw es o :
  call_ok (CallRender mode focus topo y x h w sh sw) ->
  let '(_, es', o') := nsr_plugins_render mode focus topo y x h w sh sw es o in works es o es' o'.
Proof.
  intros Hok. revert o. induction es as [|e es IH]; intros o; cbn [nsr_plugins_render]; [apply works_refl|].
  pose proof (visited_serves _ e o (one_op (HostRender mode focus topo y x h w sh sw) Hok)) as Hv. unfold visited in Hv. cbn [host_do] in Hv.
  destruct (plugin_check_alive e o) as [e1 o1].
  assert (Hv2 : let '(_, e2, o2) := (if active e1 then render_active mode focus topo y x h w sh sw e1 o1 else ([], e1, o1)) in serves e o e2 o2).
  { destruct (active e1); [|done]. by destruct (render_active mode focus topo y x h w sh sw e1 o1) as [[d e2] o2]. }
  clear Hv. destruct (if active e1 then _ else _) as [[d e2] o2]. specialize (IH o2). destruct (nsr_plugins_render _ _ _ _ _ _ _ _ _ es o2) as [[d2 es'] o3].
  by eapply works_cons.
Qed.

Lemma hops_works hs hop_count max_out es out o :
  call_ok (CallHops hs hop_count max_out) ->
  let '(es', _, o') := render_hops_loop (emit (render_hops_calls hs hop_count)) es out max_out o in works es o es' o'.
Proof.
  intros Hok. revert out o. induction es as [|e es IH]; intros out o; cbn [render_hops_loop]; [apply works_refl|].
  split_if; [|apply works_refl].
  pose proof (visited_serves _ e o (one_op (HostHops hs hop_count out max_out) Hok)) as Hv. unfold visited in Hv. cbn [host_do] in Hv.
  destruct (plugin_check_alive e o) as [e1 o1]. set (params := emit (render_hops_calls hs hop_count)) in *.
  assert (Hv2 : let '(e2, _, o2) := (if active e1 then render_hops_step params e1 out max_out o1 else (e1, out, o1)) in serves e o e2 o2).
  { destruct (active e1); [|done]. by destruct (render_hops_step params e1 out max_out o1) as [[e2 out2] o2]. }
  clear Hv. destruct (if active e1 then _ else _) as [[e2 out2] o2]. specialize (IH out2 o2).
  destruct (render_hops_loop params es out2 max_out o2) as [[es' out3] o3]. by eapply works_cons.
Qed.

Lemma modal_works es o : let '(_, es', o') := modal_active_loop es o in works es o es' o'.
Proof.
  revert o. induction es as [|e es IH]; intros o; cbn [modal_active_loop]; [apply works_refl|].
  pose proof (alive_serves e o) as Ha. destruct (plugin_check_alive e o) as [e1 o1]. split_if; [by apply works_first|].
  specialize (IH o1). destruct (modal_active_loop es o1) as [[b es'] o2]. by eapply works_cons.
Qed.

(** A key: the answers that are there are taken, an editor that was asked for is
    noted, and the entries are tried. *)
Lemma taken_ops : done_by_ops (fun e o =>
  let '(e1, o1) := drain_all e o in if pending_open_editor e1 then (with_editor e1 false [], o1) else (e1, o1)).
Proof.
  apply (then_ops drain_all (fun e o => if pending_open_editor e then (with_editor e false [], o) else (e, o)) drain_all_ops).
  intros e o. split_if; [|by exists []]. exists [HostEditorTaken]. split; [by constructor|done].
Qed.

Lemma drain_pass_works es o : let '(es', o', _) := drain_pass es o in works es o es' o'.
Proof.
  revert o. induction es as [|e es IH]; intros o; cbn [drain_pass]; [apply works_refl|].
  assert (Hs : let '(e', o', _) := drain_pass_step e o in serves e o e' o').
  { pose proof (visited_serves _ e o taken_ops) as Hv. unfold visited in Hv. unfold drain_pass_step.
    destruct (plugin_check_alive e o) as [e1 o1]. destruct (active e1); [|done]. cbn [negb].
    destruct (drain_all e1 o1) as [e2 o2]. by destruct (pending_open_editor e2). }
  destruct (drain_pass_step e o) as [[e1 o1] f1]. specialize (IH o1). destruct (drain_pass es o1) as [[es' o2] f2].
  by eapply works_cons.
Qed.

Lemma key_ops ch modal reserved : done_by_ops (fun e o => let '(_, e', o') := plugin_try_on_key e ch modal reserved o in (e', o')).
Proof.
  intros e o. destruct (then_ops drain_all (fun e o => queue_key e ch modal reserved o) drain_all_ops
    (one_op (HostKey ch modal reserved) I) e o) as (ops & Hops & E). exists ops. split; [done|]. rewrite E.
  pose proof (try_on_key_queues e ch modal reserved o) as Hq. destruct (drain_all e o) as [e1 o1].
  by destruct (plugin_try_on_key e ch modal reserved o) as [[h e2] o2].
Qed.

Lemma key_pass_works wants modal reserved ch es o :
  let '(_, _, es', o') := key_pass wants modal reserved ch es o in works es o es' o'.
Proof.
  revert o. induction es as [|e es IH]; intros o; cbn [key_pass]; [apply works_refl|].
  pose proof (alive_serves e o) as Ha. pose proof (visited_serves _ e o (key_ops ch modal reserved)) as Hv. unfold visited in Hv.
  destruct (plugin_check_alive e o) as [e1 o1]. destruct (active e1); cbn [negb orb].
  - destruct (wants e1); cbn [negb].
    + destruct (plugin_try_on_key e1 ch modal reserved o1) as [[[] e2] o2]; [by apply works_first|].
      specialize (IH o2). destruct (key_pass wants modal reserved ch es o2) as [[[h t] es'] o3]. by eapply works_cons.
    + specialize (IH o1). destruct (key_pass wants modal reserved ch es o1) as [[[h t] es'] o3]. by eapply works_cons.
  - specialize (IH o1). destruct (key_pass wants modal reserved ch es o1) as [[[h t] es'] o3]. by eapply works_cons.
Qed.

Lemma on_key_works es ch o : let '(_, es', o', _) := nsr_plugins_on_key es ch o in works es o es' o'.
Proof.
  unfold nsr_plugins_on_key. split_if; [apply works_refl|].
  pose proof (drain_pass_works es o) as H1. destruct (drain_pass es o) as [[es1 o1] files]. split_if; [done|].
  pose proof (key_pass_works is_modal true false ch es1 o1) as H2.
  destruct (key_pass is_modal true false ch es1 o1) as [[[h t] es2] o2]. pose proof (works_trans _ _ _ _ _ _ H1 H2) as H12.
  destruct h; [done|].
  pose proof (key_pass_works (fun e => plugin_reserves_key (reserved_keys e) ch) false true ch es2 o2) as H3.
  destruct (key_pass _ false true ch es2 o2) as [[[h2 t2] es3] o3]. pose proof (works_trans _ _ _ _ _ _ H12 H3) as H123.
  split_if; [done|].
  pose proof (key_pass_works (fun _ => true) false false ch es3 o3) as H4.
  destruct (key_pass (fun _ => true) false false ch es3 o3) as [[[h4 t4] es4] o4]. by eapply works_trans.
Qed.

Lemma call_works c es o : call_ok c -> let '(es', o') := call_do c es o in works es o es' o'.
Proof.
  destruct c as [tel topo|mode focus topo y x h w sh sw|hs n max_out|ch|]; intros Hok.
  - by apply telemetry_works.
  - cbn [call_do]. pose proof (render_works mode focus topo y x h w sh sw es o Hok) as Hr. by destruct (nsr_plugins_render _ _ _ _ _ _ _ _ _ es o) as [[d es'] o'].
  - cbn [call_do]. unfold nsr_plugins_render_hops. split_if; [apply works_refl|].
    pose proof (hops_works hs n max_out es [] o Hok) as Hr. by destruct (render_hops_loop _ es [] max_out o) as [[es' out] o'].
  - cbn [call_do]. pose proof (on_key_works es ch o) as Hr. by destruct (nsr_plugins_on_key es ch o) as [[[h es'] o'] f].
  - cbn [call_do]. unfold nsr_plugins_modal_active. pose proof (modal_works es o) as Hr. by destruct (modal_active_loop es o) as [[b es'] o'].
Qed.

(** ** The registry with its processes *)

Section Hub.
  Context {P E : Type} `{MessagePluginLaws P E}.
  Variables config dir : cstr.

(** A registered plugin is down, or it runs: [p0] is the state its process began with. *)
Inductive slot :=
| Down (e : nsr_plugin_entry_t)
| Up (p0 : P) (k : link (P := P)).

Definition s_host (x : slot) : nsr_plugin_entry_t := match x with Down e => e | Up _ k => k_host k end.

Definition hosts (s : list slot) : list nsr_plugin_entry_t := map s_host s.

Lemma hosts_lookup s i : hosts s !! i = s_host <$> s !! i.
Proof. apply list_lookup_fmap. Qed.

Lemma hosts_insert s i x : hosts (<[i := x]> s) = <[i := s_host x]> (hosts s).
Proof. apply list_fmap_insert. Qed.

Definition init_message : message := Req 1 (str "init") (init_doc config dir).

(** The attempt to start a plugin: the process answers [init], or it does not. *)
Inductive launched (e : nsr_plugin_entry_t) : slot -> Prop :=
| launch_up env p0 fds o p1 out e' o' g :
    react env p0 (input_of init_message) = (p1, out) -> plugin_spawn e config dir (Some fds) o = (true, e', o') ->
    consumed o o' g -> g `prefix_of` out ->
    launched e (Up p0 (mk_link e' p1 (length (input_of init_message)) out (length g)))
| launch_down sp o e' o' : plugin_spawn e config dir sp o = (false, e', o') -> launched e (Down e').

(** The host or the plugin goes on; a plugin is loaded, switched on, switched off. *)
Inductive hub_step : list slot -> list slot -> Prop :=
| hub_link s i p0 k k' : s !! i = Some (Up p0 k) -> link_step k k' -> hub_step s (<[i := Up p0 k']> s)
| hub_found s name path : hub_step s (s ++ [Down (new_plugin name path)])
| hub_loaded s name path x : launched (with_enabled (new_plugin name path) true) x -> hub_step s (s ++ [x])
| hub_on s i e x : s !! i = Some (Down e) -> launched (with_enabled e true) x -> hub_step s (<[i := x]> s)
| hub_off s i x o : s !! i = Some x -> hub_step s (<[i := Down (plugin_stop (with_enabled (s_host x) false) o).1]> s).

(** The pieces of a call in order, and the plugins in between.  What the host reads
    is what the plugin has printed and the host has not read yet. *)
Inductive play : list slot -> os -> list (nat * host_op) -> list slot -> os -> Prop :=
| play_done s o : play s o [] s o
| play_host s o i op ms s' o' p0 e p n out got e1 o1 g :
    s !! i = Some (Up p0 (mk_link e p n out got)) -> op_ok op -> host_do op e o = (e1, o1) ->
    consumed o o1 g -> g `prefix_of` drop got out ->
    play (<[i := Up p0 (mk_link e1 p n out (got + length g))]> s) o1 ms s' o' -> play s o ((i, op) :: ms) s' o'
| play_plugin s o i ms s' o' p0 env e p n out got line rest p' text :
    s !! i = Some (Up p0 (mk_link e p n out got)) ->
    split_line (drop n (tx (e_rpc e))) = Some (line, rest) -> react env p (line ++ [newline]) = (p', text) ->
    play (<[i := Up p0 (mk_link e p' (n + S (length line)) (out ++ text) got)]> s) o ms s' o' -> play s o ms s' o'.

Lemma play_hosts s o ms s' o' : play s o ms s' o' -> do_moves ms (hosts s) o = (hosts s', o') /\ rtc hub_step s s'.
Proof.
  induction 1 as [s o|s o i op ms s' o' p0 e p n out got e1 o1 g Hi Hop Hdo Hc Hg Hplay [IH1 IH2]
    |s o i ms s' o' p0 env e p n out got line rest p' text Hi Hl Hr Hplay [IH1 IH2]].
  - split; [done|apply rtc_refl].
  - rewrite hosts_insert in IH1. cbn [s_host k_host] in IH1. split.
    + cbn [do_moves]. rewrite hosts_lookup, Hi. cbn. by rewrite Hdo.
    + eapply rtc_l; [|exact IH2]. eapply hub_link; [exact Hi|]. by eapply host_acts.
  - rewrite hosts_insert in IH1. cbn [s_host k_host] in IH1. split.
    + rewrite list_insert_id in IH1; [done|]. by rewrite hosts_lookup, Hi.
    + eapply rtc_l; [|exact IH2]. eapply hub_link; [exact Hi|]. by eapply plugin_acts.
Qed.

(** A plugin that is down has no session; one that is up is on its way in one. *)
Definition slot_inv (x : slot) : Prop :=
  match x with
  | Down e => clear_slots e /\ e_initialized e = false
  | Up p0 k => exists env k0, link_started env p0 k0 /\ rtc link_step k0 k
  end.

Lemma spawn_failed e sp o e' o' :
  plugin_spawn e config dir sp o = (false, e', o') -> e_initialized e' = e_initialized e /\ (clear_slots e -> clear_slots e').
Proof.
  unfold plugin_spawn. destruct sp as [[[p i] fo]|]; [|by intros [= <- <-]].
  destruct (nsr_json_rpc_call _ _ _ _ o) as [[[resp|] r] o1]; [destruct (init_result resp); [done|]|]; by intros [= <- <-].
Qed.

Lemma launched_inv e x :
  size_bound (init_doc config dir) < 2 ^ 48 -> clear_slots e -> e_initialized e = false -> launched e x -> slot_inv x.
Proof.
  intros Hb Hc Hini [env p0 fds o p1 out e' o' g Hr Hs Hg Hp|sp o e' o' Hs].
  - exists env. eexists. split; [|apply rtc_refl]. by eapply started.
  - destruct (spawn_failed e sp o e' o' Hs) as [H1 H2]. split; [by apply H2|congruence].
Qed.

(** The array of the key queue has its length at any time. *)
Lemma slot_queue x : slot_inv x -> length (key_queue (s_host x)) = 8%nat.
Proof.
  destruct x as [e|p0 k]; cbn [slot_inv s_host].
  - by intros [(_ & _ & _ & _ & _ & _ & Hq & _) _].
  - intros (env & k0 & Hst & (A & Hrun)%run_keys). destruct (link_reachable env p0 k0 A k Hst Hrun) as (S & h & Hi).
    destruct (link_inv_taken p0 k S h A Hi) as (_ & _ & _ & R & [_ [(q & Hq & _) _ _ _]] & _). apply Hq.
Qed.

Lemma stop_inv e o : length (key_queue e) = 8%nat -> slot_inv (Down (plugin_stop e o).1).
Proof.
  intros Hl. split; [by apply stopped_plugin_clear|]. unfold plugin_stop. split_if; [|done].
  by destruct (nsr_json_rpc_notify (e_rpc e) (str "cleanup") None o) as [[b r] o1].
Qed.

Lemma hub_step_inv s s' :
  size_bound (init_doc config dir) < 2 ^ 48 -> hub_step s s' -> Forall slot_inv s -> Forall slot_inv s'.
Proof.
  intros Hb [s1 i p0 k k' Hi Hk|s1 name path|s1 name path x Hx|s1 i e x Hi Hx|s1 i x o Hi] Hs.
  - apply Forall_insert; [done|]. rewrite Forall_lookup in Hs. destruct (Hs i _ Hi) as (env & k0 & H1 & H2).
    exists env, k0. split; [done|]. by eapply rtc_r.
  - apply Forall_app_2; [done|]. constructor; [|done]. split; [apply new_plugin_clear|done].
  - apply Forall_app_2; [done|]. constructor; [|done].
    apply (launched_inv (with_enabled (new_plugin name path) true)); [done|apply new_plugin_clear|done|done].
  - apply Forall_insert; [done|]. rewrite Forall_lookup in Hs. destruct (Hs i _ Hi) as [H1 H2].
    by apply (launched_inv (with_enabled e true)).
  - apply Forall_insert; [done|]. rewrite Forall_lookup in Hs. apply stop_inv. exact (slot_queue x (Hs i x Hi)).
Qed.

Lemma hub_reachable s :
  size_bound (init_doc config dir) < 2 ^ 48 -> rtc hub_step [] s -> Forall slot_inv s.
Proof.
  intros Hb Hrun. assert (Hnil : Forall slot_inv []) by constructor.
  induction Hrun as [|s1 s2 s3 Hs Hrun IH]; [done|]. apply IH. by eapply hub_step_inv.
Qed.

(** The switch of the registry is one step of the whole. *)
Lemma switch_off_steps s reg i x file w sp o :
  entries reg = hosts s -> s !! i = Some x -> e_enabled (s_host x) = true ->
  let '(reg', _, _) := nsr_plugins_set_enabled reg (Z.of_nat i) false file w sp o in
  exists x', hub_step s (<[i := x']> s) /\ entries reg' = hosts (<[i := x']> s).
Proof.
  intros Hr Hi He. unfold nsr_plugins_set_enabled, aget. rewrite (proj2 (Z.leb_le 0 _)) by lia.
  rewrite Nat2Z.id, Hr, hosts_lookup, Hi. cbn. rewrite He. cbn [Bool.eqb].
  destruct (plugin_stop (with_enabled (s_host x) false) o) as [e1 o1] eqn:Es. cbn [entries with_entries].
  exists (Down (plugin_stop (with_enabled (s_host x) false) o).1). split; [by apply hub_off|].
  by rewrite hosts_insert, Es.
Qed.

Lemma switch_on_steps s reg i e file w fds o env p0 p1 out g :
  entries reg = hosts s -> config_path reg = config -> plugin_dir reg = dir -> s !! i = Some (Down e) -> e_enabled e = false ->
  react env p0 (input_of init_message) = (p1, out) -> g `prefix_of` out ->
  let '(reg', _, o') := nsr_plugins_set_enabled reg (Z.of_nat i) true file w (Some fds) o in
  consumed o o' g -> exists x', hub_step s (<[i := x']> s) /\ entries reg' = hosts (<[i := x']> s).
Proof.
  intros Hr Hcfg Hdir Hi He Hre Hg. unfold nsr_plugins_set_enabled, aget. rewrite (proj2 (Z.leb_le 0 _)) by lia.
  rewrite Nat2Z.id, Hr, hosts_lookup, Hi. cbn [fmap option_fmap option_map s_host]. rewrite He. cbn [Bool.eqb]. rewrite Hcfg, Hdir.
  destruct (plugin_spawn (with_enabled e true) config dir (Some fds) o) as [[[] e1] o1] eqn:Es; cbn [entries with_entries]; intros Hc.
  - eexists (Up p0 _). split; [eapply hub_on; [exact Hi|]; by eapply launch_up|]. by rewrite hosts_insert.
  - exists (Down e1). split; [eapply hub_on; [exact Hi|]; by eapply launch_down|]. by rewrite hosts_insert.
Qed.

(** A call is pieces of work on plugins that run. *)
Lemma call_pieces c s o :
  Forall slot_inv s -> call_ok c ->
  exists ms, do_moves ms (hosts s) o = call_do c (hosts s) o /\
    (forall i op, (i, op) ∈ ms -> exists p0 k, s !! i = Some (Up p0 k)) /\ Forall (fun m => op_ok m.2) ms.
Proof.
  intros Hs Hok. rewrite Forall_lookup in Hs. pose proof (call_works c (hosts s) o Hok) as Hw. destruct (call_do c (hosts s) o) as [es' o1].
  destruct Hw as (ms & Hms & E1). exists ms. split; [done|]. split; [|by eapply Forall_impl; [exact Hms|intros m [Hop _]]].
  intros i op Hin. rewrite Forall_forall in Hms. destruct (Hms _ Hin) as (_ & e & He & Hini). cbn [fst] in He.
  rewrite hosts_lookup in He. destruct (s !! i) as [[e1|p0 k]|] eqn:Hi; [|by eauto|done].
  destruct (Hs i _ Hi) as [_ Hf]. injection He as <-. cbn [s_host] in Hini. congruence.
Qed.

(** As long as no plugin gives the host anything to read, any work on plugins that run
    can be done. *)
Lemma quiet_plays ms s o :
  reads o = [] -> Forall (fun m => op_ok m.2) ms -> (forall i op, (i, op) ∈ ms -> exists p0 k, s !! i = Some (Up p0 k)) ->
  exists s' o', play s o ms s' o'.
Proof.
  intros Hr Hms. revert s o Hr. induction Hms as [|[i op] ms Hop Hms IH]; intros s o Hr Hs; [by exists s, o; constructor|].
  destruct (Hs i op) as (p0 & [e p n out got] & Hi); [by left|]. pose proof (host_do_goes op e o Hop) as Hg.
  destruct (host_do op e o) as [e1 o1] eqn:Ed. destruct Hg as (g & (l & El & Hl) & _). rewrite Hr in El.
  symmetry in El. apply app_eq_nil in El as [-> Er]. subst g.
  destruct (IH (<[i := Up p0 (mk_link e1 p n out (got + 0))]> s) o1 Er) as (s' & o' & Hp).
  - intros j op' Hin. destruct (decide (j = i)) as [->|Hj].
    + eexists _, _. apply list_lookup_insert_eq. by eapply lookup_lt_Some.
    + rewrite list_lookup_insert_ne by done. apply (Hs j op'). by right.
  - exists s', o'. eapply (play_host s o i op ms s' o' p0 e p n out got e1 o1 []); [done..| |apply prefix_nil|exact Hp].
    exists []. by rewrite Hr, Er.
Qed.

(** Every plugin that runs is served. *)
Definition all_delivered (s : list slot) : Prop := forall i p0 k, s !! i = Some (Up p0 k) ->
  exists S h, delivered p0 k S h /\ (Z.of_nat (length S) < 2 ^ 31 - 1 -> slots_answered p0 (k_host k) h).

Lemma slots_delivered s : Forall slot_inv s -> all_delivered s.
Proof.
  intros Hs i p0 k Hi. rewrite Forall_lookup in Hs. destruct (Hs i _ Hi) as (env & k0 & H1 & H2).
  destruct (link_messages env p0 k0 k H1 H2) as (S & h & Hd & _ & Ha). eauto.
Qed.


End Hub.

(** ** Plugins of several kinds in one registry *)

#[export] Instance either_plugin {P1 E1 P2 E2} `{MessagePlugin P1 E1} `{MessagePlugin P2 E2} :
    MessagePlugin (P1 + P2) (E1 * E2) := fun env p line =>
  match p with
  | inl p => let '(p', out) := react env.1 p line in (inl p', out)
  | inr p => let '(p', out) := react env.2 p line in (inr p', out)
  end.

#[export] Instance either_laws {P1 E1 P2 E2} `{MessagePluginLaws P1 E1} `{MessagePluginLaws P2 E2} :
  MessagePluginLaws (P1 + P2) (E1 * E2).
Proof.
  split.
  - intros [e1 e2] [p|p] tel topo Hm; unfold react at 1, either_plugin; cbn [fst snd].
    + pose proof (react_tell e1 p tel topo Hm) as Hr. by destruct (react e1 p _).
    + pose proof (react_tell e2 p tel topo Hm) as Hr. by destruct (react e2 p _).
  - intros [e1 e2] [p|p] id me q Hm; unfold react at 1, either_plugin; cbn [fst snd].
    + pose proof (react_request e1 p id me q Hm) as Hr. by destruct (react e1 p _).
    + pose proof (react_request e2 p id me q Hm) as Hr. by destruct (react e2 p _).
Qed.

(** ** A run: a plugin that is off and the GeoIP plugin *)

Definition c_plugin : Type := pctl_globals + geoip_state_t.
Definition c_world : Type := (nat -> option (Z * Z)) * geo_world.

Definition hub_world : c_world := (fun _ => None, demo_world).
Definition hub_geo : c_plugin := inr demo_geo.

Definition geo_entry : nsr_plugin_entry_t := with_enabled (new_plugin (str "geoip") (str "/p/geoip")) true.
Definition geo_up := plugin_spawn geo_entry (str "/c") (str "/p") (Some (5, 6, 7)) (demo_os demo_init demo_hello).
Definition geo_e1 : nsr_plugin_entry_t := geo_up.1.2.

Definition geo_slot (e : nsr_plugin_entry_t) (n : nat) (out : cstr) (got : nat) : slot (P := c_plugin) :=
  Up hub_geo (mk_link (P := c_plugin) e hub_geo n out got).
Definition off_slot : slot (P := c_plugin) := Down (new_plugin (str "sniffer") (str "/p/sniffer")).
Definition hub_now : list (slot (P := c_plugin)) := [off_slot; geo_slot geo_e1 demo_n1 demo_hello (length demo_hello)].

Lemma geo_launched : launched (P := c_plugin) (E := c_world) (str "/c") (str "/p") geo_entry (geo_slot geo_e1 demo_n1 demo_hello (length demo_hello)).
Proof.
  apply (launch_up (P := c_plugin) (E := c_world) (str "/c") (str "/p") geo_entry hub_world hub_geo (5, 6, 7) (demo_os demo_init demo_hello) hub_geo demo_hello geo_e1 geo_up.2 demo_hello);
    [vm_compute; reflexivity..| |done].
  exists [ReadData demo_hello]. split; vm_compute; reflexivity.
Qed.

Lemma hub_now_reached : rtc (hub_step (P := c_plugin) (E := c_world) (str "/c") (str "/p")) [] hub_now.
Proof.
  eapply rtc_l; [apply (hub_found _ _ [] (str "sniffer") (str "/p/sniffer"))|].
  eapply rtc_l; [apply (hub_loaded _ _ _ (str "geoip") (str "/p/geoip")); exact geo_launched|]. apply rtc_refl.
Qed.

(** The annotations are asked for and the plugin answers. *)
Definition ask_os : os := mk_os [Some (0, 0); Some (1, 0)] [] [] [true] (written demo_asked).
Definition asked : list (nat * host_op) := [(1%nat, HostAlive); (1%nat, HostHops [] 0 [] 64)].

Lemma asked_is_call : do_moves asked (hosts hub_now) ask_os = call_do (CallHops [] 0 64) (hosts hub_now) ask_os.
Proof. vm_compute. reflexivity. Qed.

Definition geo_alive := host_do HostAlive geo_e1 ask_os.
Definition geo_asked := host_do (HostHops [] 0 [] 64) geo_alive.1 geo_alive.2.

Definition hub_later : list (slot (P := c_plugin)) := [off_slot; geo_slot geo_asked.1 demo_n2 (demo_hello ++ demo_answer) (length demo_hello)].

Lemma asked_played : play (P := c_plugin) (E := c_world) hub_now ask_os asked hub_later geo_asked.2.
Proof.
  apply (play_host _ _ 1%nat HostAlive _ _ _ hub_geo geo_e1 hub_geo demo_n1 demo_hello (length demo_hello) geo_alive.1 geo_alive.2 []);
    [reflexivity|exact I|apply surjective_pairing|by apply consumed_refl|apply prefix_nil|].
  apply (play_host _ _ 1%nat (HostHops [] 0 [] 64) _ _ _ hub_geo geo_alive.1 hub_geo demo_n1 demo_hello (length demo_hello + 0) geo_asked.1 geo_asked.2 []);
    [reflexivity|vm_compute; reflexivity|apply surjective_pairing|apply consumed_refl; vm_compute; reflexivity|apply prefix_nil|].
  apply (play_plugin _ _ 1%nat [] _ _ hub_geo hub_world geo_asked.1 hub_geo demo_n1 demo_hello (length demo_hello + 0 + 0)
    (line_of demo_asked) [] hub_geo demo_answer); [reflexivity|vm_compute; reflexivity..|].
  enough (E : hub_later = <[1%nat:=Up hub_geo (mk_link (P := c_plugin) geo_asked.1 hub_geo (demo_n1 + S (length (line_of demo_asked)))
    (demo_hello ++ demo_answer) (length demo_hello + 0 + 0))]> hub_now) by (rewrite E; apply play_done).
  vm_compute. reflexivity.
Qed.

