(* ===== verification/PluginAnswers.v ===== *)
(** * The percentile plugin behind its pipes

    PluginLink.v says that messages arrive; PluginSystem.v says what a message does to
    the percentile plugin.  Together: the statistics the plugin holds are those of the
    snapshots it was told, and the panel that the host draws shows the statistics of
    the snapshots that were told before the panel was asked for. *)

From stdpp Require Import relations.
From S2P Require Import Prelude JsonDoc JsonRpc RpcConn Telemetry Topology PluginDocs PluginHost TuiState PluginRender.
From S2P Require Import Percentile GeoIP PluginSystem HostLink PluginLink.

Abbreviation clock_readings := (nat -> option (Z * Z)).

(** What a message does to the statistics. *)
Definition hear (g : pctl_globals) (em : clock_readings * message) : pctl_globals :=
  match em.2 with
  | Tell tel topo => foldl (pctl_row (now_ms (em.1 0%nat))) g (telemetry_rows tel topo)
  | Req _ _ _ => g
  end.

Definition rows_readable (m : message) : Prop :=
  match m with Tell tel topo => Forall row_ok (telemetry_rows tel topo) | Req _ _ _ => True end.

Lemma react_hear clock g m :
  message_ok m -> rows_readable m -> (react clock g (input_of m)).1 = hear g (clock, m).
Proof.
  intros Hm Hr. destruct m as [id me q|tel topo].
  - destruct (request_read id me q Hm) as (params & E). destruct Hm as (_ & _ & _ & Hme & _).
    unfold react, pctl_plugin, pctl_main_line. rewrite E. cbn [rq_method rq_id rq_params].
    repeat (apply elem_of_cons in Hme as [->|Hme]; [reflexivity|]). by apply elem_of_nil in Hme.
  - destruct Hm as [Hf _]. change (input_of (Tell tel topo)) with (print (telemetry_request tel topo) ++ [chr 10]).
    rewrite <- telemetry_line_text by done. unfold react, pctl_plugin. by rewrite telemetry_reaches_percentile.
Qed.

Lemma replay_hear g (h : list (clock_readings * message)) :
  Forall message_ok h.*2 -> Forall rows_readable h.*2 -> replay g h = foldl hear g h.
Proof.
  revert g. induction h as [|[clock m] h IH]; intros g Hm Hr; [done|].
  inversion_clear Hm as [|? ? Hm1 Hm2]. inversion_clear Hr as [|? ? Hr1 Hr2].
  change (replay g ((clock, m) :: h)) with (replay (react clock g (input_of m)).1 h).
  rewrite react_hear by done. by apply IH.
Qed.

(** The panel [resp]: the answer to a request that was handled after [h], and shows
    the statistics of what the plugin was told in [h]. *)
Definition shows_told (h : list (clock_readings * message)) (resp : cstr) : Prop :=
  exists j clock id q params,
    h !! j = Some (clock, Req id (str "render") q) /\
    parse_request (input_of (Req id (str "render") q)) = Some (mk_request (str "render") params (Some id)) /\
    resp ++ [newline] = handle_render clock (foldl hear zero_globals (take j h)) params id.

Lemma answered_shows (S : list message) (h : list (clock_readings * message)) resp :
  h.*2 `prefix_of` S -> Forall message_ok S -> Forall rows_readable S ->
  answered zero_globals h "render" resp -> shows_told h resp.
Proof.
  intros [t Ht] Hm Hr (j & clock & id & q & Hj & E). rewrite Ht in Hm, Hr.
  apply Forall_app in Hm as [Hm _], Hr as [Hr _].
  assert (Hreq : message_ok (Req id (str "render") q)).
  { apply (Forall_lookup_1 _ _ j _ Hm). by rewrite list_lookup_fmap, Hj. }
  destruct (request_read id (str "render") q Hreq) as (params & Ep).
  exists j, clock, id, q, (print q ++ params). split; [done|]. split; [done|]. rewrite E.
  rewrite replay_hear by (rewrite fmap_take; by apply Forall_take).
  unfold react, pctl_plugin, pctl_main_line. by rewrite Ep.
Qed.


(** ** A run: a snapshot is told, then the panel is asked for and taken *)

Definition pctl_clock : clock_readings := fun _ => Some (60, 0).
Definition pctl_news : message := Tell demo_telemetry None.
Definition pctl_ask : message := Req 2 (str "render") (render_doc NSR_UI_NORMAL 38 12 (-1) []).

Definition pctl_hello : cstr := (react pctl_clock zero_globals (input_of demo_init)).2.
Definition pctl_told : pctl_globals := (react pctl_clock zero_globals (input_of pctl_news)).1.
Definition pctl_panel : cstr := (react pctl_clock pctl_told (input_of pctl_ask)).2.

Definition pctl_up := plugin_spawn (new_plugin (str "percentile") (str "/p/percentile")) (str "/c") (str "/p") (Some (5, 6, 7)) (demo_os demo_init pctl_hello).
Definition pctl_e1 : nsr_plugin_entry_t := pctl_up.1.2.
Definition pctl_tell := host_do (HostTelemetry demo_telemetry None) pctl_e1 (mk_os [] [] [] [] (written pctl_news)).
Definition pctl_e2 : nsr_plugin_entry_t := pctl_tell.1.
Definition pctl_render := host_do (HostRender NSR_UI_NORMAL (-1) nsr_topology_init 9 60 12 38 40 120) pctl_e2
  (mk_os [Some (0, 0); Some (1, 0)] [] [] [] (written pctl_ask)).
Definition pctl_e3 : nsr_plugin_entry_t := pctl_render.1.
Definition pctl_take := host_do (HostDrain 5) pctl_e3 (demo_os pctl_ask pctl_panel).
Definition pctl_e4 : nsr_plugin_entry_t := pctl_take.1.

Definition at_link : nsr_plugin_entry_t -> pctl_globals -> nat -> cstr -> nat -> link := mk_link.
Definition pctl_n (ms : list message) : nat := length (flat (map line_of ms)).

Lemma pctl_started : link_started pctl_clock zero_globals (at_link pctl_e1 zero_globals (pctl_n [demo_init]) pctl_hello (length pctl_hello)).
Proof.
  apply (started_all pctl_clock zero_globals (new_plugin (str "percentile") (str "/p/percentile")) (str "/c") (str "/p") (5, 6, 7)
    (demo_os demo_init pctl_hello) zero_globals pctl_hello pctl_e1 pctl_up.2); [apply new_plugin_clear|vm_compute; reflexivity..].
Qed.

Definition pctl_end : link := at_link pctl_e4 pctl_told (pctl_n [demo_init; pctl_news; pctl_ask]) (pctl_hello ++ pctl_panel) (length (pctl_hello ++ pctl_panel)).

Lemma pctl_run : rtc link_step (at_link pctl_e1 zero_globals (pctl_n [demo_init]) pctl_hello (length pctl_hello)) pctl_end.
Proof.
  eapply rtc_l.
  { apply (host_writes (HostTelemetry demo_telemetry None) (mk_os [] [] [] [] (written pctl_news)) _ _ _ _ _ pctl_e2 pctl_tell.2);
      vm_compute; reflexivity. }
  apply (rtc_l _ _ (at_link pctl_e2 pctl_told (pctl_n [demo_init; pctl_news]) pctl_hello (length pctl_hello))).
  { apply (plugin_reads pctl_clock _ _ _ _ _ (line_of pctl_news) [] pctl_told []); vm_compute; reflexivity. }
  eapply rtc_l.
  { apply (host_writes (HostRender NSR_UI_NORMAL (-1) nsr_topology_init 9 60 12 38 40 120) (mk_os [Some (0, 0); Some (1, 0)] [] [] [] (written pctl_ask))
      _ _ _ _ _ pctl_e3 pctl_render.2); vm_compute; reflexivity. }
  apply (rtc_l _ _ (at_link pctl_e3 pctl_told (pctl_n [demo_init; pctl_news; pctl_ask]) (pctl_hello ++ pctl_panel) (length pctl_hello))).
  { apply (plugin_reads pctl_clock _ _ _ _ _ (line_of pctl_ask) [] pctl_told pctl_panel); vm_compute; reflexivity. }
  apply (rtc_l _ _ pctl_end); [|apply rtc_refl].
  apply (host_takes (HostDrain 5) (demo_os pctl_ask pctl_panel) _ _ _ _ _ pctl_e4 pctl_take.2);
    [done|vm_compute; reflexivity|vm_compute; lia|vm_compute; reflexivity..].
Qed.

Definition pctl_shown : cstr := take (length pctl_panel - 1) pctl_panel.

Lemma pctl_end_shown : last_render_resp (k_host pctl_end) = pctl_shown.
Proof. vm_compute. reflexivity. Qed.

Lemma pctl_shown_text : bool_decide (pctl_shown = []) = false.
Proof. vm_compute. reflexivity. Qed.

