(* ===== verification/Annotations.v ===== *)
(** * Hop annotations, from the lookup to the screen

    The GeoIP plugin looks up the addresses it is told of, the host asks it for
    annotations of the hops on display and reads the answer into an array.  Here: the
    answer is read back as it was meant; and, with the two processes on their pipes
    (PluginLink.v), every annotation the host reads belongs to the address of its hop
    and comes from a lookup of that address. *)

From stdpp Require Import relations.
From S2P Require Import Prelude JsonScan JsonDoc JsonRpc RpcConn Telemetry Topology PluginDocs PluginHost.
From S2P Require Import HopAlias TuiState PluginRender GeoIP PluginSystem HostLink PluginLink.

(** ** The answer of the plugin *)

(** What the plugin has to say about one hop. *)
Definition annotation_of (c : geo_cache) (r : row) : option nsr_hop_annotation_t :=
  '(country, provider) ← cached c (r_addr r);
  Some (mk_annotation (r_idx r) (take 127 (str "[" ++ country ++ str " " ++ provider ++ str "]"))).

Definition annotation_doc (a : nsr_hop_annotation_t) : json :=
  JObj [(str "hop_idx", JInt (an_hop_idx a)); (str "text", JStr (an_text a))].

Lemma find_valid c ip e : geo_cache_find c ip = Some e -> g_valid e = true.
Proof. rewrite geo_find_stop. destruct (stop c ip) as [j|]; [|done]. cbn zeta. destruct (g_valid _) eqn:E; [by intros [= <-]|done]. Qed.

Lemma annotation_row c r q :
  row_ok r -> annotation_calls c (print (row_doc r) ++ q)
  = match annotation_of c r with Some a => doc_calls (annotation_doc a) | None => [] end.
Proof.
  intros Hr. unfold annotation_calls, annotation_of, cached. destruct (row_members r q Hr) as (Ha & _ & _ & Hi).
  rewrite <- str_member_extract, Ha, Hi. destruct (geo_cache_find c (r_addr r)) as [e|] eqn:E; [|done].
  by rewrite (find_valid c (r_addr r) e E).
Qed.

Lemma annotations_rows c rs es :
  Forall row_ok rs -> Forall2 (fun r e => exists q, e = print (row_doc r) ++ q) rs es ->
  concat (map (annotation_calls c) es) = concat (map doc_calls (map annotation_doc (omap (annotation_of c) rs))).
Proof.
  intros Hok H. induction H as [|r e rs es [q ->] H IH]; [done|]. inversion_clear Hok as [|? ? Hr Hrs].
  cbn [map concat]. rewrite annotation_row, IH by done. cbn [omap list_omap]. by destruct (annotation_of c r).
Qed.

Lemma asked_elements hs n rest :
  exists hops_text len, nsr_json_obj_get (print (hops_doc hs n) ++ rest) (str "hops") = Some (hops_text, len) /\
    Forall2 (fun r e => exists q, e = print (row_doc r) ++ q) (asked_rows hs n) (arr_elements hops_text).
Proof.
  unfold hops_doc. set (ms := [_]). pose proof (obj_get_print ms rest (str "hops")) as Hp.
  replace (find_member ms (str "hops")) with (Some (JArr (map row_doc (asked_rows hs n)))) in Hp by done.
  destruct Hp as (r & -> & _). eexists _, _. split; [done|].
  pose proof (arr_elements_print (map row_doc (asked_rows hs n)) r) as H.
  apply Forall2_fmap_l in H. eapply Forall2_impl; [exact H|]. intros x e (q & -> & _). eauto.
Qed.

Lemma hop_rows_length i hs : (length (hop_rows i hs) <= length hs)%nat.
Proof.
  revert i. induction hs as [|h hs IH]; intros i; [done|]. rewrite hop_rows_cons, length_app. specialize (IH (i + 1)).
  destruct (sent h =? 0); cbn [length] in *; lia.
Qed.

Lemma asked_length hs n : (length (asked_rows hs n) <= 64)%nat.
Proof. unfold asked_rows. pose proof (hop_rows_length 1 (drop 1 (take (Z.to_nat (Z.min 64 n)) hs))) as H. rewrite length_drop, length_take in H. lia. Qed.

Definition annotations_doc (id : Z) (l : list nsr_hop_annotation_t) : json :=
  answer_doc id "result" [(str "annotations", JArr (map annotation_doc l))].

Lemma annotation_of_size c r a : annotation_of c r = Some a -> size_bound (annotation_doc a) <= 900.
Proof.
  unfold annotation_of. destruct (cached c (r_addr r)) as [[country provider]|]; [|done]. cbn [mbind option_bind].
  set (text := take 127 _ : cstr). assert (Ht : (length text <= 127)%nat) by (unfold text; rewrite length_take; lia).
  clearbody text. intros [= <-]. cbn [annotation_doc an_hop_idx an_text size_bound map foldr].
  change (Z.of_nat (length (str "hop_idx"))) with 7. change (Z.of_nat (length (str "text"))) with 4. lia.
Qed.

Lemma annotation_size c rs :
  Forall (fun d => size_bound d <= 900) (map annotation_doc (omap (annotation_of c) rs)) /\
  (length (omap (annotation_of c) rs) <= length rs)%nat.
Proof.
  induction rs as [|r rs [IH1 IH2]]; [done|]. change (r :: rs) with ([r] ++ rs). rewrite omap_app. cbn [omap list_omap].
  destruct (annotation_of c r) as [a|] eqn:E; cbn [app map length]; [|split; [done|exact (le_S _ _ IH2)]].
  split; [constructor; [by eapply annotation_of_size|done]|exact (le_n_S _ _ IH2)].
Qed.

Lemma render_hops_text c hs n rest id :
  Forall row_ok (asked_rows hs n) ->
  geo_handle_render_hops c (print (hops_doc hs n) ++ rest) id
  = print (annotations_doc id (omap (annotation_of c) (asked_rows hs n))) ++ [newline].
Proof.
  intros Hok. unfold geo_handle_render_hops. destruct (asked_elements hs n rest) as (t & len & -> & He).
  rewrite (annotations_rows c _ _ Hok He). unfold respond. f_equal. apply emit_print.
  - unfold response_head, keyed, annotations_doc. cbn [answer_doc doc_calls map concat fst snd app]. rewrite <- ?app_assoc. reflexivity.
  - apply fits_bound. destruct (annotation_size c (asked_rows hs n)) as [Hs Hl]. pose proof (asked_length hs n) as Hn.
    apply (sum_bound _ 900 ltac:(lia)) in Hs. rewrite length_map in Hs. unfold annotations_doc, answer_doc.
    cbn [size_bound map foldr]. change (Z.of_nat (length (str "annotations"))) with 11. change (Z.of_nat (length (str "jsonrpc"))) with 7.
    change (Z.of_nat (length (str "id"))) with 2. change (Z.of_nat (length (str "2.0"))) with 3. change (Z.of_nat (length (str "result"))) with 6. lia.
Qed.

(** ** The host reads them back *)

Definition readable (a : nsr_hop_annotation_t) : Prop :=
  0 <= an_hop_idx a < 2 ^ 31 /\ plain (an_text a) /\ an_text a <> [] /\ (length (an_text a) <= 127)%nat.

Lemma annotation_read a rest :
  readable a -> int_member (print (annotation_doc a) ++ rest) "hop_idx" (-1) = an_hop_idx a /\
    str_member (print (annotation_doc a) ++ rest) "text" 128 [] = an_text a.
Proof.
  intros (Hi & Hp & _ & Hl). unfold annotation_doc. split; [by apply int_member_print; [|lia]|].
  rewrite (str_member_print _ _ _ _ (an_text a)) by (done || lia). apply take_ge. lia.
Qed.

Lemma annotations_read l es out max_out :
  Forall readable l -> Forall2 (fun a e => exists r, e = print (annotation_doc a) ++ r) l es ->
  annotations_loop es out max_out = out ++ take (Z.to_nat (max_out - Z.of_nat (length out))) l.
Proof.
  intros Hl H. revert out. induction H as [|a e l es [r ->] H IH]; intros out; cbn [annotations_loop].
  { by rewrite take_nil, app_nil_r. }
  inversion_clear Hl as [|? ? Ha Hl']. destruct (annotation_read a r Ha) as [-> ->]. destruct Ha as (Hi & Hp & Hne & Hlen).
  destruct (Z.of_nat (length out) <? max_out) eqn:E; bool_facts.
  - rewrite (proj2 (Z.leb_le 0 (an_hop_idx a))) by lia. rewrite (deref_nonempty (an_text a) (plain_nul_free _ Hp) Hne).
    cbn [negb andb]. rewrite s32_id by lia. unfold strncpy. rewrite take_ge by lia.
    assert (Ea : mk_annotation (an_hop_idx a) (an_text a) = a) by by destruct a. rewrite Ea, IH, length_app by done. cbn [length].
    replace (Z.to_nat (max_out - Z.of_nat (length out))) with (S (Z.to_nat (max_out - Z.of_nat (length out + 1)))) by lia.
    cbn [take]. by rewrite <- app_assoc.
  - replace (Z.to_nat (max_out - Z.of_nat (length out))) with 0%nat by lia. cbn [take]. by rewrite app_nil_r.
Qed.

Lemma response_read id l out max_out :
  Forall readable l ->
  parse_render_hops_response (print (annotations_doc id l)) out max_out
  = out ++ take (Z.to_nat (max_out - Z.of_nat (length out))) l.
Proof.
  intros Hl. unfold parse_render_hops_response, annotations_doc, answer_doc. rewrite <- (app_nil_r (print _)).
  set (m := [(str "jsonrpc", JStr (str "2.0")); _; _]). pose proof (obj_get_print m [] (str "result")) as Hp.
  replace (find_member m (str "result")) with (Some (JObj [(str "annotations", JArr (map annotation_doc l))])) in Hp by done.
  destruct Hp as (r1 & -> & _). set (b := [(str "annotations", _)]). pose proof (obj_get_print b r1 (str "annotations")) as Hp.
  replace (find_member b (str "annotations")) with (Some (JArr (map annotation_doc l))) in Hp by done.
  destruct Hp as (r2 & -> & _). apply annotations_read; [done|].
  pose proof (arr_elements_print (map annotation_doc l) r2) as H. apply Forall2_fmap_l in H.
  eapply Forall2_impl; [exact H|]. intros a e (r & -> & _). by exists r.
Qed.

(** ** Where the answers come from *)

(** Every answer in the cache is the result of a lookup of its address, made when a
    snapshot with that address was told. *)
Definition from_lookups (p0 : geoip_state_t) (h : list (geo_world * message)) (c : geo_cache) : Prop :=
  forall ip a, cached c ip = Some a -> exists j w tel topo,
    h !! j = Some (w, Tell tel topo) /\ ip ∈ map r_addr (telemetry_rows tel topo) /\
    a = stored_answer (gs_ip2loc (replay p0 (take j h))) (w_http w) (w_stale w) ip.

Lemma resolve_origin ip2loc http_get stale c ip ip' a :
  geo_wf c -> (length ip <= 47)%nat -> cached (resolve_one ip2loc http_get stale c ip) ip' = Some a ->
  cached c ip' = Some a \/ (ip' = ip /\ a = stored_answer ip2loc http_get stale ip).
Proof.
  intros Hwf Hl H. destruct (resolve_spec ip2loc http_get stale c ip Hwf Hl) as (_ & _ & H3 & H4 & _).
  destruct (decide (ip' = ip)) as [->|Hne]; [|left; by rewrite <- (H4 ip' Hne)].
  destruct (cached c ip) as [b|] eqn:Ec; [left; by rewrite (H3 ip b Ec) in H|right]. split; [done|].
  unfold resolve_one in H. split_if_in H; [congruence|].
  destruct (geo_cache_find c ip) as [e|] eqn:Ef; [unfold cached in Ec; by rewrite Ef in Ec|].
  unfold stored_answer. destruct (answer ip2loc http_get stale ip) as [country provider].
  rewrite geo_store_stop in H.
  destruct (stop c ip) as [j|] eqn:Es; [|congruence]. rewrite (cached_stored c ip country provider j Hwf Hl Es) in H. congruence.
Qed.

Lemma resolves_origin ip2loc http_get stale ips c :
  geo_wf c -> Forall (fun ip => (length ip <= 47)%nat) ips ->
  geo_wf (foldl (resolve_one ip2loc http_get stale) c ips) /\
  forall ip a, cached (foldl (resolve_one ip2loc http_get stale) c ips) ip = Some a ->
    cached c ip = Some a \/ (ip ∈ ips /\ a = stored_answer ip2loc http_get stale ip).
Proof.
  revert c. induction ips as [|x ips IH]; intros c Hwf Hl; cbn [foldl]; [by split; [|left]|].
  inversion_clear Hl as [|? ? Hx Hl']. pose proof (resolve_spec ip2loc http_get stale c x Hwf Hx) as (Hwf' & _).
  destruct (IH _ Hwf' Hl') as [H1 H2]. split; [done|]. intros ip a Ha.
  destruct (H2 ip a Ha) as [Hc|[Hin ->]]; [|right; split; [by right|done]].
  destruct (resolve_origin _ _ _ _ _ _ _ Hwf Hx Hc) as [?|[-> ->]]; [by left|]. right. split; [by left|done].
Qed.

(** *** Over the messages *)

Definition geo_news_ok (m : message) : Prop :=
  match m with
  | Tell tel topo => Forall row_ok (telemetry_rows tel topo) /\ Forall (fun r => (length (r_addr r) <= 47)%nat) (telemetry_rows tel topo)
  | Req _ _ _ => True
  end.

Lemma react_request_cache w st id me q :
  message_ok (Req id me q) -> gs_cache (react w st (input_of (Req id me q))).1 = gs_cache st.
Proof.
  intros Hm. destruct (request_read id me q Hm) as (params & E). destruct Hm as (_ & _ & _ & Hme & _).
  unfold react, geo_plugin, geo_step, geo_main_line. rewrite E. cbn [rq_method rq_id rq_params].
  repeat (apply elem_of_cons in Hme as [->|Hme]; [reflexivity|]). by apply elem_of_nil in Hme.
Qed.

Lemma react_news_cache w st tel topo :
  message_ok (Tell tel topo) -> Forall row_ok (telemetry_rows tel topo) ->
  gs_cache (react w st (input_of (Tell tel topo))).1
  = foldl (resolve_one (gs_ip2loc st) (w_http w) (w_stale w)) (gs_cache st) (map r_addr (telemetry_rows tel topo)).
Proof.
  intros [Hf _] Hok. change (input_of (Tell tel topo)) with (print (telemetry_request tel topo) ++ [chr 10]).
  rewrite <- telemetry_line_text by done. destruct (telemetry_parsed tel topo Hf) as [rest E].
  unfold react, geo_plugin, geo_step, geo_main_line. rewrite E. cbn [rq_method rq_params rq_id].
  change (streq (str "update_telemetry") (str "init")) with false.
  change (streq (str "update_telemetry") (str "update_telemetry")) with true. cbn iota. cbn [andb gs_cache fst].
  unfold geo_handle_update_telemetry. destruct (telemetry_elements tel topo rest) as (t & len & -> & He).
  by rewrite (resolve_hops_rows _ _ _ _ Hok He).
Qed.

Lemma cached_empty ip : cached empty_cache ip = None.
Proof.
  unfold cached. rewrite geo_find_stop. destruct (stop empty_cache ip) as [j|]; [|done]. cbn zeta.
  unfold empty_cache. by rewrite lookup_total_replicate_2 by apply path_bound.
Qed.

Lemma replay_from_lookups p0 (h : list (geo_world * message)) :
  gs_cache p0 = empty_cache -> Forall message_ok h.*2 -> Forall geo_news_ok h.*2 ->
  geo_wf (gs_cache (replay p0 h)) /\ from_lookups p0 h (gs_cache (replay p0 h)).
Proof.
  intros H0. induction h as [|[w m] h IH] using rev_ind; intros Hm Hg.
  { change (replay p0 []) with p0. rewrite H0. split; [apply empty_wf|]. intros ip a Ha. by rewrite cached_empty in Ha. }
  rewrite fmap_app in Hm, Hg. apply Forall_app in Hm as [Hm Hm1], Hg as [Hg Hg1].
  apply Forall_cons in Hm1 as [Hm1 _], Hg1 as [Hg1 _]. cbn [snd] in Hm1, Hg1. destruct (IH Hm Hg) as [Hwf Hfrom]. rewrite replay_snoc.
  assert (Hold : from_lookups p0 (h ++ [(w, m)]) (gs_cache (replay p0 h))).
  { intros ip a Ha. destruct (Hfrom ip a Ha) as (j & w' & tel & topo & Hj & Hin & Ea). exists j, w', tel, topo.
    pose proof (lookup_lt_Some _ _ _ Hj) as Hlt. split; [by rewrite lookup_app_l|]. split; [done|]. by rewrite take_app_le by lia. }
  destruct m as [id me q|tel topo]; [rewrite react_request_cache by done; exact (conj Hwf Hold)|]. destruct Hg1 as [Hok Hlen].
  rewrite react_news_cache by done.
  destruct (resolves_origin (gs_ip2loc (replay p0 h)) (w_http w) (w_stale w) (map r_addr (telemetry_rows tel topo)) _ Hwf)
    as [H1 H2]; [by apply Forall_map|].
  split; [exact H1|]. intros ip a Ha. destruct (H2 ip a Ha) as [Hc|[Hin ->]]; [exact (Hold ip a Hc)|].
  exists (length h), w, tel, topo. split; [by rewrite lookup_app_r, Nat.sub_diag by lia|]. split; [done|]. by rewrite take_app_length.
Qed.

(** What the host reads of [resp]: for each hop it had asked for, in order, what the
    cache held for its address when the request was handled, as far as the array has
    room; and the cache held nothing but results of lookups. *)
Definition shows_lookups (p0 : geoip_state_t) (h : list (geo_world * message)) (resp : cstr) : Prop :=
  exists j w id hs n,
    h !! j = Some (w, Req id (str "render_hops") (hops_doc hs n)) /\
    let c := gs_cache (replay p0 (take j h)) in
    from_lookups p0 (take j h) c /\
    (Forall row_ok (asked_rows hs n) -> Forall readable (omap (annotation_of c) (asked_rows hs n)) ->
     forall out max_out, parse_render_hops_response resp out max_out
       = out ++ take (Z.to_nat (max_out - Z.of_nat (length out))) (omap (annotation_of c) (asked_rows hs n))).

Lemma answered_lookups p0 (S : list message) (h : list (geo_world * message)) resp :
  gs_cache p0 = empty_cache -> h.*2 `prefix_of` S -> Forall message_ok S -> Forall geo_news_ok S ->
  answered p0 h "render_hops" resp -> shows_lookups p0 h resp.
Proof.
  intros H0 [t Ht] Hm Hg (j & w & id & q & Hj & E). rewrite Ht in Hm, Hg.
  apply Forall_app in Hm as [Hm _], Hg as [Hg _].
  assert (Hreq : message_ok (Req id (str "render_hops") q)).
  { apply (Forall_lookup_1 _ _ j _ Hm). by rewrite list_lookup_fmap, Hj. }
  pose proof Hreq as (_ & _ & _ & _ & Hq). destruct (Hq eq_refl) as (hs & n & ->).
  destruct (request_read _ _ _ Hreq) as (rest & Ep).
  exists j, w, id, hs, n. split; [done|]. cbv zeta.
  destruct (replay_from_lookups p0 (take j h) H0) as [_ Hfrom]; [rewrite fmap_take; by apply Forall_take..|].
  split; [exact Hfrom|]. intros Hok Hr out max_out. set (st := replay p0 (take j h)) in *.
  assert (Eout : (react w st (input_of (Req id (str "render_hops") (hops_doc hs n)))).2
    = geo_handle_render_hops (gs_cache st) (print (hops_doc hs n) ++ rest) id).
  { unfold react, geo_plugin, geo_step, geo_main_line. by rewrite Ep. }
  rewrite Eout, render_hops_text in E by done. apply app_inv_tail in E as ->. by apply response_read.
Qed.


(** ** A run: a hop is told, looked up in a database, and annotated *)

Definition note_world : geo_world :=
  mk_geo_world (fun path => if streq path (str "/db") then Some (fun _ => Some (mk_ip2 (Some (str "AU")) (Some (str "APNIC")))) else None)
    (fun path => if streq path (str "/c") then Some (str "IP2_LOCATION_DB=/db" ++ [newline]) else None) (fun _ => None) [].

Definition note_news : message := Tell demo_telemetry None.
Definition note_ask : message := Req 2 (str "render_hops") (hops_doc (hops demo_telemetry) 64).

Definition note_hello : cstr := (react note_world demo_geo (input_of demo_init)).2.
Definition note_p1 : geoip_state_t := (react note_world demo_geo (input_of demo_init)).1.
Definition note_p2 : geoip_state_t := (react note_world note_p1 (input_of note_news)).1.
Definition note_answer : cstr := (react note_world note_p2 (input_of note_ask)).2.

Definition note_up := plugin_spawn (new_plugin (str "geoip") (str "/p/geoip")) (str "/c") (str "/p") (Some (5, 6, 7)) (demo_os demo_init note_hello).
Definition note_e1 : nsr_plugin_entry_t := note_up.1.2.
Definition note_tell := host_do (HostTelemetry demo_telemetry None) note_e1 (mk_os [] [] [] [] (written note_news)).
Definition note_e2 : nsr_plugin_entry_t := note_tell.1.
Definition note_hops := host_do (HostHops (hops demo_telemetry) 64 [] 64) note_e2 (mk_os [Some (0, 0); Some (1, 0)] [] [] [] (written note_ask)).
Definition note_e3 : nsr_plugin_entry_t := note_hops.1.
Definition note_take := host_do (HostDrain 5) note_e3 (demo_os note_ask note_answer).
Definition note_e4 : nsr_plugin_entry_t := note_take.1.

Definition geo_link : nsr_plugin_entry_t -> geoip_state_t -> nat -> cstr -> nat -> link := mk_link.
Definition note_n (ms : list message) : nat := length (flat (map line_of ms)).

Lemma note_started : link_started note_world demo_geo (geo_link note_e1 note_p1 (note_n [demo_init]) note_hello (length note_hello)).
Proof.
  apply (started_all note_world demo_geo (new_plugin (str "geoip") (str "/p/geoip")) (str "/c") (str "/p") (5, 6, 7)
    (demo_os demo_init note_hello) note_p1 note_hello note_e1 note_up.2);
    [apply new_plugin_clear|vm_compute; reflexivity|exact (surjective_pairing _)|vm_compute; reflexivity..].
Qed.

Definition note_end : link := geo_link note_e4 note_p2 (note_n [demo_init; note_news; note_ask]) (note_hello ++ note_answer) (length (note_hello ++ note_answer)).

Lemma note_run : rtc link_step (geo_link note_e1 note_p1 (note_n [demo_init]) note_hello (length note_hello)) note_end.
Proof.
  eapply rtc_l.
  { apply (host_writes (HostTelemetry demo_telemetry None) (mk_os [] [] [] [] (written note_news)) _ _ _ _ _ note_e2 note_tell.2);
      vm_compute; reflexivity. }
  apply (rtc_l _ _ (geo_link note_e2 note_p2 (note_n [demo_init; note_news]) note_hello (length note_hello))).
  { apply (plugin_reads note_world _ _ _ _ _ (line_of note_news) [] note_p2 []); vm_compute; reflexivity. }
  eapply rtc_l.
  { apply (host_writes (HostHops (hops demo_telemetry) 64 [] 64) (mk_os [Some (0, 0); Some (1, 0)] [] [] [] (written note_ask))
      _ _ _ _ _ note_e3 note_hops.2); vm_compute; reflexivity. }
  apply (rtc_l _ _ (geo_link note_e3 note_p2 (note_n [demo_init; note_news; note_ask]) (note_hello ++ note_answer) (length note_hello))).
  { apply (plugin_reads note_world _ _ _ _ _ (line_of note_ask) [] note_p2 note_answer); vm_compute; reflexivity. }
  apply (rtc_l _ _ note_end); [|apply rtc_refl].
  apply (host_takes (HostDrain 5) (demo_os note_ask note_answer) _ _ _ _ _ note_e4 note_take.2);
    [done|vm_compute; reflexivity|vm_compute; lia|vm_compute; reflexivity..].
Qed.

Definition note_shown : cstr := print (annotations_doc 2 [mk_annotation 1 (str "[AU APNIC]")]).

Lemma note_end_shown : last_render_hops_resp (k_host note_end) = note_shown.
Proof. vm_compute. reflexivity. Qed.

Lemma note_shown_text : bool_decide (note_shown = []) = false.
Proof. vm_compute. reflexivity. Qed.

