(* ===== verification/PluginMgr.v ===== *)
(** * The plugin manager (struct nsr_plugin_manager in include/nsr/plugin/plugin.h)

    The interface through which the program uses its plugins: the table of
    functions [nsr_plugin_manager_vtable] as a class, with the laws its callers
    rely on, and the instance that forwards to the operations of PluginHost.v and
    PluginRender.v as plugin.c does.  [registry] is the public member of the
    structure, which the footer of the interface reads directly. *)

From S2P Require Import Prelude CFloat JsonBuf JsonScan JsonDoc JsonRpc RpcConn Telemetry Topology.
From S2P Require Import PluginConfig PluginDocs PluginHost Draw TuiState PluginRender.

Class PluginManager (M : Type) := {
  registry : M -> nsr_plugin_registry_t;
  vt_update_telemetry : M -> nsr_telemetry_state_t -> nsr_topology_state_t -> M;
  vt_render : M -> nsr_tui_state_t -> nsr_topology_state_t -> Z -> Z -> Z -> Z -> Z -> Z -> list draw * M;
  vt_render_hops : M -> list nsr_hop_info_t -> Z -> Z -> list nsr_hop_annotation_t * M;
  vt_on_key : M -> Z -> bool * M;
  vt_modal_active : M -> bool * M;
  vt_count : M -> Z;
  vt_name : M -> Z -> option cstr;
  vt_description : M -> Z -> option cstr;
  vt_enabled : M -> Z -> bool;
  vt_set_enabled : M -> Z -> bool -> M;
}.

(** What every operation but [set_enabled] leaves alone. *)
Definition same_plugins {M} `{PluginManager M} (m m' : M) : Prop :=
  vt_count m' = vt_count m /\ forall i, vt_enabled m' i = vt_enabled m i.

Class PluginManagerLaws (M : Type) `{PluginManager M} := {
  count_range : forall m, 0 <= vt_count m;
  enabled_outside : forall m i, ~ (0 <= i < vt_count m) -> vt_enabled m i = false;
  set_enabled_law : forall m i b, 0 <= i < vt_count m ->
    let m' := vt_set_enabled m i b in
    vt_count m' = vt_count m /\ vt_enabled m' i = b /\
    forall j, j <> i -> vt_enabled m' j = vt_enabled m j;
  on_key_law : forall m ch, same_plugins m (vt_on_key m ch).2;
  modal_active_law : forall m, same_plugins m (vt_modal_active m).2;
  update_telemetry_law : forall m tel topo, same_plugins m (vt_update_telemetry m tel topo);
  render_law : forall m tui topo y x h w sh sw, same_plugins m (vt_render m tui topo y x h w sh sw).2;
  render_hops_law : forall m hs n max_out, same_plugins m (vt_render_hops m hs n max_out).2;
}.

(** ** The instance *)

(** The registry with the world it acts on: the system call results, the settings
    file and whether it can be rewritten, the results of the process creations to
    come and the files an editor was started for. *)
Record nsr_plugin_manager := mk_manager {
  pm_registry : nsr_plugin_registry_t;
  pm_os : os;
  pm_file : option cstr;
  pm_writable : bool;
  pm_spawns : list spawn_result;
  pm_edited : list cstr;
}.

Definition with_reg (m : nsr_plugin_manager) (es : list nsr_plugin_entry_t) (o : os) : nsr_plugin_manager :=
  mk_manager (with_entries (pm_registry m) es) o (pm_file m) (pm_writable m) (pm_spawns m) (pm_edited m).

Definition plugin_mgr_init (config : cstr) (o : os) (file : option cstr) (writable : bool) (spawns : list spawn_result)
    : nsr_plugin_manager := mk_manager (nsr_plugins_init config) o file writable spawns [].

(** [sps]: the processes this call creates. *)
Definition plugin_mgr_load_dir (m : nsr_plugin_manager) (dir : cstr) (listing : option (list dirent)) (sps : list spawn_result)
    : Z * nsr_plugin_manager :=
  let '(n, reg, o) := nsr_plugins_load_dir (pm_registry m) dir listing (pm_file m) sps (pm_os m) in
  (n, mk_manager reg o (pm_file m) (pm_writable m) (pm_spawns m) (pm_edited m)).

Definition plugin_mgr_cleanup (m : nsr_plugin_manager) : nsr_plugin_manager :=
  let '(reg, o) := nsr_plugins_cleanup (pm_registry m) (pm_os m) in
  mk_manager reg o (pm_file m) (pm_writable m) (pm_spawns m) (pm_edited m).

Definition plugin_mgr_update_telemetry (m : nsr_plugin_manager) (tel : nsr_telemetry_state_t)
    (topo : nsr_topology_state_t) : nsr_plugin_manager :=
  let '(es, o) := nsr_plugins_update_telemetry (entries (pm_registry m)) tel (Some topo) (pm_os m) in
  with_reg m es o.

Definition plugin_mgr_render (m : nsr_plugin_manager) (tui : nsr_tui_state_t) (topo : nsr_topology_state_t)
    (y x h w screen_h screen_w : Z) : list draw * nsr_plugin_manager :=
  let '(ds, es, o) := nsr_plugins_render (current_mode tui) (focused_node_id tui) topo y x h w screen_h
                        screen_w (entries (pm_registry m)) (pm_os m) in
  (ds, with_reg m es o).

Definition plugin_mgr_render_hops (m : nsr_plugin_manager) (hs : list nsr_hop_info_t) (hop_count max_out : Z)
    : list nsr_hop_annotation_t * nsr_plugin_manager :=
  let '(es, out, o) := nsr_plugins_render_hops (entries (pm_registry m)) hs hop_count max_out (pm_os m) in
  (out, with_reg m es o).

Definition plugin_mgr_on_key (m : nsr_plugin_manager) (ch : Z) : bool * nsr_plugin_manager :=
  let '(handled, es, o, files) := nsr_plugins_on_key (entries (pm_registry m)) ch (pm_os m) in
  (handled, mk_manager (with_entries (pm_registry m) es) o (pm_file m) (pm_writable m) (pm_spawns m)
              (pm_edited m ++ files)).

Definition plugin_mgr_modal_active (m : nsr_plugin_manager) : bool * nsr_plugin_manager :=
  let '(b, es, o) := nsr_plugins_modal_active (entries (pm_registry m)) (pm_os m) in (b, with_reg m es o).

Definition plugin_mgr_set_enabled (m : nsr_plugin_manager) (idx : Z) (enabled : bool) : nsr_plugin_manager :=
  let sp := default None (head (pm_spawns m)) in
  let starts := match aget (entries (pm_registry m)) idx with
                | Some e => enabled && negb (e_enabled e)
                | None => false
                end in
  let '(reg, file, o) :=
    nsr_plugins_set_enabled (pm_registry m) idx enabled (pm_file m) (pm_writable m) sp (pm_os m) in
  mk_manager reg o file (pm_writable m) (if starts then tail (pm_spawns m) else pm_spawns m) (pm_edited m).

#[export] Instance nsr_plugin_manager_vtable : PluginManager nsr_plugin_manager := {
  registry := pm_registry;
  vt_update_telemetry := plugin_mgr_update_telemetry;
  vt_render := plugin_mgr_render;
  vt_render_hops := plugin_mgr_render_hops;
  vt_on_key := plugin_mgr_on_key;
  vt_modal_active := plugin_mgr_modal_active;
  vt_count := fun m => nsr_plugins_count (pm_registry m);
  vt_name := fun m => nsr_plugins_name (pm_registry m);
  vt_description := fun m => nsr_plugins_description (pm_registry m);
  vt_enabled := fun m => nsr_plugins_enabled (pm_registry m);
  vt_set_enabled := plugin_mgr_set_enabled;
}.

(** ** Its laws *)

Lemma keeps_all es : Forall2 keeps es es.
Proof. induction es; constructor; auto using keeps_refl. Qed.

Lemma keeps_all_trans es es1 es2 : Forall2 keeps es es1 -> Forall2 keeps es1 es2 -> Forall2 keeps es es2.
Proof.
  intros H. revert es2. induction H; intros es2 H2; inversion_clear H2; constructor; eauto using keeps_trans.
Qed.

#[local] Hint Resolve keeps_refl keeps_all : nsr.

Lemma kept_same (m m' : nsr_plugin_manager) :
  Forall2 keeps (entries (pm_registry m)) (entries (pm_registry m')) -> same_plugins m m'.
Proof.
  intros H. split; cbn.
  - unfold nsr_plugins_count. by rewrite (Forall2_length _ _ _ H).
  - intros i. unfold nsr_plugins_enabled, aget. split_if; [|done].
    pose proof (proj1 (Forall2_lookup _ _ _) H (Z.to_nat i)) as Hl.
    inversion Hl as [e e' (_ & E & _)|]; [exact E|done].
Qed.

Lemma drain_pass_keeps es o : Forall2 keeps es (drain_pass es o).1.1.
Proof.
  revert o. induction es as [|e es IH]; intros o; cbn [drain_pass]; [constructor|].
  assert (Hs : keeps e (drain_pass_step e o).1.1).
  { unfold drain_pass_step. pose proof (check_alive_keeps e o) as Ha.
    destruct (plugin_check_alive e o) as [e1 o1]. cbn [fst] in Ha. split_if; [done|].
    pose proof (drain_key_loop_evolves (S (backlog e1 o1)) e1 o1) as Hd. unfold drain_all.
    destruct (drain_key_loop _ e1 o1) as [e2 o2]. apply evolves_keeps in Hd.
    assert (keeps e e2) by (by eapply keeps_trans). split_if; [|done]. eapply keeps_trans; [eassumption|].
    by unfold keeps, active. }
  destruct (drain_pass_step e o) as [[e1 o1] f1]. specialize (IH o1).
  destruct (drain_pass es o1) as [[es2 o2] f2]. by constructor.
Qed.

Lemma on_key_keeps es ch o : Forall2 keeps es (nsr_plugins_on_key es ch o).1.1.2.
Proof.
  unfold nsr_plugins_on_key. split_if; [apply keeps_all|]. pose proof (drain_pass_keeps es o) as Hd.
  destruct (drain_pass es o) as [[es1 o1] files]. cbn [fst] in Hd. split_if; [done|].
  pose proof (key_pass_keeps is_modal true false ch es1 o1) as H1.
  destruct (key_pass is_modal true false ch es1 o1) as [[[[] t1] es2] o2];
    [by eapply keeps_all_trans|].
  set (w := fun e => plugin_reserves_key (reserved_keys e) ch).
  pose proof (key_pass_keeps w false true ch es2 o2) as H2.
  destruct (key_pass w false true ch es2 o2) as [[[h2 t2] es3] o3].
  assert (Forall2 keeps es es3) by (eauto using keeps_all_trans). split_if; [done|].
  pose proof (key_pass_keeps (fun _ => true) false false ch es3 o3) as H3.
  destruct (key_pass (fun _ => true) false false ch es3 o3) as [[[h3 t3] es4] o4].
  eauto using keeps_all_trans.
Qed.

Lemma modal_active_keeps es o : Forall2 keeps es (nsr_plugins_modal_active es o).1.2.
Proof.
  unfold nsr_plugins_modal_active. revert o.
  induction es as [|e es IH]; intros o; cbn [modal_active_loop]; [constructor|].
  pose proof (check_alive_keeps e o) as Ha. destruct (plugin_check_alive e o) as [e1 o1].
  split_if; [constructor; auto with nsr|].
  specialize (IH o1). destruct (modal_active_loop es o1) as [[b es2] o2]. by constructor.
Qed.

Lemma notify_keeps params es o : Forall2 keeps es (notify_all params es o).1.
Proof.
  revert o. induction es as [|e es IH]; intros o; cbn [notify_all]; [constructor|].
  pose proof (check_alive_keeps e o) as Ha. destruct (plugin_check_alive e o) as [e1 o1]. cbn [fst] in Ha.
  assert (Hs : forall e2 o2, keeps e1 e2 -> Forall2 keeps (e :: es)
    (let '(es', o) := notify_all params es o2 in (e2 :: es', o)).1).
  { intros e2 o2 H. specialize (IH o2). destruct (notify_all params es o2) as [es2 o3].
    constructor; [by eapply keeps_trans|done]. }
  destruct (active e1); [|auto with nsr].
  destruct (nsr_json_rpc_notify (e_rpc e1) _ _ o1) as [[ok r] o2]. by apply Hs.
Qed.

Lemma drain_keeps e t o : keeps e (plugin_drain_response e t o).1.2.
Proof.
  pose proof (drain_evolves e t o) as H. destruct (plugin_drain_response e t o) as [[b e1] o1].
  destruct H as [H _]. by apply evolves_keeps in H.
Qed.

(** Giving up on a plugin keeps what [keeps] is about. *)
Lemma dead_keeps e e' : keeps e e' -> keeps e (with_flags e' (e_initialized e') true).
Proof.
  intros (? & ? & _). split_and!; try done. unfold active. cbn. by rewrite andb_false_r.
Qed.

Lemma render_hops_keeps params es out max_out o :
  Forall2 keeps es (render_hops_loop params es out max_out o).1.1.
Proof.
  revert out o. induction es as [|e es IH]; intros out o; cbn [render_hops_loop]; [constructor|].
  split_if; [|apply keeps_all].
  pose proof (check_alive_keeps e o) as Ha. destruct (plugin_check_alive e o) as [e1 o1]. cbn [fst] in Ha.
  set (step := if active e1 then _ else _).
  assert (Hs : keeps e1 step.1.1).
  { unfold step. split_if; [|apply keeps_refl]. unfold render_hops_step.
    pose proof (drain_keeps e1 5 o1) as Hd.
    destruct (plugin_drain_response e1 5 o1) as [[b e2] o2]. cbn [fst snd] in Hd. split_if; [done|].
    destruct (nsr_json_rpc_send_request (e_rpc e2) _ _ o2) as [[[ok id] r] o3].
    cbn [fst]. split_if; [apply dead_keeps|]; (eapply keeps_trans; [exact Hd|]); by unfold keeps, active. }
  destruct step as [[e2 out2] o2]. cbn [fst] in Hs. specialize (IH out2 o2).
  destruct (render_hops_loop params es out2 max_out o2) as [[es3 out3] o3].
  constructor; [by eapply keeps_trans|done].
Qed.

Lemma render_active_keeps mode focus topo y x h w sh sw e o :
  keeps e (render_active mode focus topo y x h w sh sw e o).1.2.
Proof.
  unfold render_active. destruct (modal_request _) as [[modal m_w] m_h].
  destruct (place_panel _ _ _ _ _ _ _ _ _ _) as [p frame].
  pose proof (drain_keeps (with_modal e modal) 5 o) as Hd.
  destruct (plugin_drain_response _ 5 o) as [[b e1] o1]. cbn [fst snd] in Hd.
  assert (keeps e e1) as H by (eapply keeps_trans; [|exact Hd]; by unfold keeps, active).
  unfold request_render. split_if; [done|].
  destruct (nsr_json_rpc_send_request (e_rpc e1) _ _ o1) as [[[ok id] r] o2].
  repeat split_if; cbn [fst snd]; (eapply keeps_trans; [exact H|]); unfold keeps, active; cbn;
    rewrite ?andb_false_r; by split_and!.
Qed.

Lemma render_keeps mode focus topo y x h w sh sw es o :
  Forall2 keeps es (nsr_plugins_render mode focus topo y x h w sh sw es o).1.2.
Proof.
  revert o. induction es as [|e es IH]; intros o; cbn [nsr_plugins_render]; [constructor|].
  pose proof (check_alive_keeps e o) as Ha. destruct (plugin_check_alive e o) as [e1 o1]. cbn [fst] in Ha.
  assert (Hs : forall d1 e2 o2, keeps e1 e2 -> Forall2 keeps (e :: es)
    (let '(d2, es', o) := nsr_plugins_render mode focus topo y x h w sh sw es o2 in (d1 ++ d2, e2 :: es', o)).1.2).
  { intros d1 e2 o2 H. specialize (IH o2). destruct (nsr_plugins_render _ _ _ _ _ _ _ _ _ es o2) as [[d2 es2] o3].
    constructor; [by eapply keeps_trans|done]. }
  destruct (active e1); [|auto with nsr].
  pose proof (render_active_keeps mode focus topo y x h w sh sw e1 o1) as Hr.
  destruct (render_active _ _ _ _ _ _ _ _ _ e1 o1) as [[d1 e2] o2]. by apply Hs.
Qed.

Lemma set_enabled_spec m idx b :
  0 <= idx < vt_count m ->
  let m' := plugin_mgr_set_enabled m idx b in
  vt_count m' = vt_count m /\ vt_enabled m' idx = b /\
  forall j, j <> idx -> vt_enabled m' j = vt_enabled m j.
Proof.
  intros Hi. cbn in *. unfold nsr_plugins_count in Hi.
  destruct (aget_Some (entries (pm_registry m)) idx Hi) as [e He].
  unfold plugin_mgr_set_enabled, nsr_plugins_set_enabled. rewrite He. cbn zeta.
  destruct (Bool.eqb (e_enabled e) b) eqn:Eb.
  { cbn. apply Bool.eqb_prop in Eb. unfold nsr_plugins_enabled at 1. rewrite He. auto. }
  set (sw := if b then _ else _).
  assert (Hsw : e_enabled sw.1 = b).
  { unfold sw. destruct b.
    - pose proof (spawn_enabled (with_enabled e true) (config_path (pm_registry m)) (plugin_dir (pm_registry m))
        (default None (head (pm_spawns m))) (pm_os m)) as H.
      by destruct (plugin_spawn _ _ _ _ _) as [[c e1] o1].
    - apply (stop_enabled (with_enabled e false) (pm_os m)). }
  destruct sw as [e1 o1]. cbn [fst] in Hsw. cbn [pm_registry]. unfold nsr_plugins_count, nsr_plugins_enabled, aget in *.
  cbn [entries with_entries]. rewrite length_insert. split; [done|].
  rewrite (proj2 (Z.leb_le 0 idx)) in * by lia. split.
  - rewrite list_lookup_insert_eq by lia. done.
  - intros j Hj. split_if; [|done]. bool_facts. by rewrite list_lookup_insert_ne by lia.
Qed.

(** At the end of the program no plugin is left, and the settings stay. *)
Lemma cleanup_empties m :
  vt_count (plugin_mgr_cleanup m) = 0 /\ pm_file (plugin_mgr_cleanup m) = pm_file m /\ forall i, vt_enabled (plugin_mgr_cleanup m) i = false.
Proof. split; [done|]. split; [done|]. intros i. cbn. unfold nsr_plugins_enabled, aget. by split_if. Qed.

#[export] Instance nsr_plugin_manager_laws : PluginManagerLaws nsr_plugin_manager.
Proof.
  split.
  - intros m. cbn. unfold nsr_plugins_count. lia.
  - intros m i Hi. cbn in *. unfold nsr_plugins_enabled, nsr_plugins_count, aget in *. split_if; [|done]. bool_facts.
    rewrite lookup_ge_None_2 by lia. done.
  - exact set_enabled_spec.
  - intros m ch. cbn. unfold plugin_mgr_on_key. pose proof (on_key_keeps (entries (pm_registry m)) ch (pm_os m)) as H.
    destruct (nsr_plugins_on_key _ ch _) as [[[handled es] o] files]. by apply kept_same.
  - intros m. cbn. unfold plugin_mgr_modal_active.
    pose proof (modal_active_keeps (entries (pm_registry m)) (pm_os m)) as H.
    destruct (nsr_plugins_modal_active _ _) as [[b es] o]. by apply kept_same.
  - intros m tel topo. cbn. unfold plugin_mgr_update_telemetry, nsr_plugins_update_telemetry.
    pose proof (notify_keeps (emit (telemetry_calls tel (Some topo))) (entries (pm_registry m)) (pm_os m)) as H.
    destruct (notify_all _ _ _) as [es o]. by apply kept_same.
  - intros m tui topo y x h w sh sw. cbn. unfold plugin_mgr_render.
    pose proof (render_keeps (current_mode tui) (focused_node_id tui) topo y x h w sh sw
      (entries (pm_registry m)) (pm_os m)) as H.
    destruct (nsr_plugins_render _ _ _ _ _ _ _ _ _ _ _) as [[ds es] o]. by apply kept_same.
  - intros m hs n max_out. cbn. unfold plugin_mgr_render_hops, nsr_plugins_render_hops.
    pose proof (render_hops_keeps (emit (render_hops_calls hs n)) (entries (pm_registry m)) [] max_out (pm_os m)) as H.
    split_if; [apply kept_same, keeps_all|].
    destruct (render_hops_loop _ _ _ _ _) as [[es out] o]. by apply kept_same.
Qed.
