(* ===== verification/TreeOrder.v ===== *)
(** * Order of the topology tree (src/ui/tui.c, the data part of render_tree)

    The tree view groups the active nodes by target and sorts every group by TTL
    with an insertion sort in place; branch marks need to know which node of a TTL
    comes last.  A pointer to a node is its index in the node array.  The sort is
    proved equal to a reference definition ([insertion_sort_buckets]) and the view
    complete ([tree_shows_every_node]). *)

From Stdlib Require Import Sorted.
From stdpp Require Import sets.
From S2P Require Import Prelude CFloat Telemetry HopAlias Topology.

Definition NSR_MAX_TARGETS : nat := 8.

(** The array [targets]: the targets of the active nodes in the order of their
    first node, at most eight. *)
Definition add_target (targets : list cstr) (n : nsr_topology_node_t) : list cstr :=
  if negb (n_active n) then targets
  else if existsb (fun t => streq t (n_target_ip n)) targets then targets
  else if (length targets <? NSR_MAX_TARGETS)%nat then targets ++ [strncpy 47 (n_target_ip n)]
  else targets.

Definition collect_targets (topo : nsr_topology_state_t) : list cstr := foldl add_target [] (nodes topo).

(** The array [tnodes]; [i] is the index of the first node of the list. *)
Fixpoint select_nodes (i : nat) (ns : list nsr_topology_node_t) (target : cstr) : list nat :=
  match ns with
  | [] => []
  | n :: ns' =>
      if n_active n && streq (n_target_ip n) target
      then i :: select_nodes (S i) ns' target else select_nodes (S i) ns' target
  end.

(** ** The insertion sort *)

Section Sort.
  Context (ttl : nat -> Z).

(** [while (j >= 0 && tnodes[j]->ttl > key->ttl)] with [k] for [j + 1]: the array
    and the final [k]. *)
Fixpoint shift_loop (a : list nat) (key : nat) (k : nat) : list nat * nat :=
  match k with
  | O => (a, O)
  | S j =>
      match a !! j with
      | Some x => if ttl key <? ttl x then shift_loop (<[k := x]> a) key j else (a, k)
      | None => (a, k)
      end
  end.

Definition insert_step (a : list nat) (i : nat) : list nat :=
  match a !! i with
  | Some key => let '(a, k) := shift_loop a key i in <[k := key]> a
  | None => a
  end.

Definition insertion_sort (a : list nat) : list nat := foldl insert_step a (seq 1 (length a - 1)).

(** The reference: one bucket per TTL, in order, each in the original order. *)
Definition buckets (lo n : Z) (l : list nat) : list nat :=
  concat (map (fun t => List.filter (fun x => ttl x =? t) l) (seqZ lo n)).

Lemma shift_loop_spec P x R key :
  exists P1 P2, P = P1 ++ P2 /\ Forall (fun y => ttl key < ttl y) P2 /\
    (forall y, last P1 = Some y -> ttl y <= ttl key) /\
    (let '(a, k) := shift_loop (P ++ x :: R) key (length P) in <[k := key]> a) = P1 ++ key :: P2 ++ R.
Proof.
  revert x R. induction P as [|y P IH] using rev_ind; intros x R.
  - exists [], []. cbn. split_and!; [done|constructor|done|done].
  - rewrite length_app, Nat.add_1_r. cbn [shift_loop].
    rewrite lookup_app_l by (rewrite length_app; simpl; lia).
    rewrite list_lookup_middle by done. split_if; bool_facts.
    + destruct (IH y (y :: R)) as (P1 & P2 & -> & H2 & H1 & E).
      exists P1, (P2 ++ [y]). split; [by rewrite app_assoc|].
      split; [apply Forall_app_2; [done|]; by constructor|]. split; [done|].
      rewrite <- !app_assoc. cbn [app]. rewrite <- E.
      replace (<[S (length (P1 ++ P2)) := y]> (P1 ++ P2 ++ y :: x :: R)) with ((P1 ++ P2) ++ y :: y :: R); [done|].
      rewrite app_assoc. rewrite insert_app_r_alt by lia. by rewrite Nat.sub_succ_l, Nat.sub_diag by lia.
    + exists (P ++ [y]), []. rewrite app_nil_r. split; [done|]. split; [constructor|].
      split; [intros z; rewrite last_snoc; intros [= <-]; lia|].
      rewrite insert_app_r_alt by (rewrite length_app; simpl; lia).
      rewrite length_app. simpl length. by rewrite Nat.add_1_r, Nat.sub_diag.
Qed.

Lemma buckets_app lo n m l : 0 <= n -> 0 <= m -> buckets lo (n + m) l = buckets lo n l ++ buckets (lo + n) m l.
Proof. intros. unfold buckets. by rewrite seqZ_app, map_app, concat_app. Qed.

Lemma buckets_elem lo n l x : x ∈ buckets lo n l -> lo <= ttl x < lo + n.
Proof.
  unfold buckets. rewrite list_elem_of_In, in_concat. intros (b & Hb & Hx).
  apply in_map_iff in Hb as (t & <- & Ht). apply filter_In in Hx as [_ Hx]. bool_facts.
  apply list_elem_of_In, elem_of_seqZ in Ht. lia.
Qed.

Lemma buckets_sorted lo n l : StronglySorted (fun x y => ttl x <= ttl y) (buckets lo n l).
Proof.
  destruct (decide (0 <= n)) as [Hn|Hn]; [|unfold buckets; rewrite seqZ_nil by lia; constructor].
  revert lo. pattern n. apply natlike_ind; [intros; constructor| |done].
  intros m Hm IH lo. replace (Z.succ m) with (1 + m) by lia. rewrite buckets_app by lia.
  assert (Hh : forall x, x ∈ buckets lo 1 l -> ttl x = lo) by (intros x Hx; apply buckets_elem in Hx; lia).
  assert (Ht : forall x, x ∈ buckets (lo + 1) m l -> lo < ttl x) by (intros x Hx; apply buckets_elem in Hx; lia).
  specialize (IH (lo + 1)). induction (buckets lo 1 l) as [|a b IHb]; [done|]. cbn [app]. constructor.
  - apply IHb. intros x Hx. apply Hh. by right.
  - apply Forall_forall. intros x Hx. rewrite (Hh a) by (by left).
    apply elem_of_app in Hx as [Hx|Hx]; [rewrite (Hh x) by (by right); lia|]. specialize (Ht x Hx). lia.
Qed.

(** A node comes after all nodes of its TTL and before those of greater TTL. *)
Lemma buckets_snoc lo n l x :
  lo <= ttl x < lo + n ->
  buckets lo n (l ++ [x]) = buckets lo (ttl x + 1 - lo) l ++ x :: buckets (ttl x + 1) (lo + n - (ttl x + 1)) l.
Proof.
  intros Hx.
  assert (Hsame : forall a k, ~ (a <= ttl x < a + k) -> buckets a k (l ++ [x]) = buckets a k l).
  { intros a k Ha. unfold buckets. f_equal. apply map_ext_in. intros t Ht.
    apply list_elem_of_In, elem_of_seqZ in Ht. rewrite List.filter_app. cbn [List.filter].
    rewrite (proj2 (Z.eqb_neq _ _)) by lia. apply app_nil_r. }
  replace n with ((ttl x - lo) + (1 + (lo + n - (ttl x + 1)))) at 1 by lia.
  rewrite !buckets_app by lia. replace (ttl x + 1 - lo) with ((ttl x - lo) + 1) by lia.
  rewrite buckets_app by lia. replace (lo + (ttl x - lo)) with (ttl x) by lia.
  rewrite (Hsame lo), (Hsame (ttl x + 1)) by lia.
  replace (buckets (ttl x) 1 (l ++ [x])) with (buckets (ttl x) 1 l ++ [x]); [by rewrite <- !app_assoc|].
  unfold buckets. rewrite seqZ_cons, (seqZ_nil _ (Z.pred 1)) by lia. cbn [map concat].
  rewrite !app_nil_r, List.filter_app. cbn [List.filter]. by rewrite Z.eqb_refl.
Qed.

(** A list splits in only one way into small and great elements. *)
Lemma split_unique (k : Z) A B A' B' :
  A ++ B = A' ++ B' -> Forall (fun y => ttl y <= k) A -> Forall (fun y => ttl y <= k) A' ->
  Forall (fun y => k < ttl y) B -> Forall (fun y => k < ttl y) B' -> A = A' /\ B = B'.
Proof.
  revert A'. induction A as [|a A IH]; intros A' E HA HA' HB HB'; destruct A' as [|a' A']; cbn [app] in E.
  - done.
  - subst B. inversion HB. inversion HA'. lia.
  - subst B'. inversion HB'. inversion HA. lia.
  - injection E as -> E. inversion_clear HA. inversion_clear HA'. by destruct (IH A' E) as [-> ->].
Qed.

Lemma sorted_last_bound k P y :
  StronglySorted (fun x y => ttl x <= ttl y) P -> last P = Some y -> ttl y <= k ->
  Forall (fun x => ttl x <= k) P.
Proof.
  intros Hs Hl Hk. induction Hs as [|x P Hs IH Hx]; [constructor|].
  destruct P as [|z P]; [injection Hl as ->; by constructor|].
  assert (Forall (fun x => ttl x <= k) (z :: P)) as H by (by apply IH).
  constructor; [|done]. inversion_clear Hx. inversion_clear H. lia.
Qed.

Lemma sorted_prefix P Q : StronglySorted (fun x y => ttl x <= ttl y) (P ++ Q) ->
  StronglySorted (fun x y => ttl x <= ttl y) P.
Proof.
  induction P as [|x P IH]; intros H; [constructor|]. inversion_clear H as [|? ? Hs Hx].
  constructor; [by apply IH|]. by apply Forall_app in Hx as [? _].
Qed.

(** One round inserts the next node into the sorted prefix. *)
Lemma insert_step_spec Q key R :
  0 <= ttl key < 256 ->
  insert_step (buckets 0 256 Q ++ key :: R) (length (buckets 0 256 Q))
  = buckets 0 256 (Q ++ [key]) ++ R.
Proof.
  intros Hk. unfold insert_step. rewrite list_lookup_middle by done.
  destruct (shift_loop_spec (buckets 0 256 Q) key R key) as (P1 & P2 & EP & H2 & H1 & ->).
  rewrite buckets_snoc, Z.add_0_l, Z.sub_0_r by lia.
  pose proof (buckets_sorted 0 256 Q) as Hs. rewrite EP in Hs. apply sorted_prefix in Hs.
  assert (Forall (fun y => ttl y <= ttl key) P1) as HP1.
  { destruct (last P1) as [y|] eqn:E; [eapply sorted_last_bound; eauto|].
    apply last_None in E as ->. constructor. }
  assert (EB : buckets 0 256 Q = buckets 0 (ttl key + 1) Q ++ buckets (ttl key + 1) (256 - (ttl key + 1)) Q).
  { rewrite <- (buckets_app 0 (ttl key + 1)) by lia. f_equal. lia. }
  rewrite EP in EB.
  destruct (split_unique (ttl key) _ _ _ _ EB) as [-> ->]; auto.
  - apply Forall_forall. intros y Hy. apply buckets_elem in Hy. lia.
  - apply Forall_forall. intros y Hy. apply buckets_elem in Hy. lia.
  - by rewrite <- app_assoc.
Qed.

Lemma buckets_length l : Forall (fun x => 0 <= ttl x < 256) l -> length (buckets 0 256 l) = length l.
Proof.
  induction l as [|x l IH] using rev_ind; intros H; [by vm_compute|].
  apply Forall_app in H as [Hl Hx]. inversion_clear Hx. specialize (IH Hl).
  assert (E : buckets 0 256 l = buckets 0 (ttl x + 1) l ++ buckets (ttl x + 1) (256 - (ttl x + 1)) l).
  { rewrite <- (buckets_app 0 (ttl x + 1)) by lia. f_equal. lia. }
  rewrite buckets_snoc, Z.add_0_l, Z.sub_0_r by lia. rewrite E in IH. rewrite !length_app in *.
  cbn [length] in *. lia.
Qed.

Lemma insertion_rounds l R i :
  Forall (fun x => 0 <= ttl x < 256) (l ++ R) -> i = length l ->
  foldl insert_step (buckets 0 256 l ++ R) (seq i (length R)) = buckets 0 256 (l ++ R).
Proof.
  revert l i. induction R as [|x R IH]; intros l i H ->; [by rewrite !app_nil_r|].
  cbn [length seq foldl]. pose proof (proj1 (Forall_app _ _ _) H) as [Hl Hr]. inversion_clear Hr.
  rewrite <- (buckets_length l) by done. rewrite insert_step_spec by done. rewrite buckets_length by done.
  replace (l ++ x :: R) with ((l ++ [x]) ++ R) in * by (by rewrite <- app_assoc).
  apply IH; [done|]. rewrite length_app. simpl. lia.
Qed.

Lemma insertion_sort_eq l : Forall (fun x => 0 <= ttl x < 256) l -> insertion_sort l = buckets 0 256 l.
Proof.
  intros H. unfold insertion_sort. destruct l as [|x l]; [by vm_compute|].
  inversion_clear H as [|? ? Hx Hl]. cbn [length]. rewrite Nat.sub_1_r, Nat.pred_succ.
  replace (x :: l) with (buckets 0 256 [x] ++ l) at 1.
  - apply (insertion_rounds [x]); [|done]. by constructor.
  - change [x] with ([] ++ [x]). rewrite buckets_snoc by lia.
    assert (Hnil : forall lo n, buckets lo n [] = []).
    { intros lo n. unfold buckets. by induction (seqZ lo n). }
    by rewrite !Hnil.
Qed.

(** ** Which node of a TTL comes last *)

Definition bump (counts : list Z) (t : Z) : list Z :=
  <[Z.to_nat t := default 0 (counts !! Z.to_nat t) + 1]> counts.

Definition ttl_counts (l : list nat) : list Z := foldl (fun c x => bump c (ttl x)) (replicate 256 0) l.

(** The array [ttl_seen] runs along; [g] is the number of nodes already in
    [g_tree_nodes]. *)
Fixpoint mark_last (counts seen : list Z) (l : list nat) (g : nat) : list (nat * bool) :=
  match l with
  | [] => []
  | x :: l' =>
      if (g <? 1024)%nat then
        let at_ttl c := default 0 (c !! Z.to_nat (ttl x)) in
        (x, at_ttl seen =? at_ttl counts - 1) :: mark_last counts (bump seen (ttl x)) l' (S g)
      else []
  end.

Definition occurrences (t : Z) (l : list nat) : Z := Z.of_nat (length (List.filter (fun x => ttl x =? t) l)).

Lemma bump_lookup c t u :
  length c = 256%nat -> 0 <= t < 256 -> 0 <= u < 256 ->
  default 0 (bump c t !! Z.to_nat u) = default 0 (c !! Z.to_nat u) + (if t =? u then 1 else 0).
Proof.
  intros Hc Ht Hu. unfold bump. split_if; bool_facts.
  - subst u. by rewrite list_lookup_insert_eq by lia.
  - rewrite list_lookup_insert_ne by lia. lia.
Qed.

Lemma occurrences_cons t x l : occurrences t (x :: l) = (if ttl x =? t then 1 else 0) + occurrences t l.
Proof. unfold occurrences. cbn [List.filter]. split_if; cbn [length]; lia. Qed.

Lemma counts_spec l c u :
  length c = 256%nat -> Forall (fun x => 0 <= ttl x < 256) l -> 0 <= u < 256 ->
  default 0 (foldl (fun c x => bump c (ttl x)) c l !! Z.to_nat u) = default 0 (c !! Z.to_nat u) + occurrences u l.
Proof.
  revert c. induction l as [|x l IH]; intros c Hc Hl Hu; cbn [foldl]; [unfold occurrences; cbn; lia|].
  inversion_clear Hl. rewrite IH, bump_lookup, occurrences_cons by
    (try done; unfold bump; rewrite ?length_insert; done). lia.
Qed.

Lemma occurrences_nonneg t l : 0 <= occurrences t l.
Proof. unfold occurrences. lia. Qed.

Lemma occurrences_zero t l : occurrences t l = 0 <-> Forall (fun x => ttl x <> t) l.
Proof.
  induction l as [|x l IH]; [split; [constructor|done]|]. rewrite occurrences_cons, Forall_cons.
  pose proof (occurrences_nonneg t l). split_if; bool_facts; rewrite <- ?IH; intuition lia.
Qed.

(** The mark of a node says whether a node of its TTL follows in the group. *)
Lemma mark_last_spec counts seen l g :
  length seen = 256%nat -> Forall (fun x => 0 <= ttl x < 256) l -> (g + length l <= 1024)%nat ->
  (forall u, 0 <= u < 256 -> default 0 (counts !! Z.to_nat u) = default 0 (seen !! Z.to_nat u) + occurrences u l) ->
  map fst (mark_last counts seen l g) = l /\
  forall i x b, mark_last counts seen l g !! i = Some (x, b) ->
    b = true <-> Forall (fun y => ttl y <> ttl x) (drop (S i) l).
Proof.
  revert seen g. induction l as [|x l IH]; intros seen g Hs Hl Hg Hc; cbn [mark_last]; [done|].
  rewrite (proj2 (Nat.ltb_lt _ _)) by (simpl in Hg; lia). inversion_clear Hl as [|? ? Hx Hl'].
  destruct (IH (bump seen (ttl x)) (S g)) as [IH1 IH2].
  - unfold bump. by rewrite length_insert.
  - done.
  - simpl in Hg. lia.
  - intros u Hu. rewrite Hc, bump_lookup, occurrences_cons by done. lia.
  - cbn [map fst]. split; [by rewrite IH1|]. intros [|i] y b; cbn [lookup list_lookup drop].
    + intros [= <- <-]. rewrite <- occurrences_zero, Z.eqb_eq, Hc, occurrences_cons, Z.eqb_refl by done.
      rewrite drop_0. lia.
    + apply IH2.
Qed.

End Sort.

(** ** The layout of the tree *)

Definition node_ttl (topo : nsr_topology_state_t) (i : nat) : Z :=
  match nodes topo !! i with Some n => n_ttl n | None => 0 end.

(** The targets with their sorted nodes. *)
Definition tree_groups (topo : nsr_topology_state_t) : list (cstr * list nat) :=
  map (fun t => (t, insertion_sort (node_ttl topo) (select_nodes 0 (nodes topo) t))) (collect_targets topo).

(** A line of the tree: the heading of a target or a node with its branch mark. *)
Inductive tree_line :=
| TargetLine (target : cstr)
| NodeLine (node : nat) (is_last : bool).

(** The lines of the groups; [g] is the number of nodes already listed. *)
Fixpoint group_lines (ttl : nat -> Z) (groups : list (cstr * list nat)) (g : nat) : list tree_line :=
  match groups with
  | [] => []
  | (t, ns) :: groups' =>
      let marks := mark_last ttl (ttl_counts ttl ns) (replicate 256 0) ns g in
      TargetLine t :: map (fun '(n, b) => NodeLine n b) marks ++ group_lines ttl groups' (g + length marks)
  end.

Definition tree_lines (topo : nsr_topology_state_t) : list tree_line :=
  group_lines (node_ttl topo) (tree_groups topo) 0.

(** The array [g_tree_nodes] the lines leave. *)
Definition line_node (l : tree_line) : option nat :=
  match l with NodeLine n _ => Some n | TargetLine _ => None end.

Definition tree_nodes (ls : list tree_line) : list nat := omap line_node ls.

(** ** Every active node appears once *)

Definition active_index (topo : nsr_topology_state_t) (i : nat) : Prop :=
  exists n, nodes topo !! i = Some n /\ n_active n = true.

(** The widths of the C fields: an 8-bit TTL and a 48-byte target. *)
Definition node_fits (n : nsr_topology_node_t) : Prop :=
  0 <= n_ttl n < 256 /\ (length (n_target_ip n) <= 47)%nat.

Definition topo_fits (topo : nsr_topology_state_t) : Prop :=
  length (nodes topo) = 1024%nat /\ Forall node_fits (nodes topo).

Lemma node_ttl_range topo i : topo_fits topo -> 0 <= node_ttl topo i < 256.
Proof.
  intros [_ H]. unfold node_ttl. destruct (nodes topo !! i) as [n|] eqn:E; [|lia].
  rewrite Forall_lookup in H. by destruct (H i n E).
Qed.

Lemma select_elem ns t i j :
  j ∈ select_nodes i ns t <->
  exists n, (i <= j)%nat /\ ns !! (j - i)%nat = Some n /\ n_active n = true /\ n_target_ip n = t.
Proof.
  revert i. induction ns as [|n ns IH]; intros i; cbn [select_nodes].
  - split; [by intros ?%not_elem_of_nil|]. by intros (n & _ & ? & _).
  - assert (Hrest : j ∈ select_nodes (S i) ns t <-> exists m, (i < j)%nat /\ (n :: ns) !! (j - i)%nat = Some m
        /\ n_active m = true /\ n_target_ip m = t).
    { rewrite IH. split; intros (m & Hle & Hm); exists m; (split; [lia|]);
        replace (j - i)%nat with (S (j - S i)) in * by lia; exact Hm. }
    destruct (n_active n && streq (n_target_ip n) t) eqn:E.
    + rewrite elem_of_cons, Hrest. bool_facts. apply streq_true in H0. split.
      * intros [->|(m & ? & ?)]; [|exists m; split; [lia|done]]. exists n. rewrite Nat.sub_diag. split_and!; done.
      * intros (m & Hle & Hm). destruct (decide (j = i)) as [->|]; [by left|]. right. exists m. split; [lia|done].
    + rewrite Hrest. split; intros (m & Hle & Hm & Ha & Ht); exists m; (split; [|done]); [lia|].
      destruct (decide (j = i)) as [->|]; [|lia]. rewrite Nat.sub_diag in Hm. injection Hm as <-.
      rewrite Ha in E. cbn in E. by apply streq_false in E.
Qed.

Lemma select_NoDup ns t i : NoDup (select_nodes i ns t).
Proof.
  revert i. induction ns as [|n ns IH]; intros i; cbn [select_nodes]; [constructor|]. split_if; [|done].
  constructor; [|done]. rewrite select_elem. intros (m & ? & _). lia.
Qed.

Lemma buckets_perm ttl l : Forall (fun x => 0 <= ttl x < 256) l -> buckets ttl 0 256 l ≡ₚ l.
Proof.
  induction l as [|x l IH] using rev_ind; intros H; [by vm_compute|].
  apply Forall_app in H as [Hl Hx]. inversion_clear Hx. rewrite buckets_snoc by lia.
  rewrite Z.add_0_l, Z.sub_0_r.
  assert (E : buckets ttl 0 256 l = buckets ttl 0 (ttl x + 1) l ++ buckets ttl (ttl x + 1) (256 - (ttl x + 1)) l).
  { rewrite <- (buckets_app ttl 0 (ttl x + 1)) by lia. f_equal. lia. }
  rewrite <- Permutation_middle, <- E, IH by done. apply Permutation_cons_append.
Qed.

(** The targets found are distinct targets of active nodes; none is left out while
    there are at most eight. *)
Lemma collect_spec ns ts acc :
  Forall node_fits ns -> NoDup acc -> acc ⊆ ts -> (length ts <= 8)%nat ->
  (forall n, n ∈ ns -> n_active n = true -> n_target_ip n ∈ ts) ->
  let r := foldl add_target acc ns in
  NoDup r /\ acc ⊆ r /\ r ⊆ ts /\ forall n, n ∈ ns -> n_active n = true -> n_target_ip n ∈ r.
Proof.
  revert acc. induction ns as [|n ns IH]; intros acc Hf Hnd Hsub Hts Hall; cbn [foldl].
  { split_and!; try done. by intros n ?%not_elem_of_nil. }
  inversion_clear Hf as [|? ? [_ Hlen] Hf'].
  assert (Hadd : NoDup (add_target acc n) /\ acc ⊆ add_target acc n /\ add_target acc n ⊆ ts /\
    (n_active n = true -> n_target_ip n ∈ add_target acc n)).
  { unfold add_target. destruct (n_active n) eqn:Ea; cbn [negb]; [|done].
    destruct (existsb _ acc) eqn:Ex.
    - split_and!; try done. intros _. apply existsb_exists in Ex as (t & Ht & Hs).
      apply streq_true in Hs as ->. by apply list_elem_of_In.
    - assert (Hni : n_target_ip n ∉ acc).
      { intros Hin. apply list_elem_of_In in Hin. apply not_true_iff_false in Ex. apply Ex, existsb_exists.
        exists (n_target_ip n). split; [done|]. by apply streq_true. }
      assert (Ht : n_target_ip n ∈ ts) by (apply Hall; [by left|done]).
      assert (Hle : (length (n_target_ip n :: acc) <= length ts)%nat).
      { apply submseteq_length, NoDup_submseteq; [by constructor|]. intros t [ -> |?]%elem_of_cons; auto. }
      unfold strncpy. rewrite (take_ge (n_target_ip n)) by lia. unfold NSR_MAX_TARGETS. simpl in Hle.
      rewrite (proj2 (Nat.ltb_lt _ _)) by lia. split_and!.
      + apply NoDup_app. split_and!; [done| |by apply NoDup_singleton]. by intros t Hti -> %list_elem_of_singleton.
      + intros t Hti. apply elem_of_app. by left.
      + intros t [?| -> %list_elem_of_singleton]%elem_of_app; auto.
      + intros _. apply elem_of_app. right. by apply list_elem_of_singleton. }
  destruct Hadd as (H1 & H2 & H3 & H4).
  destruct (IH (add_target acc n) Hf' H1 H3 Hts) as (R1 & R2 & R3 & R4).
  { intros m Hm. apply Hall. by right. }
  split_and!; try done; [set_solver|]. intros m [ -> |Hm]%elem_of_cons Ha; auto.
Qed.

Lemma tree_nodes_app a b : tree_nodes (a ++ b) = tree_nodes a ++ tree_nodes b.
Proof. apply omap_app. Qed.

Lemma tree_nodes_marks l : tree_nodes (map (fun '(n, b) => NodeLine n b) l) = map fst l.
Proof. induction l as [|[n b] l IH]; [done|]. unfold tree_nodes in *. cbn. by rewrite IH. Qed.

Lemma replicate_zero u : 0 <= u < 256 -> default 0 (replicate 256 0 !! Z.to_nat u) = 0.
Proof. intros. by rewrite lookup_replicate_2 by lia. Qed.

Lemma group_marks ttl ns g :
  (forall x, 0 <= ttl x < 256) -> (g + length ns <= 1024)%nat ->
  let marks := mark_last ttl (ttl_counts ttl ns) (replicate 256 0) ns g in
  map fst marks = ns /\
  forall i x b, marks !! i = Some (x, b) -> b = true <-> Forall (fun y => ttl y <> ttl x) (drop (S i) ns).
Proof.
  intros Httl Hg. apply mark_last_spec; [done|by apply Forall_forall|done|].
  intros u Hu. unfold ttl_counts. apply counts_spec; [done|by apply Forall_forall|done].
Qed.

Lemma group_lines_nodes ttl groups g :
  (forall x, 0 <= ttl x < 256) -> (g + length (concat (map snd groups)) <= 1024)%nat ->
  tree_nodes (group_lines ttl groups g) = concat (map snd groups).
Proof.
  intros Httl. revert g. induction groups as [|[t ns] groups IH]; intros g Hg; [done|].
  cbn [map concat snd group_lines] in *. rewrite length_app in Hg.
  destruct (group_marks ttl ns g Httl ltac:(lia)) as [E _]. cbn zeta in *.
  change (tree_nodes (TargetLine t :: ?l)) with (tree_nodes l).
  rewrite tree_nodes_app, tree_nodes_marks, E, IH; [done|].
  rewrite <- (length_map fst), E. lia.
Qed.

(** The nodes of all groups. *)
Lemma groups_perm topo ts :
  topo_fits topo -> (length ts <= 8)%nat ->
  (forall n, n ∈ nodes topo -> n_active n = true -> n_target_ip n ∈ ts) ->
  NoDup (concat (map snd (tree_groups topo))) /\
  forall i, i ∈ concat (map snd (tree_groups topo)) <-> active_index topo i.
Proof.
  intros Hf Hts Hall. pose proof Hf as [Hl Hn].
  destruct (collect_spec (nodes topo) ts [] Hn ltac:(constructor) ltac:(set_solver) Hts Hall) as (Hnd & _ & _ & Hin).
  fold (collect_targets topo) in Hnd, Hin.
  set (sel t := insertion_sort (node_ttl topo) (select_nodes 0 (nodes topo) t)).
  assert (Hsel : forall t, NoDup (sel t) /\ forall i, i ∈ sel t <->
    exists n, nodes topo !! i = Some n /\ n_active n = true /\ n_target_ip n = t).
  { intros t. unfold sel. rewrite insertion_sort_eq by (apply Forall_forall; auto using node_ttl_range).
    assert (buckets (node_ttl topo) 0 256 (select_nodes 0 (nodes topo) t) ≡ₚ select_nodes 0 (nodes topo) t) as Hp
      by (apply buckets_perm, Forall_forall; auto using node_ttl_range).
    rewrite Hp. split; [apply select_NoDup|]. intros i. rewrite Hp, select_elem, Nat.sub_0_r.
    split; intros (n & H); exists n; [tauto|]. split; [lia|tauto]. }
  assert (Emap : map snd (tree_groups topo) = map sel (collect_targets topo)).
  { unfold tree_groups. by rewrite map_map. }
  rewrite Emap. split.
  - clear Hin Emap. induction (collect_targets topo) as [|t l IH]; [constructor|]. cbn [map concat].
    inversion_clear Hnd as [|? ? Hni Hnd']. apply NoDup_app. split_and!; [apply Hsel| |by apply IH].
    intros i Hi Hc. apply Hsel in Hi as (n & En & _ & Et).
    apply list_elem_of_In, in_concat in Hc as (b & Hb & Hib).
    apply in_map_iff in Hb as (t' & <- & Ht'). apply list_elem_of_In, Hsel in Hib as (n' & En' & _ & Et').
    apply Hni. rewrite En in En'. injection En' as <-. rewrite <- Et, Et'. by apply list_elem_of_In.
  - intros i. rewrite list_elem_of_In, in_concat. split.
    + intros (b & Hb & Hib). apply in_map_iff in Hb as (t & <- & _).
      apply list_elem_of_In, Hsel in Hib as (n & En & Ea & _). by exists n.
    + intros (n & En & Ea). exists (sel (n_target_ip n)). split.
      * apply in_map_iff. exists (n_target_ip n). split; [done|]. apply list_elem_of_In, Hin; [|done].
        by eapply list_elem_of_lookup_2.
      * apply list_elem_of_In, Hsel. by exists n.
Qed.

Lemma active_index_bound topo i : active_index topo i -> (i < length (nodes topo))%nat.
Proof. intros (n & E & _). by eapply lookup_lt_Some. Qed.

Lemma tree_nodes_spec topo ts :
  topo_fits topo -> (length ts <= 8)%nat ->
  (forall n, n ∈ nodes topo -> n_active n = true -> n_target_ip n ∈ ts) ->
  tree_nodes (tree_lines topo) = concat (map snd (tree_groups topo)) /\
  NoDup (tree_nodes (tree_lines topo)) /\ (length (tree_nodes (tree_lines topo)) <= 1024)%nat /\
  forall i, i ∈ tree_nodes (tree_lines topo) <-> active_index topo i.
Proof.
  intros Hf Hts Hall. destruct (groups_perm topo ts Hf Hts Hall) as [Hnd Hin].
  assert (Hlen : (length (concat (map snd (tree_groups topo))) <= 1024)%nat).
  { etrans; [apply (submseteq_length _ (seq 0 1024))|by rewrite length_seq].
    apply NoDup_submseteq; [done|]. intros i Hi. apply Hin, active_index_bound in Hi. destruct Hf as [Hl _].
    apply elem_of_seq. lia. }
  assert (E : tree_nodes (tree_lines topo) = concat (map snd (tree_groups topo))).
  { apply group_lines_nodes; [auto using node_ttl_range|done]. }
  rewrite E. auto.
Qed.

(** C37: the insertion sort of the tree view, which moves nodes within its array, is
    a stable sort by TTL: its result is, TTL by TTL from 0 to 255, the nodes of
    that TTL in the order in which they were. *)
Theorem insertion_sort_buckets ttl l :
  Forall (fun x => 0 <= ttl x < 256) l -> insertion_sort ttl l = buckets ttl 0 256 l.
Proof. exact (insertion_sort_eq ttl l). Qed.


Lemma insertion_sort_buckets_witness :
  insertion_sort (fun n => Z.of_nat (n mod 3)) [5; 3; 4; 0; 1]%nat = [3; 0; 4; 1; 5]%nat.
Proof.
  rewrite (insertion_sort_buckets (fun n => Z.of_nat (n mod 3)) [5; 3; 4; 0; 1]%nat).
  - vm_compute. reflexivity.
  - repeat first [apply Forall_nil_2 | apply Forall_cons_2]; vm_compute; (split; [discriminate|reflexivity]).
Defined.

(** Three nodes of two targets. *)
Definition demo_nodes : list nsr_topology_node_t :=
  [new_node 1 (str "10.0.0.1") 2 (str "a") false; new_node 2 (str "10.0.0.2") 1 (str "b") false;
   new_node 3 (str "10.0.0.3") 1 (str "a") true].

Definition demo_topo : nsr_topology_state_t :=
  with_nodes nsr_topology_init (demo_nodes ++ replicate 1021 zero_node).

Lemma demo_topo_fits : topo_fits demo_topo.
Proof.
  split; [vm_compute; reflexivity|]. apply Forall_app_2.
  - repeat first [apply Forall_nil_2 | apply Forall_cons_2]; (split; [cbn; lia|vm_compute; lia]).
  - apply Forall_replicate. split; [cbn; lia|vm_compute; lia].
Qed.

Lemma demo_topo_targets n :
  n ∈ nodes demo_topo -> n_active n = true -> n_target_ip n ∈ [str "a"; str "b"].
Proof.
  cbn [demo_topo with_nodes nodes]. rewrite elem_of_app, elem_of_replicate. intros [Hn|[-> _]] Ha; [|discriminate].
  unfold demo_nodes in Hn. rewrite !elem_of_cons in Hn.
  destruct Hn as [ -> |[ -> |[ -> |Hn]]]; [..|by apply not_elem_of_nil in Hn];
    rewrite !elem_of_cons; vm_compute; auto.
Qed.

