(* ===== verification/TuiView.v ===== *)
(** * Drawing the user interface (src/ui/tui.c, render part)

    One frame: [nsr_tui_render] with the four views, the footer and the notice.  A
    render function gives the ncurses calls it makes, the interface state with the
    cursors and scroll offsets it has adjusted, and the plugin manager.  Plugins
    are reached through the interface [PluginManager].  The big-integer library
    that formats the uptime is the parameter [uptime_text] ([None]: one of the
    allocations failed; [Some None]: no text).  Arguments are never null. *)

From S2P Require Import Prelude CFloat JsonBuf JsonScan JsonDoc JsonRpc RpcConn Telemetry Topology KeySlots.
From S2P Require Import PluginConfig PluginDocs PluginHost Draw TuiState PluginRender PluginMgr TreeOrder.

(** ** Pieces *)

Definition health_pair_for_node (n : nsr_topology_node_t) : Z :=
  let score := nsr_health_score (n_health n) in
  if SFltb score (f32_lit 15 100) then CP_HEALTH_GOOD
  else if SFltb score (f32_lit 35 100) then CP_HEALTH_DEGRADED
  else if SFltb score (f32_lit 60 100) then CP_HEALTH_POOR
  else if SFltb score (f32_lit 85 100) then CP_HEALTH_CRITICAL
  else CP_HEALTH_UNREACHABLE.

Definition styled (a : list attribute) (ds : list draw) : list draw := [AttrOn a] ++ ds ++ [AttrOff a].

Definition title_bar (title : cstr) : list draw :=
  styled [COLOR_PAIR CP_ACCENT; A_BOLD] [Print 0 2 title].

Definition frozen_mark (sc : screen) : list draw :=
  styled [COLOR_PAIR CP_HEALTH_CRITICAL; A_BOLD] [Print 0 (max_x sc - 14) (str "[FROZEN]")].

Definition view_head (sc : screen) (title : cstr) (frz : bool) : list draw :=
  [Erase] ++ title_bar title ++ (if frz then frozen_mark sc else []).

(** [%d] of an unsigned 32-bit value. *)
Definition fmt_d (z : Z) : cstr := fmt_lld (s32 z).

(** ** Cursors and scroll offsets *)

(** The three tests that bring a cursor into [0, total). *)
Definition clamp_cursor (cursor total : Z) : Z :=
  let c := if cursor <? 0 then 0 else cursor in
  let c := if total <=? c then total - 1 else c in
  if c <? 0 then 0 else c.

(** The scroll offset follows the cursor. *)
Definition follow (cursor scroll avail : Z) : Z :=
  let s := if cursor <? scroll then cursor else scroll in
  let s := if s + avail <=? cursor then cursor - avail + 1 else s in
  if s <? 0 then 0 else s.

Definition grid_scroll (cursor_row scroll avail rows : Z) : Z :=
  let s := follow cursor_row scroll avail in
  let s := if (avail <? rows) && (rows - avail <? s) then rows - avail else s in
  if s <? 0 then 0 else s.

(** ** Footer and notice *)

Definition entry_is_modal (e : nsr_plugin_entry_t) : bool :=
  active e &&
  match last_render_resp e with
  | [] => false
  | resp =>
      match nsr_json_obj_get resp (str "result") with
      | Some (res, _) => default false (bool_member res "is_modal")
      | None => false
      end
  end.

Definition sniffer_on (es : list nsr_plugin_entry_t) : bool :=
  foldl (fun b e => if streq (e_name e) (str "sniffer") then e_enabled e else b) false es.

(** ["[%c] text"] with the key that triggers [c]. *)
Definition key_hint (t : nsr_tui_state_t) (c : ascii) (text : string) : cstr :=
  str "[" ++ [key_mgr_label_char (keys t) c] ++ str text.

Definition footer_text (t : nsr_tui_state_t) (es : list nsr_plugin_entry_t) (sc : screen) : cstr :=
  let move := if max_x sc <? 110 then [] else str "  [h/j/k/l] Move  [Enter] Focus" in
  let buf := take 511 (key_hint t "n" "] Normal  " ++ key_hint t "g" "] Grid  " ++ key_hint t "m" "] Tools  "
               ++ key_hint t "t" "] Tree" ++ move ++ str "  " ++ key_hint t "p" "] Freeze  "
               ++ key_hint t "q" "] Quit") in
  if sniffer_on es && (50 <? max_x sc - Z.of_nat (length buf))
  then buf ++ take (512 - length buf - 1) (str "  [a] Inspect settings  [s] Last packet  [f] Sniff")
  else buf.

Definition draw_footer (t : nsr_tui_state_t) (es : list nsr_plugin_entry_t) (sc : screen) : list draw :=
  if (max_y sc <? 1) || (max_x sc <? 4) then []
  else
    styled [COLOR_PAIR CP_HIGHLIGHT]
      (HLine (max_y sc - 1) 0 (Glyph " ") (max_x sc)
       :: if existsb entry_is_modal es then
            tui_print_clipped sc (max_y sc - 1) 2 (max_x sc - 4)
              (str "[Up/Down] Focus Field  [Left/Right] Protocol  [Enter][Enter] Apply & Close  [Esc] Cancel")
          else
            let right_w := if 22 <=? max_x sc then 20 else 0 in
            let left_w := max_x sc - right_w - 4 in
            tui_print_clipped sc (max_y sc - 1) 2 left_w (footer_text t es sc)
            ++ if 0 <? right_w then
                 tui_print_clipped sc (max_y sc - 1) (max_x sc - right_w) right_w
                   (str "[" ++ key_hint t "d" (if show_dashboard t then "] Close Settings" else "] Settings"))
               else []).

(** [now]: the result of [time]. *)
Definition draw_notice (t : nsr_tui_state_t) (sc : screen) (now : Z) : list draw * nsr_tui_state_t :=
  if bool_decide (msg t = []) || (msg_until t <=? now) then ([], with_msg t [] (msg_until t))
  else
    let w := Z.of_nat (length (msg t)) + 4 in
    let w := if max_x sc <? w then max_x sc else w in
    let w := if w <? 5 then 5 else w in
    let x := Z.max 0 (Z.quot (max_x sc - w) 2) in
    let y := Z.max 0 (Z.quot (max_y sc - 3) 2) in
    (blank_rows y x 3 w ++ draw_box sc y x 3 w None
     ++ styled [A_BOLD] [Print (y + 1) (x + 2) (take (Z.to_nat (w - 4)) (msg t))], t).

(** ** The normal view *)

Definition loss_percent (h : nsr_hop_info_t) : cfloat :=
  if sent h =? 0 then f_zero
  else f32_mul (f32_sub (f32_of_Z 1) (f32_div (f32_of_Z (recv h)) (f32_of_Z (sent h)))) (f32_of_Z 100).

Definition status_draws (row : Z) (h : nsr_hop_info_t) : list draw :=
  let name := match addr h with [] => str "Reply Received" | a => a end in
  let ms := pad_left 4 (fmt_u64 (rtt_us h / 1000)) ++ str " ms" in
  match last_status h with
  | NSR_OBS_REPLY | NSR_OBS_EXCEEDED | NSR_OBS_UNREACH =>
      styled [COLOR_PAIR CP_HEALTH_GOOD]
        [Print row 9 (if 0 <? alias_count h
                      then pad_right 21 name ++ str " +" ++ pad_right 2 (fmt_u64 (alias_count h)) ++ str " " ++ ms
                      else pad_right 25 name ++ str " " ++ ms)]
  | NSR_OBS_TIMEOUT => styled [COLOR_PAIR CP_HEALTH_CRITICAL] [Print row 9 (str "* * * Request Timed Out")]
  | _ => styled [COLOR_PAIR CP_HEALTH_DEGRADED] [Print row 9 (str "Probing...")]
  end.

Definition annotation_for (i : Z) (anns : list nsr_hop_annotation_t) : option nsr_hop_annotation_t :=
  snd <$> list_find (fun a => an_hop_idx a = i) anns.

Definition normal_row (row i : Z) (h : nsr_hop_info_t) (anns : list nsr_hop_annotation_t) : list draw :=
  Print row 4 (pad_left 2 (fmt_lld i))
  :: if sent h =? 0 then [Print row 9 (str "-")]
     else
       status_draws row h
       ++ [Print row 44 (pad_left 4 (fmt_u64 (sent h)) ++ str "  " ++ pad_left 4 (fmt_u64 (recv h)) ++ str "  "
                         ++ pad_left 3 (fmt_f0 (loss_percent h)) ++ str "%")]
       ++ match annotation_for i anns with Some a => [Print row 56 (an_text a)] | None => [] end.

Fixpoint normal_rows (i : Z) (hs : list nsr_hop_info_t) (anns : list nsr_hop_annotation_t) (sc : screen)
    : list draw :=
  match hs with
  | [] => []
  | h :: hs' =>
      if max_y sc - 3 <=? 7 + i then [] else normal_row (7 + i) i h anns ++ normal_rows (i + 1) hs' anns sc
  end.

Definition dashboard (t : nsr_tui_state_t) (interval : Z) (sc : screen) : list draw :=
  let y := Z.quot (max_y sc - 10) 2 in
  let x := Z.quot (max_x sc - 50) 2 in
  blank_rows y x 10 50 ++ draw_box sc y x 10 50 (Some (str "SETTINGS DASHBOARD"))
  ++ styled [A_BOLD] [Print (y + 2) (x + 2) (str "Tracer Settings:")]
  ++ [Print (y + 4) (x + 2) (str "[j/k] Minimum Round Duration (-i): " ++ fmt_d interval ++ str " ms");
      Print (y + 6) (x + 2) (str "Press " ++ key_hint t "d" "] to close")].

(** ** The grid *)

(** One drawn node: its index and itself, where it is and whether the cursor is on
    it. *)
Record grid_cell := mk_cell {
  gc_index : nat;
  gc_node : nsr_topology_node_t;
  gc_y : Z;
  gc_x : Z;
  gc_cursor : bool;
}.

(** The loop over the nodes; [i] is the index of the first node of the list, [idx]
    the number of active nodes passed. *)
Fixpoint grid_cells (i : nat) (ns : list nsr_topology_node_t) (idx total cols cursor scroll avail : Z)
    : list grid_cell :=
  match ns with
  | [] => []
  | n :: ns' =>
      if total <=? idx then []
      else if negb (n_active n) then grid_cells (S i) ns' idx total cols cursor scroll avail
      else
        let row := Z.quot idx cols in
        let col := Z.rem idx cols in
        let rest := grid_cells (S i) ns' (idx + 1) total cols cursor scroll avail in
        if (row <? scroll) || (scroll + avail <=? row) then rest
        else mk_cell i n (2 + (row - scroll)) (2 + col * 14) (idx =? cursor) :: rest
  end.

Definition cell_draws (c : grid_cell) : list draw :=
  styled [COLOR_PAIR (if gc_cursor c then CP_HIGHLIGHT else health_pair_for_node (gc_node c))]
    (Print (gc_y c) (gc_x c) (take 13 (pad_right 12 (n_addr (gc_node c))))
     :: if n_control_plane (gc_node c) then [AddCh (gc_y c) (gc_x c + 12) (Glyph "*")] else []).

(** The node at a position among the active ones, with its index. *)
Fixpoint visual_node (i : nat) (ns : list nsr_topology_node_t) (idx index : Z)
    : option (nat * nsr_topology_node_t) :=
  match ns with
  | [] => None
  | n :: ns' =>
      if negb (n_active n) then visual_node (S i) ns' idx index
      else if idx =? index then Some (i, n) else visual_node (S i) ns' (idx + 1) index
  end.

Definition node_by_visual_index (topo : nsr_topology_state_t) (index : Z) : option (nat * nsr_topology_node_t) :=
  visual_node 0 (nodes topo) 0 index.

(** Columns of the grid for a screen width. *)
Definition grid_cols (width : Z) : Z :=
  let cols := Z.quot width 14 in if cols <? 1 then 1 else cols.

(** ** The tree *)

(** The bytes of the box-drawing pieces (UTF-8). *)
Definition tree_bar : cstr := [chr 226; chr 148; chr 130] ++ str "  ".
Definition tree_last : cstr := [chr 226; chr 148; chr 148; chr 226; chr 148; chr 128; chr 226; chr 148; chr 128] ++ str " ".
Definition tree_tee : cstr := [chr 226; chr 148; chr 156; chr 226; chr 148; chr 128; chr 226; chr 148; chr 128] ++ str " ".

Definition tree_prefix (ttl : Z) (is_last : bool) : cstr :=
  let depth := if 15 <? ttl then 15 else ttl in
  concat (replicate (Z.to_nat (depth - 1)) tree_bar)
  ++ (if 0 <? depth then if is_last then tree_last else tree_tee else []).

(** The hop entry under which a visible node is offered for annotation. *)
Definition node_hop (n : nsr_topology_node_t) : nsr_hop_info_t :=
  {| addr := strncpy 47 (n_addr n); rtt_us := f_trunc (h_rtt_us (n_health n));
     sent := if 0 <? h_sent (n_health n) then h_sent (n_health n) else 1; recv := h_recv (n_health n);
     primary_recv := 0; last_status := NSR_OBS_REPLY; alias_count := 0; aliases := replicate 3 zero_alias |}.

Definition visible (line scroll avail : Z) : bool := (scroll <=? line) && (line <? scroll + avail).

(** The first pass: [acc] is the used part of [temp_hops]. *)
Fixpoint sim_nodes (topo : nsr_topology_state_t) (ns : list nat) (line scroll avail : Z) (acc : list nsr_hop_info_t)
    : Z * list nsr_hop_info_t :=
  match ns with
  | [] => (line, acc)
  | i :: ns' =>
      let acc := if visible line scroll avail && (Z.of_nat (length acc) <? NSR_MAX_HOPS)
                 then acc ++ [node_hop (default zero_node (nodes topo !! i))] else acc in
      sim_nodes topo ns' (line + 1) scroll avail acc
  end.

Fixpoint sim_groups (topo : nsr_topology_state_t) (groups : list (cstr * list nat)) (line scroll avail : Z)
    (acc : list nsr_hop_info_t) : list nsr_hop_info_t :=
  match groups with
  | [] => acc
  | (_, ns) :: groups' =>
      let '(line, acc) := sim_nodes topo ns (line + 1) scroll avail acc in
      sim_groups topo groups' line scroll avail acc
  end.

(** The first annotation whose hop has the address of the node. *)
Definition tree_annotation (anns : list nsr_hop_annotation_t) (hs : list nsr_hop_info_t) (a : cstr) : option cstr :=
  (fun p => an_text p.2) <$>
  list_find (fun an => (0 <? an_hop_idx an) && (an_hop_idx an <? Z.of_nat (length hs))
                       && match aget hs (an_hop_idx an) with Some h => streq (addr h) a | None => false end = true) anns.

Definition tree_label (n : nsr_topology_node_t) (ann : option cstr) (remain : Z) : cstr :=
  let label := take 255 ((if n_control_plane n then str "*" else str " ")
                 ++ (if n_is_destination n then str "[DEST] " else []) ++ n_addr n
                 ++ str "  rtt:" ++ pad_left 4 (fmt_f1 (f32_div (h_rtt_us (n_health n)) (f32_of_Z 1000)))
                 ++ str "ms loss:" ++ pad_left 3 (fmt_f0 (f32_mul (h_loss_rate (n_health n)) (f32_of_Z 100)))
                 ++ str "%") in
  let label := match ann with Some t => take 255 (label ++ str "  " ++ t) | None => label end in
  take (Z.to_nat remain) label.

Definition node_line_draws (sc : screen) (y : Z) (n : nsr_topology_node_t) (is_last is_cursor : bool)
    (anns : list nsr_hop_annotation_t) (hs : list nsr_hop_info_t) : list draw :=
  let prefix := tree_prefix (n_ttl n) is_last in
  let remain := Z.max 10 (max_x sc - 2 - Z.of_nat (length prefix) - 2) in
  styled [COLOR_PAIR (if is_cursor then CP_HIGHLIGHT else health_pair_for_node n)]
    [Print y 2 (prefix ++ tree_label n (tree_annotation anns hs (n_addr n)) remain)].

(** The drawing loop; [line] and [idx] count lines and nodes. *)
Fixpoint draw_tree_lines (topo : nsr_topology_state_t) (sc : screen) (cursor scroll avail : Z)
    (anns : list nsr_hop_annotation_t) (hs : list nsr_hop_info_t) (ls : list tree_line) (line idx : Z)
    : list draw :=
  match ls with
  | [] => []
  | l :: ls' =>
      let y := 2 + (line - scroll) in
      let shown := visible line scroll avail && (y <? max_y sc - 2) in
      match l with
      | TargetLine t =>
          (if shown then styled [COLOR_PAIR CP_ACCENT; A_BOLD] [Print y 2 (str "# " ++ t)] else [])
          ++ draw_tree_lines topo sc cursor scroll avail anns hs ls' (line + 1) idx
      | NodeLine i is_last =>
          (if shown then node_line_draws sc y (default zero_node (nodes topo !! i)) is_last (idx =? cursor) anns hs
           else [])
          ++ draw_tree_lines topo sc cursor scroll avail anns hs ls' (line + 1) (idx + 1)
      end
  end.

Definition no_nodes : list draw := [Print 2 2 (str "No nodes discovered yet.")].

(** ** The views *)

Section Render.
  Context {M : Type} `{PluginManager M}.
  Context (uptime_text : Z -> Z -> option (option cstr)).

(** [plugins->vt->render(plugins, tui, topo, 9, max_x - 55, max_y - 12, 38, max_y, max_x)]. *)
Definition plugin_panels (t : nsr_tui_state_t) (topo : nsr_topology_state_t) (sc : screen) (m : M)
    : list draw * M :=
  vt_render m t topo 9 (max_x sc - 55) (max_y sc - 12) 38 (max_y sc) (max_x sc).

(** [now_ns]: the monotonic clock at the start. *)
Definition render_normal (t : nsr_tui_state_t) (state : nsr_telemetry_state_t) (topo : nsr_topology_state_t)
    (sc : screen) (now_ns : Z) (m : M) : list draw * M :=
  let interval := str "INTERVAL: " ++ fmt_d (interval_ms state) ++ str " ms  UPTIME: " in
  let uptime := match uptime_text (now_ns / 1000) (start_time_us state) with
                | Some (Some s) => s ++ str " s"
                | Some None => str "[MEM_FAULT]"
                | None => str "[TIMELINE_FAULT]"
                end in
  let '(anns, m) := vt_render_hops m (hops state) NSR_MAX_HOPS NSR_MAX_HOPS in
  let '(panels, m) := plugin_panels t topo sc m in
  (view_head sc (str "NSR: the Network Diagnosis Tool") (frozen t)
   ++ [Print 0 (max_x sc - 45) (interval ++ uptime)]
   ++ draw_box sc 2 2 3 (max_x sc - 5) (Some (str "TARGET INFO"))
   ++ [Print 3 4 (str "DESTINATION: " ++ pad_right 40 (match target_ip state with [] => str "Scanning..." | a => a end))]
   ++ (if show_stats t then styled [COLOR_PAIR CP_HEALTH_GOOD] [Print 3 (max_x sc - 30) (str "[STATS ACTIVE] SHM RING OK")]
       else [])
   ++ draw_box sc 6 2 (max_y sc - 9) (max_x sc - 5) (Some (str "TRACEROUTE"))
   ++ styled [A_UNDERLINE; A_BOLD] [Print 7 4 (str "HOP  ADDRESS / STATUS          RTT      SENT  RECV  LOSS")]
   ++ normal_rows 1 (tail (hops state)) anns sc
   ++ panels
   ++ (if show_dashboard t then dashboard t (interval_ms state) sc else [])
   ++ draw_footer t (entries (registry m)) sc ++ [Refresh], m).

(** [tree]: the number of nodes in [g_tree_nodes]. *)
Definition render_grid (t : nsr_tui_state_t) (topo : nsr_topology_state_t) (tree : list nat) (sc : screen) (m : M)
    : list draw * nsr_tui_state_t * M :=
  let cols := grid_cols (max_x sc) in
  let avail_rows := max_y sc - 2 - 2 in
  let total := if mode_is (current_mode t) NSR_UI_TREE then Z.of_nat (length tree)
               else nsr_topology_active_count topo in
  let rows := let r := Z.quot (total + cols - 1) cols in if r <? 1 then 1 else r in
  let cursor := clamp_cursor (grid_cursor t) total in
  let scroll := grid_scroll (Z.quot cursor cols) (grid_scroll_y t) avail_rows rows in
  let t' := with_grid t cursor scroll in
  let '(panels, m) := plugin_panels t' topo sc m in
  (view_head sc (str "TOPOLOGY GRID") (frozen t)
   ++ concat (map cell_draws (grid_cells 0 (nodes topo) 0 total cols cursor scroll avail_rows))
   ++ (if total =? 0 then no_nodes else [])
   ++ panels ++ draw_footer t' (entries (registry m)) sc ++ [Refresh], t', m).

Definition render_tree (t : nsr_tui_state_t) (topo : nsr_topology_state_t) (sc : screen) (m : M)
    : list draw * nsr_tui_state_t * list nat * M :=
  let avail_rows := max_y sc - 2 - 2 in
  let temp_hops := sim_groups topo (tree_groups topo) 0 (tree_scroll t) avail_rows [zero_hop] in
  let '(anns, m) := if 1 <? Z.of_nat (length temp_hops)
                    then vt_render_hops m temp_hops (Z.of_nat (length temp_hops)) NSR_MAX_HOPS else ([], m) in
  let ls := tree_lines topo in
  let tree := tree_nodes ls in
  let total := Z.of_nat (length tree) in
  let cursor := clamp_cursor (tree_cursor t) total in
  let t' := with_tree t cursor (follow cursor (tree_scroll t) avail_rows) in
  let '(panels, m) := plugin_panels t' topo sc m in
  (view_head sc (str "TOPOLOGY TREE") (frozen t)
   ++ draw_tree_lines topo sc (tree_cursor t) (tree_scroll t) avail_rows anns temp_hops ls 0 0
   ++ (if total =? 0 then no_nodes else [])
   ++ panels ++ draw_footer t' (entries (registry m)) sc ++ [Refresh], t', tree, m).

(** The rows of the tools menu. *)
Definition tools_rows (m : M) (y x avail cursor scroll count : Z) : list draw :=
  concat (map (fun i =>
    let idx := i + scroll in
    let line := [Print (y + 2 + i) (x + 2)
                   (str "[" ++ (if vt_enabled m idx then str "x" else str " ") ++ str "] "
                    ++ pad_right 30 (default [] (vt_name m idx)))] in
    if idx =? cursor then styled [COLOR_PAIR CP_HIGHLIGHT] line else line)
    (seqZ 0 (Z.min avail (count - scroll)))).

(** The plugin named by the cursor is described at the bottom of the menu. *)
Definition tools_description (m : M) (y x h cursor count : Z) : list draw :=
  if (0 <=? cursor) && (cursor <? count) then
    match vt_description m cursor with
    | Some desc => styled [A_BOLD] [Print (y + h - 2) (x + 2) (str "% " ++ desc)]
    | None => []
    end
  else [].

Definition tools_clamp (cursor count : Z) : Z :=
  let c := if cursor <? 0 then 0 else cursor in
  let c := if (0 <? count) && (count <=? c) then count - 1 else c in
  if c <? 0 then 0 else c.

Definition render_tools (t : nsr_tui_state_t) (sc : screen) (m : M) : list draw * nsr_tui_state_t * M :=
  let w := 64 in
  let h := if max_y sc - 8 <? 10 then 10 else max_y sc - 8 in
  let y := Z.quot (max_y sc - h) 2 in
  let x := Z.quot (max_x sc - w) 2 in
  let count := vt_count m in
  let cursor := tools_clamp (tools_cursor t) count in
  let avail := h - 4 in
  let scroll := follow cursor (tools_scroll t) avail in
  let t' := with_tools t cursor scroll in
  (view_head sc (str "TOOLS MENU") false
   ++ blank_rows y x h w ++ draw_box sc y x h w (Some (str "PLUGINS"))
   ++ (if count =? 0 then [Print (y + 2) (x + 2) (str "No plugins loaded.")]
       else tools_rows m y x avail cursor scroll count ++ tools_description m y x h cursor count)
   ++ [Print (max_y sc - 3) x (str "[j/k] Move  [Enter] Toggle  [Esc/q] Back")]
   ++ draw_footer t' (entries (registry m)) sc ++ [Refresh], t', m).

(** [tree]: [g_tree_nodes]; [now]: [time]; [now_ns]: the monotonic clock. *)
Definition nsr_tui_render (t : nsr_tui_state_t) (tel : nsr_telemetry_state_t) (topo : nsr_topology_state_t)
    (tree : list nat) (sc : screen) (now now_ns : Z) (m : M) : list draw * nsr_tui_state_t * list nat * M :=
  if frozen t && negb (mode_is (current_mode t) NSR_UI_TOOLS) then (frozen_mark sc ++ [Refresh], t, tree, m)
  else
    let '(ds, t, tree, m) :=
      match current_mode t with
      | NSR_UI_GRID => let '(ds, t, m) := render_grid t topo tree sc m in (ds, t, tree, m)
      | NSR_UI_TREE => render_tree t topo sc m
      | NSR_UI_TOOLS => let '(ds, t, m) := render_tools t sc m in (ds, t, tree, m)
      | NSR_UI_NORMAL => let '(ds, m) := render_normal t tel topo sc now_ns m in (ds, t, tree, m)
      end in
    let '(notice, t) := draw_notice t sc now in
    (ds ++ notice ++ [Refresh], t, tree, m).

End Render.

(** ** Cursors stay in view *)

Lemma clamp_cursor_range c total : 0 <= clamp_cursor c total /\ (1 <= total -> clamp_cursor c total < total).
Proof. unfold clamp_cursor. split_ifs; lia. Qed.

Lemma clamp_cursor_id c total : 0 <= c < total -> clamp_cursor c total = c.
Proof. intros Hc. unfold clamp_cursor. split_ifs; lia. Qed.

Lemma follow_shows c s avail : 0 <= c -> 1 <= avail -> 0 <= follow c s avail <= c /\ c < follow c s avail + avail.
Proof. intros. unfold follow. split_ifs; lia. Qed.

Lemma grid_scroll_shows row s avail rows :
  0 <= row < rows -> 1 <= avail ->
  0 <= grid_scroll row s avail rows <= row /\ row < grid_scroll row s avail rows + avail.
Proof.
  intros Hr Ha. pose proof (follow_shows row s avail ltac:(lia) Ha) as H. unfold grid_scroll. cbv zeta.
  set (f := follow row s avail) in *. clearbody f.
  split_ifs; try lia.
Qed.

(** ** What the grid highlights *)

(** The number of active nodes. *)
Definition actives (ns : list nsr_topology_node_t) : Z := Z.of_nat (length (List.filter n_active ns)).

Lemma actives_cons n ns : actives (n :: ns) = (if n_active n then 1 else 0) + actives ns.
Proof. unfold actives. cbn [List.filter]. split_if; cbn [length]; lia. Qed.

Lemma actives_nonneg ns : 0 <= actives ns.
Proof. unfold actives. lia. Qed.

(** Past the cursor no cell is highlighted. *)
Lemma cells_after ns i idx total cols cursor scroll avail :
  cursor < idx -> List.filter gc_cursor (grid_cells i ns idx total cols cursor scroll avail) = [].
Proof.
  revert i idx. induction ns as [|n ns IH]; intros i idx Hi; cbn [grid_cells]; [done|].
  repeat split_if; try done; try (apply IH; lia). cbn [List.filter gc_cursor].
  rewrite (proj2 (Z.eqb_neq _ _)) by lia. apply IH. lia.
Qed.

Lemma cells_highlight ns i idx total cols cursor scroll avail :
  1 <= cols -> 0 <= idx <= cursor -> cursor < total -> cursor < idx + actives ns ->
  scroll <= Z.quot cursor cols < scroll + avail ->
  exists c, List.filter gc_cursor (grid_cells i ns idx total cols cursor scroll avail) = [c] /\
    visual_node i ns idx cursor = Some (gc_index c, gc_node c) /\
    gc_y c = 2 + (Z.quot cursor cols - scroll) /\ gc_x c = 2 + Z.rem cursor cols * 14.
Proof.
  intros Hcols. revert i idx. induction ns as [|n ns IH]; intros i idx Hi Ht Ha Hs.
  { unfold actives in Ha. cbn in Ha. lia. }
  rewrite actives_cons in Ha. cbn [grid_cells visual_node]. rewrite (proj2 (Z.leb_gt _ _)) by lia.
  destruct (n_active n); cbn [negb]; [|apply IH; lia]. destruct (idx =? cursor) eqn:E; bool_facts.
  - subst idx. rewrite (proj2 (Z.ltb_ge _ _)), (proj2 (Z.leb_gt _ _)) by lia. cbn [orb List.filter gc_cursor].
    rewrite cells_after by lia. eexists. split; [done|]. auto.
  - destruct (IH (S i) (idx + 1)) as (c & Hf & Hrest); try lia. exists c. split; [|done].
    split_if; [done|]. exact Hf.
Qed.

Lemma rem_range a b : 0 <= a -> 1 <= b -> 0 <= Z.rem a b <= b - 1.
Proof. intros. rewrite Z.rem_mod_nonneg by lia. pose proof (Z.mod_pos_bound a b). lia. Qed.

Lemma last_row c total cols : 0 <= c < total -> 1 <= cols -> Z.quot c cols < Z.quot (total + cols - 1) cols.
Proof.
  intros. rewrite !Z.quot_div_nonneg by lia. apply Z.div_lt_upper_bound; [lia|].
  pose proof (Z.div_mod (total + cols - 1) cols). pose proof (Z.mod_pos_bound (total + cols - 1) cols). nia.
Qed.

Lemma grid_cols_range w : 0 <= w -> 1 <= grid_cols w /\ (14 <= w -> 14 * grid_cols w <= w).
Proof.
  intros Hw. unfold grid_cols. rewrite Z.quot_div_nonneg by lia.
  pose proof (Z.div_mod w 14). pose proof (Z.mod_pos_bound w 14). split_if; bool_facts; lia.
Qed.

Section Views.
  Context {M : Type} `{PluginManager M}.


End Views.

(** ** Boxes, footer and notice stay on the screen *)

Lemma styled_on_screen sc a ds : all_on_screen sc ds -> all_on_screen sc (styled a ds).
Proof. intros H. unfold styled. apply on_screen_app; [apply on_screen_attr|]. apply on_screen_app; [done|apply on_screen_attr]. Qed.

Lemma footer_on_screen t es sc : all_on_screen sc (draw_footer t es sc).
Proof.
  unfold draw_footer. destruct ((max_y sc <? 1) || (max_x sc <? 4)) eqn:E; [constructor|]. bool_facts.
  apply styled_on_screen. apply Forall_cons_2; [unfold on_screen; rewrite !andb_true_iff, !Z.leb_le, Z.ltb_lt; lia|].
  split_if; [apply print_clipped_on_screen|]. apply on_screen_app; [apply print_clipped_on_screen|].
  split_if; [apply print_clipped_on_screen|constructor].
Qed.

Lemma notice_on_screen t sc now :
  3 <= max_y sc -> 5 <= max_x sc -> all_on_screen sc (draw_notice t sc now).1.
Proof.
  intros Hy Hx. unfold draw_notice. split_if; [constructor|]. cbn [fst]. clear Heqb.
  set (w := if (if max_x sc <? _ then _ else _) <? 5 then _ else _).
  assert (5 <= w <= max_x sc) as Hw by (unfold w; split_ifs; lia). clearbody w.
  set (len := length (msg t)). rewrite !Z.quot_div_nonneg by lia.
  pose proof (Z.div_mod (max_x sc - w) 2). pose proof (Z.mod_pos_bound (max_x sc - w) 2).
  pose proof (Z.div_mod (max_y sc - 3) 2). pose proof (Z.mod_pos_bound (max_y sc - 3) 2).
  set (x := (max_x sc - w) / 2) in *. set (y := (max_y sc - 3) / 2) in *. clearbody x y.
  rewrite !Z.max_r by lia.
  apply on_screen_app; [apply blank_rows_on_screen; lia|]. apply on_screen_app; [apply box_on_screen|].
  apply styled_on_screen. on_screen_calls. rewrite length_take. lia.
Qed.

(** C36: boxes and the footer never leave the screen, however small it is and whatever
    position and size is asked for: every line, corner and text of theirs is
    clipped; a notice stays inside a screen of at least three rows and five
    columns, however long its text is. *)
Theorem overlay_on_screen sc y x h w title t es now :
  all_on_screen sc (draw_box sc y x h w title) /\ all_on_screen sc (draw_footer t es sc) /\
  (3 <= max_y sc -> 5 <= max_x sc -> all_on_screen sc (draw_notice t sc now).1).
Proof. split; [apply box_on_screen|]. split; [apply footer_on_screen|apply notice_on_screen]. Qed.

Lemma overlay_on_screen_witness :
  let t := with_msg (tui_start []) (replicate 127 "x"%char) 10 in
  all_on_screen (mk_screen 4 6) (draw_notice t (mk_screen 4 6) 1).1 /\
  (draw_notice t (mk_screen 4 6) 1).1 <> [].
Proof.
  cbn zeta. split; [|vm_compute; discriminate].
  apply (overlay_on_screen (mk_screen 4 6) 0 0 1 1 None (with_msg (tui_start []) (replicate 127 "x"%char) 10) [] 1);
    cbn; lia.
Defined.

(** ** The cursor of the tree *)

Definition highlights (ds : list draw) : Prop := AttrOn [COLOR_PAIR CP_HIGHLIGHT] ∈ ds.

Lemma health_pair_not_highlight n : health_pair_for_node n <> CP_HIGHLIGHT.
Proof. unfold health_pair_for_node. by repeat split_if. Qed.

Lemma print_highlights a y x text :
  highlights (styled a [Print y x text]) <-> a = [COLOR_PAIR CP_HIGHLIGHT].
Proof.
  unfold highlights, styled. cbn [app]. rewrite !elem_of_cons. split.
  - intros [E|[E|[E|E]]]; [by injection E|done|done|by apply not_elem_of_nil in E].
  - intros ->. by left.
Qed.

Lemma node_line_highlights sc y n b c anns hs : highlights (node_line_draws sc y n b c anns hs) <-> c = true.
Proof.
  unfold node_line_draws. rewrite print_highlights. pose proof (health_pair_not_highlight n) as Hh.
  destruct c; split; try done. intros [= E]. by destruct (Hh E).
Qed.

Lemma highlights_app a b : highlights (a ++ b) <-> highlights a \/ highlights b.
Proof. apply elem_of_app. Qed.

(** The lines before the line of the node at position [cursor]. *)
Lemma tree_highlight_line topo sc cursor scroll avail anns hs ls line idx :
  highlights (draw_tree_lines topo sc cursor scroll avail anns hs ls line idx) ->
  exists pre i b post, ls = pre ++ NodeLine i b :: post /\ idx + Z.of_nat (length (tree_nodes pre)) = cursor /\
    visible (line + Z.of_nat (length pre)) scroll avail = true.
Proof.
  revert line idx. induction ls as [|l ls IH]; intros line idx; cbn [draw_tree_lines].
  { by intros ?%not_elem_of_nil. }
  destruct l as [t|i b]; rewrite highlights_app.
  - intros [H|H].
    + split_if_in H; [by apply print_highlights in H|by apply not_elem_of_nil in H].
    + apply IH in H as (pre & i & b & post & -> & Hc & Hv). exists (TargetLine t :: pre), i, b, post.
      split; [done|]. change (tree_nodes (TargetLine t :: pre)) with (tree_nodes pre). cbn [length].
      split; [done|]. rewrite <- Hv. f_equal. lia.
  - intros [H|H].
    + split_if_in H; [|by apply not_elem_of_nil in H]. apply node_line_highlights in H. bool_facts.
      exists [], i, b, ls. split; [done|]. cbn. split; [lia|]. by rewrite Z.add_0_r.
    + apply IH in H as (pre & j & c & post & -> & Hc & Hv). exists (NodeLine i b :: pre), j, c, post.
      split; [done|]. change (tree_nodes (NodeLine i b :: pre)) with (i :: tree_nodes pre). cbn [length].
      split; [lia|]. rewrite <- Hv. f_equal. lia.
Qed.

Lemma omap_length {A B} (f : A -> option B) l : (length (omap f l) <= length l)%nat.
Proof. induction l as [|x l IH]; [done|]. cbn. destruct (f x); cbn; lia. Qed.

(** A cursor on the last position that the scroll offset admits is below the last
    drawn line, since the headings take lines too. *)
Lemma bottom_cursor_hidden topo sc cursor scroll avail anns hs t ls :
  cursor = scroll + avail - 1 ->
  ~ highlights (draw_tree_lines topo sc cursor scroll avail anns hs (TargetLine t :: ls) 0 0).
Proof.
  intros Hc H. apply tree_highlight_line in H as (pre & i & b & post & E & Hn & Hv).
  destruct pre as [|l pre]; [done|]. injection E as <- _.
  change (tree_nodes (TargetLine t :: pre)) with (tree_nodes pre) in Hn. cbn [length] in Hv.
  pose proof (omap_length line_node pre) as Hl. unfold tree_nodes in Hn.
  unfold visible in Hv. apply andb_true_iff in Hv as [_ Hv]. bool_facts. lia.
Qed.

Lemma tree_lines_head topo l ls : tree_lines topo = l :: ls -> exists t, l = TargetLine t.
Proof.
  unfold tree_lines. destruct (tree_groups topo) as [|[t ns] gs]; cbn [group_lines]; [done|].
  intros [= <- _]. by exists t.
Qed.

Section HiddenCursor.
  Context {M : Type} `{PluginManager M}.

(** What the tree view draws for the nodes, with the annotations it has. *)
Definition tree_body (t : nsr_tui_state_t) (topo : nsr_topology_state_t) (sc : screen)
    (anns : list nsr_hop_annotation_t) : list draw :=
  let avail_rows := max_y sc - 4 in
  draw_tree_lines topo sc (tree_cursor t) (tree_scroll t) avail_rows anns
    (sim_groups topo (tree_groups topo) 0 (tree_scroll t) avail_rows [zero_hop]) (tree_lines topo) 0 0.

(** The cursor of the tree view gets lost at the bottom.  When it moves one node
    below the rows of the screen, the frame scrolls by one line, but the offset
    counts nodes where the drawing counts lines, headings included; so neither that
    frame nor any later one (the state is stable) highlights a node. *)
Theorem tree_cursor_hidden t topo sc m anns :
  tree_cursor t = tree_scroll t + (max_y sc - 4) -> 5 <= max_y sc -> 0 <= tree_scroll t ->
  tree_cursor t < Z.of_nat (length (tree_nodes (tree_lines topo))) ->
  let t' := (render_tree t topo sc m).1.1.2 in
  ~ highlights (tree_body t topo sc anns) /\ ~ highlights (tree_body t' topo sc anns) /\
  tree_cursor t' = tree_cursor t /\
  forall m', tree_cursor (render_tree t' topo sc m').1.1.2 = tree_cursor t' /\
             tree_scroll (render_tree t' topo sc m').1.1.2 = tree_scroll t'.
Proof.
  intros Hc Hy Hs Ht.
  assert (Hr : forall u mm, 0 <= tree_cursor u < Z.of_nat (length (tree_nodes (tree_lines topo))) ->
    tree_cursor (render_tree u topo sc mm).1.1.2 = tree_cursor u /\
    tree_scroll (render_tree u topo sc mm).1.1.2 = follow (tree_cursor u) (tree_scroll u) (max_y sc - 4)).
  { intros u mm Hu. unfold render_tree. replace (max_y sc - 2 - 2) with (max_y sc - 4) by lia.
    rewrite clamp_cursor_id by done.
    destruct (if _ : bool then _ else _) as [an mm1]. destruct (plugin_panels _ topo sc mm1) as [ps mm2]. done. }
  destruct (Hr t m ltac:(lia)) as [Ec Es].
  assert (follow (tree_cursor t) (tree_scroll t) (max_y sc - 4) = tree_scroll t + 1) as Ef
    by (unfold follow; split_ifs; lia).
  rewrite Ef in Es. cbn zeta. set (t' := (render_tree t topo sc m).1.1.2) in *.
  destruct (tree_lines topo) as [|l ls] eqn:El; [cbn in Ht; lia|].
  destruct (tree_lines_head _ _ _ El) as [tg ->]. split_and!.
  - unfold tree_body. rewrite El, Hc. cbn [draw_tree_lines]. intros Hh. apply highlights_app in Hh as [Hh|Hh].
    { split_if_in Hh; [by apply print_highlights in Hh|by apply not_elem_of_nil in Hh]. }
    apply tree_highlight_line in Hh as (pre & i & b & post & _ & Hn & Hv).
    pose proof (omap_length line_node pre) as Hl. unfold tree_nodes in Hn.
    unfold visible in Hv. apply andb_true_iff in Hv as [_ Hv]. bool_facts. lia.
  - unfold tree_body. rewrite El. apply bottom_cursor_hidden. rewrite Ec, Es. lia.
  - done.
  - intros m'. destruct (Hr t' m') as [E1 E2]; [rewrite Ec; lia|]. rewrite E1, E2. split; [done|].
    rewrite Ec, Es. unfold follow. split_ifs; lia.
Qed.

End HiddenCursor.

(** ** The two passes over the tree agree *)

(** The nodes on the visible lines. *)
Fixpoint visible_nodes (ls : list tree_line) (line scroll avail : Z) : list nat :=
  match ls with
  | [] => []
  | TargetLine _ :: ls' => visible_nodes ls' (line + 1) scroll avail
  | NodeLine i _ :: ls' =>
      if visible line scroll avail then i :: visible_nodes ls' (line + 1) scroll avail
      else visible_nodes ls' (line + 1) scroll avail
  end.

(** Room left in [temp_hops] for the lines from [line] on. *)
Definition hops_room (line scroll avail : Z) (acc : list nsr_hop_info_t) : Prop :=
  Z.of_nat (length acc) + Z.max 0 (scroll + avail - Z.max line scroll) <= NSR_MAX_HOPS.

Definition hop_of (topo : nsr_topology_state_t) (i : nat) : nsr_hop_info_t :=
  node_hop (default zero_node (nodes topo !! i)).

Lemma visible_nodes_app a b line scroll avail :
  visible_nodes (a ++ b) line scroll avail
  = visible_nodes a line scroll avail ++ visible_nodes b (line + Z.of_nat (length a)) scroll avail.
Proof.
  revert line. induction a as [|l a IH]; intros line; cbn [app visible_nodes length].
  - f_equal. lia.
  - replace (line + Z.of_nat (S (length a))) with (line + 1 + Z.of_nat (length a)) by lia.
    destruct l; [apply IH|]. split_if; cbn [app]; by rewrite IH.
Qed.

Lemma sim_nodes_spec topo marks line scroll avail acc :
  hops_room line scroll avail acc ->
  let ls := map (fun '(n, b) => NodeLine n b) marks in
  let acc' := acc ++ map (hop_of topo) (visible_nodes ls line scroll avail) in
  sim_nodes topo (map fst marks) line scroll avail acc = (line + Z.of_nat (length marks), acc') /\
  hops_room (line + Z.of_nat (length marks)) scroll avail acc'.
Proof.
  revert line acc. induction marks as [|[i b] marks IH]; intros line acc Hr; cbn [map fst sim_nodes visible_nodes].
  - rewrite app_nil_r, Z.add_0_r. done.
  - cbn [length]. replace (line + Z.of_nat (S (length marks))) with (line + 1 + Z.of_nat (length marks)) by lia.
    unfold hops_room, NSR_MAX_HOPS in Hr. destruct (visible line scroll avail) eqn:Ev.
    + unfold visible in Ev. bool_facts. rewrite (proj2 (Z.ltb_lt _ _)) by (unfold NSR_MAX_HOPS; lia). cbn [andb map].
      change (hop_of topo i :: ?l) with ([hop_of topo i] ++ l). rewrite app_assoc. apply IH.
      unfold hops_room, NSR_MAX_HOPS. rewrite length_app. cbn [length]. lia.
    + cbn [andb]. apply IH. unfold hops_room, NSR_MAX_HOPS. lia.
Qed.

Lemma sim_groups_spec topo ttl groups g line scroll avail acc :
  (forall x, 0 <= ttl x < 256) -> (g + length (concat (map snd groups)) <= 1024)%nat ->
  hops_room line scroll avail acc ->
  sim_groups topo groups line scroll avail acc
  = acc ++ map (hop_of topo) (visible_nodes (group_lines ttl groups g) line scroll avail).
Proof.
  intros Httl. revert g line acc. induction groups as [|[t ns] groups IH]; intros g line acc Hg Hr.
  { cbn. by rewrite app_nil_r. }
  cbn [map concat snd] in Hg. rewrite length_app in Hg.
  destruct (group_marks ttl ns g Httl ltac:(lia)) as [E _]. cbn [sim_groups group_lines visible_nodes]. cbn zeta in *.
  set (marks := mark_last ttl _ _ ns g) in *. rewrite <- E at 1.
  destruct (sim_nodes_spec topo marks (line + 1) scroll avail acc) as [-> Hr'].
  { unfold hops_room, NSR_MAX_HOPS in *. lia. }
  rewrite (IH (g + length marks)%nat); [|rewrite <- (length_map fst), E; lia|exact Hr'].
  rewrite visible_nodes_app, map_app, app_assoc, length_map. done.
Qed.

(** The tree view walks its lines twice, first to collect the visible nodes for
    the annotations of plugins and then to draw them; the two walks agree: on a
    screen of at most 67 rows the hops offered to the plugins are, after the unused
    entry 0, exactly the nodes on the visible lines, in the order of the lines. *)
Theorem annotation_pass_matches topo ts scroll sc :
  topo_fits topo -> (length ts <= 8)%nat ->
  (forall n, n ∈ nodes topo -> n_active n = true -> n_target_ip n ∈ ts) ->
  max_y sc <= 67 ->
  sim_groups topo (tree_groups topo) 0 scroll (max_y sc - 4) [zero_hop]
  = zero_hop :: map (hop_of topo) (visible_nodes (tree_lines topo) 0 scroll (max_y sc - 4)).
Proof.
  intros Hf Hts Hall Hy. destruct (tree_nodes_spec topo ts Hf Hts Hall) as (E & _ & Hlen & _).
  apply (sim_groups_spec topo (node_ttl topo) (tree_groups topo) 0); [auto using node_ttl_range|by rewrite <- E|].
  unfold hops_room, NSR_MAX_HOPS. cbn [length]. lia.
Qed.

(** ** Marks of the last column *)

(** On a screen whose width is a multiple of 14 the control-plane mark of every node
    in the last column of the grid is placed one cell beyond the right edge. *)
Theorem last_column_mark_lost k sc c :
  1 <= k -> max_x sc = 14 * k -> gc_x c = 2 + (grid_cols (max_x sc) - 1) * 14 -> n_control_plane (gc_node c) = true ->
  AddCh (gc_y c) (gc_x c + 12) (Glyph "*") ∈ cell_draws c /\
  on_screen sc (AddCh (gc_y c) (gc_x c + 12) (Glyph "*")) = false.
Proof.
  intros Hk Hx Hc Hp. split.
  - unfold cell_draws, styled. rewrite Hp. cbn [app]. rewrite !elem_of_cons. auto.
  - unfold on_screen. apply not_true_iff_false. rewrite !andb_true_iff, !Z.leb_le, !Z.ltb_lt.
    assert (grid_cols (max_x sc) = k) as Ek; [|lia].
    unfold grid_cols. rewrite Hx, Z.mul_comm, Z.quot_mul by lia. split_ifs; lia.
Qed.

(** ** Witnesses *)

(** A manager without plugins. *)
Definition no_plugins : nsr_plugin_manager :=
  mk_manager (mk_registry [] [] []) (mk_os [] [] [] [] []) None false [] [].

Definition counted_topo : nsr_topology_state_t := mk_topo (nodes demo_topo) [] 3 0 4 0.


Lemma tree_cursor_hidden_witness :
  let t := with_tree (tui_start []) 1 0 in
  ~ highlights (tree_body t demo_topo (mk_screen 5 80) []) /\
  existsb (fun d => bool_decide (d = AttrOn [COLOR_PAIR CP_HIGHLIGHT]))
    (tree_body (with_tree t 0 0) demo_topo (mk_screen 6 80) []) = true.
Proof.
  cbn zeta. split; [|vm_compute; reflexivity].
  assert (Hlen : length (tree_nodes (tree_lines demo_topo)) = 3%nat) by (vm_compute; reflexivity).
  destruct (tree_cursor_hidden (with_tree (tui_start []) 1 0) demo_topo (mk_screen 5 80) no_plugins []) as [Hh _].
  - reflexivity.
  - cbn. lia.
  - cbn. lia.
  - rewrite Hlen. cbn. lia.
  - exact Hh.
Defined.

Lemma annotation_pass_matches_witness :
  sim_groups demo_topo (tree_groups demo_topo) 0 2 3 [zero_hop]
  = zero_hop :: map (hop_of demo_topo) [0%nat; 1%nat] /\
  visible_nodes (tree_lines demo_topo) 0 2 3 = [0%nat; 1%nat].
Proof.
  assert (E : visible_nodes (tree_lines demo_topo) 0 2 3 = [0%nat; 1%nat]) by (vm_compute; reflexivity).
  split; [|exact E].
  assert (Hs : (length [str "a"; str "b"] <= 8)%nat) by (vm_compute; lia).
  pose proof (annotation_pass_matches demo_topo [str "a"; str "b"] 2 (mk_screen 7 80) demo_topo_fits Hs
                demo_topo_targets ltac:(cbn; lia)) as H.
  change (max_y (mk_screen 7 80) - 4) with 3 in H. rewrite E in H. exact H.
Defined.
