(* ===== verification/TuiInput.v ===== *)
(** * Keys of the user interface (src/ui/tui.c, update part)

    [nsr_tui_update]: one call reads at most one key and changes mode, cursors,
    focus, switches, the control-plane flag of a node or a plugin.  The result is
    the command for [main].  The codes ncurses gives to function keys are the
    class [Ncurses]; [getch] is an argument, [ERR] when there is no key.  Pointers
    are never null.  The laws of [PluginManager] are all that is used of plugins. *)

From S2P Require Import Prelude Telemetry Topology KeySlots.
From S2P Require Import PluginHost Draw TuiState PluginRender PluginMgr TreeOrder TuiView.

(** Function keys are outside the range of characters and differ (documented in
    curses.h). *)
Class Ncurses := {
  KEY_DOWN : Z;
  KEY_UP : Z;
  KEY_LEFT : Z;
  KEY_RIGHT : Z;
  KEY_ENTER : Z;
  keys_distinct : NoDup [KEY_DOWN; KEY_UP; KEY_LEFT; KEY_RIGHT; KEY_ENTER];
  keys_wide : Forall (fun k => 255 < k) [KEY_DOWN; KEY_UP; KEY_LEFT; KEY_RIGHT; KEY_ENTER];
}.

Definition ERR : Z := -1.
Definition ESC : Z := 27.

(** [case c:] for a character and for one of several labels. *)
Definition key_in (ch : Z) (labels : list Z) : bool := bool_decide (ch ∈ labels).

Section Update.
  Context `{Ncurses} {M : Type} `{PluginManager M}.

Definition key_up : list Z := [ord "k"; KEY_UP].
Definition key_down : list Z := [ord "j"; KEY_DOWN].
Definition key_left : list Z := [ord "h"; KEY_LEFT].
Definition key_right : list Z := [ord "l"; KEY_RIGHT].

(** ** The tools menu *)

Definition tools_key (t : nsr_tui_state_t) (ch : Z) (m : M) : nsr_tui_state_t * M :=
  let count := vt_count m in
  let c := tools_cursor t in
  let move d := with_tools t d (tools_scroll t) in
  let '(t, m) :=
    if key_in ch key_up then (if 0 <? c then move (c - 1) else t, m)
    else if key_in ch key_down then (if c <? count - 1 then move (c + 1) else t, m)
    else if key_in ch key_left then (if 0 <? c then move (c - 5) else t, m)
    else if key_in ch key_right then (if c <? count - 1 then move (c + 5) else t, m)
    else if key_in ch [10; 13; KEY_ENTER] then
      (t, if (0 <=? c) && (c <? count) then vt_set_enabled m c (negb (vt_enabled m c)) else m)
    else if key_in ch [ESC; ord "t"; ord "T"] then
      (if (ch =? ESC) || is_key_for t "t" ch then pop_nav t else t, m)
    else (t, m) in
  let c := if tools_cursor t <? 0 then 0 else tools_cursor t in
  let c := if count <=? c then if 0 <? count then count - 1 else 0 else c in
  (with_tools t c (tools_scroll t), m).

(** ** Nodes *)

Definition with_control_plane (n : nsr_topology_node_t) (b : bool) : nsr_topology_node_t :=
  {| n_id := n_id n; n_addr := n_addr n; n_target_ip := n_target_ip n; n_ttl := n_ttl n;
     n_is_destination := n_is_destination n; n_control_plane := b; n_active := n_active n;
     n_health := n_health n |}.

(** Flips the control-plane flag of the node. *)
Definition flip_control (topo : nsr_topology_state_t) (node : option (nat * nsr_topology_node_t))
    : nsr_topology_state_t :=
  match node with
  | Some (i, n) => with_nodes topo (<[i := with_control_plane n (negb (n_control_plane n))]> (nodes topo))
  | None => topo
  end.

(** Focuses the node, when there is one, and shows the normal view. *)
Definition focus_node (t : nsr_tui_state_t) (node : option (nat * nsr_topology_node_t)) : nsr_tui_state_t :=
  push_nav (match node with Some (_, n) => with_focus t (n_id n) | None => t end) NSR_UI_NORMAL.

(** [tree]: [g_tree_nodes]. *)
Definition tree_node_by_index (topo : nsr_topology_state_t) (tree : list nat) (index : Z)
    : option (nat * nsr_topology_node_t) :=
  i ← aget tree index; n ← nodes topo !! i; Some (i, n).

(** The last two tests of the branch. *)
Definition keep_in (c total : Z) : Z :=
  let c := if c <? 0 then 0 else c in if total <=? c then total - 1 else c.

(** [width]: [COLS]. *)
Definition grid_key (width : Z) (t : nsr_tui_state_t) (topo : nsr_topology_state_t) (ch : Z)
    : nsr_tui_state_t * nsr_topology_state_t :=
  let total := nsr_topology_active_count topo in
  let cols := grid_cols width in
  let c := grid_cursor t in
  let move d := (with_grid t (keep_in d total) (grid_scroll_y t), topo) in
  if key_in ch key_left then move (c - 1)
  else if key_in ch key_right then move (c + 1)
  else if key_in ch key_up then move (c - cols)
  else if key_in ch key_down then move (c + cols)
  else if key_in ch [10; KEY_ENTER] then
    (if (0 <=? c) && (c <? total) then focus_node t (node_by_visual_index topo c) else t, topo)
  else if key_in ch [ord "c"; ord "C"] then (t, flip_control topo (node_by_visual_index topo c))
  else move c.

Definition tree_key (t : nsr_tui_state_t) (topo : nsr_topology_state_t) (tree : list nat) (ch : Z)
    : nsr_tui_state_t * nsr_topology_state_t :=
  let total := nsr_topology_active_count topo in
  let c := tree_cursor t in
  let move d := (with_tree t (keep_in d total) (tree_scroll t), topo) in
  if key_in ch key_up then move (if 0 <? c then c - 1 else c)
  else if key_in ch key_down then move (if c <? total - 1 then c + 1 else c)
  else if key_in ch key_left then move (if 0 <? c then c - 5 else c)
  else if key_in ch key_right then move (if c <? total - 1 then c + 5 else c)
  else if key_in ch [10; KEY_ENTER] then
    (if (0 <=? c) && (c <? total) then focus_node t (tree_node_by_index topo tree c) else t, topo)
  else if key_in ch [ord "c"; ord "C"] then (t, flip_control topo (tree_node_by_index topo tree c))
  else move c.

Definition normal_key (t : nsr_tui_state_t) (ch : Z) : Z * nsr_tui_state_t :=
  if is_key_for t "z" ch then (2, t)
  else if ch =? ord "S" then (3, with_switches t (negb (show_stats t)) (show_dashboard t) (frozen t))
  else if show_dashboard t && (ch =? ord "k") then (4, t)
  else if show_dashboard t && (ch =? ord "j") then (5, t)
  else (0, t).

(** ** One call *)

(** A mode key: pushes the mode unless it is the current one. *)
Definition enter_mode (t : nsr_tui_state_t) (mode : nsr_ui_mode_t) : nsr_tui_state_t :=
  if mode_is (current_mode t) mode then t else push_nav t mode.

(** The part after the modal, quit and dashboard keys. *)
Definition mode_key (width : Z) (t : nsr_tui_state_t) (topo : nsr_topology_state_t) (tree : list nat) (ch : Z)
    (m : M) : Z * nsr_tui_state_t * nsr_topology_state_t * M :=
  if mode_is (current_mode t) NSR_UI_TOOLS then
    let '(t, m) := tools_key t ch m in (0, t, topo, m)
  else if is_key_for t "n" ch then (0, goto_normal t, topo, m)
  else if is_key_for t "g" ch then (0, enter_mode t NSR_UI_GRID, topo, m)
  else if is_key_for t "m" ch then (0, enter_mode t NSR_UI_TOOLS, topo, m)
  else if is_key_for t "t" ch then (0, enter_mode t NSR_UI_TREE, topo, m)
  else if ch =? ESC then (0, pop_nav t, topo, m)
  else if is_key_for t "p" ch then
    (0, with_switches t (show_stats t) (show_dashboard t) (negb (frozen t)), topo, m)
  else
    let '(handled, m) := vt_on_key m ch in
    if handled : bool then (0, t, topo, m)
    else
      match current_mode t with
      | NSR_UI_GRID => let '(t, topo) := grid_key width t topo ch in (0, t, topo, m)
      | NSR_UI_TREE => let '(t, topo) := tree_key t topo tree ch in (0, t, topo, m)
      | _ => let '(cmd, t) := normal_key t ch in (cmd, t, topo, m)
      end.

(** [now]: the result of [time]. *)
Definition nsr_tui_update (width now : Z) (t : nsr_tui_state_t) (topo : nsr_topology_state_t) (tree : list nat)
    (ch : Z) (m : M) : Z * nsr_tui_state_t * nsr_topology_state_t * M :=
  if ch =? ERR then (0, t, topo, m)
  else
    let '(modal, m) := vt_modal_active m in
    if modal : bool then let '(_, m) := vt_on_key m ch in (0, t, topo, m)
    else if is_key_for t "q" ch then (1, t, topo, m)
    else if is_key_for t "d" ch then
      if mode_is (current_mode t) NSR_UI_NORMAL then (6, t, topo, m)
      else (0, show_tui_msg t (str "Please enter a dashboard at Normal Mode") 3 now, topo, m)
    else mode_key width t topo tree ch m.

End Update.

(** The codes of ncurses. *)
Definition ncurses_codes : Ncurses.
Proof.
  refine {| KEY_DOWN := 258; KEY_UP := 259; KEY_LEFT := 260; KEY_RIGHT := 261; KEY_ENTER := 343 |}.
  - apply (bool_decide_unpack _). vm_compute. exact I.
  - repeat first [apply Forall_nil_2 | apply Forall_cons_2; [reflexivity|]].
Defined.

(** ** Keys *)

(** The key that triggers a built-in binding is a letter, so that Escape and the
    function keys trigger none. *)
Lemma label_is_letter plugins c :
  c ∈ RESERVED_KEYS ->
  let l := key_mgr_label_char (key_mgr_init plugins) c in l ∈ RESERVED_KEYS ++ fallback_slots.
Proof.
  intros Hc. cbn zeta. destruct (key_mgr_inv plugins) as (_ & Hnd & Hl & _ & Ht).
  unfold key_mgr_label_char. rewrite Ht. unfold slot_of. set (moved := moved_keys (live_keys plugins)) in *.
  destruct (list_find (fun k => k = nsr_tolower_char c) moved) as [[j k]|] eqn:E;
    [|rewrite Z.eqb_refl; apply elem_of_app; by left].
  apply list_find_Some in E as (Hj & _ & _). apply lookup_lt_Some in Hj.
  destruct (slot_nonzero j ltac:(lia)) as (s & Es & Hs). rewrite Es.
  change (default 0 (ord <$> Some s)) with (ord s). rewrite (proj2 (Z.eqb_neq (ord s) 0)) by done. rewrite chr_ord. apply elem_of_app. right.
  by eapply list_elem_of_lookup_2.
Qed.

(** A character whose lower case is no such letter, or a function key. *)
Definition no_binding (ch : Z) : bool :=
  (255 <? ch) || (ch <? 0)
  || forallb (fun l => negb (ceq (nsr_tolower_char (chr ch)) (nsr_tolower_char l))) (RESERVED_KEYS ++ fallback_slots).

Lemma no_binding_spec plugins c ch :
  no_binding ch = true -> c ∈ RESERVED_KEYS -> key_mgr_matches (key_mgr_init plugins) c ch = false.
Proof.
  intros Hn Hc. pose proof (label_is_letter plugins c Hc) as Hl. cbn zeta in Hl. unfold key_mgr_matches.
  unfold no_binding in Hn. destruct (ch <? 0); [done|]. destruct (255 <? ch); [done|]. cbn [orb] in *.
  rewrite forallb_forall in Hn. apply list_elem_of_In in Hl. specialize (Hn _ Hl).
  by apply negb_true_iff in Hn.
Qed.

Lemma escape_triggers_nothing plugins c :
  c ∈ RESERVED_KEYS -> key_mgr_matches (key_mgr_init plugins) c ESC = false.
Proof. apply no_binding_spec. vm_compute. reflexivity. Qed.

(** ** Navigation *)

Section Navigation.
  Context `{Ncurses} {M : Type} `{PluginManager M}.

(** What a key may do to mode and history: nothing, or one navigation call; menu
    mode is entered only from another mode and left only to the mode it was
    entered from. *)
Definition nav_moves (t t' : nsr_tui_state_t) : Prop :=
  (current_mode t' = current_mode t /\ nav_stack t' = nav_stack t) \/
  exists c, (current_mode t', nav_stack t') = (current_mode (run_nav t c), nav_stack (run_nav t c)) /\
    match c with
    | Push m => current_mode t <> NSR_UI_TOOLS /\ m <> current_mode t
    | Pop => True
    | GotoNormal => current_mode t <> NSR_UI_TOOLS
    end.

Lemma nav_same t t' :
  current_mode t' = current_mode t -> nav_stack t' = nav_stack t -> nav_moves t t'.
Proof. by left. Qed.

Lemma nav_push t m t' :
  current_mode t <> NSR_UI_TOOLS -> m <> current_mode t ->
  current_mode t' = current_mode (push_nav t m) -> nav_stack t' = nav_stack (push_nav t m) -> nav_moves t t'.
Proof. intros ? ? E1 E2. right. exists (Push m). split; [by rewrite E1, E2|done]. Qed.

Lemma nav_pop t t' :
  current_mode t' = current_mode (pop_nav t) -> nav_stack t' = nav_stack (pop_nav t) -> nav_moves t t'.
Proof. intros E1 E2. right. exists Pop. split; [by rewrite E1, E2|done]. Qed.

#[local] Hint Resolve nav_same nav_push nav_pop : nsr.

Lemma mode_is_true m m' : mode_is m m' = true <-> m = m'.
Proof. apply bool_decide_eq_true. Qed.

Lemma mode_is_false m m' : mode_is m m' = false <-> m <> m'.
Proof. apply bool_decide_eq_false. Qed.

Lemma enter_mode_moves t m : current_mode t <> NSR_UI_TOOLS -> nav_moves t (enter_mode t m).
Proof.
  intros Ht. unfold enter_mode. destruct (mode_is (current_mode t) m) eqn:E; [by apply nav_same|].
  apply mode_is_false in E. eapply nav_push; eauto.
Qed.

Lemma focus_node_nav t n :
  current_mode (focus_node t n) = current_mode (push_nav t NSR_UI_NORMAL) /\
  nav_stack (focus_node t n) = nav_stack (push_nav t NSR_UI_NORMAL).
Proof. unfold focus_node, push_nav. destruct n as [[i n]|]; cbn; split_if; done. Qed.

Lemma grid_key_moves width t topo ch :
  current_mode t = NSR_UI_GRID -> nav_moves t (grid_key width t topo ch).1.
Proof.
  intros Hm. destruct (focus_node_nav t (node_by_visual_index topo (grid_cursor t))).
  unfold grid_key. repeat split_if; cbn [fst]; try (by apply nav_same).
  apply (nav_push t NSR_UI_NORMAL); [by rewrite Hm|by rewrite Hm|done|done].
Qed.

Lemma tree_key_moves t topo tree ch :
  current_mode t = NSR_UI_TREE -> nav_moves t (tree_key t topo tree ch).1.
Proof.
  intros Hm. destruct (focus_node_nav t (tree_node_by_index topo tree (tree_cursor t))).
  unfold tree_key. destruct (key_in ch key_up), (key_in ch key_down), (key_in ch key_left), (key_in ch key_right);
    try (by apply nav_same).
  destruct (key_in ch [10; KEY_ENTER]).
  - split_if; [|by apply nav_same]. apply (nav_push t NSR_UI_NORMAL); [by rewrite Hm|by rewrite Hm|done|done].
  - destruct (key_in ch [ord "c"; ord "C"]); by apply nav_same.
Qed.

Lemma normal_key_moves t ch : nav_moves t (normal_key t ch).2.
Proof. unfold normal_key. repeat split_if; by apply nav_same. Qed.

Lemma tools_key_nav t ch (m : M) :
  nav_moves t (tools_key t ch m).1.
Proof.
  unfold tools_key.
  assert (Hf : forall (u : nsr_tui_state_t) (m' : M) c s, nav_moves t u -> nav_moves t (with_tools u c s, m').1).
  { intros u m' c s [[E1 E2]|(k & E & Hk)]; [by left|]. right. exists k. split; [exact E|exact Hk]. }
  destruct (key_in ch key_up); [destruct (0 <? _); apply Hf; by apply nav_same|].
  destruct (key_in ch key_down); [destruct (_ <? _); apply Hf; by apply nav_same|].
  destruct (key_in ch key_left); [destruct (0 <? _); apply Hf; by apply nav_same|].
  destruct (key_in ch key_right); [destruct (_ <? _); apply Hf; by apply nav_same|].
  destruct (key_in ch [10; 13; KEY_ENTER]); [apply Hf; by apply nav_same|].
  destruct (key_in ch [ESC; ord "t"; ord "T"]); [|apply Hf; by apply nav_same].
  destruct (_ || _); apply Hf; [by apply nav_pop|by apply nav_same].
Qed.

Lemma mode_key_moves width t topo tree ch m :
  nav_moves t (mode_key width t topo tree ch m).1.1.2.
Proof.
  unfold mode_key. destruct (mode_is (current_mode t) NSR_UI_TOOLS) eqn:Et.
  { pose proof (tools_key_nav t ch m) as Hk. by destruct (tools_key t ch m) as [t' m']. }
  apply mode_is_false in Et.
  destruct (is_key_for t "n" ch); [right; by exists GotoNormal|].
  destruct (is_key_for t "g" ch); [by apply enter_mode_moves|].
  destruct (is_key_for t "m" ch); [by apply enter_mode_moves|].
  destruct (is_key_for t "t" ch); [by apply enter_mode_moves|].
  destruct (ch =? ESC); [by apply nav_pop|]. destruct (is_key_for t "p" ch); [by apply nav_same|].
  destruct (vt_on_key m ch) as [[] m']; [by apply nav_same|].
  pose proof (grid_key_moves width t topo ch) as Hg. pose proof (tree_key_moves t topo tree ch) as Htr.
  pose proof (normal_key_moves t ch) as Hn.
  destruct (grid_key width t topo ch), (tree_key t topo tree ch), (normal_key t ch).
  destruct (current_mode t) eqn:Em; cbn [fst snd] in *; auto.
Qed.

Lemma update_moves width now t topo tree ch m :
  nav_moves t (nsr_tui_update width now t topo tree ch m).1.1.2.
Proof.
  unfold nsr_tui_update. split_if; [by apply nav_same|]. destruct (vt_modal_active m) as [[] m1].
  { destruct (vt_on_key m1 ch). by apply nav_same. }
  destruct (is_key_for t "q" ch); [by apply nav_same|].
  destruct (is_key_for t "d" ch); [split_if; by apply nav_same|]. apply mode_key_moves.
Qed.

(** *** Back to the normal view *)

(** The presses of Escape, each reading the state the one before has left. *)
Fixpoint press_escape (n : nat) (width now : Z) (t : nsr_tui_state_t) (topo : nsr_topology_state_t)
    (tree : list nat) (m : M) : nsr_tui_state_t * M :=
  match n with
  | O => (t, m)
  | S n' =>
      let '(_, t, topo, m) := nsr_tui_update width now t topo tree ESC m in
      press_escape n' width now t topo tree m
  end.

(** A set of manager states in which no plugin is modal and which polling for one
    does not leave. *)
Definition never_modal (P : M -> Prop) : Prop :=
  forall m, P m -> (vt_modal_active m).1 = false /\ P (vt_modal_active m).2.

Lemma escape_pops width now t topo tree m plugins :
  keys t = key_mgr_init plugins -> (vt_modal_active m).1 = false ->
  exists t', nsr_tui_update width now t topo tree ESC m = (0, t', topo, (vt_modal_active m).2) /\
    current_mode t' = current_mode (pop_nav t) /\ nav_stack t' = nav_stack (pop_nav t) /\ keys t' = keys t.
Proof.
  intros Hk Hm. unfold nsr_tui_update. change (ESC =? ERR) with false. cbv iota.
  destruct (vt_modal_active m) as [b m1]. cbn [fst snd] in *. subst b.
  assert (Hno : forall c, c ∈ RESERVED_KEYS -> is_key_for t c ESC = false).
  { intros c Hc. unfold is_key_for. rewrite Hk. by apply escape_triggers_nothing. }
  rewrite (Hno "q"%char), (Hno "d"%char) by (apply (bool_decide_unpack _); vm_compute; exact I).
  unfold mode_key. destruct (mode_is (current_mode t) NSR_UI_TOOLS).
  - unfold tools_key. pose proof keys_wide as Hw. rewrite !Forall_cons in Hw.
    destruct Hw as (W1 & W2 & W3 & W4 & W5 & _).
    assert (Hin : forall l, Forall (fun k => k <> ESC) l -> key_in ESC l = false).
    { intros l Hl. apply bool_decide_eq_false. intros He. rewrite Forall_forall in Hl. by apply (Hl ESC). }
    rewrite !Hin by (repeat first [apply Forall_nil_2 | apply Forall_cons_2; [unfold ESC; first [lia | by vm_compute]|]]).
    assert (key_in ESC [ESC; ord "t"; ord "T"] = true) as -> by (apply bool_decide_eq_true; by left).
    rewrite Z.eqb_refl. cbn [orb]. eexists. split; [reflexivity|]. unfold pop_nav. split_if; done.
  - rewrite (Hno "n"%char), (Hno "g"%char), (Hno "m"%char), (Hno "t"%char)
      by (apply (bool_decide_unpack _); vm_compute; exact I).
    rewrite Z.eqb_refl. eexists. split; [reflexivity|]. unfold pop_nav. split_if; done.
Qed.

Lemma press_escape_spec n P width now t topo tree m plugins :
  never_modal P -> P m -> keys t = key_mgr_init plugins -> stack_wf (nav_stack t) ->
  let t' := (press_escape n width now t topo tree m).1 in
  history t' = drop n (history t) /\
  ((length (history t) < n)%nat -> current_mode t' = NSR_UI_NORMAL).
Proof.
  intros HP. revert t m. induction n as [|n IH]; intros t m Hm Hk Hw; cbn [press_escape].
  { cbn. split; [done|lia]. }
  destruct (HP m Hm) as [Hb Hm'].
  destruct (escape_pops width now t topo tree m plugins Hk Hb) as (t1 & -> & Em & En & Ek).
  destruct (pop_nav_spec t Hw) as (Hw1 & Ec1 & Eh1). rewrite <- En in Hw1.
  assert (Eh : history t1 = tl (history t)) by (rewrite <- Eh1; unfold history; by rewrite En).
  destruct (IH t1 (vt_modal_active m).2 Hm' ltac:(congruence) Hw1) as [E1 E2]. cbn zeta in *. split.
  - rewrite E1, Eh. destruct (history t); [by destruct n|done].
  - intros Hlt. destruct (history t) as [|x l] eqn:El.
    + destruct n as [|n]; [cbn; rewrite Em, Ec1; done|]. apply E2. rewrite Eh. cbn. lia.
    + apply E2. rewrite Eh. cbn in *. lia.
Qed.

(** C35: whatever views were opened, and in whatever order, at most nine presses of
    Escape lead back to the normal view, from the tools menu too, and leave no
    history, as long as no plugin shows a modal panel; keys that plugins reserve
    cannot take Escape away. *)
Theorem escape_reaches_normal P width now t topo tree m plugins :
  never_modal P -> P m -> keys t = key_mgr_init plugins -> stack_wf (nav_stack t) ->
  let t' := (press_escape 9 width now t topo tree m).1 in
  current_mode t' = NSR_UI_NORMAL /\ history t' = [].
Proof.
  intros HP Hm Hk Hw. pose proof (history_length t Hw) as Hl. pose proof Hw as [_ Hc].
  unfold NSR_UI_STACK_DEPTH in Hc.
  destruct (press_escape_spec 9 P width now t topo tree m plugins HP Hm Hk Hw) as [E1 E2]. cbn zeta. split.
  - apply E2. lia.
  - rewrite E1. apply drop_ge. lia.
Qed.

End Navigation.
