(* ===== verification/TuiColors.v ===== *)
(** * Attributes and colours on the screen (src/ui/tui.c, src/plugin/plugin.c)

    [nsr_tui_init] defines the colour pairs; frames switch attributes on and off
    around what they draw.  [attrs_after] follows the attributes that are on through
    the calls of a frame: a frame uses defined pairs only and switches off, in the
    opposite order, exactly what it has switched on, whatever the plugins have sent
    to be drawn in it. *)

From S2P Require Import Prelude CFloat JsonScan JsonDoc Telemetry Topology PluginConfig RpcConn PluginHost Draw TuiState PluginRender PluginMgr TreeOrder TuiView.

(** ** The pairs *)

(** The colours of curses; [-1] is the default of the terminal. *)
Inductive color :=
| COLOR_CYAN | COLOR_GREEN | COLOR_YELLOW | COLOR_RED | COLOR_MAGENTA | COLOR_BLUE | COLOR_WHITE
| COLOR_DEFAULT.

#[export] Instance color_eq_dec : EqDecision color.
Proof. solve_decision. Defined.

Record color_pair := mk_pair {
  cp_number : Z;
  cp_foreground : color;
  cp_background : color;
}.

(** The calls of [init_pair]. *)
Definition nsr_tui_init : list color_pair :=
  [mk_pair CP_ACCENT COLOR_CYAN COLOR_DEFAULT;
   mk_pair CP_HEALTH_GOOD COLOR_GREEN COLOR_DEFAULT;
   mk_pair CP_HEALTH_DEGRADED COLOR_YELLOW COLOR_DEFAULT;
   mk_pair CP_HEALTH_POOR COLOR_RED COLOR_DEFAULT;
   mk_pair CP_HEALTH_CRITICAL COLOR_RED COLOR_DEFAULT;
   mk_pair CP_HEALTH_UNREACHABLE COLOR_MAGENTA COLOR_DEFAULT;
   mk_pair CP_CTRL_PLANE COLOR_BLUE COLOR_DEFAULT;
   mk_pair CP_HIGHLIGHT COLOR_WHITE COLOR_BLUE].

Definition pair_of (n : Z) : option color_pair := List.find (fun p => cp_number p =? n) nsr_tui_init.

(** A pair that was not defined must not be used. *)
Definition defined_attr (a : attribute) : bool :=
  match a with
  | COLOR_PAIR n => match pair_of n with Some _ => true | None => false end
  | _ => true
  end.

(** ** What is switched on *)

(** The groups of attributes that are on after the calls, the last one first; [None]
    when an undefined pair is used or something is switched off that is not the last
    group that was switched on. *)
Fixpoint attrs_after (ds : list draw) (on : list (list attribute)) : option (list (list attribute)) :=
  match ds with
  | [] => Some on
  | AttrOn a :: ds' => if forallb defined_attr a then attrs_after ds' (a :: on) else None
  | AttrOff a :: ds' =>
      match on with
      | b :: on' => if bool_decide (a = b) then attrs_after ds' on' else None
      | [] => None
      end
  | _ :: ds' => attrs_after ds' on
  end.

Definition well_styled (ds : list draw) : Prop := forall on, attrs_after ds on = Some on.

Lemma attrs_after_app ds ds' on : attrs_after (ds ++ ds') on = (on' ← attrs_after ds on; attrs_after ds' on').
Proof.
  revert on. induction ds as [|d ds IH]; intros on; [done|]. destruct d; cbn [app attrs_after]; try apply IH.
  - split_if; [apply IH|done].
  - destruct on; [done|]. split_if; [apply IH|done].
Qed.

Lemma ws_nil : well_styled [].
Proof. done. Qed.

Lemma ws_app ds ds' : well_styled ds -> well_styled ds' -> well_styled (ds ++ ds').
Proof. intros H1 H2 on. rewrite attrs_after_app, H1. apply H2. Qed.

Lemma ws_cons d ds : well_styled [d] -> well_styled ds -> well_styled (d :: ds).
Proof. apply (ws_app [d]). Qed.

Lemma ws_styled a ds : forallb defined_attr a = true -> well_styled ds -> well_styled (styled a ds).
Proof.
  intros Ha Hd on. unfold styled. cbn [app attrs_after]. rewrite Ha, attrs_after_app, Hd. cbn.
  by rewrite bool_decide_eq_true_2.
Qed.

Lemma ws_concat dss : Forall well_styled dss -> well_styled (concat dss).
Proof. induction 1; [apply ws_nil|by apply ws_app]. Qed.

Lemma ws_concat_map {A} (f : A -> list draw) l : (forall x, well_styled (f x)) -> well_styled (concat (map f l)).
Proof. intros Hf. by apply ws_concat, Forall_map, Forall_true. Qed.

Lemma ws_if (b : bool) ds ds' : well_styled ds -> well_styled ds' -> well_styled (if b then ds else ds').
Proof. by destruct b. Qed.

Create HintDb styling.

(** Splits a list of calls; single calls other than of attributes are settled by
    evaluation. *)
Ltac styling :=
  repeat lazymatch goal with
    | |- well_styled [] => apply ws_nil
    | |- well_styled (styled _ _) => apply ws_styled; [try reflexivity|]
    | |- well_styled (_ ++ _) => apply ws_app
    | |- well_styled (_ :: _) => apply ws_cons; [by intros ?on|]
    | |- well_styled (if _ then _ else _) => apply ws_if
    | |- well_styled (match ?x with _ => _ end) => destruct x
    | |- well_styled (concat (map _ _)) => apply ws_concat_map; intros ?x
    | |- well_styled _ => solve [auto with styling]
    end.

(** ** The pieces of a frame *)

Lemma blank_rows_ws y x h w : well_styled (blank_rows y x h w).
Proof. unfold blank_rows. induction (seqZ 0 h); [apply ws_nil|]. cbn [map]. by styling. Qed.

Lemma clipped_ws sc y x w text : well_styled (tui_print_clipped sc y x w text).
Proof. unfold tui_print_clipped. styling. Qed.

Lemma box_ws sc y x h w title : well_styled (draw_box sc y x h w title).
Proof.
  unfold draw_box. apply ws_if; [apply ws_nil|]. apply ws_if; [apply ws_nil|].
  set (h' := if _ <=? y + h then _ else _). set (w' := if _ <=? x + w then _ else _). clearbody h' w'.
  rewrite app_assoc. refine (ws_styled [COLOR_PAIR CP_ACCENT] (_ :: _ :: _ :: _ :: _ :: _ :: _ :: _ :: _) eq_refl _).
  do 8 (apply ws_cons; [by intros on|]). destruct title as [t|]; [|apply ws_nil].
  apply (ws_styled [A_BOLD]); [done|apply clipped_ws].
Qed.

#[export] Hint Resolve blank_rows_ws clipped_ws box_ws : styling.

Lemma health_pair_defined n : forallb defined_attr [COLOR_PAIR (health_pair_for_node n)] = true.
Proof. unfold health_pair_for_node. by repeat split_if. Qed.

Lemma shade_defined (b : bool) n : forallb defined_attr [COLOR_PAIR (if b then CP_HIGHLIGHT else health_pair_for_node n)] = true.
Proof. destruct b; [done|apply health_pair_defined]. Qed.

Lemma footer_ws t es sc : well_styled (draw_footer t es sc).
Proof. unfold draw_footer. styling; apply clipped_ws. Qed.

Lemma notice_ws t sc now : well_styled (draw_notice t sc now).1.
Proof. unfold draw_notice. split_if; [apply ws_nil|]. cbn [fst]. styling. Qed.

Lemma head_ws sc title frz : well_styled (view_head sc title frz).
Proof. unfold view_head, title_bar, frozen_mark. styling. Qed.

#[export] Hint Resolve footer_ws notice_ws head_ws health_pair_defined shade_defined : styling.

(** ** The views *)

Lemma status_ws row h : well_styled (status_draws row h).
Proof. unfold status_draws. cbn zeta. styling. Qed.

#[export] Hint Resolve status_ws : styling.

Lemma normal_rows_ws i hs anns sc : well_styled (normal_rows i hs anns sc).
Proof.
  revert i. induction hs as [|h hs IH]; intros i; cbn [normal_rows]; [apply ws_nil|].
  apply ws_if; [apply ws_nil|]. apply ws_app; [|apply IH]. unfold normal_row. styling.
Qed.

Lemma dashboard_ws t interval sc : well_styled (dashboard t interval sc).
Proof. unfold dashboard. styling. Qed.

Lemma cell_ws c : well_styled (cell_draws c).
Proof. unfold cell_draws. styling. apply shade_defined. Qed.

Lemma node_line_ws sc y n is_last is_cursor anns hs : well_styled (node_line_draws sc y n is_last is_cursor anns hs).
Proof. unfold node_line_draws. styling. apply shade_defined. Qed.

#[export] Hint Resolve normal_rows_ws dashboard_ws cell_ws node_line_ws : styling.

Lemma tree_lines_ws topo sc cursor scroll avail anns hs ls line idx :
  well_styled (draw_tree_lines topo sc cursor scroll avail anns hs ls line idx).
Proof.
  revert line idx. induction ls as [|l ls IH]; intros line idx; cbn [draw_tree_lines]; [apply ws_nil|].
  destruct l; (apply ws_app; [|apply IH]); styling.
Qed.

#[export] Hint Resolve tree_lines_ws : styling.

Lemma no_nodes_ws : well_styled no_nodes.
Proof. unfold no_nodes. styling. Qed.

#[export] Hint Resolve no_nodes_ws : styling.

Section Frames.
  Context {M : Type} `{PluginManager M} (uptime_text : Z -> Z -> option (option cstr)).
  Context (panels_ws : forall (m : M) tui topo y x h w sh sw, well_styled (vt_render m tui topo y x h w sh sw).1).

Lemma tools_rows_ws (m : M) y x avail cursor scroll count : well_styled (tools_rows m y x avail cursor scroll count).
Proof. unfold tools_rows. styling. Qed.

Lemma description_ws (m : M) y x h cursor count : well_styled (tools_description m y x h cursor count).
Proof. unfold tools_description. styling. Qed.

Lemma plugin_panels_ws t topo sc (m : M) : well_styled (plugin_panels t topo sc m).1.
Proof. apply panels_ws. Qed.

Lemma frame_ws t tel topo tree sc now now_ns (m : M) :
  well_styled (nsr_tui_render uptime_text t tel topo tree sc now now_ns m).1.1.1.
Proof.
  unfold nsr_tui_render. split_if; [cbn [fst]; unfold frozen_mark; styling|].
  set (r := match current_mode t with NSR_UI_NORMAL => _ | _ => _ end).
  assert (Hr : well_styled r.1.1.1).
  { unfold r. destruct (current_mode t).
    - unfold render_normal. destruct (vt_render_hops m _ _ _) as [anns m1]. pose proof (plugin_panels_ws t topo sc m1) as Hp.
      destruct (plugin_panels t topo sc m1) as [ps m2]. cbn [fst] in *. styling.
    - unfold render_grid. set (t' := with_grid t _ _). pose proof (plugin_panels_ws t' topo sc m) as Hp.
      destruct (plugin_panels t' topo sc m) as [ps m2]. cbn [fst] in *. styling.
    - unfold render_tree. destruct (if 1 <? _ then _ else _) as [anns m1]. set (t' := with_tree t _ _).
      pose proof (plugin_panels_ws t' topo sc m1) as Hp. destruct (plugin_panels t' topo sc m1) as [ps m2]. cbn [fst] in *. styling.
    - unfold render_tools. cbn [fst]. pose proof tools_rows_ws. pose proof description_ws. styling. }
  destruct r as [[[ds t1] tree1] m1]. cbn [fst] in Hr. pose proof (notice_ws t1 sc now) as Hn.
  destruct (draw_notice t1 sc now) as [notice t2]. cbn [fst] in *. styling.
Qed.

End Frames.

(** ** What plugins draw *)

Lemma color_defined name : color_for_name name = 0 \/ forallb defined_attr [COLOR_PAIR (color_for_name name)] = true.
Proof. unfold color_for_name. repeat (split_if; [by right|]). by left. Qed.

Lemma draw_text_ws y x name text : well_styled (draw_text y x (color_for_name name) text).
Proof.
  unfold draw_text. destruct (color_defined name) as [->|Hd]; [by intros on|]. split_if; [styling|].
  apply (ws_styled [COLOR_PAIR (color_for_name name)] [Print y x text]); [done|styling].
Qed.

Lemma response_ws json y x : well_styled (draw_render_response json y x).
Proof.
  unfold draw_render_response. destruct (nsr_json_obj_get json _) as [[result l]|]; [|styling].
  destruct (nsr_json_obj_get result _) as [[lines l2]|]; styling. unfold draw_elem. cbn zeta.
  apply ws_if; [apply draw_text_ws|styling].
Qed.

Lemma panel_frame_ws p pair : forallb defined_attr [COLOR_PAIR pair] = true -> well_styled (panel_frame p pair).
Proof.
  intros Hd. destruct p as [py px ph pw]. unfold panel_frame. apply ws_app; [apply blank_rows_ws|].
  apply (ws_styled [COLOR_PAIR pair] [_; _; _; _; _; _; _; _]); [done|styling].
Qed.

Lemma place_panel_ws name modal m_w m_h y x h w sh sw : well_styled (place_panel name modal m_w m_h y x h w sh sw).2.
Proof. unfold place_panel. repeat split_if; cbn [snd]; [by apply panel_frame_ws..|styling]. Qed.

Lemma render_active_ws mode focus topo y x h w sh sw e o : well_styled (render_active mode focus topo y x h w sh sw e o).1.1.
Proof.
  unfold render_active. destruct (modal_request _) as [[modal m_w] m_h].
  pose proof (place_panel_ws (e_name (with_modal e modal)) modal m_w m_h y x h w sh sw) as Hp.
  destruct (place_panel _ _ _ _ _ _ _ _ _ _) as [p frame]. cbn [snd] in Hp.
  destruct (plugin_drain_response _ 5 o) as [[b e1] o1]. destruct (request_render _ _ _ _ _ _) as [e2 o2]. cbn [fst].
  apply ws_app; [done|]. destruct (last_render_resp (with_modal e modal)); [apply ws_nil|apply response_ws].
Qed.

Lemma plugins_render_ws mode focus topo y x h w sh sw es o :
  well_styled (nsr_plugins_render mode focus topo y x h w sh sw es o).1.1.
Proof.
  revert o. induction es as [|e es IH]; intros o; cbn [nsr_plugins_render]; [apply ws_nil|].
  destruct (plugin_check_alive e o) as [e1 o1].
  assert (Ha : well_styled (if active e1 then render_active mode focus topo y x h w sh sw e1 o1 else ([], e1, o1)).1.1)
    by (split_if; [apply render_active_ws|apply ws_nil]).
  destruct (if active e1 then _ else _) as [[d1 e2] o2]. specialize (IH o2).
  destruct (nsr_plugins_render _ _ _ _ _ _ _ _ _ es o2) as [[d2 es2] o3]. by apply ws_app.
Qed.

Lemma manager_panels_ws (m : nsr_plugin_manager) tui topo y x h w sh sw : well_styled (vt_render m tui topo y x h w sh sw).1.
Proof.
  cbn [vt_render nsr_plugin_manager_vtable]. unfold plugin_mgr_render.
  pose proof (plugins_render_ws (current_mode tui) (focused_node_id tui) topo y x h w sh sw (entries (pm_registry m)) (pm_os m)) as Hr.
  by destruct (nsr_plugins_render _ _ _ _ _ _ _ _ _ _ _) as [[ds es] o].
Qed.

(** C32: frames leave no attribute behind.  Whatever the state of the interface, the
    telemetry, the graph and the size of the screen, and whatever text, valid or not,
    the plugins have sent for their panels: a frame switches on attributes of colour
    pairs only that [nsr_tui_init] has defined, every group of attributes is switched
    off before the one around it, and none is on at the end of the frame. *)
Theorem frames_are_well_styled uptime_text t tel topo tree sc now now_ns (m : nsr_plugin_manager) :
  attrs_after (nsr_tui_render uptime_text t tel topo tree sc now now_ns m).1.1.1 [] = Some [].
Proof. apply frame_ws. intros. apply manager_panels_ws. Qed.

(** The colour that a plugin gets for a name. *)
Definition shown_color (name : cstr) : option color := cp_foreground <$> pair_of (color_for_name name).

(** The names a plugin may give to a text and the colours it gets: three of them are
    shown in the colour of another name, because the numbers were given out without
    the second red of the health classes. *)
Theorem plugin_colors_are_shifted :
  map shown_color (map str ["cyan"; "green"; "yellow"; "red"; "magenta"; "blue"; "white"; "highlight"]%string)
  = map Some [COLOR_CYAN; COLOR_GREEN; COLOR_YELLOW; COLOR_RED; COLOR_RED; COLOR_MAGENTA; COLOR_BLUE; COLOR_WHITE].
Proof. reflexivity. Qed.
