(* ===== verification/TuiSystem.v ===== *)
(** * The user interface as a whole (src/ui/tui.c)

    Keys, frames and telemetry in any order: the invariant of the interface state,
    and what single keys do.  The interface is used with any plugin manager that
    obeys the laws of PluginMgr.v. *)

From stdpp Require Import relations.
From S2P Require Import Prelude Telemetry Topology KeySlots.
From S2P Require Import RpcConn PluginHost Draw TuiState PluginRender PluginMgr TreeOrder TuiView TuiInput.

(** ** The invariant *)

(** [plugins]: the number of plugins.  Cursors index the 1024 nodes, or are -1 when
    there are none; the menu is never a place to return to; the message fits its
    array. *)
Record ui_ok (t : nsr_tui_state_t) (plugins : Z) : Prop := mk_ui_ok {
  ok_stack : stack_wf (nav_stack t);
  ok_history : NSR_UI_TOOLS ∉ history t;
  ok_grid : -1 <= grid_cursor t < 1024 /\ 0 <= grid_scroll_y t <= 1028;
  ok_tree : -1 <= tree_cursor t < 1024 /\ 0 <= tree_scroll t <= 1028;
  ok_tools : 0 <= tools_cursor t <= Z.max 0 (plugins - 1) /\ 0 <= tools_scroll t <= Z.max 0 (plugins - 1);
  ok_msg : (length (msg t) <= 127)%nat;
}.

Definition count_ok (topo : nsr_topology_state_t) : Prop := 0 <= nsr_topology_active_count topo <= 1024.

(** Only mode and stack matter to the first two clauses. *)
Lemma history_ext t t' : nav_stack t' = nav_stack t -> history t' = history t.
Proof. intros E. unfold history. by rewrite E. Qed.

Section Invariant.
  Context `{Ncurses} {M : Type} `{PluginManagerLaws M}.
  Context (uptime_text : Z -> Z -> option (option cstr)).

Lemma nav_moves_ok t t' :
  stack_wf (nav_stack t) -> NSR_UI_TOOLS ∉ history t -> nav_moves t t' ->
  stack_wf (nav_stack t') /\ NSR_UI_TOOLS ∉ history t'.
Proof.
  intros Hw Hh [[_ E]|(c & [= _ E] & Hc)].
  - rewrite E, (history_ext t t') by done. done.
  - rewrite E, (history_ext (run_nav t c) t') by done. destruct (run_nav_spec t c Hw) as [Hw' Hs]. apply (f_equal snd) in Hs.
    cbn [snd] in Hs. rewrite Hs. split; [done|]. destruct c as [md| |]; cbn.
    + split_if; [|done]. apply not_elem_of_cons. split; [by destruct Hc|done].
    + intros Hin. apply Hh. destruct (history t); [done|by right].
    + apply not_elem_of_nil.
Qed.

(** The fields an operation leaves as they are. *)
Lemma ui_ok_same t t' n :
  ui_ok t n -> nav_moves t t' -> grid_cursor t' = grid_cursor t -> grid_scroll_y t' = grid_scroll_y t ->
  tree_cursor t' = tree_cursor t -> tree_scroll t' = tree_scroll t -> tools_cursor t' = tools_cursor t ->
  tools_scroll t' = tools_scroll t -> msg t' = msg t -> ui_ok t' n.
Proof.
  intros [Hs Hh ? ? ? ?] Hm E1 E2 E3 E4 E5 E6 E7. destruct (nav_moves_ok t t' Hs Hh Hm).
  split; rewrite ?E1, ?E2, ?E3, ?E4, ?E5, ?E6, ?E7; done.
Qed.

Lemma keep_in_range c total : 0 <= total <= 1024 -> -1 <= keep_in c total < 1024.
Proof. intros. unfold keep_in. split_ifs; lia. Qed.

Lemma focus_node_ok t n k : ui_ok t k -> current_mode t <> NSR_UI_TOOLS -> current_mode t <> NSR_UI_NORMAL ->
  ui_ok (focus_node t n) k.
Proof.
  intros Hok Hm1 Hm2. destruct (focus_node_nav t n) as [E1 E2].
  apply (ui_ok_same t); [done|by apply (nav_push t NSR_UI_NORMAL)|..];
    unfold focus_node, push_nav; destruct n as [[i n]|]; cbn; split_if; done.
Qed.

Lemma with_grid_ok t c s n : ui_ok t n -> -1 <= c < 1024 -> 0 <= s <= 1028 -> ui_ok (with_grid t c s) n.
Proof. intros [] ? ?. by split. Qed.

Lemma with_tree_ok t c s n : ui_ok t n -> -1 <= c < 1024 -> 0 <= s <= 1028 -> ui_ok (with_tree t c s) n.
Proof. intros [] ? ?. by split. Qed.

Lemma with_tools_ok t c s n :
  ui_ok t n -> 0 <= c <= Z.max 0 (n - 1) -> 0 <= s <= Z.max 0 (n - 1) -> ui_ok (with_tools t c s) n.
Proof. intros [] ? ?. by split. Qed.

Lemma with_switches_ok t a b c n : ui_ok t n -> ui_ok (with_switches t a b c) n.
Proof. intros []. by split. Qed.

Lemma with_msg_ok t text till n : ui_ok t n -> (length text <= 127)%nat -> ui_ok (with_msg t text till) n.
Proof. intros [] ?. by split. Qed.

Lemma grid_key_ok width t topo ch n :
  ui_ok t n -> count_ok topo -> current_mode t = NSR_UI_GRID -> ui_ok (grid_key width t topo ch).1 n.
Proof.
  intros Hok Hc Hm. assert (Hmv : forall d, ui_ok (with_grid t (keep_in d (nsr_topology_active_count topo)) (grid_scroll_y t)) n).
  { intros d. apply with_grid_ok; [done|by apply keep_in_range|apply Hok]. }
  unfold grid_key. destruct (key_in ch key_left), (key_in ch key_right), (key_in ch key_up), (key_in ch key_down);
    try apply Hmv.
  destruct (key_in ch [10; KEY_ENTER]).
  - split_if; [|done]. apply focus_node_ok; [done|by rewrite Hm|by rewrite Hm].
  - destruct (key_in ch [ord "c"; ord "C"]); [done|apply Hmv].
Qed.

Lemma tree_key_ok t topo tree ch n :
  ui_ok t n -> count_ok topo -> current_mode t = NSR_UI_TREE -> ui_ok (tree_key t topo tree ch).1 n.
Proof.
  intros Hok Hc Hm. assert (Hmv : forall d, ui_ok (with_tree t (keep_in d (nsr_topology_active_count topo)) (tree_scroll t)) n).
  { intros d. apply with_tree_ok; [done|by apply keep_in_range|apply Hok]. }
  unfold tree_key. destruct (key_in ch key_up), (key_in ch key_down), (key_in ch key_left), (key_in ch key_right);
    try apply Hmv.
  destruct (key_in ch [10; KEY_ENTER]).
  - split_if; [|done]. apply focus_node_ok; [done|by rewrite Hm|by rewrite Hm].
  - destruct (key_in ch [ord "c"; ord "C"]); [done|apply Hmv].
Qed.

Lemma normal_key_ok t ch n : ui_ok t n -> ui_ok (normal_key t ch).2 n.
Proof. intros Hok. unfold normal_key. repeat split_if; cbn; auto using with_switches_ok. Qed.

(** The menu keeps its cursor on a plugin; it changes at most which are enabled. *)
Lemma tools_key_spec t ch (m : M) :
  let '(t', m') := tools_key t ch m in
  vt_count m' = vt_count m /\ tools_scroll t' = tools_scroll t /\
  0 <= tools_cursor t' <= Z.max 0 (vt_count m - 1) /\
  exists u, nav_moves t u /\ t' = with_tools u (tools_cursor t') (tools_scroll t) /\
    grid_cursor u = grid_cursor t /\ grid_scroll_y u = grid_scroll_y t /\ tree_cursor u = tree_cursor t /\
    tree_scroll u = tree_scroll t /\ msg u = msg t.
Proof.
  pose proof (count_range m) as Hc.
  assert (Hfin : forall u (m' : M), vt_count m' = vt_count m -> tools_scroll u = tools_scroll t -> nav_moves t u ->
    grid_cursor u = grid_cursor t -> grid_scroll_y u = grid_scroll_y t -> tree_cursor u = tree_cursor t ->
    tree_scroll u = tree_scroll t -> msg u = msg t ->
    let '(t', m'') := (with_tools u
       (let c := if tools_cursor u <? 0 then 0 else tools_cursor u in
        if vt_count m <=? c then if 0 <? vt_count m then vt_count m - 1 else 0 else c) (tools_scroll u), m') in
    vt_count m'' = vt_count m /\ tools_scroll t' = tools_scroll t /\
    0 <= tools_cursor t' <= Z.max 0 (vt_count m - 1) /\
    exists u, nav_moves t u /\ t' = with_tools u (tools_cursor t') (tools_scroll t) /\
      grid_cursor u = grid_cursor t /\ grid_scroll_y u = grid_scroll_y t /\ tree_cursor u = tree_cursor t /\
      tree_scroll u = tree_scroll t /\ msg u = msg t).
  { intros u m' E1 E2 Hn ? ? ? ? ?. split; [done|]. split; [done|]. split.
    - cbn [tools_cursor with_tools]. split_ifs; lia.
    - exists u. cbn [tools_cursor with_tools]. rewrite E2. by split_and!. }
  unfold tools_key.
  destruct (key_in ch key_up); [destruct (0 <? tools_cursor t); apply Hfin; by try apply nav_same|].
  destruct (key_in ch key_down); [destruct (tools_cursor t <? _); apply Hfin; by try apply nav_same|].
  destruct (key_in ch key_left); [destruct (0 <? tools_cursor t); apply Hfin; by try apply nav_same|].
  destruct (key_in ch key_right); [destruct (tools_cursor t <? _); apply Hfin; by try apply nav_same|].
  destruct (key_in ch [10; 13; KEY_ENTER]).
  { split_if; [|apply Hfin; by try apply nav_same].
    bool_facts. destruct (set_enabled_law m (tools_cursor t) (negb (vt_enabled m (tools_cursor t)))) as (E & _); [lia|].
    apply Hfin; by try apply nav_same. }
  destruct (key_in ch [ESC; ord "t"; ord "T"]); [|apply Hfin; by try apply nav_same].
  destruct ((ch =? ESC) || is_key_for t "t" ch); [|apply Hfin; by try apply nav_same].
  apply Hfin; try (by apply nav_pop); unfold pop_nav; try split_if; done.
Qed.

Lemma tools_key_ok t ch (m : M) :
  ui_ok t (vt_count m) -> ui_ok (tools_key t ch m).1 (vt_count m) /\ vt_count (tools_key t ch m).2 = vt_count m.
Proof.
  intros Hok. pose proof (tools_key_spec t ch m) as Hs. destruct (tools_key t ch m) as [t' m'].
  destruct Hs as (Ec & Es & Hr & u & Hn & Et & ? & ? & ? & ? & ?). split; [|done]. cbn [fst]. rewrite Et.
  pose proof Hok as [Hs Hh Hg Htr Hto Hm]. destruct (nav_moves_ok t u Hs Hh Hn).
  split; cbn; try done; try congruence; try (split; congruence || lia); intuition congruence.
Qed.

Definition ui_state : Type := nsr_tui_state_t * nsr_topology_state_t * list nat * M.

Definition ui_inv (s : ui_state) : Prop :=
  let '(t, topo, tree, m) := s in ui_ok t (vt_count m) /\ count_ok topo.

Lemma flip_count topo n : count_ok topo -> count_ok (flip_control topo n).
Proof. by destruct n as [[i n]|]. Qed.

Lemma key_count_ok width t topo tree ch :
  count_ok topo -> count_ok (grid_key width t topo ch).2 /\ count_ok (tree_key t topo tree ch).2.
Proof.
  intros Hc. unfold grid_key, tree_key. split; repeat (split_if; try done); by apply flip_count.
Qed.

Lemma enter_mode_ok t md n : ui_ok t n -> current_mode t <> NSR_UI_TOOLS -> ui_ok (enter_mode t md) n.
Proof.
  intros Hok Hm. apply (ui_ok_same t); [done|by apply enter_mode_moves|..];
    unfold enter_mode, push_nav; repeat split_if; done.
Qed.

Lemma mode_key_inv width t topo tree ch m :
  ui_inv (t, topo, tree, m) ->
  let '(_, t', topo', m') := mode_key width t topo tree ch m in ui_inv (t', topo', tree, m').
Proof.
  intros [Hok Hc]. unfold mode_key. destruct (mode_is (current_mode t) NSR_UI_TOOLS) eqn:Et.
  { pose proof (tools_key_ok t ch m Hok) as [Hf1 Hf2]. destruct (tools_key t ch m) as [t' m']. cbn [fst snd] in *.
    split; [by rewrite Hf2|done]. }
  apply mode_is_false in Et.
  destruct (is_key_for t "n" ch).
  { split; [|done]. apply (ui_ok_same t); try done. right. by exists GotoNormal. }
  destruct (is_key_for t "g" ch); [split; [by apply enter_mode_ok|done]|].
  destruct (is_key_for t "m" ch); [split; [by apply enter_mode_ok|done]|].
  destruct (is_key_for t "t" ch); [split; [by apply enter_mode_ok|done]|].
  destruct (ch =? ESC).
  { split; [|done]. apply (ui_ok_same t); try (by apply nav_pop); unfold pop_nav; try (split_if; done). done. }
  destruct (is_key_for t "p" ch); [split; [by apply with_switches_ok|done]|].
  pose proof (on_key_law m ch) as [Hcount _]. destruct (vt_on_key m ch) as [[] m'] eqn:E; cbn [snd] in Hcount.
  { split; [by rewrite Hcount|done]. }
  destruct (key_count_ok width t topo tree ch Hc) as [Hg Htr].
  pose proof (grid_key_ok width t topo ch _ Hok Hc) as Hg'. pose proof (tree_key_ok t topo tree ch _ Hok Hc) as Ht'.
  pose proof (normal_key_ok t ch _ Hok) as Hn'.
  destruct (grid_key width t topo ch), (tree_key t topo tree ch), (normal_key t ch). cbn [fst snd] in *.
  destruct (current_mode t) eqn:Em; unfold ui_inv; rewrite Hcount; auto.
Qed.

Lemma update_inv width now t topo tree ch m :
  ui_inv (t, topo, tree, m) ->
  let '(_, t', topo', m') := nsr_tui_update width now t topo tree ch m in ui_inv (t', topo', tree, m').
Proof.
  intros [Hok Hc]. unfold nsr_tui_update. split_if; [by split|].
  pose proof (modal_active_law m) as [Hc1 _]. destruct (vt_modal_active m) as [[] m1]; cbn [snd] in Hc1.
  { pose proof (on_key_law m1 ch) as [Hc2 _]. destruct (vt_on_key m1 ch) as [b m2]. cbn [snd] in Hc2.
    split; [by rewrite Hc2, Hc1|done]. }
  assert (ui_inv (t, topo, tree, m1)) as Hi by (split; [by rewrite Hc1|done]).
  destruct (is_key_for t "q" ch); [done|]. destruct (is_key_for t "d" ch); [|by apply mode_key_inv].
  split_if; [done|]. split; [|done]. rewrite Hc1. apply with_msg_ok; [done|]. vm_compute. lia.
Qed.

(** ** Frames *)

Lemma follow_range c s avail hi : 0 <= c <= hi -> - 4 <= avail -> 0 <= follow c s avail <= hi + 5.
Proof. intros. unfold follow. split_ifs; lia. Qed.

Lemma grid_scroll_range row s avail rows :
  0 <= row <= 1023 -> - 4 <= avail -> 0 <= grid_scroll row s avail rows <= 1028.
Proof.
  intros. pose proof (follow_range row s avail 1023 ltac:(lia) ltac:(lia)) as Hf.
  unfold grid_scroll. cbv zeta. set (f := follow row s avail) in *. clearbody f. split_ifs; lia.
Qed.

Lemma clamp_range c total : 0 <= total <= 1024 -> 0 <= clamp_cursor c total < 1024.
Proof. intros. unfold clamp_cursor. split_ifs; lia. Qed.

Lemma quot_range a b : 0 <= a < 1024 -> 1 <= b -> 0 <= Z.quot a b <= 1023.
Proof.
  intros. rewrite Z.quot_div_nonneg by lia. pose proof (Z.div_mod a b). pose proof (Z.mod_pos_bound a b).
  split; [apply Z.div_pos; lia|]. nia.
Qed.

Lemma panels_count t topo sc (m : M) : vt_count (plugin_panels t topo sc m).2 = vt_count m.
Proof. apply render_law. Qed.

Lemma render_grid_inv t topo tree sc m :
  current_mode t = NSR_UI_GRID -> ui_inv (t, topo, tree, m) -> 0 <= max_y sc -> 0 <= max_x sc ->
  let '(_, t', m') := render_grid t topo tree sc m in ui_inv (t', topo, tree, m').
Proof.
  intros Hm [Hok Hc] Hy Hx. unfold render_grid, mode_is. rewrite Hm, (bool_decide_eq_false_2 (_ = NSR_UI_TREE)) by done.
  pose proof (panels_count (with_grid t (clamp_cursor (grid_cursor t) (nsr_topology_active_count topo))
    (grid_scroll (Z.quot (clamp_cursor (grid_cursor t) (nsr_topology_active_count topo)) (grid_cols (max_x sc)))
       (grid_scroll_y t) (max_y sc - 2 - 2)
       (let r := Z.quot (nsr_topology_active_count topo + grid_cols (max_x sc) - 1) (grid_cols (max_x sc)) in
        if r <? 1 then 1 else r))) topo sc m) as Hp.
  destruct (plugin_panels _ topo sc m) as [ps m']. cbn [snd] in Hp. split; [|done]. rewrite Hp.
  destruct (grid_cols_range (max_x sc) Hx) as [Hcols _].
  pose proof (clamp_range (grid_cursor t) _ Hc) as Hcl.
  apply with_grid_ok; [done|lia|]. apply grid_scroll_range; [|lia]. by apply quot_range.
Qed.

Lemma render_tree_inv t topo tree sc m :
  ui_inv (t, topo, tree, m) -> 0 <= max_y sc -> (length (tree_nodes (tree_lines topo)) <= 1024)%nat ->
  let '(_, t', tree', m') := render_tree t topo sc m in ui_inv (t', topo, tree', m').
Proof.
  intros [Hok Hc] Hy Hl. unfold render_tree.
  set (hops := sim_groups _ _ _ _ _ _). set (r := if 1 <? _ then _ else _).
  assert (Hr : vt_count r.2 = vt_count m) by (unfold r; split_if; [apply render_hops_law|done]).
  destruct r as [anns m1]. cbn [snd] in Hr.
  pose proof (clamp_range (tree_cursor t) (Z.of_nat (length (tree_nodes (tree_lines topo)))) ltac:(lia)) as Hcl.
  set (cur := clamp_cursor _ _) in *.
  pose proof (follow_range cur (tree_scroll t) (max_y sc - 2 - 2) 1023 ltac:(lia) ltac:(lia)) as Hf.
  set (s := follow _ _ _) in *. pose proof (panels_count (with_tree t cur s) topo sc m1) as Hp.
  destruct (plugin_panels _ topo sc m1) as [ps m2]. cbn [snd] in Hp. split; [|done]. rewrite Hp, Hr.
  apply with_tree_ok; [done|lia|lia].
Qed.

Lemma render_tools_inv t topo tree sc (m : M) :
  ui_inv (t, topo, tree, m) ->
  let '(_, t', m') := render_tools t sc m in ui_inv (t', topo, tree, m').
Proof.
  intros [Hok Hc]. pose proof (count_range m) as Hn. unfold render_tools. split; [|done].
  pose proof (ok_tools _ _ Hok) as [Ht _].
  assert (0 <= tools_clamp (tools_cursor t) (vt_count m) <= Z.max 0 (vt_count m - 1)) as Hcl
    by (unfold tools_clamp; split_ifs; lia).
  apply with_tools_ok; [done|done|]. set (c := tools_clamp _ _) in *. clearbody c.
  unfold follow. set (h := if max_y sc - 8 <? 10 then _ else _).
  assert (10 <= h) by (unfold h; split_ifs; lia). clearbody h. split_ifs; lia.
Qed.

Lemma notice_inv t sc now n : ui_ok t n -> ui_ok (draw_notice t sc now).2 n.
Proof. intros Hok. unfold draw_notice. split_if; [|done]. apply with_msg_ok; [done|]. cbn. lia. Qed.

Lemma render_inv t tel topo tree sc now now_ns m :
  ui_inv (t, topo, tree, m) -> 0 <= max_y sc -> 0 <= max_x sc ->
  (length (tree_nodes (tree_lines topo)) <= 1024)%nat ->
  let '(_, t', tree', m') := nsr_tui_render uptime_text t tel topo tree sc now now_ns m in
  ui_inv (t', topo, tree', m').
Proof.
  intros Hi Hy Hx Hl. unfold nsr_tui_render. split_if; [done|].
  set (r := match current_mode t with NSR_UI_NORMAL => _ | _ => _ end).
  assert (Hr : let '(_, t', tree', m') := r in ui_inv (t', topo, tree', m')).
  { unfold r. destruct (current_mode t) eqn:Em.
    - unfold render_normal. pose proof (render_hops_law m (hops tel) NSR_MAX_HOPS NSR_MAX_HOPS) as [Hf1 _].
      destruct (vt_render_hops m _ _ _) as [anns m1]. cbn [snd] in Hf1.
      pose proof (panels_count t topo sc m1) as Hf2. destruct (plugin_panels t topo sc m1) as [ps m2].
      cbn [snd] in Hf2. destruct Hi. split; [by rewrite Hf2, Hf1|done].
    - pose proof (render_grid_inv t topo tree sc m Em Hi Hy Hx) as Hg.
      by destruct (render_grid t topo tree sc m) as [[ds t'] m'].
    - pose proof (render_tree_inv t topo tree sc m Hi Hy Hl) as Ht.
      by destruct (render_tree t topo sc m) as [[[ds t'] tree'] m'].
    - pose proof (render_tools_inv t topo tree sc m Hi) as Ht.
      by destruct (render_tools t sc m) as [[ds t'] m']. }
  destruct r as [[[ds t1] tree1] m1]. destruct Hr as [Hf1 Hf2].
  pose proof (notice_inv t1 sc now _ Hf1) as Hn. destruct (draw_notice t1 sc now) as [nd t2]. by split.
Qed.

(** ** Any order of events *)

(** What happens to the interface: a key (or none), a frame on a screen of any size,
    the dashboard command, and new telemetry, which changes the topology and goes
    to the plugins. *)
Inductive ui_step : ui_state -> ui_state -> Prop :=
| ui_key width now ch t topo tree m cmd t' topo' m' :
    nsr_tui_update width now t topo tree ch m = (cmd, t', topo', m') ->
    ui_step (t, topo, tree, m) (t', topo', tree, m')
| ui_frame tel sc now now_ns t topo tree m ds t' tree' m' :
    0 <= max_y sc -> 0 <= max_x sc ->
    nsr_tui_render uptime_text t tel topo tree sc now now_ns m = (ds, t', tree', m') ->
    ui_step (t, topo, tree, m) (t', topo, tree', m')
| ui_dashboard t topo tree m : ui_step (t, topo, tree, m) (nsr_tui_toggle_dashboard t, topo, tree, m)
| ui_telemetry tel topo' t topo tree m :
    count_ok topo' -> ui_step (t, topo, tree, m) (t, topo', tree, vt_update_telemetry m tel topo').

Lemma mark_last_length ttl c s l g : (length (mark_last ttl c s l g) <= 1024 - g)%nat.
Proof.
  revert s g. induction l as [|x l IH]; intros s g; cbn [mark_last]; [cbn; lia|].
  destruct (g <? 1024)%nat eqn:E; [|cbn; lia]. apply Nat.ltb_lt in E. cbn [length]. specialize (IH (bump s (ttl x)) (S g)). lia.
Qed.

(** The guard of the drawing loop bounds the array of tree nodes on every topology. *)
Lemma group_lines_bound ttl groups g :
  (g <= 1024)%nat -> (length (tree_nodes (group_lines ttl groups g)) <= 1024 - g)%nat.
Proof.
  revert g. induction groups as [|[t ns] groups IH]; intros g Hg; cbn [group_lines]; [cbn; lia|].
  set (marks := mark_last _ _ _ ns g). pose proof (mark_last_length ttl (ttl_counts ttl ns) (replicate 256 0) ns g) as Hm.
  fold marks in Hm. change (tree_nodes (TargetLine t :: ?l)) with (tree_nodes l).
  rewrite tree_nodes_app, tree_nodes_marks, length_app, length_map. specialize (IH (g + length marks)%nat). lia.
Qed.

Lemma ui_step_inv s s' : ui_step s s' -> ui_inv s -> ui_inv s'.
Proof.
  intros Hs Hi.
  destruct Hs as [width now ch t topo tree m cmd t' topo' m' E|tel sc now now_ns t topo tree m ds t' tree' m' Hy Hx E
                 |t topo tree m|tel topo' t topo tree m Hc].
  - pose proof (update_inv width now t topo tree ch m Hi) as Hu. by rewrite E in Hu.
  - pose proof (render_inv t tel topo tree sc now now_ns m Hi Hy Hx) as Hr. rewrite E in Hr. apply Hr.
    apply (group_lines_bound _ _ 0). lia.
  - destruct Hi. split; [by apply with_switches_ok|done].
  - destruct Hi as [Hok _]. split; [|done]. by rewrite (proj1 (update_telemetry_law m tel topo')).
Qed.

(** C18: the state of the interface is well formed in every run: whatever keys are
    pressed, frames drawn on whatever screen sizes and telemetry received, from the
    initial state on the navigation stack stays inside its array and never holds the
    tools menu, the cursors of grid and tree index the 1024 nodes or are -1, the
    cursor of the tools menu is on a plugin (0 without plugins), the scroll offsets
    are bounded and the message fits its array. *)
Theorem ui_invariant table topo m s :
  count_ok topo -> rtc ui_step (tui_start table, topo, [], m) s ->
  let '(t, topo', _, m') := s in ui_ok t (vt_count m') /\ count_ok topo'.
Proof.
  intros Hc Hr. assert (ui_inv (tui_start table, topo, [], m)) as Hi.
  { pose proof (count_range m). split; [|done]. split; cbn; try lia; [done|apply not_elem_of_nil]. }
  assert (ui_inv s) as Hs; [|by destruct s as [[[t topo'] tree] m']].
  remember (tui_start table, topo, [], m) as s0 eqn:E. clear E. induction Hr; eauto using ui_step_inv.
Qed.

End Invariant.

(** ** What single keys do *)

Section Keys.
  Context `{Ncurses} {M : Type} `{PluginManagerLaws M}.

Lemma normal_key_commands t ch :
  let '(cmd, _) := normal_key t ch in
  (cmd = 0 \/ cmd = 2 \/ cmd = 3 \/ cmd = 4 \/ cmd = 5) /\
  (cmd = 4 \/ cmd = 5 -> show_dashboard t = true).
Proof.
  unfold normal_key. destruct (is_key_for t "z" ch); [split; [auto|lia]|].
  destruct (ch =? ord "S"); [split; [auto|lia]|].
  destruct (show_dashboard t); cbn [andb]; [|split; [auto|lia]].
  destruct (ch =? ord "k"); [split; auto 6|]. destruct (ch =? ord "j"); [split; auto 6|split; [auto|lia]].
Qed.

Lemma mode_key_commands width t topo tree ch m :
  let '(cmd, _, _, _) := mode_key width t topo tree ch m in
  (cmd = 0 \/ cmd = 2 \/ cmd = 3 \/ cmd = 4 \/ cmd = 5) /\
  (cmd <> 0 -> current_mode t = NSR_UI_NORMAL) /\ (cmd = 4 \/ cmd = 5 -> show_dashboard t = true).
Proof.
  unfold mode_key. destruct (mode_is (current_mode t) NSR_UI_TOOLS) eqn:Et.
  { destruct (tools_key t ch m). split_and!; [auto|done|lia]. }
  apply mode_is_false in Et.
  destruct (is_key_for t "n" ch), (is_key_for t "g" ch), (is_key_for t "m" ch), (is_key_for t "t" ch), (ch =? ESC),
    (is_key_for t "p" ch); try (split_and!; [auto|done|lia]).
  destruct (vt_on_key m ch) as [[] m']; [split_and!; [auto|done|lia]|].
  pose proof (normal_key_commands t ch) as Hn.
  destruct (grid_key width t topo ch), (tree_key t topo tree ch), (normal_key t ch), (current_mode t);
    try (split_and!; [auto|done|lia]); [|done]. destruct Hn. by split_and!.
Qed.

(** The commands a key can give to the main loop.  The program quits (1) exactly
    when the quit key is pressed while no plugin is modal, in the tools menu too,
    whose last line says that q goes back; the dashboard command (6) and the
    commands that act on the probing (2 to 5) come from the normal view only, those
    for the interval (4, 5) only while the dashboard is shown; a key that a modal
    plugin takes gives no command and changes nothing in the interface. *)
Theorem key_commands width now t topo tree ch m :
  let '(cmd, t', topo', _) := nsr_tui_update width now t topo tree ch m in
  0 <= cmd <= 6 /\
  (cmd = 1 <-> ch <> ERR /\ (vt_modal_active m).1 = false /\ is_key_for t "q" ch = true) /\
  (2 <= cmd -> current_mode t = NSR_UI_NORMAL) /\
  (cmd = 4 \/ cmd = 5 -> show_dashboard t = true) /\
  (ch = ERR \/ (vt_modal_active m).1 = true -> cmd = 0 /\ t' = t /\ topo' = topo).
Proof.
  unfold nsr_tui_update. destruct (ch =? ERR) eqn:Ee; bool_facts; [naive_solver lia|].
  destruct (vt_modal_active m) as [[] m1]; [destruct (vt_on_key m1 ch); cbn [fst]; naive_solver lia|].
  cbn [fst]. destruct (is_key_for t "q" ch); [naive_solver lia|]. destruct (is_key_for t "d" ch).
  - destruct (mode_is (current_mode t) NSR_UI_NORMAL) eqn:Em; [apply mode_is_true in Em|]; naive_solver lia.
  - pose proof (mode_key_commands width t topo tree ch m1) as Hk.
    destruct (mode_key width t topo tree ch m1) as [[[cmd t'] topo'] m']. destruct Hk as (Hr & Hn & Hd).
    split; [lia|]. split; [split; [lia|by intros (_ & _ & ?)]|]. split; [intros; apply Hn; lia|].
    split; [exact Hd|]. by intros [?|?].
Qed.

(** Enter in the tools menu switches the plugin under the cursor and nothing else:
    no other plugin, not the cursor, not the view; the interface knows its plugins
    only through the laws of the manager. *)
Theorem tools_enter_toggles width now t topo tree m plugins :
  current_mode t = NSR_UI_TOOLS -> keys t = key_mgr_init plugins -> (vt_modal_active m).1 = false ->
  0 <= tools_cursor t < vt_count m ->
  let '(cmd, t', topo', m') := nsr_tui_update width now t topo tree 10 m in
  cmd = 0 /\ topo' = topo /\ current_mode t' = NSR_UI_TOOLS /\ tools_cursor t' = tools_cursor t /\
  vt_count m' = vt_count m /\
  forall i, vt_enabled m' i = if decide (i = tools_cursor t) then negb (vt_enabled m i) else vt_enabled m i.
Proof.
  intros Hm Hk Hmod Hc. unfold nsr_tui_update. change (10 =? ERR) with false. cbv iota.
  pose proof (modal_active_law m) as [Hcount Hen]. destruct (vt_modal_active m) as [b m1]. cbn [fst snd] in *. subst b.
  assert (Hno : forall c, c ∈ RESERVED_KEYS -> is_key_for t c 10 = false).
  { intros c Hin. unfold is_key_for. rewrite Hk. by apply no_binding_spec. }
  rewrite (Hno "q"%char), (Hno "d"%char) by (apply (bool_decide_unpack _); vm_compute; exact I).
  unfold mode_key, mode_is. rewrite Hm, (bool_decide_eq_true_2 _ eq_refl). unfold tools_key.
  pose proof keys_wide as Hw. rewrite !Forall_cons in Hw. destruct Hw as (W1 & W2 & W3 & W4 & W5 & _).
  assert (Hin : forall l, Forall (fun k => k <> 10) l -> key_in 10 l = false).
  { intros l Hl. apply bool_decide_eq_false. intros He. rewrite Forall_forall in Hl. by apply (Hl 10). }
  rewrite !Hin by (repeat first [apply Forall_nil_2 | apply Forall_cons_2; [first [lia | by vm_compute]|]]).
  assert (key_in 10 [10; 13; KEY_ENTER] = true) as -> by (apply bool_decide_eq_true; by left).
  rewrite Hcount, (proj2 (Z.leb_le 0 (tools_cursor t))), (proj2 (Z.ltb_lt (tools_cursor t) (vt_count m))) by lia. cbn [andb].
  destruct (set_enabled_law m1 (tools_cursor t) (negb (vt_enabled m1 (tools_cursor t)))) as (E1 & E2 & E3); [lia|].
  cbn zeta in *. rewrite (proj2 (Z.ltb_ge (tools_cursor t) 0)) by lia. cbv iota.
  rewrite (proj2 (Z.leb_gt (vt_count m) (tools_cursor t))) by lia.
  split_and!; try done; [by rewrite E1|]. intros i. destruct (decide (i = tools_cursor t)) as [->|Hi].
  - by rewrite E2, Hen.
  - by rewrite E3, Hen.
Qed.

Lemma enter_reaches_view t ch topo tree width now m plugins :
  current_mode t <> NSR_UI_TOOLS -> keys t = key_mgr_init plugins -> no_binding ch = true -> ch <> ESC -> ch <> ERR ->
  (vt_modal_active m).1 = false -> (vt_on_key (vt_modal_active m).2 ch).1 = false ->
  exists m', nsr_tui_update width now t topo tree ch m =
    match current_mode t with
    | NSR_UI_GRID => let '(t, topo) := grid_key width t topo ch in (0, t, topo, m')
    | NSR_UI_TREE => let '(t, topo) := tree_key t topo tree ch in (0, t, topo, m')
    | _ => let '(cmd, t) := normal_key t ch in (cmd, t, topo, m')
    end.
Proof.
  intros Ht Hk Hb Hesc Herr Hmod Hkey. unfold nsr_tui_update. rewrite (proj2 (Z.eqb_neq ch ERR)) by done.
  destruct (vt_modal_active m) as [b m1]. cbn [fst snd] in *. subst b.
  assert (Hno : forall c, c ∈ RESERVED_KEYS -> is_key_for t c ch = false).
  { intros c Hin. unfold is_key_for. rewrite Hk. by apply no_binding_spec. }
  rewrite (Hno "q"%char), (Hno "d"%char) by (apply (bool_decide_unpack _); vm_compute; exact I).
  unfold mode_key. rewrite (proj2 (mode_is_false _ _)) by done.
  rewrite (Hno "n"%char), (Hno "g"%char), (Hno "m"%char), (Hno "t"%char), (Hno "p"%char)
    by (apply (bool_decide_unpack _); vm_compute; exact I).
  rewrite (proj2 (Z.eqb_neq ch ESC)) by done. destruct (vt_on_key m1 ch) as [b m2]. cbn [fst] in Hkey. subst b.
  by exists m2.
Qed.

(** Enter in the grid focuses the node under the cursor, which is the highlighted
    one, and shows the normal view; one press of Escape then returns to the grid
    with its cursor (unless the history was full); the topology is untouched. *)
Theorem grid_enter_focuses width now t topo tree m plugins i n :
  current_mode t = NSR_UI_GRID -> keys t = key_mgr_init plugins -> stack_wf (nav_stack t) ->
  (vt_modal_active m).1 = false -> (vt_on_key (vt_modal_active m).2 10).1 = false ->
  0 <= grid_cursor t < nsr_topology_active_count topo ->
  node_by_visual_index topo (grid_cursor t) = Some (i, n) ->
  let '(cmd, t', topo', _) := nsr_tui_update width now t topo tree 10 m in
  cmd = 0 /\ topo' = topo /\ focused_node_id t' = n_id n /\ current_mode t' = NSR_UI_NORMAL /\
  grid_cursor t' = grid_cursor t /\
  ((length (history t) < 8)%nat -> current_mode (pop_nav t') = NSR_UI_GRID /\ history (pop_nav t') = history t).
Proof.
  intros Hm Hk Hw Hmod Hkey Hc Hn.
  destruct (enter_reaches_view t 10 topo tree width now m plugins) as (m' & ->); try done; [by rewrite Hm|].
  rewrite Hm. unfold grid_key. pose proof keys_wide as Hwd. rewrite !Forall_cons in Hwd.
  destruct Hwd as (W1 & W2 & W3 & W4 & W5 & _).
  assert (Hin : forall l, Forall (fun k => k <> 10) l -> key_in 10 l = false).
  { intros l Hl. apply bool_decide_eq_false. intros He. rewrite Forall_forall in Hl. by apply (Hl 10). }
  rewrite !Hin by (repeat first [apply Forall_nil_2 | apply Forall_cons_2; [first [lia | by vm_compute]|]]).
  assert (key_in 10 [10; KEY_ENTER] = true) as -> by (apply bool_decide_eq_true; by left).
  rewrite (proj2 (Z.leb_le 0 _)), (proj2 (Z.ltb_lt _ _)), Hn by lia. cbn [andb]. unfold focus_node.
  set (t1 := with_focus t (n_id n)). destruct (push_nav_spec t1 NSR_UI_NORMAL Hw) as (Hw' & Ec & Eh).
  split_and!; try done; try (unfold push_nav; split_if; done).
  intros Hlt. change (history t1) with (history t) in Eh. rewrite (proj2 (Nat.ltb_lt _ _)) in Eh by done.
  destruct (pop_nav_spec (push_nav t1 NSR_UI_NORMAL) Hw') as (_ & -> & ->). rewrite Eh. cbn. by rewrite <- Hm.
Qed.

End Keys.

(** ** Witnesses *)

#[local] Existing Instance ncurses_codes.

(** A menu of two plugins, both off, of which the first cannot be started. *)
Definition two_plugins : nsr_plugin_manager :=
  mk_manager (mk_registry [new_plugin (str "a") (str "/a"); new_plugin (str "b") (str "/b")] [] [])
    (mk_os [] [] [] [] []) None false [] [].

Definition start : nsr_tui_state_t := tui_start (key_mgr_init []).

Lemma ui_invariant_witness :
  ui_ok (enter_mode start NSR_UI_TOOLS) (vt_count no_plugins) /\ count_ok demo_topo.
Proof.
  apply (ui_invariant (fun _ _ => None) (key_mgr_init []) demo_topo no_plugins
           (enter_mode start NSR_UI_TOOLS, demo_topo, [], no_plugins)).
  - split; vm_compute; discriminate.
  - apply rtc_once. apply (ui_key _ 80 0 (ord "m") start demo_topo [] no_plugins 0). reflexivity.
Defined.

Lemma escape_reaches_normal_witness :
  let t := push_nav (push_nav (push_nav start NSR_UI_GRID) NSR_UI_TREE) NSR_UI_TOOLS in
  current_mode (press_escape 9 80 0 t demo_topo [] two_plugins).1 = NSR_UI_NORMAL /\
  history (press_escape 9 80 0 t demo_topo [] two_plugins).1 = [].
Proof.
  cbn zeta.
  apply (escape_reaches_normal
    (fun m : nsr_plugin_manager => Forall (fun e => e_initialized e = false) (entries (pm_registry m)))
    80 0 (push_nav (push_nav (push_nav start NSR_UI_GRID) NSR_UI_TREE) NSR_UI_TOOLS) demo_topo [] two_plugins []).
  - intros m Hm. cbn. unfold plugin_mgr_modal_active, nsr_plugins_modal_active.
    assert (E : modal_active_loop (entries (pm_registry m)) (pm_os m) = (false, entries (pm_registry m), pm_os m)).
    { induction Hm as [|e es He Hm IH]; [reflexivity|]. cbn [modal_active_loop]. unfold plugin_check_alive.
      rewrite He. cbn [negb orb]. unfold active. rewrite He, andb_false_r. cbn [andb]. by rewrite IH. }
    rewrite E. split; [reflexivity|exact Hm].
  - repeat constructor.
  - reflexivity.
  - split; [reflexivity|]. vm_compute. split; discriminate.
Defined.

Lemma tools_enter_toggles_witness :
  let t := with_tools (enter_mode start NSR_UI_TOOLS) 1 0 in
  let '(_, _, _, m') := nsr_tui_update 80 0 t demo_topo [] 10 two_plugins in
  vt_enabled m' 1 = true /\ vt_enabled m' 0 = false.
Proof.
  cbn zeta.
  pose proof (tools_enter_toggles 80 0 (with_tools (enter_mode start NSR_UI_TOOLS) 1 0) demo_topo [] two_plugins []
    eq_refl eq_refl eq_refl ltac:(split; [vm_compute; discriminate|reflexivity])) as H.
  destruct (nsr_tui_update 80 0 (with_tools (enter_mode start NSR_UI_TOOLS) 1 0) demo_topo [] 10 two_plugins)
    as [[[cmd t'] topo'] m']. destruct H as (_ & _ & _ & _ & _ & H). split.
  - rewrite (H 1). reflexivity.
  - rewrite (H 0). reflexivity.
Defined.

Lemma grid_enter_focuses_witness :
  let t := with_grid (enter_mode start NSR_UI_GRID) 1 0 in
  let '(_, t', _, _) := nsr_tui_update 80 0 t counted_topo [] 10 no_plugins in
  focused_node_id t' = 2 /\ current_mode (pop_nav t') = NSR_UI_GRID.
Proof.
  cbn zeta.
  assert (Hn : exists i n, node_by_visual_index counted_topo 1 = Some (i, n) /\ n_id n = 2)
    by (eexists _, _; split; [vm_compute; reflexivity|reflexivity]).
  destruct Hn as (i & n & Hn & Hid).
  pose proof (grid_enter_focuses 80 0 (with_grid (enter_mode start NSR_UI_GRID) 1 0) counted_topo [] no_plugins [] i n
    eq_refl eq_refl ltac:(split; [reflexivity|vm_compute; split; discriminate]) eq_refl eq_refl
    ltac:(split; [vm_compute; discriminate|vm_compute; reflexivity]) Hn) as H.
  destruct (nsr_tui_update 80 0 (with_grid (enter_mode start NSR_UI_GRID) 1 0) counted_topo [] 10 no_plugins)
    as [[[cmd t'] topo'] m']. destruct H as (_ & _ & Hf & _ & _ & Hp). split; [by rewrite Hf|].
  apply Hp. vm_compute. lia.
Defined.
