(* ===== verification/Supervisor.v ===== *)
(** * Start-up and supervision (src/core/main.c)

    Options, paths, the sessions (one gatekeeper and one logic process per target)
    and the main loop, which reaps and restarts processes, drains the telemetry
    rings, rebuilds the topology, feeds the plugins and runs the user interface.
    [getopt_long], [getaddrinfo], [getpwnam] and the environment are arguments with
    their results; [fork] gives the next process id of a script (-1 when it is used
    up, as when it fails) and the parent is followed; a [turn_event] holds what one turn
    of the loop observes.  The children run Logic.v and Gatekeeper.v. *)

From stdpp Require Import relations.
From S2P Require Import Prelude CFloat Telemetry ShmRing HopAlias GateSetup Topology KeySlots JsonScan PluginConfig.
From S2P Require Import PluginHost Draw TuiState PluginRender PluginMgr TreeOrder TuiView TuiInput TuiSystem.

Definition MAX_SESSIONS : nat := 8.

(** ** Options *)

(** A result of [getopt_long]; [OptHelp] is [h] and everything unknown. *)
Inductive option_result :=
| OptInterval (optarg : cstr)
| OptSilent
| OptIPv4
| OptIPv6
| OptHelp.

Record settings := mk_settings {
  st_interval_ms : Z;
  st_silent : bool;
  st_family : family;
}.

Definition default_settings : settings := mk_settings 100 false AF_UNSPEC.

(** [interval_ms = atoi(optarg)] and the two adjustments; the variable is unsigned. *)
Definition parse_interval (optarg : cstr) : Z :=
  let interval_ms := u32 (atoi optarg) in
  if interval_ms <? 10 then 10 else if 1000 <? interval_ms then 1000 else interval_ms.

(** [None]: the usage is printed and the program fails. *)
Fixpoint parse_options (opts : list option_result) (s : settings) : option settings :=
  match opts with
  | [] => Some s
  | OptInterval a :: opts' => parse_options opts' (mk_settings (parse_interval a) (st_silent s) (st_family s))
  | OptSilent :: opts' => parse_options opts' (mk_settings (st_interval_ms s) true (st_family s))
  | OptIPv4 :: opts' => parse_options opts' (mk_settings (st_interval_ms s) (st_silent s) AF_INET)
  | OptIPv6 :: opts' => parse_options opts' (mk_settings (st_interval_ms s) (st_silent s) AF_INET6)
  | OptHelp :: _ => None
  end.

(** ** Paths *)

(** The environment: [HOME], [SUDO_USER], the user id and the home directories of
    the password database ([pw_dir]). *)
Record environment := mk_env {
  env_home : option cstr;
  env_sudo_user : option cstr;
  uid : Z;
  getpwnam : cstr -> option cstr;
}.

(** [s && s[0]]. *)
Definition non_empty (s : option cstr) : option cstr :=
  match s with Some ((_ :: _) as s) => Some s | _ => None end.

(** The home directory of the user who called sudo. *)
Definition sudo_home (env : environment) : option cstr :=
  if uid env =? 0 then
    user ← non_empty (env_sudo_user env);
    non_empty (getpwnam env user)
  else None.

Definition nsr_config_path (env : environment) : cstr :=
  let home := match non_empty (env_home env) with
              | Some h => h
              | None => default (str "/tmp") (sudo_home env)
              end in
  take 255 (home ++ str "/.nsrconfig").

Definition nsr_plugins_load_from_home (home : option cstr) : list cstr :=
  match non_empty home with
  | Some home => [take 511 (home ++ str "/.nsr/plugins")]
  | None => []
  end.

(** The directories [load_dir] is called with, in order. *)
Definition nsr_plugins_load_user_dir (env : environment) : list cstr :=
  nsr_plugins_load_from_home (env_home env) ++ nsr_plugins_load_from_home (sudo_home env).

(** ** Sessions *)

(** [logic_config] is not a field of the C structure: it is the configuration that
    the logic process running as [logic_pid] was started with, a shared mapping
    only that process knows. *)
Record nsr_session_t := mk_session {
  l2t : nsr_shm_ring_large_t nsr_telemetry_state_t;
  gk_pid : Z;
  logic_pid : Z;
  s_target_ip : cstr;
  s_target_host : cstr;
  s_active : bool;
  logic_config : nsr_config_t;
}.

Definition with_l2t (s : nsr_session_t) (r : nsr_shm_ring_large_t nsr_telemetry_state_t) : nsr_session_t :=
  mk_session r (gk_pid s) (logic_pid s) (s_target_ip s) (s_target_host s) (s_active s) (logic_config s).
Definition with_gk_pid (s : nsr_session_t) (p : Z) : nsr_session_t :=
  mk_session (l2t s) p (logic_pid s) (s_target_ip s) (s_target_host s) (s_active s) (logic_config s).
Definition with_logic (s : nsr_session_t) (p : Z) (c : nsr_config_t) : nsr_session_t :=
  mk_session (l2t s) (gk_pid s) p (s_target_ip s) (s_target_host s) (s_active s) c.
Definition disable_session (s : nsr_session_t) : nsr_session_t :=
  mk_session (l2t s) (gk_pid s) (logic_pid s) (s_target_ip s) (s_target_host s) false (logic_config s).

Definition fork (forks : list Z) : Z * list Z :=
  match forks with [] => (-1, []) | p :: forks' => (p, forks') end.

(** The configuration a logic process of the session is started with. *)
Definition session_config (s : nsr_session_t) (interval : Z) : nsr_config_t :=
  {| cf_interval_ms := interval; cf_target_ip := s_target_ip s; cf_target_host := s_target_host s |}.

Definition spawn_gatekeeper (s : nsr_session_t) (forks : list Z) : nsr_session_t * list Z :=
  let '(p, forks) := fork forks in (with_gk_pid s p, forks).

Definition spawn_logic (s : nsr_session_t) (interval : Z) (forks : list Z) : nsr_session_t * list Z :=
  let '(p, forks) := fork forks in (with_logic s p (session_config s interval), forks).

(** [getaddrinfo] gives the first address of an argument, with its family. *)
Section Start.
  Context `{Inet} (getaddrinfo : cstr -> family -> option (family * list Z)).

Definition resolve_target (arg : cstr) (f : family) : option cstr :=
  match getaddrinfo arg f with
  | Some (AF_INET, a) => Some (inet_ntop AF_INET a)
  | Some (AF_INET6, a) => Some (inet_ntop AF_INET6 a)
  | _ => None
  end.

Definition new_session (ip host : cstr) : nsr_session_t :=
  mk_session empty_large 0 0 (strncpy 63 ip) (strncpy 127 host) true (mk_config 0 [] []).

(** The loop over the arguments; [maps] says for each session whether its three
    mappings succeed.  [None]: the program fails. *)
Fixpoint start_sessions (args : list cstr) (st : settings) (maps : list bool) (forks : list Z)
    (sessions : list nsr_session_t) : option (list nsr_session_t * list Z) :=
  match args with
  | [] => Some (sessions, forks)
  | arg :: args' =>
      if (length sessions <? MAX_SESSIONS)%nat then
        match resolve_target arg (st_family st) with
        | None => start_sessions args' st maps forks sessions
        | Some ip =>
            if negb (default true (hd_error maps)) then None
            else
              let s := new_session ip arg in
              let '(s, forks) := spawn_gatekeeper s forks in
              let '(s, forks) := spawn_logic s (st_interval_ms st) forks in
              start_sessions args' st (tl maps) forks (sessions ++ [s])
        end
      else Some (sessions, forks)
  end.

(** From the arguments to the sessions; [None]: [EXIT_FAILURE]. *)
Definition start_up (opts : list option_result) (args : list cstr) (maps : list bool) (forks : list Z)
    : option (settings * list nsr_session_t * list Z) :=
  st ← parse_options opts default_settings;
  if bool_decide (args = []) then None
  else
    r ← start_sessions args st maps forks [];
    if bool_decide (r.1 = []) then None else Some (st, r.1, r.2).

End Start.

(** ** Reaping *)

Inductive wait_status :=
| WExited (status : Z)
| WSignaled (sig : Z).

Definition WIFEXITED (st : wait_status) : bool := match st with WExited _ => true | WSignaled _ => false end.

Inductive signal := SIGTERM | SIGUSR1.

(** The body of the loop over the sessions for an exited process: the session, the
    rest of the [fork] script and the signals sent. *)
Definition reap_session (pid : Z) (st : wait_status) (interval : Z) (s : nsr_session_t) (forks : list Z)
    : nsr_session_t * list Z * list (Z * signal) :=
  if pid =? gk_pid s then
    if WIFEXITED st
    then (disable_session s, forks, if 0 <? logic_pid s then [(logic_pid s, SIGTERM)] else [])
    else let '(s, forks) := spawn_gatekeeper s forks in (s, forks, [])
  else if pid =? logic_pid s then
    if WIFEXITED st || negb (s_active s) then (disable_session s, forks, [])
    else let '(s, forks) := spawn_logic s interval forks in (s, forks, [])
  else (s, forks, []).

Fixpoint reap (pid : Z) (st : wait_status) (interval : Z) (ss : list nsr_session_t) (forks : list Z)
    : list nsr_session_t * list Z * list (Z * signal) :=
  match ss with
  | [] => ([], forks, [])
  | s :: ss' =>
      let '(s, forks, k1) := reap_session pid st interval s forks in
      let '(ss', forks, k2) := reap pid st interval ss' forks in
      (s :: ss', forks, k1 ++ k2)
  end.

(** ** The main loop *)

(** [while (nsr_shm_ring_large_pop(sess->l2t, &new_state, ...))]: the ring, the last
    snapshot and the topology; [None] is an access outside the ring.  A ring holds
    at most 15 snapshots, so 16 rounds empty it ([ring_drain_spec]). *)
Section Loop.
  Context (clock : nat -> Z).

Fixpoint drain_ring (fuel : nat) (r : nsr_shm_ring_large_t nsr_telemetry_state_t) (last : nsr_telemetry_state_t)
    (topo : nsr_topology_state_t)
    : option (nsr_shm_ring_large_t nsr_telemetry_state_t * nsr_telemetry_state_t * nsr_topology_state_t) :=
  match fuel with
  | O => Some (r, last, topo)
  | S f =>
      p ← nsr_shm_ring_large_pop r;
      match p.1 with
      | None => Some (p.2, last, topo)
      | Some new_state => drain_ring f p.2 new_state (nsr_topology_update_from_telemetry clock topo new_state)
      end
  end.

(** The loop over the sessions; the flag is [any_active]. *)
Fixpoint drain_sessions (ss : list nsr_session_t) (last : nsr_telemetry_state_t) (topo : nsr_topology_state_t)
    : option (list nsr_session_t * bool * nsr_telemetry_state_t * nsr_topology_state_t) :=
  match ss with
  | [] => Some ([], false, last, topo)
  | s :: ss' =>
      if negb (s_active s) then
        q ← drain_sessions ss' last topo;
        let '(ss', any, last, topo) := q in Some (s :: ss', any, last, topo)
      else
        p ← drain_ring 16 (l2t s) last topo;
        let '(r, last, topo) := p in
        q ← drain_sessions ss' last topo;
        let '(ss', _, last, topo) := q in Some (with_l2t s r :: ss', true, last, topo)
  end.

(** What the logic processes publish between two turns, a list per session. *)
Fixpoint publish_ring (r : nsr_shm_ring_large_t nsr_telemetry_state_t) (tels : list nsr_telemetry_state_t)
    : option (nsr_shm_ring_large_t nsr_telemetry_state_t) :=
  match tels with
  | [] => Some r
  | tel :: tels' => p ← nsr_shm_ring_large_push r tel; publish_ring p.2 tels'
  end.

Fixpoint publish_all (ss : list nsr_session_t) (arrivals : list (list nsr_telemetry_state_t))
    : option (list nsr_session_t) :=
  match ss with
  | [] => Some []
  | s :: ss' =>
      r ← publish_ring (l2t s) (default [] (hd_error arrivals));
      ss' ← publish_all ss' (tl arrivals);
      Some (with_l2t s r :: ss')
  end.

Section Main.
  Context `{Ncurses} {M : Type} `{PluginManagerLaws M}.
  Context (uptime_text : Z -> Z -> option (option cstr)).

Record main_state := mk_main {
  sessions : list nsr_session_t;
  running : bool;
  last_state : nsr_telemetry_state_t;
  topo : nsr_topology_state_t;
  tui : nsr_tui_state_t;
  tree : list nat;
  mgr : M;
  interval : Z;
  forks_left : list Z;
  signals : list (Z * signal);
}.

(** One turn: snapshots published before it, the result of [waitpid] (none for 0
    or an error), the screen and its width, [time] and the monotonic clock, the key
    read, and whether SIGINT or SIGTERM arrives. *)
Record turn_event := mk_tick {
  tk_arrivals : list (list nsr_telemetry_state_t);
  tk_wait : option (Z * wait_status);
  tk_screen : screen;
  tk_now : Z;
  tk_now_ns : Z;
  tk_key : Z;
  tk_signal : bool;
}.

(** The effect of a command on the interval, an unsigned variable. *)
Definition interval_command (cmd interval : Z) : Z :=
  if cmd =? 4 then if interval <? 1000 then u32 (interval + 10) else interval
  else if cmd =? 5 then
    if 10 <? interval then u32 (interval - 10) else if 0 <? interval then 10 else interval
  else interval.

(** Command 2: SIGUSR1 to every logic process. *)
Definition pause_signals (ss : list nsr_session_t) : list (Z * signal) :=
  concat (map (fun s => if 0 <? logic_pid s then [(logic_pid s, SIGUSR1)] else []) ss).

(** The drawing and key part of a turn; command 1 leaves the loop. *)
Definition interact (s : main_state) (tk : turn_event) : main_state * bool :=
  let '(_, t, tree, m) := nsr_tui_render uptime_text (tui s) (last_state s) (topo s) (tree s) (tk_screen tk)
                            (tk_now tk) (tk_now_ns tk) (mgr s) in
  let '(cmd, t, topo, m) := nsr_tui_update (max_x (tk_screen tk)) (tk_now tk) t (topo s) tree (tk_key tk) m in
  let t' := if cmd =? 6 then nsr_tui_toggle_dashboard t else t in
  (mk_main (sessions s) (running s) (last_state s) topo t' tree m (interval_command cmd (interval s))
     (forks_left s) (signals s ++ if cmd =? 2 then pause_signals (sessions s) else []), cmd =? 1).

(** The body of the loop: the state and whether [break] was executed. *)
Definition main_turn (silent : bool) (s : main_state) (tk : turn_event) : option (main_state * bool) :=
  ss ← publish_all (sessions s) (tk_arrivals tk);
  let '(ss, forks, kills) :=
    match tk_wait tk with
    | Some (pid, st) => if 0 <? pid then reap pid st (interval s) ss (forks_left s) else (ss, forks_left s, [])
    | None => (ss, forks_left s, [])
    end in
  d ← drain_sessions ss (last_state s) (topo s);
  let '(ss, any_active, last, topo) := d in
  let m := vt_update_telemetry (mgr s) last topo in
  let s := mk_main ss (running s && any_active) last topo (tui s) (tree s) m (interval s) forks
             (signals s ++ kills) in
  Some (if silent then (s, false) else interact s tk).

(** SIGINT and SIGTERM clear [g_running]. *)
Definition take_signal (s : main_state) (tk : turn_event) : main_state :=
  mk_main (sessions s) (running s && negb (tk_signal tk)) (last_state s) (topo s) (tui s) (tree s) (mgr s)
    (interval s) (forks_left s) (signals s).

(** The loop: the state and whether it was left; it is still running when the ticks
    are used up. *)
Fixpoint main_loop (silent : bool) (s : main_state) (tks : list turn_event) : option (main_state * bool) :=
  if negb (running s) then Some (s, true)
  else
    match tks with
    | [] => Some (s, false)
    | tk :: tks' =>
        r ← main_turn silent s tk;
        if r.2 : bool then Some (r.1, true) else main_loop silent (take_signal r.1 tk) tks'
    end.

(** The signals of the end of [main]. *)
Definition shut_down (ss : list nsr_session_t) : list (Z * signal) :=
  concat (map (fun s => (if 0 <? gk_pid s then [(gk_pid s, SIGTERM)] else [])
                        ++ if 0 <? logic_pid s then [(logic_pid s, SIGTERM)] else []) ss).

(** Whom [main] waits for after that, in order. *)
Definition final_waits (ss : list nsr_session_t) : list Z :=
  concat (map (fun s => (if 0 <? gk_pid s then [gk_pid s] else [])
                        ++ if 0 <? logic_pid s then [logic_pid s] else []) ss).

(** The state at the first turn. *)
Definition main_start (st : settings) (ss : list nsr_session_t) (forks : list Z) (table : list Z) (m : M)
    : main_state :=
  mk_main ss true zero_telemetry nsr_topology_init (tui_start table) [] m (st_interval_ms st) forks [].

End Main.
End Loop.

(** ** The interval *)

Lemma parse_interval_range a : 10 <= parse_interval a <= 1000.
Proof. unfold parse_interval. split_ifs; lia. Qed.

Lemma parse_options_interval opts s st :
  10 <= st_interval_ms s <= 1000 -> parse_options opts s = Some st -> 10 <= st_interval_ms st <= 1000.
Proof.
  revert s. induction opts as [|[a| | | |] opts IH]; intros s Hs; cbn [parse_options].
  - by intros [= <-].
  - intros E. apply IH in E; [done|]. apply parse_interval_range.
  - intros E. by apply IH in E.
  - intros E. by apply IH in E.
  - intros E. by apply IH in E.
  - done.
Qed.

Lemma interval_command_range cmd i :
  (1 <= i <= 1009 -> 1 <= interval_command cmd i <= 1009) /\
  (10 <= i <= 1000 -> i mod 10 = 0 ->
   10 <= interval_command cmd i <= 1000 /\ interval_command cmd i mod 10 = 0).
Proof.
  assert (Hmod : forall z d, (z + d * 10) mod 10 = z mod 10) by (intros; apply Z_mod_plus_full).
  unfold interval_command. split; intros; split_ifs; rewrite ?u32_small by lia; try lia; try done.
  - pose proof (Hmod i 1) as Hx. replace (i + 1 * 10) with (i + 10) in Hx by lia.
    pose proof (Z.div_mod i 10). split; [lia|congruence].
  - pose proof (Hmod i (-1)) as Hx. replace (i + -1 * 10) with (i - 10) in Hx by lia.
    pose proof (Z.div_mod i 10). split; [lia|congruence].
Qed.

(** The probing interval.  Whatever the options say (negative numbers and
    overflow included), the program starts with an interval from 10 to 1000
    milliseconds.  The dashboard then changes it in steps of ten and never leaves
    the range from 1 to 1009 by whatever sequence of commands, nor the range from
    10 to 1000 when the interval started with is a multiple of ten. *)
Theorem interval_bounds opts st cmds :
  parse_options opts default_settings = Some st ->
  let i := foldl (fun i cmd => interval_command cmd i) (st_interval_ms st) cmds in
  10 <= st_interval_ms st <= 1000 /\ 1 <= i <= 1009 /\
  (st_interval_ms st mod 10 = 0 -> 10 <= i <= 1000).
Proof.
  intros E. apply parse_options_interval in E; [|cbn; lia]. cbn zeta.
  assert (Hrun : forall i, (1 <= i <= 1009 -> 1 <= foldl (fun i cmd => interval_command cmd i) i cmds <= 1009) /\
    (10 <= i <= 1000 -> i mod 10 = 0 -> 10 <= foldl (fun i cmd => interval_command cmd i) i cmds <= 1000)).
  { induction cmds as [|c cmds IH]; intros i; cbn [foldl]; [done|].
    destruct (interval_command_range c i) as [H1 H2], (IH (interval_command c i)) as [H3 H4].
    split; [auto|]. intros Hi Hm. destruct (H2 Hi Hm). auto. }
  destruct (Hrun (st_interval_ms st)) as [H1 H2]. split; [done|]. split; [apply H1; lia|auto].
Qed.

Lemma interval_bounds_witness :
  let st := mk_settings 1000 false AF_INET in
  parse_options [OptInterval (str "-5"); OptIPv4] default_settings = Some st /\
  10 <= foldl (fun i cmd => interval_command cmd i) (st_interval_ms st) [4; 5; 5; 4; 4; 4] <= 1000.
Proof.
  cbn zeta.
  assert (E : parse_options [OptInterval (str "-5"); OptIPv4] default_settings
              = Some (mk_settings 1000 false AF_INET)) by (vm_compute; reflexivity).
  split; [exact E|].
  apply (interval_bounds [OptInterval (str "-5"); OptIPv4] (mk_settings 1000 false AF_INET) [4; 5; 5; 4; 4; 4] E).
  reflexivity.
Defined.

(** The bounds that the options enforce do not hold for the keys: from an interval
    of 15 one press gives 5 milliseconds, from 995 one gives 1005. *)
Theorem interval_leaves_range :
  parse_interval (str "15") = 15 /\ interval_command 5 15 = 5 /\
  parse_interval (str "995") = 995 /\ interval_command 4 995 = 1005.
Proof. vm_compute. auto. Qed.

(** ** Starting the sessions *)

Section StartFacts.
  Context `{Inet} (getaddrinfo : cstr -> family -> option (family * list Z)).

(** The arguments that resolve, with their addresses. *)
Definition resolved (f : family) (args : list cstr) : list (cstr * cstr) :=
  omap (fun a => (fun ip => (a, ip)) <$> resolve_target getaddrinfo a f) args.

Definition session_of (st : settings) (s : nsr_session_t) (p : cstr * cstr) : Prop :=
  s_target_host s = strncpy 127 p.1 /\ s_target_ip s = strncpy 63 p.2 /\ s_active s = true /\
  l2t s = empty_large /\ logic_config s = session_config s (st_interval_ms st).

Lemma start_sessions_spec args st maps forks ss ps :
  Forall (eq true) maps -> Forall2 (session_of st) ss ps -> (length ss <= 8)%nat ->
  exists ss' forks', start_sessions getaddrinfo args st maps forks ss = Some (ss', forks') /\
    Forall2 (session_of st) ss' (take 8 (ps ++ resolved (st_family st) args)).
Proof.
  revert maps forks ss ps. induction args as [|a args IH]; intros maps forks ss ps Hmap Hss Hlen; cbn [start_sessions].
  - exists ss, forks. split; [done|]. pose proof (Forall2_length _ _ _ Hss). cbn. rewrite app_nil_r, take_ge by lia. done.
  - unfold MAX_SESSIONS. pose proof (Forall2_length _ _ _ Hss) as Hl. split_if.
    + apply Nat.ltb_lt in Heqb. destruct (resolve_target getaddrinfo a (st_family st)) as [ip|] eqn:Er.
      * assert (default true (hd_error maps) = true) as -> by (destruct Hmap as [|b l Hb]; [done|by rewrite Hb]).
        cbn [negb]. unfold spawn_gatekeeper, spawn_logic.
        destruct (fork forks) as [p1 f1]. destruct (fork f1) as [p2 f2].
        destruct (IH (tl maps) f2 (ss ++ [with_logic (with_gk_pid (new_session ip a) p1) p2
           (session_config (with_gk_pid (new_session ip a) p1) (st_interval_ms st))]) (ps ++ [(a, ip)]))
          as (ss' & f' & E & Hf).
        { by destruct Hmap. }
        { apply Forall2_app; [done|]. constructor; [|constructor]. done. }
        { rewrite length_app. cbn. lia. }
        exists ss', f'. split; [exact E|]. rewrite <- app_assoc in Hf. unfold resolved in *. cbn. by rewrite Er.
      * destruct (IH maps forks ss ps Hmap Hss Hlen) as (ss' & f' & E & Hf). exists ss', f'. split; [done|].
        unfold resolved in *. cbn. by rewrite Er.
    + apply Nat.ltb_ge in Heqb. exists ss, forks. split; [done|].
      rewrite take_app_le by lia. by rewrite take_ge by lia.
Qed.

Lemma start_up_spec opts args maps forks :
  Forall (eq true) maps ->
  match start_up getaddrinfo opts args maps forks with
  | Some (st, ss, _) =>
      parse_options opts default_settings = Some st /\ ss <> [] /\
      Forall2 (session_of st) ss (take 8 (resolved (st_family st) args))
  | None =>
      parse_options opts default_settings = None \/
      exists st, parse_options opts default_settings = Some st /\ resolved (st_family st) args = []
  end.
Proof.
  intros Hm. unfold start_up. destruct (parse_options opts default_settings) as [st|] eqn:Eo; [|by left].
  cbn [mbind option_bind]. destruct (bool_decide (args = [])) eqn:Ea.
  { apply bool_decide_eq_true in Ea as ->. right. by exists st. }
  destruct (start_sessions_spec args st maps forks [] [] Hm) as (ss & f & -> & Hf); [constructor|cbn; lia|].
  cbn [app mbind option_bind fst snd] in *. destruct (bool_decide (ss = [])) eqn:Es.
  - apply bool_decide_eq_true in Es as ->. right. exists st. split; [done|].
    apply Forall2_nil_inv_l in Hf. by destruct (resolved (st_family st) args).
  - apply bool_decide_eq_false in Es. by split_and!.
Qed.

(** The program monitors the first eight arguments that resolve to an IPv4 or
    IPv6 address, in their order, each in a session of its own that is active, has
    an empty telemetry ring and a logic process started with the chosen interval;
    arguments that do not resolve are skipped; it refuses to start when the options
    are wrong or nothing resolves, and, with working mappings, only then. *)
Theorem sessions_started opts args maps forks :
  Forall (eq true) maps ->
  match start_up getaddrinfo opts args maps forks with
  | Some (st, ss, _) =>
      parse_options opts default_settings = Some st /\ ss <> [] /\
      Forall2 (session_of st) ss (take 8 (resolved (st_family st) args))
  | None =>
      parse_options opts default_settings = None \/
      exists st, parse_options opts default_settings = Some st /\ resolved (st_family st) args = []
  end.
Proof. exact (start_up_spec opts args maps forks). Qed.

End StartFacts.

Lemma sessions_started_witness :
  let gai := fun a (_ : family) => if streq a (str "nowhere") then None else Some (AF_INET, [192; 0; 2; 1]) in
  exists ss forks, start_up gai [OptInterval (str "50")] [str "nowhere"; str "host"] [true] [11; 12]
    = Some (mk_settings 50 false AF_UNSPEC, ss, forks) /\ map s_target_host ss = [str "host"].
Proof.
  cbn zeta. set (gai := fun a (_ : family) => if streq a (str "nowhere") then None else Some (AF_INET, [192; 0; 2; 1])).
  pose proof (sessions_started gai [OptInterval (str "50")] [str "nowhere"; str "host"] [true] [11; 12]
    ltac:(repeat constructor)) as H.
  destruct (start_up gai [OptInterval (str "50")] [str "nowhere"; str "host"] [true] [11; 12])
    as [[[st ss] forks]|] eqn:E.
  - destruct H as (Ho & _ & H). exists ss, forks.
    assert (st = mk_settings 50 false AF_UNSPEC) as -> by (vm_compute in Ho; congruence).
    split; [reflexivity|]. change (take 8 _) with [(str "host", inet_ntop AF_INET [192; 0; 2; 1])] in H.
    inversion H as [|s p ss' ps (Hh & _) Hnil E1 E2]. inversion Hnil. cbn. by rewrite Hh.
  - exfalso. vm_compute in E. discriminate.
Defined.

(** ** Process exits *)

(** What the report of a process does to one session. *)
Definition reaction (pid : Z) (st : wait_status) (i : Z) (s s' : nsr_session_t) : Prop :=
  if pid =? gk_pid s then
    if WIFEXITED st then s' = disable_session s else exists p, s' = with_gk_pid s p
  else if pid =? logic_pid s then
    if WIFEXITED st || negb (s_active s) then s' = disable_session s
    else exists p, s' = with_logic s p (session_config s i)
  else s' = s.

Lemma reap_all_spec pid st i ss forks :
  let '(ss', _, kills) := reap pid st i ss forks in
  Forall2 (reaction pid st i) ss ss' /\
  kills = concat (map (fun s => if (pid =? gk_pid s) && WIFEXITED st && (0 <? logic_pid s)
                                then [(logic_pid s, SIGTERM)] else []) ss).
Proof.
  revert forks. induction ss as [|s ss IH]; intros forks; cbn [reap]; [by split|].
  assert (Hs : let '(s', _, k) := reap_session pid st i s forks in reaction pid st i s s' /\
    k = if (pid =? gk_pid s) && WIFEXITED st && (0 <? logic_pid s) then [(logic_pid s, SIGTERM)] else []).
  { unfold reap_session, reaction, spawn_gatekeeper, spawn_logic.
    destruct (pid =? gk_pid s); [destruct (WIFEXITED st); [by split|]; destruct (fork forks); split; [by eexists|done]|].
    destruct (pid =? logic_pid s); [|by split].
    destruct (WIFEXITED st || negb (s_active s)); [by split|]. destruct (fork forks). split; [by eexists|done]. }
  destruct (reap_session pid st i s forks) as [[s' forks'] k]. destruct Hs as [Hs ->].
  specialize (IH forks'). destruct (reap pid st i ss forks') as [[ss' forks''] ks]. destruct IH as [IH ->].
  split; [by constructor|done].
Qed.


(** The process identifiers of a session are kept when its processes are gone: when
    the gatekeeper has ended and was waited for, the end of the program still sends a
    signal to its number, whoever has that number by then. *)
Theorem reaped_gatekeeper_is_signalled pid st i ss forks s :
  0 < pid -> WIFEXITED st = true -> s ∈ ss -> gk_pid s = pid -> (pid, SIGTERM) ∈ shut_down (reap pid st i ss forks).1.1.
Proof.
  intros Hp Hst Hin Hg. pose proof (reap_all_spec pid st i ss forks) as H.
  destruct (reap pid st i ss forks) as [[ss' f] kills]. destruct H as [Hr _]. cbn [fst].
  apply list_elem_of_lookup in Hin as [k Hk]. destruct (Forall2_lookup_l _ _ _ _ _ Hr Hk) as (s' & Hk' & Hs).
  unfold reaction in Hs. rewrite Hg, Z.eqb_refl, Hst in Hs. subst s'. unfold shut_down.
  apply list_elem_of_In, in_concat. eexists. split.
  - apply in_map_iff. exists (disable_session s). split; [reflexivity|]. apply list_elem_of_In. by eapply list_elem_of_lookup_2.
  - cbn [disable_session gk_pid logic_pid]. rewrite Hg, (proj2 (Z.ltb_lt _ _) Hp). by left.
Qed.

(** The reports the session is told of, one after another. *)
Definition reports (i : Z) (s : nsr_session_t) (rs : list (Z * wait_status * list Z)) : nsr_session_t :=
  foldl (fun s '(pid, st, forks) => (reap_session pid st i s forks).1.1) s rs.

(** A restart that failed is not tried again: with whatever is reported afterwards the
    session stays without a gatekeeper, and it stays active as long as its logic
    process does not end by itself. *)
Theorem failed_restart_is_final i s rs :
  gk_pid s = -1 -> Forall (fun r => 0 < r.1.1) rs ->
  gk_pid (reports i s rs) = -1 /\
  (Forall (fun r => WIFEXITED r.1.2 = false) rs -> s_active (reports i s rs) = s_active s).
Proof.
  unfold reports. revert s. induction rs as [|[[pid st] forks] rs IH]; intros s Hg Hrs; [done|]. cbn [foldl].
  inversion_clear Hrs as [|? ? Hp Hrs']. cbn [fst] in Hp.
  assert (Hs : gk_pid (reap_session pid st i s forks).1.1 = -1 /\
    (WIFEXITED st = false -> s_active (reap_session pid st i s forks).1.1 = s_active s)).
  { unfold reap_session, spawn_logic. rewrite Hg, (proj2 (Z.eqb_neq _ _)) by lia. split_if; [|done].
    destruct (WIFEXITED st); [done|]. destruct (s_active s) eqn:Ea; [|by split]. cbn [orb negb].
    by destruct (fork forks). }
  destruct Hs as [H1 H2]. destruct (IH _ H1 Hrs') as [H3 H4]. split; [done|]. intros Hf.
  inversion_clear Hf as [|? ? Hx Hy]. by rewrite H4, H2.
Qed.

(** ** Telemetry rings *)

Section RingFacts.
  Context (clock : nat -> Z).

Definition ring_ok (r : nsr_shm_ring_large_t nsr_telemetry_state_t) : Prop :=
  large_wf r /\ Forall snapshot_ok (lcontents r).

Lemma publish_ok r tels :
  ring_ok r -> Forall snapshot_ok tels -> exists r', publish_ring r tels = Some r' /\ ring_ok r'.
Proof.
  revert r. induction tels as [|tel tels IH]; intros r Hr Ht; cbn [publish_ring]; [by exists r|].
  inversion_clear Ht as [|? ? Htel Htels]. destruct Hr as [Hwf Hc].
  destruct (large_push_spec (SM := telemetry_slot) r tel Hwf I) as (ok & r' & E & Hwf' & Hq). rewrite E. cbn [mbind option_bind snd].
  apply IH; [|done]. split; [done|]. apply (f_equal snd) in Hq. cbn [snd] in Hq. rewrite Hq.
  split_if; [done|]. cbn [snd]. apply Forall_app_2; [done|by constructor].
Qed.

Lemma lcontents_length r : large_wf r -> (length (lcontents r) < 16)%nat.
Proof.
  intros Hwf. unfold lcontents. rewrite window_length.
  pose proof (dist_range 16 ltac:(lia) (lhead r) (ltail r)) as Hu. fold (lused r) in Hu. lia.
Qed.

Lemma last_app {A} (l k : list A) d : List.last (l ++ k) d = List.last k (List.last l d).
Proof.
  assert (Hd : forall x (m : list A) d1 d2, List.last (x :: m) d1 = List.last (x :: m) d2).
  { intros x m. revert x. induction m as [|y m IH]; intros x d1 d2; [done|]. apply (IH y). }
  induction l as [|x l IH]; [done|]. destruct l as [|y l]; [|exact IH].
  destruct k as [|y k]; [done|]. change ([x] ++ y :: k) with (x :: y :: k). apply (Hd y k).
Qed.

(** Draining empties the ring, in order. *)
Lemma ring_drain_spec fuel r last t :
  large_wf r -> (length (lcontents r) < fuel)%nat ->
  exists r', drain_ring clock fuel r last t
    = Some (r', List.last (lcontents r) last, foldl (nsr_topology_update_from_telemetry clock) t (lcontents r)) /\
    large_wf r' /\ lcontents r' = [].
Proof.
  revert r last t. induction fuel as [|f IH]; intros r last t Hwf Hl; [lia|]. cbn [drain_ring].
  destruct (large_pop_spec r Hwf) as (out & r' & -> & Hwf' & -> & Ed). cbn [mbind option_bind fst snd].
  destruct (lcontents r) as [|x l] eqn:E; cbn [hd_error].
  - exists r'. by rewrite Ed.
  - change (drop 1 (x :: l)) with l in Ed. destruct (IH r' x (nsr_topology_update_from_telemetry clock t x) Hwf') as (r2 & E2 & Hwf2 & Ec).
    { rewrite Ed. cbn in Hl. lia. }
    exists r2. rewrite E2. split; [|done]. rewrite Ed. cbn [foldl]. by rewrite (last_app [x] l).
Qed.

(** The fields that rings and snapshots leave alone. *)
Definition core (s : nsr_session_t) : cstr * Z * Z * bool * nsr_config_t :=
  (s_target_ip s, gk_pid s, logic_pid s, s_active s, logic_config s).

Definition rings_ok (ss : list nsr_session_t) : Prop := Forall (fun s => ring_ok (l2t s)) ss.

(** The head and the tail of a list of lists, which may be too short. *)
Lemma Forall_hd_tl {A} (P : list A -> Prop) l :
  P [] -> Forall P l -> P (default [] (hd_error l)) /\ Forall P (tl l).
Proof. intros Hn Hl. destruct Hl; by split. Qed.

Lemma publish_all_ok ss arrivals :
  rings_ok ss -> Forall (Forall snapshot_ok) arrivals ->
  exists ss', publish_all ss arrivals = Some ss' /\ rings_ok ss' /\ map core ss' = map core ss.
Proof.
  revert arrivals. induction ss as [|s ss IH]; intros arrivals Hr Ha; cbn [publish_all]; [by exists []|].
  inversion_clear Hr as [|? ? Hs Hss]. apply Forall_hd_tl in Ha as [Ha Hat]; [|constructor].
  destruct (publish_ok (l2t s) (default [] (hd_error arrivals)) Hs Ha) as (r & -> & Hr').
  destruct (IH (tl arrivals) Hss Hat) as (ss' & -> & Hss' & Hc). cbn [mbind option_bind].
  eexists. split; [done|]. split; [by constructor|]. cbn [map]. by rewrite Hc.
Qed.

(** The snapshots waiting for the main loop, in the order it reads them. *)
Definition waiting (ss : list nsr_session_t) : list nsr_telemetry_state_t :=
  concat (map (fun s => if s_active s then lcontents (l2t s) else []) ss).

Lemma drain_sessions_spec ss last t :
  rings_ok ss ->
  exists ss', drain_sessions clock ss last t
    = Some (ss', existsb s_active ss, List.last (waiting ss) last,
            foldl (nsr_topology_update_from_telemetry clock) t (waiting ss)) /\
    rings_ok ss' /\ map core ss' = map core ss /\ waiting ss' = [].
Proof.
  revert last t. induction ss as [|s ss IH]; intros last t Hr; cbn [drain_sessions]; [by exists []|].
  inversion_clear Hr as [|? ? [Hwf Hc] Hss]. destruct (s_active s) eqn:Ea; cbn [negb].
  - destruct (ring_drain_spec 16 (l2t s) last t Hwf (lcontents_length _ Hwf)) as (r & -> & Hwf' & Er).
    cbn [mbind option_bind]. destruct (IH (List.last (lcontents (l2t s)) last)
      (foldl (nsr_topology_update_from_telemetry clock) t (lcontents (l2t s))) Hss) as (ss' & -> & Hss' & Hco & Hw).
    eexists. split.
    { cbn [mbind option_bind existsb]. rewrite Ea. cbn [orb]. unfold waiting at 3 4. cbn [map concat].
      rewrite Ea, last_app, foldl_app. reflexivity. }
    split; [|split].
    + constructor; [|done]. split; [done|]. cbn. rewrite Er. constructor.
    + cbn [map]. by rewrite Hco.
    + unfold waiting in *. cbn [map concat]. cbn. by rewrite Ea, Er, Hw.
  - destruct (IH last t Hss) as (ss' & -> & Hss' & Hco & Hw). eexists. split.
    { cbn [mbind option_bind existsb]. rewrite Ea. cbn [orb]. unfold waiting at 3 4. cbn [map concat].
      rewrite Ea. reflexivity. }
    split; [|split].
    + by constructor.
    + cbn [map]. by rewrite Hco.
    + unfold waiting in *. cbn [map concat]. by rewrite Ea, Hw.
Qed.

Lemma reap_rings pid st i ss forks : rings_ok ss -> rings_ok (reap pid st i ss forks).1.1.
Proof.
  intros Hr. pose proof (reap_all_spec pid st i ss forks) as H. destruct (reap pid st i ss forks) as [[ss' f] k].
  destruct H as [H _]. cbn [fst]. unfold rings_ok in *. induction H as [|s s' ss ss' Hs H IH]; [done|].
  inversion_clear Hr as [|? ? Hs' Hss]. constructor; [|by apply IH]. unfold reaction in Hs.
  repeat split_if_in Hs; try (by subst); by destruct Hs as [p ->].
Qed.

Lemma waiting_ok ss : rings_ok ss -> Forall snapshot_ok (waiting ss).
Proof.
  intros Hr. unfold waiting. apply Forall_concat, Forall_map. eapply Forall_impl; [exact Hr|].
  intros s [_ Hc]. by split_if.
Qed.

Lemma foldl_topo_wf t tels :
  topo_wf t -> Forall snapshot_ok tels -> topo_wf (foldl (nsr_topology_update_from_telemetry clock) t tels).
Proof.
  intros Ht H. revert t Ht. induction H as [|tel tels (Htg & Hh & _) H IH]; intros t Ht; [done|]. cbn [foldl].
  apply IH. by apply (update_grows clock t tel Ht Htg Hh).
Qed.

End RingFacts.
