(* ===== verification/MainLoop.v ===== *)
(** * The main loop as a whole (src/core/main.c)

    The turns of Supervisor.v put together with the rings of ShmRing.v, the graph of
    Topology.v and the interface of TuiSystem.v: no turn reads or writes outside a
    ring, the invariants of rings, graph and interface hold at every turn, what one
    turn reads and shows, and when the loop ends.  The loop is used with any plugin
    manager that obeys the laws of PluginMgr.v. *)

From S2P Require Import Prelude CFloat Telemetry ShmRing HopAlias Logic Gatekeeper GateSetup Topology KeySlots JsonScan PluginConfig RpcConn.
From S2P Require Import PluginHost Draw TuiState PluginRender PluginMgr TreeOrder TuiView TuiInput TuiSystem.
From S2P Require Import Supervisor.

(** ** Keys and the graph *)

(** A key changes at most the control-plane flag of one node. *)
Definition flips (t t' : nsr_topology_state_t) : Prop :=
  t' = t \/ exists i n, nodes t !! i = Some n /\ t' = flip_control t (Some (i, n)).

Lemma visual_node_lookup i ns idx index j n :
  visual_node i ns idx index = Some (j, n) -> (i <= j)%nat /\ ns !! (j - i)%nat = Some n.
Proof.
  revert i idx. induction ns as [|x ns IH]; intros i idx; cbn [visual_node]; [done|].
  assert (Hrec : forall idx', visual_node (S i) ns idx' index = Some (j, n) ->
    (i <= j)%nat /\ (x :: ns) !! (j - i)%nat = Some n).
  { intros idx' Hv. destruct (IH _ _ Hv) as [Hle Hl]. split; [lia|].
    by replace (j - i)%nat with (S (j - S i)) by lia. }
  repeat split_if; try apply Hrec. intros [= <- <-]. split; [lia|]. by rewrite Nat.sub_diag.
Qed.

Lemma flips_visual t c : flips t (flip_control t (node_by_visual_index t c)).
Proof.
  destruct (node_by_visual_index t c) as [[i n]|] eqn:E; [|by left].
  apply visual_node_lookup in E as [_ E]. rewrite Nat.sub_0_r in E. right. by exists i, n.
Qed.

Lemma flips_tree t tree c : flips t (flip_control t (tree_node_by_index t tree c)).
Proof.
  unfold tree_node_by_index. destruct (aget tree c) as [i|]; [|by left]. cbn [mbind option_bind].
  destruct (nodes t !! i) as [n|] eqn:E; [|by left]. right. by exists i, n.
Qed.

Lemma flips_wf t t' : flips t t' -> topo_wf t -> topo_wf t'.
Proof.
  intros [->|(i & n & Hi & ->)] [Hn He]; [by split|]. split.
  - by eapply (nodes_wf_same t _ i n (with_control_plane n (negb (n_control_plane n)))).
  - by apply (edges_wf_mono t).
Qed.

Lemma wf_count t : topo_wf t -> count_ok t.
Proof.
  intros [(_ & Hc & _) _]. unfold count_ok, nsr_topology_active_count. rewrite s32_id by lia. lia.
Qed.

Section Keys.
  Context `{Ncurses} {M : Type} `{PluginManager M}.

Lemma grid_key_flips width t topo ch : flips topo (grid_key width t topo ch).2.
Proof. unfold grid_key. repeat split_if; cbn [snd]; first [by left|apply flips_visual]. Qed.

Lemma tree_key_flips t topo tree ch : flips topo (tree_key t topo tree ch).2.
Proof. unfold tree_key. repeat split_if; cbn [snd]; first [by left|apply flips_tree]. Qed.

Lemma update_flips width now t topo tree ch m :
  flips topo (nsr_tui_update width now t topo tree ch m).1.2.
Proof.
  unfold nsr_tui_update, mode_key. split_if; [by left|].
  destruct (vt_modal_active m) as [[] m1]; [destruct (vt_on_key m1 ch); by left|].
  repeat (split_if; [try split_if; by left|]).
  destruct (mode_is _ NSR_UI_TOOLS); [destruct (tools_key t ch m1); by left|].
  repeat (split_if; [by left|]). destruct (vt_on_key m1 ch) as [[] m2]; [by left|].
  pose proof (grid_key_flips width t topo ch). pose proof (tree_key_flips t topo tree ch).
  destruct (grid_key width t topo ch), (tree_key t topo tree ch), (normal_key t ch).
  destruct (current_mode t); first [done|by left].
Qed.

End Keys.

(** ** One turn *)

Section Turn.
  Context (clock : nat -> Z) `{Ncurses} {M : Type} `{PluginManagerLaws M}.
  Context (uptime_text : Z -> Z -> option (option cstr)).

(** The invariant of the loop.  A signal to a process id of 0 or -1 would reach a
    group of processes or all of them. *)
Record main_ok (s : main_state (M := M)) : Prop := mk_main_ok {
  ok_rings : rings_ok (sessions s);
  ok_topo : topo_wf (topo s);
  ok_ui : ui_ok (tui s) (vt_count (mgr s));
  ok_signals : Forall (fun p => 0 < p.1) (signals s);
}.

(** What is asked of a turn: snapshots as a logic process publishes them, and a
    screen. *)
Definition tick_ok (tk : turn_event) : Prop :=
  Forall (Forall snapshot_ok) (tk_arrivals tk) /\ 0 <= max_y (tk_screen tk) /\ 0 <= max_x (tk_screen tk).

(** The part of a turn that deals with an exited process. *)
Definition after_wait (s : main_state (M := M)) (ss : list nsr_session_t) (tk : turn_event)
    : list nsr_session_t * list Z * list (Z * signal) :=
  match tk_wait tk with
  | Some (pid, st) => if 0 <? pid then reap pid st (interval s) ss (forks_left s) else (ss, forks_left s, [])
  | None => (ss, forks_left s, [])
  end.

Lemma after_wait_rings s ss tk : rings_ok ss -> rings_ok (after_wait s ss tk).1.1.
Proof.
  intros Hr. unfold after_wait. destruct (tk_wait tk) as [[pid st]|]; [|done]. split_if; [|done].
  by apply reap_rings.
Qed.

Lemma pause_positive ss : Forall (fun p => 0 < p.1) (pause_signals ss).
Proof. apply Forall_concat, Forall_map, Forall_true. intros s. split_if; bool_facts; by constructor. Qed.

Lemma shut_down_positive ss : Forall (fun p => 0 < p.1) (shut_down ss).
Proof.
  apply Forall_concat, Forall_map, Forall_true. intros s. apply Forall_app_2; split_if; bool_facts; by constructor.
Qed.

Lemma after_wait_positive s ss tk : Forall (fun p => 0 < p.1) (after_wait s ss tk).2.
Proof.
  unfold after_wait. destruct (tk_wait tk) as [[pid st]|]; [|done]. split_if; [|done].
  pose proof (reap_all_spec pid st (interval s) ss (forks_left s)) as Hs. destruct (reap _ _ _ _ _) as [[ss' f] k].
  destruct Hs as [_ ->]. apply Forall_concat, Forall_map, Forall_true. intros x. split_if; bool_facts; by constructor.
Qed.

Lemma interact_spec s tk :
  ui_inv (tui s, topo s, tree s, mgr s) -> tick_ok tk ->
  let s' := (interact uptime_text s tk).1 in
  sessions s' = sessions s /\ running s' = running s /\ last_state s' = last_state s /\
  flips (topo s) (topo s') /\ ui_ok (tui s') (vt_count (mgr s')) /\
  exists extra, signals s' = signals s ++ extra /\ Forall (fun p => 0 < p.1) extra.
Proof.
  intros Hi (_ & Hy & Hx). unfold interact.
  pose proof (render_inv uptime_text (tui s) (last_state s) (topo s) (tree s) (tk_screen tk) (tk_now tk)
    (tk_now_ns tk) (mgr s) Hi Hy Hx) as Hr.
  destruct (nsr_tui_render _ _ _ _ _ _ _ _ _) as [[[ds t1] tree1] m1].
  assert (ui_inv (t1, topo s, tree1, m1)) as Hi1.
  { apply Hr. apply (group_lines_bound _ _ 0). lia. }
  pose proof (update_inv (max_x (tk_screen tk)) (tk_now tk) t1 (topo s) tree1 (tk_key tk) m1 Hi1) as Hu.
  pose proof (update_flips (max_x (tk_screen tk)) (tk_now tk) t1 (topo s) tree1 (tk_key tk) m1) as Hf.
  destruct (nsr_tui_update _ _ _ _ _ _ _) as [[[cmd t2] topo2] m2]. cbn [fst snd] in *. destruct Hu as [Hu _].
  split_and!; try done.
  - cbn [tui mgr]. split_if; [by apply with_switches_ok|done].
  - eexists. split; [done|]. split_if; [apply pause_positive|done].
Qed.

(** The state after the rings are read. *)
Definition drained (s : main_state (M := M)) (tk : turn_event) (ss1 ss3 : list nsr_session_t) : main_state :=
  let '(ss2, forks, kills) := after_wait s ss1 tk in
  let last := List.last (waiting ss2) (last_state s) in
  let topo' := foldl (nsr_topology_update_from_telemetry clock) (topo s) (waiting ss2) in
  mk_main ss3 (running s && existsb s_active ss2) last topo' (tui s) (tree s)
    (vt_update_telemetry (mgr s) last topo') (interval s) forks (signals s ++ kills).

Lemma turn_spec silent s tk :
  main_ok s -> tick_ok tk ->
  exists ss1 ss3, publish_all (sessions s) (tk_arrivals tk) = Some ss1 /\ rings_ok ss1 /\
    map core ss1 = map core (sessions s) /\
    rings_ok ss3 /\ map core ss3 = map core (after_wait s ss1 tk).1.1 /\ waiting ss3 = [] /\
    main_ok (drained s tk ss1 ss3) /\
    main_turn clock uptime_text silent s tk
      = Some (if silent then (drained s tk ss1 ss3, false) else interact uptime_text (drained s tk ss1 ss3) tk).
Proof.
  intros [Hr Ht Hu Hsig] [Ha _]. unfold main_turn.
  destruct (publish_all_ok (sessions s) (tk_arrivals tk) Hr Ha) as (ss1 & -> & Hr1 & Hc1). cbn [mbind option_bind].
  change (match tk_wait tk with Some (pid, st) => _ | None => _ end) with (after_wait s ss1 tk).
  pose proof (after_wait_rings s ss1 tk Hr1) as Hr2. unfold drained.
  pose proof (after_wait_positive s ss1 tk) as Hp.
  destruct (after_wait s ss1 tk) as [[ss2 forks] kills] eqn:Ew. cbn [fst snd] in *.
  destruct (drain_sessions_spec clock ss2 (last_state s) (topo s) Hr2) as (ss3 & -> & Hr3 & Hc3 & Hw).
  exists ss1, ss3. rewrite Ew. split_and!; try done. split; cbn; [done| | |].
  - apply foldl_topo_wf; [done|by apply waiting_ok].
  - by rewrite (proj1 (update_telemetry_law _ _ _)).
  - by apply Forall_app_2.
Qed.

Lemma main_ok_ui s : main_ok s -> ui_inv (tui s, topo s, tree s, mgr s).
Proof. intros [_ Ht Hu _]. split; [done|by apply wf_count]. Qed.

Lemma interact_ok s tk : main_ok s -> tick_ok tk -> main_ok (interact uptime_text s tk).1.
Proof.
  intros Hs Htk. pose proof (interact_spec s tk (main_ok_ui s Hs) Htk) as (E & _ & _ & Hf & Hu & extra & Es & Hp).
  destruct Hs as [Hr Ht _ Hs]. split; [by rewrite E|by eapply flips_wf|done|]. rewrite Es. by apply Forall_app_2.
Qed.

Lemma turn_ok silent s tk :
  main_ok s -> tick_ok tk -> exists s' b, main_turn clock uptime_text silent s tk = Some (s', b) /\ main_ok s'.
Proof.
  intros Hs Htk. destruct (turn_spec silent s tk Hs Htk) as (ss1 & ss3 & _ & _ & _ & _ & _ & _ & Hd & ->).
  destruct silent; [by eexists _, _|]. pose proof (interact_ok _ tk Hd Htk) as Hi.
  destruct (interact uptime_text (drained s tk ss1 ss3) tk) as [s' b]. by exists s', b.
Qed.

Lemma take_signal_ok s tk : main_ok s -> main_ok (take_signal s tk).
Proof. intros []. by split. Qed.

Lemma loop_ok silent tks s :
  main_ok s -> Forall tick_ok tks ->
  exists s' left, main_loop clock uptime_text silent s tks = Some (s', left) /\ main_ok s'.
Proof.
  intros Hs Htks. revert s Hs. induction Htks as [|tk tks Htk Htks IH]; intros s Hs; cbn [main_loop].
  { split_if; by eexists _, _. }
  split_if; [by eexists _, _|]. destruct (turn_ok silent s tk Hs Htk) as (s' & b & -> & Hs').
  cbn [mbind option_bind fst snd]. destruct b; [by eexists _, _|]. apply IH. by apply take_signal_ok.
Qed.

(** *** What a turn reads *)

(** The snapshots of a turn that belong to active sessions. *)
Fixpoint delivered (ss : list nsr_session_t) (arrivals : list (list nsr_telemetry_state_t))
    : list nsr_telemetry_state_t :=
  match ss with
  | [] => []
  | s :: ss' => (if s_active s then default [] (hd_error arrivals) else []) ++ delivered ss' (tl arrivals)
  end.

Lemma delivered_core ss ss' arrivals : map core ss' = map core ss -> delivered ss' arrivals = delivered ss arrivals.
Proof.
  revert ss' arrivals. induction ss as [|s ss IH]; intros [|s' ss'] arrivals E; try done.
  injection E as _ _ _ E _ Es. cbn [delivered]. by rewrite E, (IH ss').
Qed.

Lemma publish_fits r tels r' :
  ring_ok r -> Forall snapshot_ok tels -> (length (lcontents r) + length tels <= 15)%nat ->
  publish_ring r tels = Some r' -> lcontents r' = lcontents r ++ tels.
Proof.
  revert r. induction tels as [|tel tels IH]; intros r Hr Ht Hl; cbn [publish_ring].
  { intros [= <-]. by rewrite app_nil_r. }
  inversion_clear Ht as [|? ? Htel Htels]. destruct Hr as [Hwf Hc]. cbn [length] in Hl.
  destruct (large_push_spec (SM := telemetry_slot) r tel Hwf I) as (ok & r1 & -> & Hwf1 & Hq).
  rewrite (proj2 (Z.eqb_neq _ _)) in Hq by lia. injection Hq as _ Hq. cbn [mbind option_bind snd]. intros E.
  rewrite (IH r1), Hq, <- app_assoc; try done.
  - split; [done|]. rewrite Hq. apply Forall_app_2; [done|by constructor].
  - rewrite Hq, length_app. cbn. lia.
Qed.

(** Fields that are part of [core]. *)
Lemma core_map {B} (g : nsr_session_t -> B) f l k :
  (forall s, g s = f (core s)) -> map core l = map core k -> map g l = map g k.
Proof. intros Hg E. rewrite !(map_ext g (fun s => f (core s)) Hg), <- !(map_map core f). by rewrite E. Qed.

Lemma active_core l k : map core l = map core k -> map s_active l = map s_active k.
Proof. by apply (core_map _ (fun c => c.1.2)). Qed.

Lemma existsb_active l k : map s_active l = map s_active k -> existsb s_active l = existsb s_active k.
Proof.
  assert (Hex : forall m, existsb s_active m = existsb id (map s_active m)).
  { induction m as [|x m IH]; [done|]. cbn. by rewrite IH. }
  intros E. by rewrite !Hex, E.
Qed.

(** A session after the processes were looked at: the same ring, not enabled. *)
Definition looked_at (s s' : nsr_session_t) : Prop := l2t s' = l2t s /\ (s_active s' = true -> s_active s = true).

Lemma reaction_looked_at pid st i s s' : reaction pid st i s s' -> looked_at s s'.
Proof.
  unfold reaction, looked_at. intros Hs. repeat split_if_in Hs; first [subst s'|destruct Hs as [p ->]]; by split.
Qed.

Lemma after_wait_looked_at s ss tk : Forall2 looked_at ss (after_wait s ss tk).1.1.
Proof.
  assert (Hrefl : Forall2 looked_at ss ss) by (induction ss; by constructor).
  unfold after_wait. destruct (tk_wait tk) as [[pid st]|]; [|done]. split_if; [|done].
  pose proof (reap_all_spec pid st (interval s) ss (forks_left s)) as Hs. destruct (reap _ _ _ _ _) as [[ss' f] k].
  eapply Forall2_impl; [apply Hs|]. apply reaction_looked_at.
Qed.

Lemma waiting_delivered ss arrivals ss1 ss2 :
  rings_ok ss -> Forall (Forall snapshot_ok) arrivals -> waiting ss = [] ->
  Forall (fun tels => (length tels <= 15)%nat) arrivals ->
  publish_all ss arrivals = Some ss1 -> Forall2 looked_at ss1 ss2 -> waiting ss2 = delivered ss2 arrivals.
Proof.
  revert arrivals ss1 ss2. induction ss as [|s ss IH]; intros arrivals ss1 ss2 Hr Ha Hw Hl; cbn [publish_all].
  { intros [= <-] H2. by apply Forall2_nil_inv_l in H2 as ->. }
  inversion_clear Hr as [|? ? Hs Hss]. apply Forall_hd_tl in Ha as [Ha Hat]; [|constructor].
  apply Forall_hd_tl in Hl as [Hl Hlt]; [|cbn; lia]. unfold waiting in Hw. cbn [map concat] in Hw. apply app_eq_nil in Hw as [Hw Hws].
  destruct (publish_ring (l2t s) (default [] (hd_error arrivals))) as [r|] eqn:Ep; [|done]. cbn [mbind option_bind].
  destruct (publish_all ss (tl arrivals)) as [ss1'|] eqn:Ea; [|done]. cbn [mbind option_bind]. intros [= <-] H2.
  apply Forall2_cons_inv_l in H2 as (s2 & ss2' & [El Hact] & H2 & ->).
  pose proof (IH _ _ _ Hss Hat Hws Hlt Ea H2) as Htl.
  unfold waiting in *. cbn [map concat delivered]. rewrite Htl. f_equal.
  destruct (s_active s2) eqn:E2; [|done]. cbn [with_l2t l2t s_active] in *. rewrite (Hact eq_refl) in Hw.
  rewrite El, (publish_fits (l2t s) (default [] (hd_error arrivals)) r); try done; by rewrite Hw.
Qed.


(** *** When the loop ends *)

(** What a turn does to process ids, activity and configurations, and to the flag
    that keeps the loop going. *)
Lemma turn_sessions silent s tk :
  main_ok s -> tick_ok tk ->
  exists s' quit ss, main_turn clock uptime_text silent s tk = Some (s', quit) /\ main_ok s' /\
    map core ss = map core (sessions s) /\ map core (sessions s') = map core (after_wait s ss tk).1.1 /\
    running s' = running s && existsb s_active (sessions s') /\ (silent = true -> quit = false).
Proof.
  intros Hs Htk. destruct (turn_spec silent s tk Hs Htk)
    as (ss1 & ss3 & _ & _ & Hc1 & _ & Hc3 & _ & Hd & ->).
  pose proof (existsb_active _ _ (active_core _ _ Hc3)) as Hact.
  set (d := drained s tk ss1 ss3) in *.
  assert (Ed : sessions d = ss3 /\ running d = running s && existsb s_active ss3).
  { rewrite Hact. unfold d, drained. by destruct (after_wait s ss1 tk) as [[ss2 f] k]. }
  destruct Ed as (E1 & E4). destruct silent.
  - exists d, false, ss1. by rewrite E4, E1.
  - pose proof (interact_spec d tk (main_ok_ui d Hd) Htk) as (I1 & I2 & _).
    pose proof (interact_ok d tk Hd Htk) as Hok.
    destruct (interact uptime_text d tk) as [s' b]. exists s', b, ss1. cbn [fst] in *. by rewrite I1, I2, E1, E4.
Qed.

(** A session by its process ids, activity and configuration. *)
Lemma core_lookup (ss ss' : list nsr_session_t) i x' :
  map core ss' = map core ss -> ss' !! i = Some x' -> exists x, ss !! i = Some x /\ core x' = core x.
Proof.
  revert ss' i. induction ss as [|x ss IH]; intros [|y ss'] i E Hi; try done.
  injection E as E1 E2 E3 E4 E5 E. destruct i as [|i]; [|by apply (IH ss')].
  injection Hi as <-. exists x. unfold core. by rewrite E1, E2, E3, E4, E5.
Qed.

(** The turn reports that a process of the session ended by itself. *)
Definition ended (x : nsr_session_t) (tk : turn_event) : Prop :=
  exists p st, tk_wait tk = Some (p, WExited st) /\ 0 < p /\ (p = gk_pid x \/ p = logic_pid x).

Definition no_crash (tk : turn_event) : Prop :=
  match tk_wait tk with Some (_, st) => WIFEXITED st = true | None => True end.

Lemma after_wait_active s ss tk i x' :
  no_crash tk -> (after_wait s ss tk).1.1 !! i = Some x' -> s_active x' = true ->
  exists x, ss !! i = Some x /\ core x' = core x /\ ~ ended x tk.
Proof.
  unfold no_crash, after_wait, ended. intros Hn. destruct (tk_wait tk) as [[pid st]|].
  2:{ intros Hi _. exists x'. split_and!; try done. by intros (? & ? & ? & _). }
  destruct (0 <? pid) eqn:Hp; cbn [fst].
  2:{ intros Hi _. exists x'. split_and!; try done. intros (? & ? & [= <- _] & ? & _). bool_facts. lia. }
  pose proof (reap_all_spec pid st (interval s) ss (forks_left s)) as Hs. destruct (reap _ _ _ _ _) as [[ss' f] k].
  destruct Hs as [Hs _]. cbn [fst]. intros Hi Ha. eapply Forall2_lookup_r in Hs as (x & Hx & Hr); [|exact Hi].
  exists x. split; [done|]. unfold reaction in Hr. rewrite Hn in Hr. cbn [orb] in Hr.
  destruct (pid =? gk_pid x) eqn:E1; [by subst x'|]. destruct (pid =? logic_pid x) eqn:E2; [by subst x'|].
  subst x'. split; [done|]. intros (? & ? & [= <- _] & _ & [->| ->]); by rewrite Z.eqb_refl in *.
Qed.

Lemma loop_stops silent tks s :
  main_ok s -> Forall tick_ok tks -> Forall no_crash tks -> (tks = [] -> running s = false) ->
  (forall i x, sessions s !! i = Some x -> s_active x = true -> Exists (ended x) tks) ->
  exists s', main_loop clock uptime_text silent s tks = Some (s', true).
Proof.
  intros Hs Htks. revert s Hs. induction Htks as [|tk tks Htk Htks IH]; intros s Hs Hnc Hrun Hex; cbn [main_loop].
  { rewrite Hrun by done. by exists s. }
  split_if; [by exists s|]. inversion_clear Hnc as [|? ? Hn Hnc'].
  destruct (turn_sessions silent s tk Hs Htk) as (s' & quit & ss & -> & Hs' & Hc & Hc' & Er & _).
  cbn [mbind option_bind fst snd]. destruct quit; [by exists s'|].
  assert (Hex' : forall i x, sessions s' !! i = Some x -> s_active x = true -> Exists (ended x) tks).
  { intros i x' Hi Ha. destruct (core_lookup _ _ _ _ Hc' Hi) as (x2 & Hi2 & E2).
    assert (s_active x2 = true) as Ha2 by (unfold core in E2; congruence).
    destruct (after_wait_active s ss tk i x2 Hn Hi2 Ha2) as (x1 & Hi1 & E1 & Hne).
    destruct (core_lookup _ _ _ _ Hc Hi1) as (x & Hx & E).
    assert (He : forall t, ended x t -> ended x1 t /\ ended x' t).
    { unfold ended, core in *. intros t (p & st & ? & ? & Hp).
      split; exists p, st; (split_and!; [done|done|]); destruct Hp; [left|right|left|right]; congruence. }
    assert (s_active x = true) as Hax by (unfold core in *; congruence).
    specialize (Hex i x Hx Hax). inversion_clear Hex as [? ? Hx1|? ? Hx1]; [by destruct (He _ Hx1)|].
    eapply Exists_impl; [exact Hx1|]. intros t Ht. by apply He. }
  apply IH; [by apply take_signal_ok|done| |exact Hex'].
  intros ->. cbn [running take_signal]. rewrite Er.
  destruct (existsb s_active (sessions s')) eqn:E; [|by rewrite andb_false_r].
  apply existsb_exists in E as (x & Hin & Ha). apply list_elem_of_In, list_elem_of_lookup in Hin as [i Hi].
  specialize (Hex' i x Hi Ha). by inversion Hex'.
Qed.

(** C19: the program ends by itself.  When one process of every active session is
    reported as ended (and none as crashed) and at least one turn is made, the loop
    is left, with or without the user interface, whatever keys are pressed. *)
Theorem supervisor_stops silent tks s :
  main_ok s -> Forall tick_ok tks -> Forall no_crash tks -> tks <> [] ->
  (forall x, x ∈ sessions s -> s_active x = true -> Exists (ended x) tks) ->
  exists s', main_loop clock uptime_text silent s tks = Some (s', true).
Proof.
  intros Hs Ht Hn Hne Hex. apply loop_stops; try done. intros i x Hi. apply Hex. by eapply list_elem_of_lookup_2.
Qed.

(** Crashes do not end the program.  Without the user interface and without a
    signal, when every process that is reported has crashed, every session stays as
    active as it was and the loop goes on for as many turns as there are. *)
Theorem crashes_are_survived tks s :
  main_ok s -> Forall tick_ok tks ->
  Forall (fun tk => tk_signal tk = false /\
            match tk_wait tk with Some (_, st) => WIFEXITED st = false | None => True end) tks ->
  running s = true -> existsb s_active (sessions s) = true ->
  exists s', main_loop clock uptime_text true s tks = Some (s', false) /\
    map s_active (sessions s') = map s_active (sessions s).
Proof.
  intros Hs Htks. revert s Hs. induction Htks as [|tk tks Htk Htks IH]; intros s Hs Hall Hrun Hact; cbn [main_loop];
    rewrite Hrun; cbn [negb]; [by exists s|].
  inversion_clear Hall as [|? ? [Hsig Hw] Hall'].
  destruct (turn_sessions true s tk Hs Htk) as (s' & quit & ss & -> & Hs' & Hc & Hc' & Er & Hq).
  cbn [mbind option_bind fst snd]. rewrite Hq by done.
  assert (Ha : map s_active (sessions s') = map s_active (sessions s)).
  { rewrite (active_core _ _ Hc'), <- (active_core _ _ Hc). unfold after_wait.
    destruct (tk_wait tk) as [[pid st]|]; [|done]. split_if; [|done].
    pose proof (reap_all_spec pid st (interval s) ss (forks_left s)) as Hr. destruct (reap _ _ _ _ _) as [[ss' f] k].
    destruct Hr as [Hr _]. cbn [fst]. clear -Hr Hw. induction Hr as [|x x' ss ss' Hx Hr IH]; [done|]. cbn [map].
    rewrite IH. f_equal. unfold reaction in Hx. rewrite Hw in Hx. cbn [orb] in Hx.
    repeat split_if_in Hx; first [subst x'|destruct Hx as [p ->]]; by bool_facts. }
  pose proof (existsb_active _ _ Ha) as Hex. rewrite Hact in Hex.
  destruct (IH (take_signal s' tk)) as (s2 & E & Ha2); try done.
  - by apply take_signal_ok.
  - cbn. by rewrite Er, Hrun, Hsig, Hex.
  - exists s2. split; [done|]. by rewrite Ha2.
Qed.

(** The interval keys have no effect on the probing.  As long as no process is
    reported, whatever keys are pressed and whatever the interval of the main
    process becomes, every session keeps its logic process and the configuration
    that process was started with; the loop does not write it anywhere else. *)
Theorem interval_stays_in_main silent tks s :
  main_ok s -> Forall tick_ok tks -> Forall (fun tk => tk_wait tk = None) tks ->
  exists s' left, main_loop clock uptime_text silent s tks = Some (s', left) /\
    map logic_config (sessions s') = map logic_config (sessions s) /\
    map logic_pid (sessions s') = map logic_pid (sessions s).
Proof.
  intros Hs Htks Hw. assert (Hc : exists s' left, main_loop clock uptime_text silent s tks = Some (s', left) /\
    map core (sessions s') = map core (sessions s)).
  { revert s Hs Hw. induction Htks as [|tk tks Htk Htks IH]; intros s Hs Hw; cbn [main_loop].
    { split_if; by eexists _, _. }
    split_if; [by eexists _, _|]. inversion_clear Hw as [|? ? Hn Hw'].
    destruct (turn_sessions silent s tk Hs Htk) as (s' & quit & ss & -> & Hs' & Hc & Hc' & _).
    unfold after_wait in Hc'. rewrite Hn in Hc'. cbn [fst] in Hc'. cbn [mbind option_bind fst snd].
    assert (E : map core (sessions s') = map core (sessions s)) by (by rewrite Hc').
    destruct quit; [by eexists _, _|]. destruct (IH (take_signal s' tk)) as (s2 & left & -> & E2); try done.
    { by apply take_signal_ok. }
    exists s2, left. split; [done|]. by rewrite E2. }
  destruct Hc as (s' & left & E & Hc). exists s', left. split; [done|].
  split; [by apply (core_map _ (fun c => c.2))|by apply (core_map _ (fun c => c.1.1.2))].
Qed.

End Turn.

(** ** From the command line *)

Section Program.
  Context `{Inet} (getaddrinfo : cstr -> family -> option (family * list Z)) (clock : nat -> Z).
  Context `{Ncurses} {M : Type} `{PluginManagerLaws M} (uptime_text : Z -> Z -> option (option cstr)).

(** The record of a session for an argument, with what two [fork]s gave. *)
Definition made_session (interval : Z) (ip host : cstr) (p1 p2 : Z) : nsr_session_t :=
  let s := with_gk_pid (new_session ip host) p1 in with_logic s p2 (session_config s interval).

(** What holds for the records that are made holds for all that are started. *)
Lemma start_sessions_all (P : nsr_session_t -> Prop) args st maps forks ss ss' forks' :
  (forall a ip p1 p2, resolve_target getaddrinfo a (st_family st) = Some ip -> P (made_session (st_interval_ms st) ip a p1 p2)) ->
  Forall P ss -> start_sessions getaddrinfo args st maps forks ss = Some (ss', forks') -> Forall P ss'.
Proof.
  intros HP. revert maps forks ss.
  induction args as [|a args IH]; intros maps forks ss Hss; cbn [start_sessions]; [by intros [= <- _]|].
  split_if; [|by intros [= <- _]]. destruct (resolve_target getaddrinfo a (st_family st)) eqn:Er; [|by apply IH].
  split_if; [done|]. unfold spawn_gatekeeper, spawn_logic. destruct (fork forks) as [p1 f1], (fork f1) as [p2 f2].
  apply IH. apply Forall_app_2; [done|]. constructor; [by apply HP|done].
Qed.

Lemma start_up_all (P : family -> Z -> nsr_session_t -> Prop) opts args maps forks st ss forks' :
  (forall f i a ip p1 p2, resolve_target getaddrinfo a f = Some ip -> P f i (made_session i ip a p1 p2)) ->
  start_up getaddrinfo opts args maps forks = Some (st, ss, forks') -> Forall (P (st_family st) (st_interval_ms st)) ss.
Proof.
  intros HP. unfold start_up. destruct (parse_options opts default_settings) as [st'|]; [|done]. cbn [mbind option_bind].
  split_if; [done|]. destruct (start_sessions _ _ _ _ _ _) as [[ss' f]|] eqn:E; [|done]. cbn [mbind option_bind fst snd].
  split_if; [done|]. intros [= <- <- <-]. eapply start_sessions_all; [|constructor|exact E]. intros. by apply HP.
Qed.

Lemma start_ok opts args maps forks st ss forks' table (m : M) :
  start_up getaddrinfo opts args maps forks = Some (st, ss, forks') ->
  main_ok (main_start st ss forks' table m) /\ waiting ss = [].
Proof.
  intros E. apply (start_up_all (fun _ _ s => l2t s = empty_large)) in E; [|done].
  assert (Hc : lcontents (SM := telemetry_slot) empty_large = []) by reflexivity.
  split; [split; cbn|].
  - eapply Forall_impl; [exact E|]. intros s Es. rewrite Es. split; [apply empty_large_wf|by rewrite Hc].
  - apply topology_init_wf.
  - pose proof (count_range m). split; cbn; try lia; [done|apply not_elem_of_nil].
  - constructor.
  - unfold waiting. induction E as [|s ss Es E IH]; [done|]. cbn [map concat]. rewrite Es, Hc, IH. by split_if.
Qed.

(** The program is safe for as long as it runs.  From any command line that it
    accepts, with any plugin manager that obeys its laws, any keys, any screen
    sizes, any process exits, crashes and failing [fork]s, and any snapshots that
    logic processes publish, every turn gives a next state: no access leaves a
    telemetry ring.  In the state it has reached the rings, the graph and the state
    of the user interface are well formed, and every signal it has sent, and those
    of the shutdown, go to a positive process id. *)
Theorem program_safe opts args maps forks st ss forks' table (m : M) silent tks :
  start_up getaddrinfo opts args maps forks = Some (st, ss, forks') -> Forall tick_ok tks ->
  exists s left, main_loop clock uptime_text silent (main_start st ss forks' table m) tks = Some (s, left) /\
    rings_ok (sessions s) /\ topo_wf (topo s) /\ ui_ok (tui s) (vt_count (mgr s)) /\
    Forall (fun p => 0 < p.1) (signals s ++ shut_down (sessions s)).
Proof.
  intros Hstart Htks. destruct (start_ok _ _ _ _ _ _ _ table m Hstart) as [Hok _].
  destruct (loop_ok clock uptime_text silent tks _ Hok Htks) as (s & left & E & []). exists s, left.
  split_and!; try done. apply Forall_app_2; [done|apply shut_down_positive].
Qed.

(** C27: every process pair probes the address its argument resolved to.  For every
    session that is started there is an argument and the address [getaddrinfo] gave
    for it, such that the gatekeeper of the session, once it has its socket, sends to
    exactly that address with the matching protocol, from an empty table, and the
    logic process shows the text of that address; no text is cut on the way. *)
Theorem targets_reach_gatekeeper `{!InetLaws} opts args maps forks st ss forks' :
  (forall a f g addr, getaddrinfo a f = Some (g, addr) -> g <> AF_UNSPEC -> address_ok g addr) ->
  Forall (eq true) maps -> start_up getaddrinfo opts args maps forks = Some (st, ss, forks') ->
  Forall (fun x => exists a g addr,
    a ∈ args /\ s_target_host x = strncpy 127 a /\ getaddrinfo a (st_family st) = Some (g, addr) /\
    (forall pid fd, 0 <= fd ->
       gk_start (s_target_ip x) pid fd = Some (bool_decide (g = AF_INET6), addr, started_gk pid)) /\
    target_ip (g_state (logic_init clock (logic_config x))) = inet_ntop g addr) ss.
Proof.
  intros Hgai Hmaps Hs. pose proof (start_up_spec getaddrinfo opts args maps forks Hmaps) as Hspec.
  rewrite Hs in Hspec. destruct Hspec as (_ & _ & Hss). apply Forall_forall. intros x Hx.
  apply list_elem_of_lookup in Hx as [i Hx]. eapply Forall2_lookup_l in Hss as ([a ip] & Hp & Hof); [|exact Hx].
  apply lookup_take_Some in Hp as [Hp _]. apply list_elem_of_lookup_2 in Hp. unfold resolved in Hp.
  apply list_elem_of_omap in Hp as (a' & Ha & E). unfold resolve_target in E.
  destruct (getaddrinfo a' (st_family st)) as [[g addr]|] eqn:Eg; [|done].
  assert (Hg : g <> AF_UNSPEC /\ a' = a /\ ip = inet_ntop g addr) by (destruct g; [done|by injection E as <- <-..]).
  destruct Hg as (Hg & -> & ->). pose proof (Hgai _ _ _ _ Eg Hg) as Hok. destruct (ntop_text g addr Hok) as [Hlen Hnul].
  destruct Hof as (Hh & Hip & _ & _ & Hc). cbn [fst snd] in Hh, Hip. unfold strncpy in Hip. rewrite take_ge in Hip by lia.
  exists a, g, addr. split_and!; try done.
  - intros pid fd Hfd. unfold gk_start. rewrite Hip, (parse_target_ntop g addr Hg Hok). cbn [mbind option_bind].
    by rewrite (proj2 (Z.ltb_ge _ _) Hfd).
  - unfold logic_init. rewrite Hc. cbn [g_state target_ip session_config cf_target_ip]. unfold strncpy. rewrite Hip, take_ge by lia.
    destruct (inet_ntop g addr) as [|c s]; [done|]. cbn [deref]. split_if; [|done]. exfalso.
    apply Hnul. apply ceq_true in Heqb as ->. by left.
Qed.

End Program.

(** ** Witnesses *)

#[local] Existing Instances ncurses_codes letter_inet.

Definition localhost (a : cstr) (_ : family) : option (family * list Z) := Some (AF_INET, [127; 0; 0; 1]).

Definition no_uptime (_ _ : Z) : option (option cstr) := None.

(** Two sessions with the processes 11 to 14, and room for restarts. *)
Definition two_sessions : list nsr_session_t :=
  match start_up localhost [] [str "a"; str "b"] [] [11; 12; 13; 14; 15; 16] with
  | Some (_, ss, _) => ss
  | None => []
  end.

Definition first_state : main_state := main_start default_settings two_sessions [15; 16] [] no_plugins.

Lemma first_started :
  start_up localhost [] [str "a"; str "b"] [] [11; 12; 13; 14; 15; 16] = Some (default_settings, two_sessions, [15; 16]).
Proof. vm_compute. reflexivity. Qed.

Definition demo_tick (wait : option (Z * wait_status)) (key : Z) : turn_event :=
  mk_tick [] wait (mk_screen 24 80) 0 0 key false.

Lemma demo_tick_ok wait key : tick_ok (demo_tick wait key).
Proof. split; [constructor|]. split; discriminate. Qed.

#[local] Ltac demo_ticks := repeat first [apply Forall_nil_2|apply Forall_cons_2; [apply demo_tick_ok|]].

Lemma first_state_ok : main_ok first_state.
Proof. exact (proj1 (start_ok localhost _ _ _ _ _ _ _ [] no_plugins first_started)). Qed.

Lemma program_safe_witness :
  exists s left, main_loop (fun _ => 0) no_uptime false first_state
      [demo_tick None (ord "g"); demo_tick (Some (11, WExited 1)) (ord "z"); demo_tick None (ord "q")] = Some (s, left) /\
    topo_wf (topo s) /\ Forall (fun p => 0 < p.1) (signals s ++ shut_down (sessions s)).
Proof.
  destruct (program_safe localhost (fun _ => 0) no_uptime [] [str "a"; str "b"] [] [11; 12; 13; 14; 15; 16]
    default_settings two_sessions [15; 16] [] no_plugins false
    [demo_tick None (ord "g"); demo_tick (Some (11, WExited 1)) (ord "z"); demo_tick None (ord "q")] first_started
    ltac:(demo_ticks)) as (s & left & E & _ & Ht & _ & Hs).
  exists s, left. by split_and!.
Defined.


Lemma supervisor_stops_witness :
  exists s, main_loop (fun _ => 0) no_uptime false first_state
    [demo_tick (Some (11, WExited 1)) ERR; demo_tick None (ord "t"); demo_tick (Some (14, WExited 0)) ERR]
    = Some (s, true).
Proof.
  apply (supervisor_stops (fun _ => 0) no_uptime false _ first_state).
  - apply first_state_ok.
  - demo_ticks.
  - repeat constructor.
  - discriminate.
  - intros x Hx _. vm_compute in Hx. apply elem_of_cons in Hx as [->|Hx].
    + left. exists 11, 1. repeat split; try reflexivity. left. reflexivity.
    + apply list_elem_of_singleton in Hx as ->. right. right. left. exists 14, 0. repeat split; try reflexivity.
      right. reflexivity.
Defined.

Lemma crashes_are_survived_witness :
  exists s, main_loop (fun _ => 0) no_uptime true first_state
    [demo_tick (Some (11, WSignaled 11)) 0; demo_tick (Some (14, WSignaled 6)) 0] = Some (s, false) /\
    map s_active (sessions s) = [true; true].
Proof.
  apply (crashes_are_survived (fun _ => 0) no_uptime
    [demo_tick (Some (11, WSignaled 11)) 0; demo_tick (Some (14, WSignaled 6)) 0] first_state).
  - apply first_state_ok.
  - demo_ticks.
  - repeat constructor.
  - reflexivity.
  - vm_compute. reflexivity.
Defined.

(** The dashboard is opened and [k] pressed: the interval of the main process is 110
    milliseconds, the logic processes go on with the 100 they were started with. *)
Lemma interval_stays_in_main_witness :
  exists s left, main_loop (fun _ => 0) no_uptime false first_state
      [demo_tick None (ord "d"); demo_tick None (ord "k")] = Some (s, left) /\
    map (fun x => cf_interval_ms (logic_config x)) (sessions s) = [100; 100] /\ interval s = 110.
Proof.
  destruct (interval_stays_in_main (fun _ => 0) no_uptime false
    [demo_tick None (ord "d"); demo_tick None (ord "k")] first_state) as (s & left & E & Hc & _).
  - apply first_state_ok.
  - demo_ticks.
  - repeat constructor.
  - exists s, left. split; [exact E|]. split.
    + rewrite <- (map_map logic_config cf_interval_ms), Hc. vm_compute. reflexivity.
    + assert (Hi : (fun r => interval r.1) <$> main_loop (fun _ => 0) no_uptime false first_state
        [demo_tick None (ord "d"); demo_tick None (ord "k")] = Some 110) by (vm_compute; reflexivity).
      rewrite E in Hi. cbn in Hi. congruence.
Defined.

Lemma targets_reach_gatekeeper_witness :
  Forall (fun x => gk_start (s_target_ip x) 70000 3 = Some (false, [127; 0; 0; 1], started_gk 70000)) two_sessions.
Proof.
  pose proof (targets_reach_gatekeeper localhost (fun _ => 0) [] [str "a"; str "b"] [] [11; 12; 13; 14; 15; 16]
    default_settings two_sessions [15; 16]) as Ht.
  eapply Forall_impl; [apply Ht|].
  - intros a f g addr [= <- <-] _. split; [reflexivity|]. repeat constructor; lia.
  - constructor.
  - exact first_started.
  - cbn beta. intros x (a & g & addr & _ & _ & [= <- <-] & Hg & _). rewrite Hg by lia. reflexivity.
Defined.
