(* ===== verification/Whole.v ===== *)
(** * All processes together

    The main loop of Supervisor.v over live processes: every session has the logic
    process of Logic.v and the gatekeeper of Gatekeeper.v, which run, crash and get
    signals between any two turns of the loop, and which the loop starts again on the
    rings they left (src/src/core/main.c, src/src/io/logic.c, src/src/io/gatekeeper.c).
    MainLoop.v assumes something of the snapshots and Accounting.v of the process that
    reads them; here each part gets what it needs from the others, and nothing is
    assumed but the laws of the environment.

    A run is a list of actions; an action that is not possible (of a process that does
    not exist, or waits for room in a ring) changes nothing.  A process is taken to
    have reset its signal handlers when it exists. *)

From stdpp Require Import relations gmap.
From S2P Require Import Prelude CFloat Telemetry ShmRing HopAlias Logic Gatekeeper GateSetup System Topology Accounting KeySlots.
From S2P Require Import JsonScan PluginConfig RpcConn PluginHost Draw TuiState PluginRender PluginMgr TreeOrder TuiView TuiInput TuiSystem.
From S2P Require Import Supervisor MainLoop.

#[local] Abbreviation rg_l2t := Logic.l2t.
#[local] Abbreviation l2t := Supervisor.l2t.

#[export] Instance wait_status_eq_dec : EqDecision wait_status.
Proof. solve_decision. Defined.

(** ** Processes *)

(** A process: its state, or how it ended as long as nobody asked, or nothing. *)
Inductive process (S : Type) :=
| Running (s : S)
| Zombie (st : wait_status)
| Gone.
Arguments Running {S} s.
Arguments Zombie {S} st.
Arguments Gone {S}.

(** The two processes of a session and the two rings between them (the third ring is
    a field of the session); whether the gatekeeper uses IPv6; the clock the logic
    process reads.  [c_clean] records history: the session has had one logic process
    only and no probe counter of it has come within a burst of its 32-bit limit. *)
Record child := mk_child {
  c_engine : process logic_t;
  c_keeper : process (bool * gk_t);
  c_g2l : nsr_shm_ring_t (list Z);
  c_l2g : nsr_shm_ring_t (list Z);
  c_clock : nat -> Z;
  c_clean : bool;
}.

Definition with_engine (c : child) (e : process logic_t) : child :=
  mk_child e (c_keeper c) (c_g2l c) (c_l2g c) (c_clock c) (c_clean c).
Definition with_keeper (c : child) (k : process (bool * gk_t)) : child :=
  mk_child (c_engine c) k (c_g2l c) (c_l2g c) (c_clock c) (c_clean c).

Definition child_rings (c : child) (x : nsr_session_t) : rings_t := mk_rings (c_g2l c) (c_l2g c) (l2t x).

(** No send counter is within a burst of its limit. *)
Definition engine_room (st : logic_t) : bool := forallb (fun h => sent h + 64 <? 2 ^ 32) (hops (g_state st)).

(** What a process may do by itself.  [EngineCrashes]: killed by the signal [sig] in
    the middle of an iteration, after [pushed] pushes and [pops] batches popped (a
    gatekeeper that crashes in an iteration leaves the rings of an iteration with
    fewer packets).  The network has packets for either kind of socket. *)
Inductive child_action :=
| EngineWorks
| KeeperWorks (now accepted : Z) (batches : bool -> list rx_batch)
| EngineCrashes (sig : Z) (pushed pops : nat)
| KeeperCrashes (sig : Z).

Fixpoint pop_times (n : nat) (r : nsr_shm_ring_t (list Z)) : nsr_shm_ring_t (list Z) :=
  match n with
  | O => r
  | S n' => pop_times n' (nsr_shm_ring_pop_batch (item := nsr_observation_t) r LOGIC_BATCH).2
  end.

Section Children.
  Context (ntop : bool -> list Z -> cstr).

(** The intents of the iteration that begins. *)
Definition next_burst_of (clk : nat -> Z) (st : logic_t) (interval : Z) : list nsr_intent_t :=
  let st0 := begin_iteration clk st interval in
  if probe_due st0 (clock_us clk st) interval then burst_of st0 (clock_us clk st) else [].

(** [None]: an access outside an array, a ring or a packet. *)
Definition child_do (a : child_action) (c : child) (x : nsr_session_t) : option (child * nsr_session_t) :=
  let interval := cf_interval_ms (logic_config x) in
  match a, c_engine c, c_keeper c with
  | EngineWorks, Running st, k =>
      match logic_iteration (c_clock c) ntop st interval (child_rings c x) with
      | Done (st', rg) =>
          Some (mk_child (Running st') k (g2l rg) (l2g rg) (c_clock c) (c_clean c && engine_room st),
                with_l2t x (rg_l2t rg))
      | Spinning _ => Some (c, x)
      | Fault => None
      end
  | KeeperWorks now accepted batches, e, Running (v6, g) =>
      match gk_iteration g v6 now accepted (batches v6) (c_l2g c) (c_g2l c) with
      | GkDone (_, g', l2g', g2l') =>
          Some (mk_child e (Running (v6, g')) g2l' l2g' (c_clock c) (c_clean c), x)
      | GkSpinning _ => Some (c, x)
      | GkFault => None
      end
  | EngineCrashes sig pushed pops, Running st, k =>
      let l2g' := (push_intents (c_l2g c) (take pushed (next_burst_of (c_clock c) st interval))).2 in
      Some (mk_child (Zombie (WSignaled sig)) k (pop_times pops (c_g2l c)) l2g' (c_clock c) (c_clean c), x)
  | KeeperCrashes sig, e, Running _ => Some (with_keeper c (Zombie (WSignaled sig)), x)
  | _, _, _ => Some (c, x)
  end.

End Children.

(** A signal to a process id, as its processes take it: SIGUSR1 pauses a logic process
    (the program sends none to a gatekeeper), SIGTERM ends both. *)
Definition hear (pid : Z) (sg : signal) (c : child) (x : nsr_session_t) : child :=
  let e := if pid =? logic_pid x then
             match c_engine c, sg with
             | Running st, SIGUSR1 => Running (handle_sigusr1 st)
             | Running _, SIGTERM => Zombie (WSignaled 15)
             | e, _ => e
             end
           else c_engine c in
  let k := if pid =? gk_pid x then
             match c_keeper c, sg with
             | Running _, SIGTERM => Zombie (WSignaled 15)
             | k, _ => k
             end
           else c_keeper c in
  mk_child e k (c_g2l c) (c_l2g c) (c_clock c) (c_clean c).

Section Boot.
  Context `{Inet}.

(** What [fork] made of a session's process: nothing if it failed.  [fd] is the
    result of [socket] in the gatekeeper. *)
Definition boot_keeper (x : nsr_session_t) (fd : Z) : process (bool * gk_t) :=
  if 0 <? gk_pid x then
    match gk_start (s_target_ip x) (gk_pid x) fd with
    | Some (v6, _, g) => Running (v6, g)
    | None => Zombie (WExited 1)
    end
  else Gone.

Definition boot_engine (x : nsr_session_t) (clk : nat -> Z) : process logic_t :=
  if 0 <? logic_pid x then Running (logic_init clk (logic_config x)) else Gone.

Definition first_child (x : nsr_session_t) (fd : Z) (clk : nat -> Z) : child :=
  mk_child (boot_engine x clk) (boot_keeper x fd) empty_ring empty_ring clk true.

(** The processes of a session whose record the loop changed from [x] to [x'] when it
    was told of the end of [pid]. *)
Definition respawn (pid : Z) (st : wait_status) (fd : Z) (clk : nat -> Z) (c : child) (x x' : nsr_session_t) : child :=
  if pid =? gk_pid x then with_keeper c (if WIFEXITED st then Gone else boot_keeper x' fd)
  else if pid =? logic_pid x then
    if WIFEXITED st || negb (s_active x) then with_engine c Gone
    else mk_child (boot_engine x' clk) (c_keeper c) (c_g2l c) (c_l2g c) clk false
  else c.

End Boot.

(** [waitpid] reports [pid] with a status only if the processes of that id (of a
    session; it may be a plugin) ended with it. *)
Definition died (pid : Z) (st : wait_status) (c : child) (x : nsr_session_t) : bool :=
  (if pid =? gk_pid x then match c_keeper c with Zombie st' => bool_decide (st = st') | _ => false end else true) &&
  (if pid =? logic_pid x then match c_engine c with Zombie st' => bool_decide (st = st') | _ => false end else true).

Fixpoint all_died (pid : Z) (st : wait_status) (cs : list child) (xs : list nsr_session_t) : bool :=
  match cs, xs with
  | c :: cs', x :: xs' => died pid st c x && all_died pid st cs' xs'
  | _, _ => true
  end.

Definition waitpid (cs : list child) (xs : list nsr_session_t) (wait : option (Z * wait_status)) : option (Z * wait_status) :=
  match wait with
  | Some (pid, st) => if (0 <? pid) && all_died pid st cs xs then wait else None
  | None => None
  end.

(** ** The program *)

Section Program.
  Context `{Inet} (ntop : bool -> list Z -> cstr) (main_clock : nat -> Z).
  Context `{Ncurses} {M : Type} `{PluginManagerLaws M} (uptime_text : Z -> Z -> option (option cstr)) (silent : bool).

(** [w_heard] of the signals the main process has sent have arrived; [w_left]: the
    loop was left. *)
Record whole := mk_whole {
  w_main : main_state (M := M);
  w_children : list child;
  w_heard : nat;
  w_left : bool;
}.

(** [Turn]: the round of the loop, with [socket] and the clock for a process that it
    may start. *)
Inductive action :=
| Works (i : nat) (a : child_action)
| Deliver
| Turn (tk : turn_event) (fd : Z) (clk : nat -> Z).

Definition with_sessions (s : main_state (M := M)) (ss : list nsr_session_t) : main_state :=
  mk_main ss (running s) (last_state s) (topo s) (tui s) (tree s) (mgr s) (interval s) (forks_left s) (signals s).

(** The end of [main] after the loop. *)
Definition leave (s : main_state (M := M)) : main_state :=
  mk_main (sessions s) (running s) (last_state s) (topo s) (tui s) (tree s) (mgr s) (interval s) (forks_left s)
    (signals s ++ shut_down (sessions s)).

(** What the turn observes: no snapshot but those on the rings, no exit but that of a
    process that ended. *)
Definition observed_tick (w : whole) (tk : turn_event) : turn_event :=
  mk_tick [] (waitpid (w_children w) (sessions (w_main w)) (tk_wait tk)) (tk_screen tk) (tk_now tk) (tk_now_ns tk)
    (tk_key tk) (tk_signal tk).

Fixpoint respawn_all (pid : Z) (st : wait_status) (fd : Z) (clk : nat -> Z) (cs : list child) (xs xs' : list nsr_session_t)
    : list child :=
  match cs, xs, xs' with
  | c :: cs', x :: xs, x' :: xs' => respawn pid st fd clk c x x' :: respawn_all pid st fd clk cs' xs xs'
  | _, _, _ => cs
  end.

Definition turn_do (w : whole) (tk : turn_event) (fd : Z) (clk : nat -> Z) : option whole :=
  if w_left w then Some w
  else if negb (running (w_main w)) then Some (mk_whole (leave (w_main w)) (w_children w) (w_heard w) true)
  else
    let tk := observed_tick w tk in
    r ← main_turn main_clock uptime_text silent (w_main w) tk;
    let cs := match tk_wait tk with
              | Some (pid, st) => respawn_all pid st fd clk (w_children w) (sessions (w_main w)) (sessions r.1)
              | None => w_children w
              end in
    Some (if r.2 : bool then mk_whole (leave r.1) cs (w_heard w) true
          else mk_whole (take_signal r.1 tk) cs (w_heard w) false).

Definition whole_do (w : whole) (a : action) : option whole :=
  match a with
  | Works i a =>
      match w_children w !! i, sessions (w_main w) !! i with
      | Some c, Some x =>
          r ← child_do ntop a c x;
          Some (mk_whole (with_sessions (w_main w) (<[i := r.2]> (sessions (w_main w)))) (<[i := r.1]> (w_children w))
                  (w_heard w) (w_left w))
      | _, _ => Some w
      end
  | Deliver =>
      match signals (w_main w) !! w_heard w with
      | Some (pid, sg) =>
          Some (mk_whole (w_main w) (zip_with (hear pid sg) (w_children w) (sessions (w_main w))) (S (w_heard w)) (w_left w))
      | None => Some w
      end
  | Turn tk fd clk => turn_do w tk fd clk
  end.

Fixpoint run (w : whole) (acts : list action) : option whole :=
  match acts with
  | [] => Some w
  | a :: acts' => w' ← whole_do w a; run w' acts'
  end.

(** The program when the loop is entered. *)
Definition whole_start (s : main_state (M := M)) (fds : nat -> Z) (clks : nat -> nat -> Z) : whole :=
  mk_whole s (imap (fun i x => first_child x (fds i) (clks i)) (sessions s)) 0 false.

End Program.

(** ** What holds for a session and its processes *)

(** The two processes as a pipeline; one that does not run counts as a fresh one. *)
Definition engine_of (c : child) (x : nsr_session_t) : logic_t :=
  match c_engine c with Running st => st | _ => logic_init (c_clock c) (logic_config x) end.

Definition keeper_of (c : child) : gk_t :=
  match c_keeper c with Running (_, g) => g | _ => started_gk 0 end.

Definition pipe (c : child) (x : nsr_session_t) : pipeline :=
  mk_pipeline (engine_of c x) (keeper_of c) (child_rings c x).

(** What the main process relies on: no hop with more answers than probes. *)
Definition counts_ok (tel : nsr_telemetry_state_t) : Prop := Forall (fun h => 0 <= recv h <= sent h) (hops tel).

Definition lives {S} (p : process S) : Prop := match p with Running _ => True | _ => False end.

Record child_ok (c : child) (x : nsr_session_t) : Prop := mk_child_ok {
  co_inv : pipeline_inv (pipe c x);
  co_clock : forall n, 0 <= c_clock c n < 2 ^ 64;
  co_address : text_ok (s_target_ip x);
  co_config : cf_target_ip (logic_config x) = s_target_ip x;
  co_target : target_ip (g_state (engine_of c x)) = s_target_ip x;
  co_ring : Forall snapshot_ok (lcontents (l2t x));
  co_counts : c_clean c = true ->
    (lives (c_engine c) -> balanced (pipe c x)) /\ Forall counts_ok (lcontents (l2t x));
  co_pids : (lives (c_engine c) -> 0 < logic_pid x) /\ (lives (c_keeper c) -> 0 < gk_pid x);
  co_active : s_active x = true ->
    (0 < logic_pid x -> c_engine c <> Gone) /\ (0 < gk_pid x -> c_keeper c <> Gone);
}.

Lemma co_large c x : child_ok c x -> large_wf (l2t x).
Proof. intros Hc. by destruct (co_inv c x Hc) as (_ & _ & _ & _ & H & _). Qed.

Lemma boot_target clk config : text_ok (cf_target_ip config) -> target_ip (g_state (logic_init clk config)) = cf_target_ip config.
Proof.
  intros (Hne & Hnul & Hlen). cbn. rewrite deref_nonempty by done. unfold strncpy. by rewrite take_ge by lia.
Qed.

Lemma balanced_fresh_keeper st g rg pid : balanced (mk_pipeline st g rg) -> balanced (mk_pipeline st (started_gk pid) rg).
Proof.
  intros Hb k h Hh. destruct (Hb k h Hh) as [Hr Hle]. split; [done|]. cbn [engine keeper rings g_inflight started_gk] in *.
  pose proof (flying_nonneg k (outstanding (g_inflight g))).
  assert (E : flying k (outstanding ∅) = 0) by (unfold flying, outstanding; by rewrite omap_empty, map_filter_empty).
  rewrite E. lia.
Qed.

(** What the two processes see of the record of their session. *)
Lemma child_ok_core c x x' :
  child_ok c x -> core x' = core x -> large_wf (l2t x') -> (lcontents (l2t x') = [] \/ l2t x' = l2t x) -> child_ok c x'.
Proof.
  intros [Hi Hclk Ha Hcf Ht Hr Hc Hp Hl] E Hwf Hl2t. unfold core in E.
  assert (E1 : s_target_ip x' = s_target_ip x) by congruence. assert (E2 : gk_pid x' = gk_pid x) by congruence.
  assert (E3 : logic_pid x' = logic_pid x) by congruence. assert (E4 : s_active x' = s_active x) by congruence.
  assert (E5 : logic_config x' = logic_config x) by congruence.
  assert (E6 : engine_of c x' = engine_of c x) by (unfold engine_of; by rewrite E5).
  split; rewrite ?E1, ?E2, ?E3, ?E4, ?E5, ?E6; try done.
  - destruct Hi as (H1 & H2 & H3 & H4 & _ & H5 & H6). unfold pipe. by rewrite E6.
  - destruct Hl2t as [->| ->]; [constructor|done].
  - intros Hcl. destruct (Hc Hcl) as [Hb Hs]. split; [unfold pipe; rewrite E6; exact Hb|].
    destruct Hl2t as [->| ->]; [constructor|done].
Qed.

(** A fresh gatekeeper, or none. *)
Lemma new_keeper c x x' k pid :
  child_ok c x -> keeper_of (with_keeper c k) = started_gk pid ->
  s_target_ip x' = s_target_ip x -> logic_pid x' = logic_pid x -> logic_config x' = logic_config x -> l2t x' = l2t x ->
  (lives k -> 0 < gk_pid x') -> (s_active x' = true -> s_active x = true /\ (0 < gk_pid x' -> k <> Gone)) ->
  child_ok (with_keeper c k) x'.
Proof.
  intros [Hi Hclk Ha Hcf Ht Hr Hc Hp Hl] Hk E1 E2 E3 E4 Hpk Hlk.
  assert (E6 : engine_of (with_keeper c k) x' = engine_of c x) by (unfold engine_of; cbn; by rewrite E3).
  assert (E7 : child_rings (with_keeper c k) x' = child_rings c x) by (unfold child_rings; cbn; by rewrite E4).
  split; rewrite ?E1, ?E2, ?E3, ?E4, ?E6; try done.
  - unfold pipe. rewrite E6, E7, Hk. destruct Hi as (H1 & _ & H3). exact (conj H1 (conj (proj1 (started_gk_wf pid)) H3)).
  - intros Hcl. destruct (Hc Hcl) as [Hb Hs]. split; [|done]. intros Hlv. unfold pipe. rewrite E6, E7, Hk.
    eapply balanced_fresh_keeper, Hb, Hlv.
  - by split; [destruct Hp|].
  - intros Hact. destruct (Hlk Hact) as [Hx Hg]. by split; [destruct (Hl Hx)|].
Qed.

(** A fresh logic process, or none, on rings that are left. *)
Lemma new_engine c x x' e g2l' l2g' clk clean j pushed :
  child_ok c x -> engine_of (mk_child e (c_keeper c) g2l' l2g' clk clean) x' = logic_init clk (logic_config x') ->
  (forall n, 0 <= clk n < 2 ^ 64) -> ring_wf g2l' -> ring_wf l2g' -> Forall intent_ok pushed ->
  contents l2g' = contents (c_l2g c) ++ pushed ->
  contents (item := nsr_observation_t) g2l' = drop j (contents (c_g2l c)) ->
  s_target_ip x' = s_target_ip x -> gk_pid x' = gk_pid x -> cf_target_ip (logic_config x') = s_target_ip x -> l2t x' = l2t x ->
  (clean = true -> c_clean c = true /\ ~ lives e) ->
  (lives e -> 0 < logic_pid x') -> (s_active x' = true -> s_active x = true /\ (0 < logic_pid x' -> e <> Gone)) ->
  child_ok (mk_child e (c_keeper c) g2l' l2g' clk clean) x'.
Proof.
  intros [Hi Hclk Ha Hcf Ht Hr Hc Hp Hl] He Hclk' R1 R2 Hint C1 C2 E1 E2 E3 E4 Hcl Hpk Hlk.
  assert (Htg : target_ip (g_state (logic_init clk (logic_config x'))) = s_target_ip x).
  { rewrite boot_target; by rewrite E3. }
  split; rewrite ?E1, ?E2, ?E4; try done.
  - unfold pipe. rewrite He. destruct Hi as (_ & Hg & _ & _ & R3 & Hi0 & Ho0).
    refine (conj (logic_init_wf clk _) (conj Hg (conj R1 (conj R2 (conj _ (conj _ _)))))); cbn in *.
    + by rewrite E4.
    + rewrite C1. by apply Forall_app.
    + rewrite C2. by apply Forall_drop.
  - by rewrite He.
  - intros Hct. destruct (Hcl Hct) as [Hct' Hn]. destruct (Hc Hct') as [_ Hs]. by split.
  - by split; [|destruct Hp].
  - intros Hact. destruct (Hlk Hact) as [Hx Hg]. by split; [|destruct (Hl Hx)].
Qed.

Lemma Forall_good rs : Forall good_snapshot rs <-> Forall snapshot_ok rs /\ Forall counts_ok rs.
Proof. apply Forall_and. Qed.

Section Safety.
  Context (ntop : bool -> list Z -> cstr) (ntop_text : forall v6 bytes, text_ok (ntop v6 bytes)).

Lemma engine_works_ok c x st st' rg :
  child_ok c x -> c_engine c = Running st ->
  logic_iteration (c_clock c) ntop st (cf_interval_ms (logic_config x)) (child_rings c x) = Done (st', rg) ->
  child_ok (mk_child (Running st') (c_keeper c) (g2l rg) (l2g rg) (c_clock c) (c_clean c && engine_room st))
    (with_l2t x (rg_l2t rg)).
Proof.
  intros Hok He Hit. pose proof Hok as [Hi Hclk Ha Hcf Ht Hr Hc Hp Hl].
  assert (Eo : engine_of c x = st) by (unfold engine_of; by rewrite He). unfold pipe in *. rewrite Eo in *.
  destruct rg as [g2l' l2g' l2t'].
  assert (Hi' : pipeline_inv (mk_pipeline st' (keeper_of c) (mk_rings g2l' l2g' l2t'))).
  { eapply (pipeline_step_inv _ _ Hclk ntop_text false); [|exact Hi]. by eapply engine_runs. }
  destruct (iteration_counts _ _ Hclk ntop_text _ _ _ _ _ (proj1 Hi) (inv_rings_wf _ Hi) Hit) as (Et & Hpub & _).
  cbn [engine] in Et.
  assert (Hs' : snapshot_ok (g_state st')).
  { split; [by rewrite Et, Ht|]. by destruct Hi' as ((_ & Hf & _ & _ & _ & _ & _ & Hho) & _). }
  split; try done.
  - cbn. by rewrite Et, Ht.
  - cbn in *. destruct Hpub as [->| ->]; [done|]. apply Forall_app_2; [done|by constructor].
  - intros Hcl. apply andb_true_iff in Hcl as [Hcl Hroom]. destruct (Hc Hcl) as [Hb Hcs].
    assert (Hac : account (mk_pipeline st' (keeper_of c) (mk_rings g2l' l2g' l2t'))).
    { eapply (account_engine _ _ Hclk ntop_text); [|by apply roomb_room| |exact Hit]; [|done].
      split; [done|by cbn; rewrite Ht|apply Hb; by rewrite He|by apply Forall_good]. }
    split; [intros _; exact (ac_balance _ Hac)|]. exact (proj2 (proj1 (Forall_good _) (ac_snapshots _ Hac))).
  - split; [intros _; apply Hp; by rewrite He|by apply Hp].
  - intros Hact. by split; [|apply Hl].
Qed.

Lemma keeper_works_ok c x v6 g now accepted bs msgs g' l2g' g2l' :
  child_ok c x -> c_keeper c = Running (v6, g) -> Forall (batch_ok v6) bs ->
  gk_iteration g v6 now accepted bs (c_l2g c) (c_g2l c) = GkDone (msgs, g', l2g', g2l') ->
  child_ok (mk_child (c_engine c) (Running (v6, g')) g2l' l2g' (c_clock c) (c_clean c)) x.
Proof.
  intros Hok Hk Hbs Hit. pose proof Hok as [Hi Hclk Ha Hcf Ht Hr Hc Hp Hl].
  assert (Ek : keeper_of c = g) by (unfold keeper_of; by rewrite Hk). unfold pipe in *. rewrite Ek in *.
  split; try done.
  - eapply (pipeline_step_inv _ _ Hclk ntop_text v6); [|exact Hi]. by eapply keeper_runs.
  - intros Hcl. destruct (Hc Hcl) as [Hb Hcs]. split; [|done]. intros Hlv k h Hh. destruct (Hb Hlv k h Hh) as [H0 Hle].
    split; [done|]. destruct Hi as (_ & Hg & H1 & H2 & _ & Hi & _). cbn in *.
    pose proof (gk_iteration_flying k g v6 now accepted bs _ _ l2g' g2l' msgs g' Hg H2 Hi H1 Hbs Hit). lia.
  - by split; [destruct Hp|intros _; apply Hp; rewrite Hk].
  - intros Hact. by split; [apply Hl|].
Qed.

Lemma pause_ok c x st :
  child_ok c x -> c_engine c = Running st -> child_ok (with_engine c (Running (handle_sigusr1 st))) x.
Proof.
  intros [Hi Hclk Ha Hcf Ht Hr Hc Hp Hl] He.
  assert (Eo : engine_of c x = st) by (unfold engine_of; by rewrite He). unfold pipe in *. rewrite Eo in *.
  split; try done.
  - intros Hcl. destruct (Hc Hcl) as [Hb Hs]. split; [|done]. intros _. apply Hb. by rewrite He.
  - split; [intros _; apply Hp; by rewrite He|apply Hp].
  - intros Hact. by split; [|apply Hl].
Qed.

Lemma pop_times_spec n r :
  ring_wf r -> ring_wf (pop_times n r) /\
  exists j, contents (item := nsr_observation_t) (pop_times n r) = drop j (contents r).
Proof.
  revert r. induction n as [|n IH]; intros r Hr; cbn [pop_times]; [by split; [|exists 0%nat; rewrite drop_0]|].
  assert (HB : 0 <= LOGIC_BATCH < 2 ^ 31) by (unfold LOGIC_BATCH; lia).
  pose proof (pop_batch_spec (item := nsr_observation_t) r LOGIC_BATCH Hr HB) as Hp.
  destruct (nsr_shm_ring_pop_batch r LOGIC_BATCH) as [out r']. destruct Hp as [Hr' Hq]. injection Hq as _ Hc.
  destruct (IH r' Hr') as [Hwf [j Hj]]. split; [done|]. cbn [snd]. exists (Z.to_nat LOGIC_BATCH + j)%nat. by rewrite Hj, Hc, drop_drop.
Qed.

(** A logic process that stops, in the middle of an iteration or not. *)
Lemma engine_dies_ok c x e g2l' l2g' j pushed :
  child_ok c x -> ~ lives e -> (s_active x = true -> e <> Gone) ->
  ring_wf g2l' -> ring_wf l2g' -> Forall intent_ok pushed ->
  contents l2g' = contents (c_l2g c) ++ pushed ->
  contents (item := nsr_observation_t) g2l' = drop j (contents (c_g2l c)) ->
  child_ok (mk_child e (c_keeper c) g2l' l2g' (c_clock c) (c_clean c)) x.
Proof.
  intros Hok Hn Hg R1 R2 Hi C1 C2. eapply (new_engine c x); try done.
  - by destruct e.
  - by destruct Hok.
  - by destruct Hok.
  - intros Hact. split; [done|]. intros _. by apply Hg.
Qed.

Lemma child_rings_wf c x :
  child_ok c x -> ring_wf (c_g2l c) /\ ring_wf (c_l2g c).
Proof. intros Hok. by destruct (co_inv c x Hok) as (_ & _ & ? & ? & _). Qed.

Lemma engine_stops_ok c x e :
  child_ok c x -> ~ lives e -> (s_active x = true -> e <> Gone) -> child_ok (with_engine c e) x.
Proof.
  intros Hok Hn Hg. destruct (child_rings_wf c x Hok). apply (engine_dies_ok c x e _ _ 0%nat []); try done. by rewrite app_nil_r.
Qed.

Lemma keeper_stops_ok c x k :
  child_ok c x -> ~ lives k -> (s_active x = true -> k <> Gone) -> child_ok (with_keeper c k) x.
Proof. intros Hok Hn Hg. apply (new_keeper c x x k 0); try done; [by destruct k|]. intros Ha. split; [done|]. intros _. by apply Hg. Qed.

Lemma engine_crashes_ok c x st sig pushed pops :
  child_ok c x -> c_engine c = Running st ->
  let burst := next_burst_of (c_clock c) st (cf_interval_ms (logic_config x)) in
  child_ok (mk_child (Zombie (WSignaled sig)) (c_keeper c) (pop_times pops (c_g2l c))
              (push_intents (c_l2g c) (take pushed burst)).2 (c_clock c) (c_clean c)) x.
Proof.
  intros Hok He. cbn zeta. destruct (child_rings_wf c x Hok) as [R1 R2]. set (burst := next_burst_of _ _ _).
  assert (Hb : Forall intent_ok burst).
  { unfold burst, next_burst_of. split_if; [|done]. apply schedule_ok, clock_us_range, Hok. }
  apply (Forall_take _ pushed) in Hb. destruct (pop_times_spec pops _ R1) as [R1' [j Hj]].
  destruct (push_intents_spec (c_l2g c) (take pushed burst) R2) as (sn & rest & r' & -> & Hsplit & R2' & C2 & _).
  { eapply Forall_impl; [exact Hb|]. by intros ? []. }
  rewrite Hsplit in Hb. apply Forall_app in Hb as [Hb _].
  apply (engine_dies_ok c x _ _ _ j sn); try done. by intros [].
Qed.

(** What an action asks: packets as [recvmmsg] delivers them. *)
Definition child_action_ok (a : child_action) : Prop :=
  match a with KeeperWorks _ _ bs => forall v6, Forall (batch_ok v6) (bs v6) | _ => True end.

(** What the actions of the processes leave alone. *)
Record child_frame (c c' : child) (x x' : nsr_session_t) : Prop := mk_child_frame {
  cf_core : core x' = core x;
  cf_clean : c_clean c' = true -> c_clean c = true;
  cf_lives : (lives (c_engine c') -> lives (c_engine c)) /\ (lives (c_keeper c') -> lives (c_keeper c));
}.

Lemma child_frame_refl c x : child_frame c c x x.
Proof. by split. Qed.

Lemma child_do_ok a c x :
  child_action_ok a -> child_ok c x ->
  exists c' x', child_do ntop a c x = Some (c', x') /\ child_ok c' x' /\ child_frame c c' x x'.
Proof.
  intros Ha Hok. pose proof (fun v6 => inv_safe _ ntop (co_clock _ _ Hok) ntop_text v6 _ (co_inv c x Hok)) as Hsafe.
  assert (Hsame : forall y, y = Some (c, x) -> exists c' x', y = Some (c', x') /\ child_ok c' x' /\ child_frame c c' x x').
  { intros y ->. exists c, x. by split; [|split; [|apply child_frame_refl]]. }
  unfold child_do. destruct a as [|now accepted bs|sig pushed pops|sig].
  - destruct (c_engine c) as [st|?|] eqn:He; [|by apply Hsame..].
    destruct (logic_iteration _ _ _ _ _) as [[st' rg]|pending|] eqn:Hit; [|by apply Hsame|].
    + eexists _, _. split; [done|]. split; [by apply (engine_works_ok c x st)|]. split; cbn; [done| |by rewrite He].
      by intros [? _]%andb_true_iff.
    + destruct (Hsafe true) as [Hf _]. unfold pipe, engine_of in Hf. rewrite He in Hf. by destruct (Hf _ Hit).
  - destruct (c_keeper c) as [[v6 g]|?|] eqn:Hk; [|by apply Hsame..].
    destruct (gk_iteration _ _ _ _ _ _ _) as [[[[msgs g'] l2g'] g2l']|pending|] eqn:Hit; [|by apply Hsame|].
    + eexists _, _. split; [done|]. split; [by eapply (keeper_works_ok c x v6 g)|]. split; cbn; [done..|by rewrite Hk].
    + destruct (Hsafe v6) as (_ & Hf & _). unfold pipe, keeper_of in Hf. rewrite Hk in Hf. by destruct (Hf _ _ _ (Ha v6) Hit).
  - destruct (c_engine c) as [st|?|] eqn:He; [|by apply Hsame..].
    eexists _, _. split; [done|]. split; [by apply engine_crashes_ok|]. by split.
  - destruct (c_keeper c) as [[v6 g]|?|] eqn:Hk; [|by apply Hsame..].
    eexists _, _. split; [done|]. split; [by apply keeper_stops_ok; [|intros []|]|]. by split.
Qed.

Lemma hear_frame pid sg c x : child_frame c (hear pid sg c x) x x.
Proof.
  split; [done..|]. unfold hear. cbn. split; split_if; try done; by destruct (c_engine c), (c_keeper c), sg.
Qed.

Lemma hear_ok pid sg c x : child_ok c x -> child_ok (hear pid sg c x) x.
Proof.
  intros Hok. unfold hear.
  set (e := if pid =? logic_pid x then _ else _).
  assert (H1 : child_ok (with_engine c e) x).
  { unfold e. split_if; [|by destruct c]. destruct (c_engine c) as [st|st|] eqn:He; [|by destruct c; cbn in *; subst..].
    destruct sg; [by apply engine_stops_ok; [|intros []|]|by apply pause_ok]. }
  set (k := if pid =? gk_pid x then _ else _). change (child_ok (with_keeper (with_engine c e) k) x).
  unfold k. split_if; [|by destruct c].
  destruct (c_keeper c) as [g|st|] eqn:Hk; [|by destruct c; cbn in *; subst..].
  destruct sg; [by apply keeper_stops_ok; [|intros []|]|]. by destruct c; cbn in *; subst.
Qed.

End Safety.

(** ** A turn of the loop and the processes *)

(** A session record when the loop has read its ring, or has left it because the
    session is disabled. *)
Definition read_up (x x' : nsr_session_t) : Prop :=
  core x' = core x /\ ring_ok (l2t x') /\ (lcontents (l2t x') = [] \/ l2t x' = l2t x).

Lemma drain_sessions_rings clock ss last t ss' any last' t' :
  rings_ok ss -> drain_sessions clock ss last t = Some (ss', any, last', t') -> Forall2 read_up ss ss'.
Proof.
  revert last t ss' any last' t'. induction ss as [|s ss IH]; intros last t ss' any last' t' Hr; cbn [drain_sessions].
  { intros [= <- _ _ _]. constructor. }
  inversion_clear Hr as [|? ? Hs Hss]. destruct (s_active s) eqn:Ea; cbn [negb].
  - destruct (ring_drain_spec clock 16 (l2t s) last t (proj1 Hs) (lcontents_length _ (proj1 Hs))) as (r & -> & Hwf & Hc).
    cbn [mbind option_bind]. destruct (drain_sessions clock ss _ _) as [[[[ss1 b] l1] t1]|] eqn:E; [|done].
    cbn [mbind option_bind]. intros [= <- _ _ _]. constructor; [|by eapply IH].
    split; [done|]. split; [|by left]. split; [done|]. cbn. rewrite Hc. constructor.
  - destruct (drain_sessions clock ss _ _) as [[[[ss1 b] l1] t1]|] eqn:E; [|done].
    cbn [mbind option_bind]. intros [= <- _ _ _]. constructor; [|by eapply IH]. by split; [|split; [|right]].
Qed.

Lemma waitpid_pos cs xs wait pid st : waitpid cs xs wait = Some (pid, st) -> 0 < pid.
Proof.
  unfold waitpid. destruct wait as [[p s]|]; [|done]. split_if; [|done]. intros [= -> ->].
  apply andb_true_iff in Heqb as [Hp _]. by apply Z.ltb_lt.
Qed.

Lemma publish_nothing ss : publish_all ss [] = Some ss.
Proof. induction ss as [|s ss IH]; [done|]. cbn [publish_all hd_error tl default publish_ring]. cbn. rewrite IH. cbn. by destruct s. Qed.

Section Respawn.
  Context `{Inet}.

Lemma boot_keeper_spec x fd :
  (exists pid, forall c, keeper_of (with_keeper c (boot_keeper x fd)) = started_gk pid) /\
  (lives (boot_keeper x fd) -> 0 < gk_pid x) /\ (0 < gk_pid x -> boot_keeper x fd <> Gone).
Proof.
  unfold boot_keeper. destruct (0 <? gk_pid x) eqn:E; bool_facts; [|split; [by exists 0|split; [done|lia]]].
  unfold gk_start. destruct (parse_target (s_target_ip x)) as [[v6 a]|]; cbn [mbind option_bind]; [|by split; [exists 0|]].
  split_if; [by split; [exists 0|]|]. split; [by exists (gk_pid x)|]. by split.
Qed.

Lemma respawn_ok pid st fd clk i c x x' :
  (forall n, 0 <= clk n < 2 ^ 64) -> child_ok c x -> reaction pid st i x x' -> child_ok (respawn pid st fd clk c x x') x'.
Proof.
  intros Hclk Hok. unfold reaction, respawn. destruct (pid =? gk_pid x).
  - destruct (WIFEXITED st).
    + intros ->. by apply (new_keeper c x _ Gone 0).
    + intros [p ->]. destruct (boot_keeper_spec (with_gk_pid x p) fd) as ([q Hq] & Hl & Hg).
      by apply (new_keeper c x _ _ q).
  - destruct (pid =? logic_pid x); [|by intros ->]. destruct (child_rings_wf c x Hok).
    destruct (WIFEXITED st || negb (s_active x)) eqn:Ea.
    + intros ->. apply (new_engine c x _ _ _ _ _ _ 0%nat []); rewrite ?app_nil_r; try done; try apply Hok.
      intros Hcl. split; [done|]. by intros [].
    + intros [p ->]. apply (new_engine c x _ _ _ _ _ _ 0%nat []); rewrite ?app_nil_r; try done; try apply Hok.
      * unfold engine_of, boot_engine. cbn. by split_if.
      * unfold boot_engine. split_if; bool_facts; cbn; [done|by intros []].
      * unfold boot_engine. intros Hs. split; [done|]. split_if; bool_facts; cbn in *; [done|lia].
Qed.

Lemma respawn_core pid st fd clk c x x2 x' : core x' = core x2 -> respawn pid st fd clk c x x' = respawn pid st fd clk c x x2.
Proof.
  unfold core. intros E. unfold respawn, boot_keeper, boot_engine.
  by replace (gk_pid x') with (gk_pid x2) by congruence; replace (logic_pid x') with (logic_pid x2) by congruence;
    replace (s_target_ip x') with (s_target_ip x2) by congruence; replace (logic_config x') with (logic_config x2) by congruence.
Qed.

Lemma respawn_clean pid st fd clk c x x' : c_clean (respawn pid st fd clk c x x') = true -> c_clean c = true.
Proof. unfold respawn. by repeat split_if. Qed.

Lemma respawn_all_ok pid st fd clk i cs xs xs2 xs' :
  (forall n, 0 <= clk n < 2 ^ 64) -> Forall2 child_ok cs xs -> Forall2 (reaction pid st i) xs xs2 -> Forall2 read_up xs2 xs' ->
  Forall2 child_ok (respawn_all pid st fd clk cs xs xs') xs' /\
  Forall2 (fun c c' => c_clean c' = true -> c_clean c = true) cs (respawn_all pid st fd clk cs xs xs').
Proof.
  intros Hclk Hc. revert xs2 xs'. induction Hc as [|c x cs xs Hc Hcs IH]; intros xs2 xs' Hr Hu.
  - apply Forall2_nil_inv_l in Hr as ->. by apply Forall2_nil_inv_l in Hu as ->.
  - apply Forall2_cons_inv_l in Hr as (x2 & xs2' & Hr & Hrs & ->).
    apply Forall2_cons_inv_l in Hu as (x' & xs3 & (Ecore & Hring & Hcont) & Hus & ->). cbn [respawn_all].
    destruct (IH xs2' xs3 Hrs Hus) as [H1 H2].
    split; constructor; [|done|apply respawn_clean|done].
    apply (child_ok_core _ x2); [|done|by destruct Hring|done].
    rewrite (respawn_core _ _ _ _ c x x2 x' Ecore). by eapply respawn_ok.
Qed.

End Respawn.

Lemma read_up_ok cs xs xs' : Forall2 child_ok cs xs -> Forall2 read_up xs xs' -> Forall2 child_ok cs xs'.
Proof.
  intros Hc. revert xs'. induction Hc as [|c x cs xs Hc Hcs IH]; intros xs' Hu.
  - apply Forall2_nil_inv_l in Hu as ->. constructor.
  - apply Forall2_cons_inv_l in Hu as (x' & xs3 & (Ecore & Hring & Hcont) & Hus & ->). constructor; [|by apply IH].
    apply (child_ok_core _ x); try done. by destruct Hring.
Qed.

(** ** The program as a whole *)

Section Runs.
  Context `{Inet} (ntop : bool -> list Z -> cstr) (main_clock : nat -> Z).
  Context `{Ncurses} {M : Type} `{PluginManagerLaws M} (uptime_text : Z -> Z -> option (option cstr)) (silent : bool).
  Context (ntop_text : forall v6 bytes, text_ok (ntop v6 bytes)).

#[local] Abbreviation whole := (whole (M := M)).
#[local] Abbreviation whole_do := (whole_do ntop main_clock uptime_text silent).
#[local] Abbreviation run := (run ntop main_clock uptime_text silent).

(** What a turn does to the records of the sessions and to the state that is shown. *)
Lemma turn_shape (s : main_state (M := M)) tk :
  main_ok s -> tick_ok tk -> tk_arrivals tk = [] ->
  exists s' quit, main_turn main_clock uptime_text silent s tk = Some (s', quit) /\ main_ok s' /\
    let ss2 := (after_wait s (sessions s) tk).1.1 in
    Forall2 read_up ss2 (sessions s') /\ last_state s' = List.last (waiting ss2) (last_state s) /\
    exists extra, signals s' = signals s ++ extra.
Proof.
  intros Hs Htk Harr. destruct (turn_ok main_clock uptime_text silent s tk Hs Htk) as (s' & quit & E & Hs').
  exists s', quit. split; [done|]. split; [done|]. cbn zeta. unfold main_turn in E.
  rewrite Harr, publish_nothing in E. cbn [mbind option_bind] in E.
  change (match tk_wait tk with Some (pid, st) => _ | None => _ end) with (after_wait s (sessions s) tk) in E.
  pose proof (after_wait_rings s _ tk (ok_rings s Hs)) as Hr2.
  destruct (turn_spec main_clock uptime_text silent s tk Hs Htk) as (ss1 & ss3 & Ep & _ & _ & _ & _ & _ & Hd & _).
  rewrite Harr, publish_nothing in Ep. injection Ep as <-.
  destruct (after_wait s (sessions s) tk) as [[ss2 forks] kills] eqn:Ew. cbn [fst] in *.
  destruct (drain_sessions_spec main_clock ss2 (last_state s) (topo s) Hr2) as (ss4 & Ed & _).
  rewrite Ed in E. cbn [mbind option_bind] in E. pose proof (drain_sessions_rings _ _ _ _ _ _ _ _ Hr2 Ed) as Hup.
  injection E as E. unfold drained in Hd. rewrite Ew in Hd.
  destruct silent.
  - injection E as <- _. cbn. by split; [|split; [|exists kills]].
  - set (d := mk_main ss4 _ _ _ _ _ _ _ _ _) in E. assert (Hd' : ui_inv (tui d, topo d, tree d, mgr d)).
    { exact (main_ok_ui _ Hd). }
    pose proof (interact_spec uptime_text d tk Hd' Htk) as (I1 & _ & I3 & _ & _ & extra & Ex & _).
    rewrite E in *. cbn [fst] in *. rewrite I1, I3, Ex. cbn. split; [done|]. split; [done|].
    exists (kills ++ extra). by rewrite <- app_assoc.
Qed.

(** A process that is still alive when the loop was left has its SIGTERM coming. *)
Definition doomed (coming : list (Z * signal)) (c : child) (x : nsr_session_t) : Prop :=
  (lives (c_engine c) -> (logic_pid x, SIGTERM) ∈ coming) /\ (lives (c_keeper c) -> (gk_pid x, SIGTERM) ∈ coming).

Record whole_inv (w : whole) : Prop := mk_whole_inv {
  wi_main : main_ok (w_main w);
  wi_children : Forall2 child_ok (w_children w) (sessions (w_main w));
  wi_counts : Forall (fun c => c_clean c = true) (w_children w) -> counts_ok (last_state (w_main w));
  wi_heard : (w_heard w <= length (signals (w_main w)))%nat;
  wi_left : w_left w = true -> Forall2 (doomed (drop (w_heard w) (signals (w_main w)))) (w_children w) (sessions (w_main w));
}.

(** What is asked of the environment: packets as the kernel delivers them, a screen,
    clock readings of 64 bits. *)
Definition action_ok (a : action) : Prop :=
  match a with
  | Works _ a => child_action_ok a
  | Deliver => True
  | Turn tk _ clk => 0 <= max_y (tk_screen tk) /\ 0 <= max_x (tk_screen tk) /\ forall n, 0 <= clk n < 2 ^ 64
  end.

Lemma children_rings cs xs : Forall2 child_ok cs xs -> rings_ok xs.
Proof.
  intros Hc. apply Forall_lookup_2. intros i x Hx. eapply Forall2_lookup_r in Hc as (c & _ & Hok); [|exact Hx].
  split; [by apply (co_large c)|apply Hok].
Qed.

Lemma waiting_counts cs xs : Forall2 child_ok cs xs -> Forall (fun c => c_clean c = true) cs -> Forall counts_ok (waiting xs).
Proof.
  intros Hc. unfold waiting. induction Hc as [|c x cs xs Hok Hcs IH]; cbn [map concat]; [constructor|].
  intros Hcl. inversion_clear Hcl as [|? ? Hcl1 Hcl2]. apply Forall_app_2; [|by apply IH].
  split_if; [|constructor]. by apply (co_counts c x Hok).
Qed.

Lemma last_counts l d : Forall counts_ok l -> counts_ok d -> counts_ok (List.last l d).
Proof. intros Hl Hd. induction Hl as [|t l Ht Hl IH]; [done|]. by destruct l. Qed.

(** The records before the rings are read carry the same counts. *)
Lemma reaction_waiting pid st i xs xs2 :
  Forall2 (reaction pid st i) xs xs2 -> Forall counts_ok (waiting xs) -> Forall counts_ok (waiting xs2).
Proof.
  intros Hr. unfold waiting. induction Hr as [|x x2 xs xs2 Hx Hr IH]; cbn [map concat]; [done|].
  rewrite !Forall_app. intros [Hw1 Hw2]. split; [|by apply IH]. destruct (reaction_looked_at _ _ _ _ _ Hx) as [-> Ha].
  destruct (s_active x2); [by rewrite Ha in Hw1|constructor].
Qed.

Lemma leave_inv s cs heard :
  whole_inv (mk_whole s cs heard false) -> whole_inv (mk_whole (leave s) cs heard true).
Proof.
  intros [Hm Hc Hn Hh _]. cbn [w_main w_children w_heard w_left] in *. destruct Hm as [Hr Ht Hu Hs].
  split; cbn [w_main w_children w_heard w_left leave sessions last_state signals]; try done.
  - split; try done. apply Forall_app_2; [done|apply shut_down_positive].
  - rewrite length_app. lia.
  - intros _. rewrite drop_app_le by done.
    assert (Hsub : forall x, x ∈ sessions s -> (0 < logic_pid x -> (logic_pid x, SIGTERM) ∈ shut_down (sessions s)) /\
        (0 < gk_pid x -> (gk_pid x, SIGTERM) ∈ shut_down (sessions s))).
    { intros x Hx. split; intros Hp; apply list_elem_of_In, in_concat;
        (eexists; split; [apply in_map_iff; exists x; split; [done|by apply list_elem_of_In]|]);
        apply Z.ltb_lt in Hp; rewrite Hp; apply in_app_iff; [right|left]; by left. }
    apply Forall2_same_length_lookup_2; [by eapply Forall2_length|]. intros i c x Hci Hxi.
    pose proof (Forall2_lookup_lr _ _ _ _ _ _ Hc Hci Hxi) as Hok. destruct (co_pids c x Hok) as [P1 P2].
    destruct (Hsub x (list_elem_of_lookup_2 _ _ _ Hxi)) as [S1 S2].
    split; intros Hl; apply elem_of_app; right; auto.
Qed.

Lemma turn_inv w tk fd clk :
  whole_inv w -> action_ok (Turn tk fd clk) -> exists w', turn_do main_clock uptime_text silent w tk fd clk = Some w' /\ whole_inv w'.
Proof.
  intros Hw (Hy & Hx & Hclk). pose proof Hw as [Hm Hc Hn Hh Hl]. unfold turn_do.
  destruct (w_left w) eqn:El; [by exists w|]. destruct (running (w_main w)) eqn:Er; cbn [negb].
  2:{ eexists. split; [done|]. apply leave_inv. destruct w. cbn in *. by subst. }
  set (tk' := observed_tick w tk).
  destruct (turn_shape (w_main w) tk' Hm) as (s' & quit & -> & Hm' & Hup & Hlast & extra & Hsig); [by repeat split|done|].
  cbn [mbind option_bind fst snd].
  set (cs := match tk_wait tk' with Some (pid, st) => _ | None => _ end).
  assert (Hcs : Forall2 child_ok cs (sessions s') /\
    Forall2 (fun c c' => c_clean c' = true -> c_clean c = true) (w_children w) cs /\
    (Forall counts_ok (waiting (sessions (w_main w))) -> Forall counts_ok (waiting (after_wait (w_main w) (sessions (w_main w)) tk').1.1))).
  { unfold after_wait in *. subst cs. destruct (tk_wait tk') as [[pid st]|] eqn:Ew.
    - pose proof (waitpid_pos _ _ _ _ _ Ew) as Hp. rewrite (proj2 (Z.ltb_lt _ _) Hp) in *.
      pose proof (reap_all_spec pid st (interval (w_main w)) (sessions (w_main w)) (forks_left (w_main w))) as Hreap.
      destruct (reap _ _ _ _ _) as [[ss2 f] k]. destruct Hreap as [Hreap _]. cbn [fst] in *.
      destruct (respawn_all_ok pid st fd clk _ _ _ _ _ Hclk Hc Hreap Hup) as [Hr1 Hr2]. split; [done|]. split; [done|].
      by apply (reaction_waiting pid st _ _ _ Hreap).
    - split; [by eapply read_up_ok|]. split; [|done]. apply Forall_Forall2_diag, Forall_true. auto. }
  destruct Hcs as (Hcs & Hclean & Hwait).
  assert (Hinv : whole_inv (mk_whole s' cs (w_heard w) false)).
  { split; cbn; [done|done| |rewrite Hsig, length_app; lia|done]. intros Hall.
    assert (Hall0 : Forall (fun c => c_clean c = true) (w_children w)).
    { clear -Hclean Hall. induction Hclean as [|c c' l l' Hcc Hll IH]; [done|]. inversion_clear Hall. constructor; auto. }
    rewrite Hlast. apply last_counts; [|by apply Hn]. by apply Hwait, (waiting_counts (w_children w)). }
  destruct quit; eexists; (split; [done|]); [by apply leave_inv|].
  destruct Hinv as [Im Ic In Ih _]. cbn in *. split; cbn; try done. by apply take_signal_ok.
Qed.

(** What a turn makes of a session that has a process of the reported id. *)
Lemma respawn_all_lookup pid st fd clk cs xs xs' i c x x' :
  cs !! i = Some c -> xs !! i = Some x -> xs' !! i = Some x' ->
  respawn_all pid st fd clk cs xs xs' !! i = Some (respawn pid st fd clk c x x').
Proof.
  revert xs xs' i. induction cs as [|d cs IH]; intros [|y xs] [|y' xs'] [|i]; cbn; try done; [congruence|apply IH].
Qed.

Lemma turn_reports w tk fd clk pid st i c x :
  whole_inv w -> 0 <= max_y (tk_screen tk) -> 0 <= max_x (tk_screen tk) -> w_left w = false -> running (w_main w) = true ->
  waitpid (w_children w) (sessions (w_main w)) (tk_wait tk) = Some (pid, st) ->
  w_children w !! i = Some c -> sessions (w_main w) !! i = Some x ->
  exists w' x2 x', whole_do w (Turn tk fd clk) = Some w' /\ sessions (w_main w') !! i = Some x' /\
    reaction pid st (interval (w_main w)) x x2 /\ core x' = core x2 /\
    w_children w' !! i = Some (respawn pid st fd clk c x x2).
Proof.
  intros Hw Hy Hx El Er Ewait Hc Hxi. cbn [Whole.whole_do]. unfold turn_do. rewrite El, Er. cbn [negb].
  set (tk' := observed_tick w tk).
  destruct (turn_shape (w_main w) tk' (wi_main w Hw)) as (s' & quit & -> & _ & Hup & _); [by repeat split|done|].
  cbn [mbind option_bind fst snd]. change (tk_wait tk') with (waitpid (w_children w) (sessions (w_main w)) (tk_wait tk)).
  rewrite Ewait. unfold after_wait in Hup.
  change (tk_wait tk') with (waitpid (w_children w) (sessions (w_main w)) (tk_wait tk)) in Hup. rewrite Ewait in Hup.
  pose proof (waitpid_pos _ _ _ _ _ Ewait) as Hp. rewrite (proj2 (Z.ltb_lt _ _) Hp) in Hup.
  pose proof (reap_all_spec pid st (interval (w_main w)) (sessions (w_main w)) (forks_left (w_main w))) as Hreap.
  destruct (reap _ _ _ _ _) as [[ss2 f] k]. destruct Hreap as [Hreap _]. cbn [fst] in Hup.
  eapply Forall2_lookup_l in Hreap as (x2 & Hx2 & Hr); [|exact Hxi].
  eapply Forall2_lookup_l in Hup as (x' & Hx' & Ecore & _); [|exact Hx2].
  pose proof (respawn_all_lookup pid st fd clk _ _ _ i c x x' Hc Hxi Hx') as Hcs. rewrite (respawn_core _ _ _ _ _ _ x2 x' Ecore) in Hcs.
  destruct quit; (eexists _, x2, x'; split; [reflexivity|]); by split_and!.
Qed.

Lemma works_inv w i a :
  whole_inv w -> child_action_ok a -> exists w', whole_do w (Works i a) = Some w' /\ whole_inv w'.
Proof.
  intros Hw Ha. pose proof Hw as [Hm Hc Hn Hh Hl]. cbn [Whole.whole_do].
  destruct (w_children w !! i) as [c|] eqn:Hci; [|by exists w].
  destruct (sessions (w_main w) !! i) as [x|] eqn:Hxi; [|by exists w].
  pose proof (Forall2_lookup_lr _ _ _ _ _ _ Hc Hci Hxi) as Hok.
  destruct (child_do_ok ntop ntop_text a c x Ha Hok) as (c' & x' & -> & Hok' & [Ecore Hcl [HlE HlK]]).
  cbn [mbind option_bind fst snd]. eexists. split; [done|].
  assert (Hc' : Forall2 child_ok (<[i := c']> (w_children w)) (<[i := x']> (sessions (w_main w)))) by by apply Forall2_insert.
  split; cbn [w_main w_children w_heard w_left with_sessions sessions last_state signals]; try done.
  - destruct Hm. split; try done. cbn. by eapply children_rings.
  - intros Hall. apply Hn. apply Forall_lookup_2. intros j d Hj. destruct (decide (i = j)) as [<-|Hij].
    + rewrite Hci in Hj. injection Hj as <-. apply Hcl, (Forall_lookup_1 _ _ i c' Hall).
      apply list_lookup_insert_eq. by eapply lookup_lt_Some.
    + apply (Forall_lookup_1 _ _ j d Hall). by rewrite list_lookup_insert_ne.
  - intros El. apply Forall2_insert; [by apply Hl|].
    destruct (Forall2_lookup_lr _ _ _ _ _ _ (Hl El) Hci Hxi) as [D1 D2]. unfold core in Ecore. unfold doomed.
    replace (logic_pid x') with (logic_pid x) by congruence. replace (gk_pid x') with (gk_pid x) by congruence. auto.
Qed.

Lemma hear_dooms pid sg coming c x :
  doomed ((pid, sg) :: coming) c x -> doomed coming (hear pid sg c x) x.
Proof.
  intros [D1 D2]. destruct (hear_frame pid sg c x) as [_ _ [L1 L2]].
  split; intros Hl; [specialize (D1 (L1 Hl))|specialize (D2 (L2 Hl))].
  - apply elem_of_cons in D1 as [[= <- <-]|?]; [|done]. exfalso. revert Hl. unfold hear. cbn. rewrite Z.eqb_refl.
    by destruct (c_engine c).
  - apply elem_of_cons in D2 as [[= <- <-]|?]; [|done]. exfalso. revert Hl. unfold hear. cbn. rewrite Z.eqb_refl.
    by destruct (c_keeper c).
Qed.

Lemma Forall2_zip_same {A B} (P Q : A -> B -> Prop) (f : A -> B -> A) l k :
  (forall a b, P a b -> Q (f a b) b) -> Forall2 P l k -> Forall2 Q (zip_with f l k) k.
Proof. intros Hf. induction 1; cbn; constructor; auto. Qed.

Lemma deliver_inv w : whole_inv w -> exists w', whole_do w Deliver = Some w' /\ whole_inv w'.
Proof.
  intros Hw. pose proof Hw as [Hm Hc Hn Hh Hl]. cbn [Whole.whole_do].
  destruct (signals (w_main w) !! w_heard w) as [[pid sg]|] eqn:Es; [|by exists w]. eexists. split; [done|].
  split; cbn [w_main w_children w_heard w_left]; try done.
  - eapply Forall2_zip_same; [|exact Hc]. intros c x. apply hear_ok.
  - intros Hall. apply Hn. clear -Hall Hc. induction Hc as [|c x cs xs Hok Hcs IH]; [done|].
    cbn in Hall. inversion_clear Hall as [|? ? Hd1 Hd2]. constructor; auto.
  - apply lookup_lt_Some in Es. lia.
  - intros El. specialize (Hl El). rewrite (drop_S _ _ _ Es) in Hl. eapply Forall2_zip_same; [|exact Hl].
    intros c x. apply hear_dooms.
Qed.

Lemma whole_do_inv w a : whole_inv w -> action_ok a -> exists w', whole_do w a = Some w' /\ whole_inv w'.
Proof.
  intros Hw Ha. destruct a as [i a| |tk fd clk]; [by apply works_inv|by apply deliver_inv|by apply turn_inv].
Qed.

Lemma run_app w acts acts' : run w (acts ++ acts') = (w' ← run w acts; run w' acts').
Proof.
  revert w. induction acts as [|a acts IH]; intros w; cbn [app Whole.run]; [done|].
  destruct (whole_do w a); cbn [mbind option_bind]; [apply IH|done].
Qed.

Lemma run_inv w acts : whole_inv w -> Forall action_ok acts -> exists w', run w acts = Some w' /\ whole_inv w'.
Proof.
  intros Hw Ha. revert w Hw. induction Ha as [|a acts Ha Hacts IH]; intros w Hw; cbn [Whole.run]; [by exists w|].
  destruct (whole_do_inv w a Hw Ha) as (w1 & -> & Hw1). by apply IH.
Qed.

(** *** From the command line *)

Context `{!InetLaws} (getaddrinfo : cstr -> family -> option (family * list Z)).
Context (getaddrinfo_text : forall a f g addr, getaddrinfo a f = Some (g, addr) -> g <> AF_UNSPEC -> address_ok g addr).

Lemma first_child_ok x fd clk ip :
  text_ok ip -> (length ip <= 63)%nat -> s_target_ip x = strncpy 63 ip -> cf_target_ip (logic_config x) = s_target_ip x ->
  l2t x = empty_large -> (forall n, 0 <= clk n < 2 ^ 64) -> child_ok (first_child x fd clk) x.
Proof.
  intros Hip Hlen Ht Hcf Hr Hclk. unfold strncpy in Ht. rewrite take_ge in Ht by done.
  destruct (boot_keeper_spec x fd) as ([pid Hk] & Hl & Hg).
  set (c := first_child x fd clk). set (c0 := with_engine c Gone).
  assert (Ek : keeper_of c = started_gk pid) by exact (Hk c).
  assert (Ee : engine_of c x = logic_init clk (logic_config x)) by (unfold engine_of, c; cbn; unfold boot_engine; by split_if).
  assert (Hlc : lcontents (SM := telemetry_slot) (l2t x) = []) by (by rewrite Hr).
  split; rewrite ?Ee, ?Hlc, ?Hcf; try done.
  - unfold pipe. rewrite Ee, Ek. refine (conj (logic_init_wf clk _) (conj (proj1 (started_gk_wf pid)) _)).
    cbn. rewrite Hr, !empty_ring_contents. split; [apply empty_ring_wf|]. split; [apply empty_ring_wf|].
    by split; [apply empty_large_wf|].
  - by rewrite Ht.
  - rewrite boot_target; rewrite Hcf; [done|]. by rewrite Ht.
  - intros _. split; [|constructor]. intros _. unfold pipe. rewrite Ee, Ek. apply (balanced_fresh_keeper _ (started_gk 0)).
    intros k h Hh. cbn [engine keeper rings g2l l2g g_inflight started_gk child_rings c_g2l c_l2g first_child c] in *.
    rewrite !empty_ring_contents.
    assert (Hz : h = zero_hop) by (change (replicate 64 zero_hop !! k = Some h) in Hh; by apply lookup_replicate in Hh as [-> _]).
    subst h. unfold flying, outstanding. rewrite omap_empty, map_filter_empty. done.
  - split; [|done]. cbn. unfold boot_engine. split_if; bool_facts; [done|intros []].
  - intros _. split; [|done]. cbn. unfold boot_engine. split_if; bool_facts; [done|lia].
Qed.

Lemma start_inv opts args maps forks st ss forks' table (m : M) fds clks :
  start_up getaddrinfo opts args maps forks = Some (st, ss, forks') -> (forall i n, 0 <= clks i n < 2 ^ 64) ->
  whole_inv (whole_start (main_start st ss forks' table m) fds clks).
Proof.
  intros Hs Hclk. destruct (start_ok getaddrinfo _ _ _ _ _ _ _ table m Hs) as [Hm _].
  apply (start_up_all getaddrinfo (fun _ _ x => forall fd clk, (forall n, 0 <= clk n < 2 ^ 64) -> child_ok (first_child x fd clk) x)) in Hs.
  2:{ intros f i a ip p1 p2 Hr fd clk Hc. assert (Hip : exists g addr, g <> AF_UNSPEC /\ address_ok g addr /\ ip = inet_ntop g addr).
      { unfold resolve_target in Hr. destruct (getaddrinfo a f) as [[g addr]|] eqn:Eg; [|done]. pose proof (getaddrinfo_text _ _ _ _ Eg) as Hok.
        exists g, addr. destruct g; [done|injection Hr as <-..]; (split; [done|]); (split; [by apply Hok|done]). }
      destruct Hip as (g & addr & Hg & Hok & ->). destruct (GateSetup.ntop_text g addr Hok) as [Hlen Hnul].
      apply (first_child_ok _ _ _ (inet_ntop g addr)); try done; [|lia]. split; [by destruct (inet_ntop g addr); cbn in *; [lia|]|]. split; [done|lia]. }
  split; cbn; try done; [|intros _; by repeat constructor].
  apply Forall2_same_length_lookup_2; [by rewrite length_imap|]. intros i c x Hc Hx.
  rewrite list_lookup_imap, Hx in Hc. injection Hc as <-. apply (Forall_lookup_1 _ _ _ _ Hs Hx). apply Hclk.
Qed.

#[local] Abbreviation start st ss forks table m := (whole_start (main_start st ss forks table m)).

(** C2: the program is safe as a whole.  From any command line it accepts, with any
    interleaving of the main loop, the logic processes and the gatekeepers, any
    packets, crashes at any point, restarts, failing [fork]s and [socket]s, keys and
    screens: no process ever accesses memory outside its arrays, rings and packets.
    The rings of snapshots, the graph and the user interface are well formed at any
    time, although the main loop trusts what the logic processes publish, every probe
    on its way, answered or outstanding has a TTL from 1 to 30, and signals go to
    positive process ids only. *)
Theorem whole_program_safe opts args maps forks st ss forks' table m fds clks acts :
  start_up getaddrinfo opts args maps forks = Some (st, ss, forks') -> (forall i n, 0 <= clks i n < 2 ^ 64) ->
  Forall action_ok acts ->
  exists w, run (start st ss forks' table m fds clks) acts = Some w /\
    rings_ok (sessions (w_main w)) /\ topo_wf (topo (w_main w)) /\ ui_ok (tui (w_main w)) (vt_count (mgr (w_main w))) /\
    Forall (fun p => 0 < p.1) (signals (w_main w)) /\
    Forall (fun c =>
      Forall (fun i : nsr_intent_t => 1 <= in_ttl i <= 30) (contents (c_l2g c)) /\
      Forall (fun o : nsr_observation_t => 1 <= ob_ttl o <= 30) (contents (c_g2l c)) /\
      forall v6 g seq ttl sts, c_keeper c = Running (v6, g) ->
        outstanding (g_inflight g) !! seq = Some (ttl, sts) -> 1 <= ttl <= 30) (w_children w).
Proof.
  intros Hs Hclk Ha. destruct (run_inv _ acts (start_inv _ _ _ _ _ _ _ table m fds clks Hs Hclk) Ha) as (w & E & [[]]).
  exists w. split_and!; try done. apply Forall_lookup_2. intros i c Hc.
  eapply Forall2_lookup_l in wi_children0 as (x & _ & Hok); [|exact Hc].
  destruct (inv_safe _ ntop (co_clock _ _ Hok) ntop_text false _ (co_inv c x Hok)) as (_ & _ & H1' & H2' & H3').
  split; [done|]. split; [done|]. intros v6 g seq ttl sts Hk. unfold pipe, keeper_of in H3'. cbn in H3'. rewrite Hk in H3'. apply H3'.
Qed.

(** C4: what the user is shown never claims more answers than probes.  As long as no
    session has had its logic process replaced and no probe counter has come near its
    32-bit limit, in whatever way the processes run, and whatever packets arrive, also
    when gatekeepers crash and are started again: the snapshot the main process shows
    and every one on its way there has, for each hop, no more answers than probes. *)
Theorem shown_counts_are_sound opts args maps forks st ss forks' table m fds clks acts w :
  start_up getaddrinfo opts args maps forks = Some (st, ss, forks') -> (forall i n, 0 <= clks i n < 2 ^ 64) ->
  Forall action_ok acts -> run (start st ss forks' table m fds clks) acts = Some w ->
  Forall (fun c => c_clean c = true) (w_children w) ->
  counts_ok (last_state (w_main w)) /\ Forall counts_ok (waiting (sessions (w_main w))).
Proof.
  intros Hs Hclk Ha E Hcl. destruct (run_inv _ acts (start_inv _ _ _ _ _ _ _ table m fds clks Hs Hclk) Ha) as (w' & E' & Hw).
  rewrite E in E'. injection E' as <-. split; [by apply Hw|]. by eapply waiting_counts; [apply Hw|].
Qed.

(** No process is lost.  Whatever happens, a session that is active still has
    both its processes, running or ended and not yet reported, unless the last [fork]
    for one of them failed. *)
Theorem no_process_is_lost opts args maps forks st ss forks' table m fds clks acts w i c x :
  start_up getaddrinfo opts args maps forks = Some (st, ss, forks') -> (forall i n, 0 <= clks i n < 2 ^ 64) ->
  Forall action_ok acts -> run (start st ss forks' table m fds clks) acts = Some w ->
  w_children w !! i = Some c -> sessions (w_main w) !! i = Some x -> s_active x = true ->
  (0 < logic_pid x -> c_engine c <> Gone) /\ (0 < gk_pid x -> c_keeper c <> Gone).
Proof.
  intros Hs Hclk Ha E Hc Hx Hact. destruct (run_inv _ acts (start_inv _ _ _ _ _ _ _ table m fds clks Hs Hclk) Ha) as (w' & E' & Hw).
  rewrite E in E'. injection E' as <-. pose proof (Forall2_lookup_lr _ _ _ _ _ _ (wi_children _ Hw) Hc Hx) as Hok.
  by apply (co_active c x Hok).
Qed.


(** When the loop was left and [n] signals are on their way, [n] deliveries end every
    process that is still alive. *)
Lemma deliveries n w :
  whole_inv w -> w_left w = true -> n = (length (signals (w_main w)) - w_heard w)%nat ->
  exists w', run w (replicate n Deliver) = Some w' /\
    Forall (fun c => ~ lives (c_engine c) /\ ~ lives (c_keeper c)) (w_children w').
Proof.
  revert w. induction n as [|n IH]; intros w Hw Hl En; cbn [replicate Whole.run].
  - exists w. split; [done|]. pose proof (wi_left w Hw Hl) as Hd. rewrite drop_ge in Hd by lia.
    apply Forall_lookup_2. intros i c Hc. eapply Forall2_lookup_l in Hd as (x & _ & D1 & D2); [|exact Hc].
    by split; intros Hv; [apply D1, elem_of_nil in Hv|apply D2, elem_of_nil in Hv].
  - destruct (deliver_inv w Hw) as (w1 & E & Hw1). rewrite E. cbn [mbind option_bind].
    assert (Hh : w_heard w1 = S (w_heard w) /\ w_main w1 = w_main w /\ w_left w1 = w_left w).
    { cbn [Whole.whole_do] in E. destruct (lookup_lt_is_Some_2 (signals (w_main w)) (w_heard w)) as [[p sg] Hp]; [lia|].
      rewrite Hp in E. by injection E as <-. }
    destruct Hh as (Eh & Em & El). apply IH; [done|by rewrite El|]. rewrite Eh, Em. lia.
Qed.

(** [waitpid] for a process of this id does not block. *)
Definition wait_returns (pid : Z) (cs : list child) (xs : list nsr_session_t) : Prop :=
  forall i c x, cs !! i = Some c -> xs !! i = Some x ->
    (gk_pid x = pid -> ~ lives (c_keeper c)) /\ (logic_pid x = pid -> ~ lives (c_engine c)).

Lemma final_waits_positive ss : Forall (fun pid => 0 < pid) (final_waits ss).
Proof.
  apply Forall_concat, Forall_map, Forall_true. intros s. apply Forall_app_2; split_if; bool_facts; by constructor.
Qed.

(** C14: no process is left behind.  However the loop ends, once the signals that are
    then on their way have arrived, no logic process and no gatekeeper is alive, and
    every [waitpid] of the end of the main process is for one process that has ended,
    so it returns. *)
Theorem nothing_is_left_behind opts args maps forks st ss forks' table m fds clks acts w :
  start_up getaddrinfo opts args maps forks = Some (st, ss, forks') -> (forall i n, 0 <= clks i n < 2 ^ 64) ->
  Forall action_ok acts -> run (start st ss forks' table m fds clks) acts = Some w -> w_left w = true ->
  exists w', run w (replicate (length (signals (w_main w)) - w_heard w) Deliver) = Some w' /\
    Forall (fun c => ~ lives (c_engine c) /\ ~ lives (c_keeper c)) (w_children w') /\
    Forall (fun pid => 0 < pid /\ wait_returns pid (w_children w') (sessions (w_main w'))) (final_waits (sessions (w_main w'))).
Proof.
  intros Hs Hclk Ha E Hl. destruct (run_inv _ acts (start_inv _ _ _ _ _ _ _ table m fds clks Hs Hclk) Ha) as (w' & E' & Hw).
  rewrite E in E'. injection E' as <-. destruct (deliveries _ w Hw Hl eq_refl) as (w' & E' & Hd).
  exists w'. split; [done|]. split; [done|]. eapply Forall_impl; [apply final_waits_positive|]. intros pid Hp. split; [done|].
  intros i c x Hc _. destruct (Forall_lookup_1 _ _ _ _ Hd Hc). by split.
Qed.

End Runs.

(** ** Witnesses *)

#[local] Existing Instances ncurses_codes letter_inet letter_inet_laws.

Lemma localhost_text a f g addr : localhost a f = Some (g, addr) -> g <> AF_UNSPEC -> address_ok g addr.
Proof. intros [= <- <-] _. split; [reflexivity|]. repeat constructor; lia. Qed.

(** A clock that is read every 150 milliseconds. *)
Definition slow_clock (n : nat) : Z := u64 (Z.of_nat n * 150000000).

Lemma slow_clock_range n : 0 <= slow_clock n < 2 ^ 64.
Proof. apply u64_range. Qed.

#[local] Abbreviation demo_run silent := (run sample_ntop (fun _ => 0) no_uptime silent).
#[local] Abbreviation demo_whole := (whole_start first_state (fun _ => 3) (fun _ => slow_clock)).

(** An echo reply to the first probe of the gatekeeper 11. *)
Definition reply_to_eleven : rx_batch :=
  {| rx_now := 30000; rx_stale := fun _ => replicate 16 0;
     rx_packets := [mk_received ([69] ++ replicate 19 0 ++ [0; 0; 0; 0; 0; 11; 0; 0]) [192; 0; 2; 1]] |}.

Definition network (v6 : bool) : list rx_batch := if v6 then [] else [reply_to_eleven].

Lemma network_ok v6 : Forall (batch_ok v6) (network v6).
Proof. destruct v6; repeat constructor; try (unfold BATCH_SIZE; simpl; lia); try done; repeat constructor; lia. Qed.

Definition demo_turn (wait : option (Z * wait_status)) (key : Z) : action := Turn (demo_tick wait key) 3 slow_clock.

Lemma demo_turn_ok wait key : action_ok (demo_turn wait key).
Proof. split; [discriminate|]. split; [discriminate|]. apply slow_clock_range. Qed.

#[local] Ltac demo_actions :=
  repeat first [apply Forall_nil_2|apply Forall_cons_2; [first [apply demo_turn_ok|exact network_ok|exact I]|]].

Lemma run_computed silent acts (R : whole -> bool) :
  R <$> demo_run silent demo_whole acts = Some true -> exists w, demo_run silent demo_whole acts = Some w /\ R w = true.
Proof. intros H. apply fmap_Some in H as (w & E & HR). by exists w. Qed.

(** A probe is sent and answered and the gatekeeper crashes; it is started again and
    the answer is counted and shown. *)
Definition keeper_story : list action :=
  [Works 0 EngineWorks; Works 0 (KeeperWorks 125000 64 network); Works 0 (KeeperCrashes 11); Works 0 EngineWorks;
   demo_turn (Some (11, WSignaled 11)) ERR].

Lemma keeper_story_ok : Forall action_ok keeper_story.
Proof. demo_actions. Qed.

Definition hop_is (w : whole (M := nsr_plugin_manager)) (k : nat) (c : Z * Z) : bool :=
  match hops (last_state (w_main w)) !! k with
  | Some h => bool_decide ((sent h, recv h) = c)
  | None => false
  end.

Lemma keeper_story_end :
  exists w, demo_run true demo_whole keeper_story = Some w /\ forallb c_clean (w_children w) && hop_is w 1 (2, 1) = true.
Proof. apply run_computed. vm_compute. reflexivity. Qed.

Lemma shown_counts_are_sound_witness :
  exists w, demo_run true demo_whole keeper_story = Some w /\ counts_ok (last_state (w_main w)) /\ hop_is w 1 (2, 1) = true.
Proof.
  destruct keeper_story_end as (w & E & HR). apply andb_true_iff in HR as [Hcl Hh]. exists w. split; [exact E|]. split; [|exact Hh].
  apply (shown_counts_are_sound sample_ntop (fun _ => 0) no_uptime true sample_ntop_text localhost localhost_text
    [] [str "a"; str "b"] [] [11; 12; 13; 14; 15; 16] default_settings two_sessions [15; 16] [] no_plugins
    (fun _ => 3) (fun _ => slow_clock) keeper_story w first_started (fun _ => slow_clock_range) keeper_story_ok E).
  apply Forall_forall. intros c Hc. rewrite forallb_forall in Hcl. apply Hcl. by apply list_elem_of_In.
Defined.

(** The user pauses a logic process, another dies, and the user quits. *)
Definition user_story : list action :=
  [Works 0 (KeeperWorks 125000 64 network); demo_turn None (ord "z"); Deliver; Works 1 (EngineCrashes 9 3 1);
   demo_turn (Some (14, WSignaled 9)) (ord "g"); demo_turn None (ord "q")].

Lemma user_story_ok : Forall action_ok user_story.
Proof. demo_actions. Qed.

Lemma whole_program_safe_witness :
  exists w, demo_run false demo_whole (keeper_story ++ user_story) = Some w /\ topo_wf (topo (w_main w)) /\
    Forall (fun p => 0 < p.1) (signals (w_main w)).
Proof.
  destruct (whole_program_safe sample_ntop (fun _ => 0) no_uptime false sample_ntop_text localhost localhost_text
    [] [str "a"; str "b"] [] [11; 12; 13; 14; 15; 16] default_settings two_sessions [15; 16] [] no_plugins
    (fun _ => 3) (fun _ => slow_clock) (keeper_story ++ user_story) first_started (fun _ => slow_clock_range))
    as (w & E & _ & Ht & _ & Hs & _).
  - apply Forall_app_2; [exact keeper_story_ok|exact user_story_ok].
  - exists w. split; [exact E|]. split; [exact Ht|exact Hs].
Defined.

Lemma user_story_end :
  exists w, demo_run false demo_whole user_story = Some w /\
    w_left w && (length (signals (w_main w)) - w_heard w =? 5)%nat = true.
Proof. apply run_computed. vm_compute. reflexivity. Qed.

Lemma nothing_is_left_behind_witness :
  exists w, demo_run false demo_whole (user_story ++ replicate 5 Deliver) = Some w /\
    Forall (fun c => ~ lives (c_engine c) /\ ~ lives (c_keeper c)) (w_children w).
Proof.
  destruct user_story_end as (w & E & HR). apply andb_true_iff in HR as [Hl Hn]. apply Nat.eqb_eq in Hn.
  destruct (nothing_is_left_behind sample_ntop (fun _ => 0) no_uptime false sample_ntop_text localhost localhost_text
    [] [str "a"; str "b"] [] [11; 12; 13; 14; 15; 16] default_settings two_sessions [15; 16] [] no_plugins
    (fun _ => 3) (fun _ => slow_clock) user_story w first_started (fun _ => slow_clock_range) user_story_ok E Hl) as (w' & E' & Hd & _).
  rewrite Hn in E'. exists w'. split; [|exact Hd]. rewrite run_app, E. exact E'.
Defined.

(** The logic process of the first session crashes while it sends. *)
Definition crash_story : list action := [Works 0 (EngineCrashes 11 1 0)].

Lemma crash_story_end :
  exists w, demo_run true demo_whole crash_story = Some w /\
    negb (w_left w) && running (w_main w) &&
    bool_decide (waitpid (w_children w) (sessions (w_main w)) (Some (12, WSignaled 11)) = Some (12, WSignaled 11)) &&
    match w_children w !! 0%nat, sessions (w_main w) !! 0%nat with
    | Some c, Some x => s_active x && (gk_pid x =? 11) && (logic_pid x =? 12) && (used (c_l2g c) =? 1)
    | _, _ => false
    end = true.
Proof. apply run_computed. vm_compute. reflexivity. Qed.

