(* ===== verification/TextBounds.v ===== *)
(** * Texts that fit their arrays

    The addresses in snapshots, in the graph and in the rows of the tree view are at
    most 47 characters long, as the arrays of the C structures are; so the documents
    the host makes of them are of a size that the buffers of JsonBuf.v hold. *)

From S2P Require Import Prelude CFloat JsonBuf JsonDoc JsonRpc Telemetry HopAlias Topology PluginDocs PluginHost Draw TuiState PluginRender.
From S2P Require Import PluginSystem HostLink TreeOrder TuiView TuiInput.

(** ** Snapshots *)

Definition short_hop (h : nsr_hop_info_t) : Prop := (length (addr h) <= 47)%nat.

Definition short_snapshot (tel : nsr_telemetry_state_t) : Prop :=
  (length (target_ip tel) <= 47)%nat /\ (length (target_host tel) <= 127)%nat /\ Forall short_hop (hops tel).

Lemma hop_wf_short h : hop_wf h -> short_hop h.
Proof.
  intros (_ & _ & _ & _ & Hf). unfold short_hop. unfold hop_counts in Hf. destruct (addr h) as [|c a]; [cbn; lia|].
  apply Forall_cons in Hf as [[(_ & _ & Hl) _] _]. exact Hl.
Qed.

Lemma snapshot_short tel : snapshot_ok tel -> short_snapshot tel.
Proof.
  intros ((_ & _ & H1) & H2 & H3). split; [done|]. split; [done|]. eapply Forall_impl; [exact H2|]. apply hop_wf_short.
Qed.

Lemma zero_short : short_snapshot zero_telemetry.
Proof. split; [cbn; lia|]. split; [cbn; lia|]. apply Forall_replicate. unfold short_hop. cbn. lia. Qed.

Lemma last_short tels tel : Forall snapshot_ok tels -> short_snapshot tel -> short_snapshot (List.last tels tel).
Proof. intros Hs Ht. induction Hs as [|t l H Hl IH]; [done|]. destruct l; [by apply snapshot_short|done]. Qed.

(** ** The graph *)

Definition short_node (n : nsr_topology_node_t) : Prop := (length (n_addr n) <= 47)%nat.

Definition short_graph (t : nsr_topology_state_t) : Prop := Forall short_node (nodes t).

Lemma init_short : short_graph nsr_topology_init.
Proof. apply Forall_replicate. unfold short_node. cbn. lia. Qed.

Lemma insert_short t i n : short_graph t -> short_node n -> Forall short_node (<[i := n]> (nodes t)).
Proof. intros Ht Hn. by apply Forall_insert. Qed.

(** A node that was found is one of the graph. *)
Lemma found_short t p `{forall n, Decision (p n)} i n : short_graph t -> list_find p (nodes t) = Some (i, n) -> short_node n.
Proof. intros Ht (Hi & _)%list_find_Some. exact (Forall_lookup_1 _ _ _ _ Ht Hi). Qed.

Lemma upsert_short t a ttl tg dest : short_graph t -> short_graph (nsr_topology_upsert_node t a ttl tg dest).2.
Proof.
  intros Ht. unfold nsr_topology_upsert_node. split_if; [done|].
  destruct (nsr_topology_find_by_addr_and_target t a tg) as [[i n]|] eqn:Ef.
  - apply insert_short; [done|]. by apply (found_short t _ i n Ht) in Ef.
  - split_if; [done|]. apply insert_short; [done|]. unfold short_node. cbn. unfold strncpy. rewrite length_take. lia.
Qed.

Lemma add_edge_nodes t from_id to_id : nodes (add_edge t from_id to_id) = nodes t.
Proof. unfold add_edge. do 2 (split_if; [done|]). destruct (list_find _ _); [done|]. by destruct (list_find _ _) as [[]|]. Qed.

(** Steps that leave the nodes alone, and folds of steps. *)
Lemma foldl_short {A} (step : nsr_topology_state_t -> A -> nsr_topology_state_t) t xs :
  (forall t x, short_graph t -> short_graph (step t x)) -> short_graph t -> short_graph (foldl step t xs).
Proof. intros Hs. revert t. induction xs as [|x xs IH]; intros t Ht; [done|]. cbn. auto. Qed.

Lemma add_edge_short t from_id to_id : short_graph t -> short_graph (add_edge t from_id to_id).
Proof. unfold short_graph. by rewrite add_edge_nodes. Qed.

Section Update.
  Context (clock : nat -> Z).

Lemma visit_short t tg i h a r : short_graph t -> short_graph (visit clock t tg i h a r).2.
Proof.
  intros Ht. unfold visit. pose proof (upsert_short t a (u8 i) tg false Ht) as H1.
  destruct (nsr_topology_upsert_node t a (u8 i) tg false) as [id t1]. cbn [snd] in H1. split_if; [done|].
  destruct (node_by_id t1 id) as [[k n]|] eqn:En; [|done]. apply insert_short; [done|]. by apply (found_short t1 _ k n H1) in En.
Qed.

Lemma visit_aliases_short t tg i h als : short_graph t -> short_graph (visit_aliases clock t tg i h als).2.
Proof.
  revert t. induction als as [|a als IH]; intros t Ht; [done|]. cbn [visit_aliases].
  pose proof (visit_short t tg i h (al_addr a) (al_recv a) Ht) as H1. destruct (visit clock t tg i h _ _) as [id t1].
  specialize (IH t1 H1). by destruct (visit_aliases clock t1 tg i h als) as [ids t2].
Qed.

Lemma visit_hops_short t tg i hs : short_graph t -> short_graph (visit_hops clock t tg i hs).2.
Proof.
  revert t i. induction hs as [|h hs IH]; intros t i Ht; [done|]. cbn [visit_hops].
  assert (H1 : short_graph (visit_hop clock t tg i h).2).
  { unfold visit_hop. split_if; [done|]. pose proof (visit_short t tg i h (addr h) (primary_recv h) Ht) as H1.
    destruct (visit clock t tg i h _ _) as [id t1]. cbn [snd] in H1.
    pose proof (visit_aliases_short t1 tg i h (take (Z.to_nat (alias_count h)) (aliases h)) H1) as H2.
    by destruct (visit_aliases clock t1 tg i h _) as [ids t2]. }
  destruct (visit_hop clock t tg i h) as [row t1]. specialize (IH t1 (i + 1) H1).
  by destruct (visit_hops clock t1 tg (i + 1) hs) as [rows t2].
Qed.

Lemma link_node_short t from row dest : short_graph t -> short_graph (link_node t from row dest).
Proof.
  intros Ht. unfold link_node. split_if; [done|].
  assert (H1 : short_graph (foldl (fun t to_id => if to_id =? 0 then t else add_edge t from to_id) t row)).
  { apply foldl_short; [|done]. intros t0 x H0. split_if; [done|by apply add_edge_short]. }
  split_if; [by apply add_edge_short|done].
Qed.

Lemma link_rows_short t rows dest : short_graph t -> short_graph (link_rows t rows dest).
Proof.
  revert t. induction rows as [|row rows IH]; intros t Ht; [done|]. destruct rows as [|next rows]; [done|]. cbn [link_rows].
  apply IH. apply foldl_short; [|done]. intros t0 x H0. by apply link_node_short.
Qed.

Lemma link_last_short t rows dest : short_graph t -> short_graph (link_last t rows dest).
Proof.
  intros Ht. unfold link_last. split_if; [|done].
  set (t1 := foldl _ _ _). assert (H1 : short_graph t1).
  { apply foldl_short; [|done]. intros t0 x H0. split_if; [by apply add_edge_short|done]. }
  destruct (node_by_id t1 dest) as [[k n]|] eqn:En; [|done]. apply insert_short; [done|]. by apply (found_short t1 _ k n H1) in En.
Qed.

Lemma update_short t tel : short_graph t -> short_graph (nsr_topology_update_from_telemetry clock t tel).
Proof.
  intros Ht. unfold nsr_topology_update_from_telemetry. split_if; [done|].
  pose proof (upsert_short t (target_ip tel) 0 (target_ip tel) true Ht) as H1.
  destruct (nsr_topology_upsert_node _ _ _ _ _) as [dest t1]. cbn [snd] in H1.
  pose proof (visit_hops_short t1 (target_ip tel) 1 (drop 1 (hops tel)) H1) as H2.
  destruct (visit_hops _ _ _ _ _) as [rows t2]. by apply link_last_short, link_rows_short.
Qed.

End Update.

Lemma flip_short t i n : short_graph t -> nodes t !! i = Some n -> short_graph (flip_control t (Some (i, n))).
Proof.
  intros Ht Hi. apply insert_short; [done|]. exact (Forall_lookup_1 _ _ _ _ Ht Hi).
Qed.

(** ** The documents *)

Definition short_row (r : row) : Prop := (length (r_addr r) <= 47)%nat /\ (length (r_status r) <= 11)%nat.

Lemma row_size r : short_row r -> size_bound (row_doc r) <= 1000.
Proof.
  intros [H1 H2]. unfold row_doc. cbn [size_bound map foldr].
  change (Z.of_nat (length (str "hop_idx"))) with 7. change (Z.of_nat (length (str "addr"))) with 4.
  change (Z.of_nat (length (str "rtt_us"))) with 6. change (Z.of_nat (length (str "sent"))) with 4.
  change (Z.of_nat (length (str "recv"))) with 4. change (Z.of_nat (length (str "loss"))) with 4.
  change (Z.of_nat (length (str "status"))) with 6. lia.
Qed.

Lemma rows_size rs : Forall short_row rs ->
  size_bound (JArr (map row_doc rs)) <= 2 + Z.of_nat (length rs) * 1001.
Proof.
  intros Hr. cbn [size_bound]. pose proof (sum_bound (map row_doc rs) 1000 ltac:(lia)) as Hs. rewrite length_map in Hs.
  assert (Hd : Forall (fun d => size_bound d <= 1000) (map row_doc rs)).
  { apply Forall_map. eapply Forall_impl; [exact Hr|]. apply row_size. }
  specialize (Hs Hd). lia.
Qed.

Lemma hop_rows_short i hs : Forall short_hop hs -> Forall short_row (hop_rows i hs) /\ (length (hop_rows i hs) <= length hs)%nat.
Proof.
  unfold hop_rows. intros Hs. revert i. induction Hs as [|h hs Hh Hs IH]; intros i; [by split; [constructor|]|].
  cbn [imap concat]. destruct (IH (i + 1)) as [H1 H2].
  assert (E : imap ((fun k h => if sent h =? 0 then [] else [hop_row (i + Z.of_nat k) h]) ∘ S) hs
    = imap (fun k h => if sent h =? 0 then [] else [hop_row (i + 1 + Z.of_nat k) h]) hs).
  { apply imap_ext. intros k x _. cbn. split_if; [done|]. do 2 f_equal. lia. }
  rewrite E. split_if; cbn [app length]; [split; [done|lia]|]. split; [|lia]. constructor; [|done].
  split; [exact Hh|]. cbn. by destruct (last_status h); vm_compute; lia.
Qed.

Lemma node_rows_short ns added : Forall short_node ns ->
  Forall short_row (node_rows ns added) /\ (length (node_rows ns added) <= length ns)%nat.
Proof.
  intros Hn. revert added. induction Hn as [|n ns H Hn IH]; intros added; cbn [node_rows length]; [by split|].
  split_if; [destruct (IH added); split; [done|lia]|]. destruct (IH (remember added (n_addr n))) as [H1 H2].
  cbn [length]. split; [|lia]. constructor; [|done]. split; [exact H|vm_compute; lia].
Qed.

Lemma telemetry_fits tel t :
  short_snapshot tel -> short_graph t -> (length (nodes t) <= 1024)%nat -> fits (print (telemetry_request tel (Some t))).
Proof.
  intros (H1 & H2 & H3) Ht Hl. apply fits_bound. unfold telemetry_request, request_doc, telemetry_doc.
  assert (Hhops : Forall short_hop (take 63 (drop 1 (hops tel)))) by by apply Forall_take, Forall_drop.
  destruct (hop_rows_short 1 _ Hhops) as [R1 L1]. rewrite length_take in L1.
  destruct (node_rows_short (nodes t) (foldl remember [] (map r_addr (hop_rows 1 (take 63 (drop 1 (hops tel)))))) Ht) as [R2 L2].
  pose proof (rows_size (telemetry_rows tel (Some t))) as Hr. unfold telemetry_rows in *. rewrite length_app in Hr.
  specialize (Hr ltac:(by apply Forall_app)). set (rows := JArr _) in *. clearbody rows.
  cbn [app size_bound map foldr]. change (Z.of_nat (length (str "jsonrpc"))) with 7. change (Z.of_nat (length (str "2.0"))) with 3.
  change (Z.of_nat (length (str "method"))) with 6. change (Z.of_nat (length (str "update_telemetry"))) with 16.
  change (Z.of_nat (length (str "params"))) with 6. change (Z.of_nat (length (str "target_ip"))) with 9.
  change (Z.of_nat (length (str "target_host"))) with 11. change (Z.of_nat (length (str "interval_ms"))) with 11.
  change (Z.of_nat (length (str "hops"))) with 4. lia.
Qed.

Lemma hops_small hs n : Forall short_hop hs -> size_bound (hops_doc hs n) < 2 ^ 48.
Proof.
  intros Hs. unfold hops_doc, asked_rows.
  assert (Hh : Forall short_hop (drop 1 (take (Z.to_nat (Z.min 64 n)) hs))) by by apply Forall_drop, Forall_take.
  destruct (hop_rows_short 1 _ Hh) as [R1 L1]. rewrite length_drop, length_take in L1.
  pose proof (rows_size _ R1) as Hr. set (rows := JArr _) in *. clearbody rows. cbn [size_bound map foldr].
  change (Z.of_nat (length (str "hops"))) with 4. lia.
Qed.

Lemma focused_small id t : short_graph t -> Z.of_nat (length (focused_addr id t)) < 2 ^ 44.
Proof.
  intros Ht. unfold focused_addr. split_if; [cbn; lia|]. destruct (node_by_id t id) as [[k n]|] eqn:En; [|cbn; lia].
  pose proof (found_short t _ k n Ht En) as Hn. unfold short_node in Hn. lia.
Qed.

(** The rows of the tree view for which annotations are asked. *)
Lemma node_hop_short n : short_hop (node_hop n).
Proof. unfold short_hop, node_hop. cbn. unfold strncpy. rewrite length_take. lia. Qed.

Lemma sim_nodes_short topo ns line scroll avail acc :
  Forall short_hop acc -> Forall short_hop (sim_nodes topo ns line scroll avail acc).2.
Proof.
  revert line acc. induction ns as [|i ns IH]; intros line acc Ha; [done|]. cbn [sim_nodes]. apply IH.
  split_if; [|done]. apply Forall_app_2; [done|]. constructor; [apply node_hop_short|done].
Qed.

Lemma sim_groups_short topo gs line scroll avail acc :
  Forall short_hop acc -> Forall short_hop (sim_groups topo gs line scroll avail acc).
Proof.
  revert line acc. induction gs as [|[a ns] gs IH]; intros line acc Ha; [done|]. cbn [sim_groups].
  pose proof (sim_nodes_short topo ns (line + 1) scroll avail acc Ha) as H1.
  destruct (sim_nodes topo ns (line + 1) scroll avail acc) as [line' acc']. by apply IH.
Qed.
