(* ===== verification/ManagerUse.v ===== *)
(** * What the program does with its plugin manager

    Every operation of the main loop and of the user interface changes the manager by
    calls of its table of functions only, and the telemetry, the graph and the hops it
    hands over are those of the program: their addresses fit the arrays.  A call is a
    [mgr_call]; a run of the whole program is, for the manager, a list of them. *)

From S2P Require Import Prelude CFloat Telemetry ShmRing HopAlias Logic Gatekeeper GateSetup System Topology Accounting KeySlots.
From S2P Require Import JsonScan PluginConfig RpcConn PluginHost Draw TuiState PluginRender PluginMgr TreeOrder TuiView TuiInput TuiSystem.
From S2P Require Import Supervisor MainLoop Whole TextBounds.

(** The calls of the table that may change the manager. *)
Inductive mgr_call :=
| MgrTelemetry (tel : nsr_telemetry_state_t) (topo : nsr_topology_state_t)
| MgrRender (tui : nsr_tui_state_t) (topo : nsr_topology_state_t) (y x h w screen_h screen_w : Z)
| MgrHops (hs : list nsr_hop_info_t) (hop_count max_out : Z)
| MgrKey (ch : Z)
| MgrModal
| MgrSwitch (idx : Z) (enabled : bool).

(** What is handed over is of a size that its arrays hold. *)
Definition mgr_call_ok (c : mgr_call) : Prop :=
  match c with
  | MgrTelemetry tel topo => short_snapshot tel /\ short_graph topo /\ (length (nodes topo) <= 1024)%nat
  | MgrRender _ topo _ _ _ _ _ _ => short_graph topo
  | MgrHops hs _ _ => Forall short_hop hs
  | _ => True
  end.

Section Use.
  Context {M : Type} `{PluginManager M}.

Definition mgr_do (m : M) (c : mgr_call) : M :=
  match c with
  | MgrTelemetry tel topo => vt_update_telemetry m tel topo
  | MgrRender tui topo y x h w screen_h screen_w => (vt_render m tui topo y x h w screen_h screen_w).2
  | MgrHops hs hop_count max_out => (vt_render_hops m hs hop_count max_out).2
  | MgrKey ch => (vt_on_key m ch).2
  | MgrModal => (vt_modal_active m).2
  | MgrSwitch idx enabled => vt_set_enabled m idx enabled
  end.

(** [m'] comes from [m] by calls. *)
Definition used (m m' : M) : Prop := exists cs, Forall mgr_call_ok cs /\ foldl mgr_do m cs = m'.

Lemma used_refl m : used m m.
Proof. by exists []. Qed.

Lemma used_trans m m1 m2 : used m m1 -> used m1 m2 -> used m m2.
Proof.
  intros (cs1 & H1 & E1) (cs2 & H2 & E2). exists (cs1 ++ cs2). split; [by apply Forall_app_2|]. by rewrite foldl_app, E1.
Qed.

Lemma used_one m c : mgr_call_ok c -> used m (mgr_do m c).
Proof. intros Hc. exists [c]. split; [by constructor|done]. Qed.

Lemma used_hops m hs n max_out : Forall short_hop hs -> used m (vt_render_hops m hs n max_out).2.
Proof. intros Hs. by apply (used_one m (MgrHops hs n max_out)). Qed.

Lemma used_key m ch : used m (vt_on_key m ch).2.
Proof. by apply (used_one m (MgrKey ch)). Qed.

Lemma used_modal m : used m (vt_modal_active m).2.
Proof. by apply (used_one m MgrModal). Qed.

Lemma used_switch m idx b : used m (vt_set_enabled m idx b).
Proof. by apply (used_one m (MgrSwitch idx b)). Qed.

Lemma panels_use t topo sc m : short_graph topo -> used m (plugin_panels t topo sc m).2.
Proof. intros Hs. by apply (used_one m (MgrRender t topo 9 (max_x sc - 55) (max_y sc - 12) 38 (max_y sc) (max_x sc))). Qed.

(** ** Frames *)

Lemma normal_uses uptime_text t tel topo sc now_ns m :
  Forall short_hop (hops tel) -> short_graph topo -> used m (render_normal uptime_text t tel topo sc now_ns m).2.
Proof.
  intros Ht Hg. unfold render_normal. pose proof (used_hops m (hops tel) NSR_MAX_HOPS NSR_MAX_HOPS Ht) as H1.
  destruct (vt_render_hops m (hops tel) NSR_MAX_HOPS NSR_MAX_HOPS) as [anns m1]. pose proof (panels_use t topo sc m1 Hg) as H2.
  destruct (plugin_panels t topo sc m1) as [ps m2]. by eapply used_trans.
Qed.

Lemma grid_uses t topo tree sc m : short_graph topo -> used m (render_grid t topo tree sc m).2.
Proof.
  intros Hg. unfold render_grid. set (t' := with_grid t _ _). pose proof (panels_use t' topo sc m Hg) as H1.
  by destruct (plugin_panels t' topo sc m) as [ps m1].
Qed.

Lemma tree_uses t topo sc m : short_graph topo -> used m (render_tree t topo sc m).2.
Proof.
  intros Hg. unfold render_tree. set (hs := sim_groups topo _ _ _ _ _).
  assert (Hs : Forall short_hop hs).
  { apply sim_groups_short. constructor; [unfold short_hop; cbn; lia|constructor]. }
  set (r := if 1 <? _ then _ else _). assert (H1 : used m r.2) by (unfold r; split_if; [by apply used_hops|apply used_refl]).
  destruct r as [anns m1]. set (t' := with_tree t _ _). pose proof (panels_use t' topo sc m1 Hg) as H2.
  destruct (plugin_panels t' topo sc m1) as [ps m2]. by eapply used_trans.
Qed.

Lemma frame_uses uptime_text t tel topo tree sc now now_ns m :
  Forall short_hop (hops tel) -> short_graph topo -> used m (nsr_tui_render uptime_text t tel topo tree sc now now_ns m).2.
Proof.
  intros Ht Hg. unfold nsr_tui_render. split_if; [apply used_refl|].
  set (r := match current_mode t with NSR_UI_NORMAL => _ | _ => _ end).
  assert (Hr : used m r.2).
  { unfold r. destruct (current_mode t).
    - pose proof (normal_uses uptime_text t tel topo sc now_ns m Ht Hg) as Hn. by destruct (render_normal _ _ _ _ _ _ _).
    - pose proof (grid_uses t topo tree sc m Hg) as Hn. by destruct (render_grid t topo tree sc m) as [[ds t'] m'].
    - by apply tree_uses.
    - apply used_refl. }
  destruct r as [[[ds t1] tree1] m1]. by destruct (draw_notice t1 sc now).
Qed.

(** ** Keys *)

Lemma tools_use `{Ncurses} t ch m : used m (tools_key t ch m).2.
Proof.
  unfold tools_key. set (r := if key_in ch key_up then _ else _).
  assert (Hr : used m r.2) by (unfold r; repeat split_if; cbn [snd]; try apply used_refl; apply used_switch).
  by destruct r as [t1 m1].
Qed.

Lemma keys_use `{Ncurses} width now t topo tree ch m : used m (nsr_tui_update width now t topo tree ch m).2.
Proof.
  unfold nsr_tui_update. split_if; [apply used_refl|]. pose proof (used_modal m) as H1.
  destruct (vt_modal_active m) as [b m1]. cbn [snd] in H1. pose proof (used_key m1 ch) as H2. split_if.
  { destruct (vt_on_key m1 ch) as [h m2]. by eapply used_trans. }
  split_if; [done|]. split_if; [by split_if|]. unfold mode_key. split_if.
  { pose proof (tools_use t ch m1) as H3. destruct (tools_key t ch m1) as [t1 m2]. by eapply used_trans. }
  repeat (split_if; [done|]). destruct (vt_on_key m1 ch) as [h m2]. cbn [snd] in H2.
  pose proof (used_trans _ _ _ H1 H2) as H12. split_if; [done|]. destruct (current_mode t).
  - by destruct (normal_key t ch).
  - by destruct (grid_key width t topo ch).
  - by destruct (tree_key t topo tree ch).
  - by destruct (normal_key t ch).
Qed.

End Use.

(** ** A manager that writes down the calls *)

#[export] Instance recording {M} `{PluginManager M} : PluginManager (M * list mgr_call) := {
  registry m := registry m.1;
  vt_update_telemetry m tel topo := (vt_update_telemetry m.1 tel topo, m.2 ++ [MgrTelemetry tel topo]);
  vt_render m tui topo y x h w screen_h screen_w :=
    let r := vt_render m.1 tui topo y x h w screen_h screen_w in
    (r.1, (r.2, m.2 ++ [MgrRender tui topo y x h w screen_h screen_w]));
  vt_render_hops m hs hop_count max_out :=
    let r := vt_render_hops m.1 hs hop_count max_out in (r.1, (r.2, m.2 ++ [MgrHops hs hop_count max_out]));
  vt_on_key m ch := let r := vt_on_key m.1 ch in (r.1, (r.2, m.2 ++ [MgrKey ch]));
  vt_modal_active m := let r := vt_modal_active m.1 in (r.1, (r.2, m.2 ++ [MgrModal]));
  vt_count m := vt_count m.1;
  vt_name m := vt_name m.1;
  vt_description m := vt_description m.1;
  vt_enabled m := vt_enabled m.1;
  vt_set_enabled m idx enabled := (vt_set_enabled m.1 idx enabled, m.2 ++ [MgrSwitch idx enabled]);
}.

#[export] Instance recording_laws {M} `{PluginManagerLaws M} : PluginManagerLaws (M * list mgr_call).
Proof.
  split.
  - intros m. apply (count_range m.1).
  - intros m. apply (enabled_outside m.1).
  - intros m. apply (set_enabled_law m.1).
  - intros m. apply (on_key_law m.1).
  - intros m. apply (modal_active_law m.1).
  - intros m. apply (update_telemetry_law m.1).
  - intros m. apply (render_law m.1).
  - intros m. apply (render_hops_law m.1).
Qed.

(** What is written down is what was done. *)
Lemma recorded {M} `{PluginManager M} (m m' : M) cs :
  used (m, []) (m', cs) -> Forall mgr_call_ok cs /\ foldl mgr_do m cs = m'.
Proof.
  intros (cs' & Hcs & E).
  assert (Hrec : forall l p, foldl mgr_do (p, l) cs' = (foldl mgr_do p cs', l ++ cs')).
  { clear. induction cs' as [|c cs' IH]; intros l p; cbn [foldl]; [by rewrite app_nil_r|].
    replace (mgr_do (p, l) c) with (mgr_do p c, l ++ [c]) by by destruct c. by rewrite IH, <- app_assoc. }
  rewrite Hrec in E. cbn [app] in E. injection E as <- <-. done.
Qed.

(** ** Turns and runs *)

Lemma flips_short t t' : flips t t' -> short_graph t -> short_graph t'.
Proof. intros [->|(i & n & Hi & ->)] Ht; [done|]. by apply flip_short. Qed.

Lemma foldl_update_short clock t tels : short_graph t -> short_graph (foldl (nsr_topology_update_from_telemetry clock) t tels).
Proof. intros Ht. apply foldl_short; [|done]. intros t0 tel. apply update_short. Qed.

Section Runs.
  Context `{Inet} (ntop : bool -> list Z -> cstr) (main_clock : nat -> Z).
  Context `{Ncurses} {M : Type} `{PluginManagerLaws M} (uptime_text : Z -> Z -> option (option cstr)) (silent : bool).
  Context (ntop_text : forall v6 bytes, text_ok (ntop v6 bytes)).

#[local] Abbreviation whole := (whole (M := M)).
#[local] Abbreviation whole_do := (whole_do ntop main_clock uptime_text silent).
#[local] Abbreviation run := (run ntop main_clock uptime_text silent).

(** What the main process holds fits its arrays. *)
Definition prog_short (s : main_state (M := M)) : Prop := short_snapshot (last_state s) /\ short_graph (topo s).

(** From one state to the next: by calls, and what is held still fits. *)
Definition used_by (s s' : main_state (M := M)) : Prop := used (mgr s) (mgr s') /\ prog_short s'.

Lemma used_by_trans s s1 s2 : used_by s s1 -> used_by s1 s2 -> used_by s s2.
Proof. intros [Hu1 _] [Hu2 Hs]. split; [by eapply used_trans|done]. Qed.

(** States that differ in other fields only. *)
Lemma used_by_same s s' : mgr s' = mgr s -> last_state s' = last_state s -> topo s' = topo s -> prog_short s -> used_by s s'.
Proof. intros E1 E2 E3 Hs. split; [rewrite E1; apply used_refl|]. unfold prog_short. by rewrite E2, E3. Qed.

Lemma interact_uses s tk : prog_short s -> used_by s (interact uptime_text s tk).1.
Proof.
  intros [Ht Hg]. unfold interact.
  pose proof (frame_uses uptime_text (tui s) (last_state s) (topo s) (tree s) (tk_screen tk) (tk_now tk) (tk_now_ns tk) (mgr s)
    (proj2 (proj2 Ht)) Hg) as Hu1.
  destruct (nsr_tui_render _ _ _ _ _ _ _ _ _) as [[[ds t1] tree1] m1].
  pose proof (keys_use (max_x (tk_screen tk)) (tk_now tk) t1 (topo s) tree1 (tk_key tk) m1) as Hu2.
  pose proof (update_flips (max_x (tk_screen tk)) (tk_now tk) t1 (topo s) tree1 (tk_key tk) m1) as Hf.
  destruct (nsr_tui_update _ _ _ _ _ _ _) as [[[cmd t2] topo2] m2]. cbn [fst snd] in *.
  split; [by eapply used_trans|]. split; [done|]. by eapply flips_short.
Qed.

Lemma drained_uses s tk ss1 ss3 :
  prog_short s -> rings_ok ss1 -> topo_wf (topo (drained main_clock s tk ss1 ss3)) -> used_by s (drained main_clock s tk ss1 ss3).
Proof.
  intros [Ht Hg] Hr [Hn _]. pose proof (after_wait_rings s ss1 tk Hr) as Hr2. unfold drained in *.
  destruct (after_wait s ss1 tk) as [[ss2 forks] kills]. cbn [fst topo] in *. apply waiting_ok in Hr2.
  assert (Hl : short_snapshot (List.last (waiting ss2) (last_state s))) by by apply last_short.
  pose proof (foldl_update_short main_clock (topo s) (waiting ss2) Hg) as Hg2. split; [|done].
  destruct Hn as [Hlen _]. apply (used_one (mgr s) (MgrTelemetry _ _)). split; [done|]. split; [done|]. by rewrite Hlen.
Qed.

Lemma turn_uses s tk s' quit :
  main_ok s -> tick_ok tk -> prog_short s -> main_turn main_clock uptime_text silent s tk = Some (s', quit) -> used_by s s'.
Proof.
  intros Hs Htk Hp E. destruct (turn_spec main_clock uptime_text silent s tk Hs Htk) as (ss1 & ss3 & _ & Hr1 & _ & _ & _ & _ & Hd & E').
  rewrite E' in E. pose proof (drained_uses s tk ss1 ss3 Hp Hr1 (ok_topo _ Hd)) as Hu1.
  destruct silent; [by injection E as <- _|].
  pose proof (interact_uses (drained main_clock s tk ss1 ss3) tk (proj2 Hu1)) as Hu2.
  injection E as E. rewrite E in Hu2. by eapply used_by_trans.
Qed.

Lemma turn_do_uses w tk fd clk w' :
  whole_inv w -> action_ok (Turn tk fd clk) -> prog_short (w_main w) ->
  turn_do main_clock uptime_text silent w tk fd clk = Some w' -> used_by (w_main w) (w_main w').
Proof.
  intros Hw (Hy & Hx & _) Hp. unfold turn_do. split_if; [intros [= <-]; by apply used_by_same|].
  split_if; [intros [= <-]; by apply used_by_same|]. destruct (main_turn _ _ _ _ _) as [[s' quit]|] eqn:E; [|done].
  cbn [mbind option_bind fst snd]. pose proof (turn_uses _ (observed_tick w tk) s' quit (wi_main w Hw) ltac:(by repeat split) Hp E) as [Hu Hs].
  destruct quit; intros [= <-]; (split; [exact Hu|exact Hs]).
Qed.

Lemma whole_do_uses w a w' :
  whole_inv w -> action_ok a -> prog_short (w_main w) -> whole_do w a = Some w' -> used_by (w_main w) (w_main w').
Proof.
  intros Hw Ha Hp. destruct a as [i a| |tk fd clk]; cbn [Whole.whole_do].
  - destruct (w_children w !! i) as [c|]; [|intros [= <-]; by apply used_by_same].
    destruct (sessions (w_main w) !! i) as [x|]; [|intros [= <-]; by apply used_by_same].
    destruct (child_do ntop a c x); [|done]. intros [= <-]. by apply used_by_same.
  - destruct (signals (w_main w) !! w_heard w) as [[pid sg]|]; intros [= <-]; by apply used_by_same.
  - by apply turn_do_uses.
Qed.

Lemma run_uses w acts w' :
  whole_inv w -> Forall action_ok acts -> prog_short (w_main w) -> run w acts = Some w' -> used_by (w_main w) (w_main w').
Proof.
  intros Hw Ha. revert w Hw. induction Ha as [|a acts Ha Hacts IH]; intros w Hw Hp; cbn [Whole.run]; [intros [= <-]; by apply used_by_same|].
  destruct (whole_do_inv ntop main_clock uptime_text silent ntop_text w a Hw Ha) as (w1 & E & Hw1). rewrite E. cbn [mbind option_bind].
  pose proof (whole_do_uses w a w1 Hw Ha Hp E) as Hu1. intros E2. eapply used_by_trans; [exact Hu1|]. apply (IH w1 Hw1); [apply Hu1|done].
Qed.

End Runs.
