(* ===== verification/PluginProgram.v ===== *)
(** * The plugin processes under the whole program

    The main loop of Whole.v with the plugin manager of plugin.c: the calls that a run
    makes (ManagerUse.v) are calls and switches of the registry of PluginHub.v.  The
    documents it writes fit the buffers, because what the program holds fits its
    arrays, so each call is a sequence of pieces of work on the plugins that run, and
    the exchanges of messages with the plugin processes go on through the whole run. *)

From stdpp Require Import relations.
From S2P Require Import Prelude CFloat JsonBuf JsonDoc JsonRpc RpcConn Telemetry HopAlias Logic GateSetup Topology KeySlots.
From S2P Require Import PluginConfig PluginDocs PluginHost Draw TuiState PluginRender Percentile GeoIP PluginSystem HostLink PluginLink PluginHub PluginMgr.
From S2P Require Import TreeOrder TuiView TuiInput TuiSystem Supervisor MainLoop Whole TextBounds ManagerUse.

(** ** Calls of the manager as calls of the registry *)

Definition registry_call (c : mgr_call) : option host_call :=
  match c with
  | MgrTelemetry tel topo => Some (CallTelemetry tel (Some topo))
  | MgrRender tui topo y x h w screen_h screen_w =>
      Some (CallRender (current_mode tui) (focused_node_id tui) topo y x h w screen_h screen_w)
  | MgrHops hs hop_count max_out => Some (CallHops hs hop_count max_out)
  | MgrKey ch => Some (CallKey ch)
  | MgrModal => Some CallModal
  | MgrSwitch _ _ => None
  end.

Lemma registry_call_fits c hc : mgr_call_ok c -> registry_call c = Some hc -> call_ok hc.
Proof.
  destruct c; intros Hc [= <-]; cbn [call_ok mgr_call_ok] in *; try done.
  - destruct Hc as (Ht & Hg & Hn). by apply telemetry_fits.
  - by apply focused_small.
  - by apply hops_small.
Qed.

Lemma registry_call_do m c hc :
  registry_call c = Some hc ->
  call_do hc (entries (pm_registry m)) (pm_os m) = (entries (pm_registry (mgr_do m c)), pm_os (mgr_do m c)).
Proof.
  destruct c; intros [= <-]; cbn [mgr_do call_do vt_update_telemetry vt_render vt_render_hops vt_on_key vt_modal_active nsr_plugin_manager_vtable].
  - unfold plugin_mgr_update_telemetry. by destruct (nsr_plugins_update_telemetry _ _ _ _).
  - unfold plugin_mgr_render. by destruct (nsr_plugins_render _ _ _ _ _ _ _ _ _ _ _) as [[ds es] o].
  - unfold plugin_mgr_render_hops. by destruct (nsr_plugins_render_hops _ _ _ _ _) as [[es out] o].
  - unfold plugin_mgr_on_key. by destruct (nsr_plugins_on_key _ _ _) as [[[h es] o] files].
  - unfold plugin_mgr_modal_active. by destruct (nsr_plugins_modal_active _ _) as [[b es] o].
Qed.

Lemma registry_call_reg m c hc :
  registry_call c = Some hc -> pm_registry (mgr_do m c) = with_entries (pm_registry m) (entries (pm_registry (mgr_do m c))).
Proof.
  destruct c; intros [= <-]; cbn [mgr_do vt_update_telemetry vt_render vt_render_hops vt_on_key vt_modal_active nsr_plugin_manager_vtable].
  - unfold plugin_mgr_update_telemetry. by destruct (nsr_plugins_update_telemetry _ _ _ _).
  - unfold plugin_mgr_render. by destruct (nsr_plugins_render _ _ _ _ _ _ _ _ _ _ _) as [[ds es] o].
  - unfold plugin_mgr_render_hops. by destruct (nsr_plugins_render_hops _ _ _ _ _) as [[es out] o].
  - unfold plugin_mgr_on_key. by destruct (nsr_plugins_on_key _ _ _) as [[[h es] o] files].
  - unfold plugin_mgr_modal_active. by destruct (nsr_plugins_modal_active _ _) as [[b es] o].
Qed.

Lemma with_own_entries reg : with_entries reg (entries reg) = reg.
Proof. by destruct reg. Qed.

Lemma init_doc_small config dir :
  (length config <= 255)%nat -> (length dir <= 511)%nat -> size_bound (init_doc config dir) < 2 ^ 48.
Proof.
  intros Hc Hd. unfold init_doc. cbn [size_bound map foldr].
  change (Z.of_nat (length (str "config_path"))) with 11. change (Z.of_nat (length (str "plugin_dir"))) with 10. lia.
Qed.

Section Program.
  Context {P E : Type} `{MessagePluginLaws P E}.

#[local] Abbreviation slot := (slot (P := P)).

(** An attempt to start a plugin of a registry: the process answers [init], or it does
    not. *)
Inductive starts (reg : nsr_plugin_registry_t) (sp : spawn_result) (o : os) (e : nsr_plugin_entry_t) : slot -> os -> Prop :=
| starts_up fds env p0 p1 out e' o' g :
    sp = Some fds -> react env p0 (input_of (init_message (config_path reg) (plugin_dir reg))) = (p1, out) ->
    plugin_spawn e (config_path reg) (plugin_dir reg) (Some fds) o = (true, e', o') -> consumed o o' g -> g `prefix_of` out ->
    starts reg sp o e
      (Up p0 (mk_link e' p1 (length (input_of (init_message (config_path reg) (plugin_dir reg)))) out (length g))) o'
| starts_not e' o' :
    plugin_spawn e (config_path reg) (plugin_dir reg) sp o = (false, e', o') -> starts reg sp o e (Down e') o'.

Lemma starts_spec reg sp o e x o' :
  starts reg sp o e x o' ->
  launched (E := E) (config_path reg) (plugin_dir reg) e x /\
  exists b, plugin_spawn e (config_path reg) (plugin_dir reg) sp o = (b, s_host x, o').
Proof.
  intros [fds env p0 p1 out e' o1 g -> Hre Hsp Hc Hg|e' o1 Hsp]; (split; [|by eexists]); [by eapply launch_up|by eapply launch_down].
Qed.

(** The entries have no part in it. *)
Lemma starts_paths reg reg' sp o e x o' :
  config_path reg' = config_path reg -> plugin_dir reg' = plugin_dir reg -> starts reg sp o e x o' -> starts reg' sp o e x o'.
Proof.
  intros E1 E2 [fds env p0 p1 out e' o1 g Hsp Hre Hs Hc Hg|e' o1 Hs]; rewrite <- E1, <- E2 in *; [by eapply starts_up|by eapply starts_not].
Qed.

(** A registry and the processes behind it: those that do not run have no session, and
    those that run are on their way in one. *)
Definition housed (reg : nsr_plugin_registry_t) (s : list slot) : Prop :=
  hosts s = entries reg /\ Forall (slot_inv (E := E)) s /\ (length (config_path reg) <= 255)%nat /\ (length (plugin_dir reg) <= 511)%nat.

Lemma housed_step reg s s' es :
  housed reg s -> rtc (hub_step (E := E) (config_path reg) (plugin_dir reg)) s s' -> hosts s' = es -> housed (with_entries reg es) s'.
Proof.
  intros (_ & Hi & Hc & Hd) Hs Hh. split; [done|]. split; [|done]. clear Hh. pose proof (init_doc_small _ _ Hc Hd) as Hb.
  induction Hs as [|s1 s2 s3 Hs Hrun IH]; [done|]. apply IH. by eapply hub_step_inv.
Qed.

Lemma housed_more reg s x :
  housed reg s -> hub_step (E := E) (config_path reg) (plugin_dir reg) s (s ++ [x]) ->
  housed (with_entries reg (entries reg ++ [s_host x])) (s ++ [x]).
Proof.
  intros Hh Hs. apply (housed_step reg s); [done|by apply rtc_once|]. destruct Hh as [Hh _]. unfold hosts in *. by rewrite map_app, Hh.
Qed.

Lemma housed_delivered reg s : housed reg s -> all_delivered (E := E) s.
Proof. intros (_ & Hi & _). by apply slots_delivered. Qed.

(** ** Loading *)

Definition passed_over (reg : nsr_plugin_registry_t) (d : dirent) : bool :=
  ceq (deref d.1) "." || negb (is_executable d.2) || existsb (fun e => streq (e_name e) d.1) (entries reg).

Definition found_entry (path : cstr) (file : option cstr) (name : cstr) : nsr_plugin_entry_t :=
  let e := new_plugin name (take 767 (path ++ str "/" ++ name)) in
  with_enabled e (config_get_bool_default file (setting_key (e_name e)) false).

(** The loop that loads a directory, with the processes it starts. *)
Inductive loading (path : cstr) (file : option cstr) :
    list dirent -> nsr_plugin_registry_t -> list spawn_result -> os -> list slot -> list slot -> Prop :=
| loading_done reg sps o s : loading path file [] reg sps o s s
| loading_passes d ds reg sps o s s' :
    passed_over reg d = true -> loading path file ds reg sps o s s' -> loading path file (d :: ds) reg sps o s s'
| loading_full d ds reg sps o s :
    passed_over reg d = false -> NSR_MAX_PLUGINS <= nsr_plugins_count reg -> loading path file (d :: ds) reg sps o s s
| loading_off d ds reg sps o s s' e :
    passed_over reg d = false -> nsr_plugins_count reg < NSR_MAX_PLUGINS -> found_entry path file d.1 = e -> e_enabled e = false ->
    loading path file ds (with_entries reg (entries reg ++ [e])) sps o (s ++ [Down e]) s' ->
    loading path file (d :: ds) reg sps o s s'
| loading_on d ds reg sps o s s' e x o1 :
    passed_over reg d = false -> nsr_plugins_count reg < NSR_MAX_PLUGINS -> found_entry path file d.1 = e -> e_enabled e = true ->
    starts reg (default None (head sps)) o e x o1 ->
    loading path file ds (with_entries reg (entries reg ++ [s_host x])) (tail sps) o1 (s ++ [x]) s' ->
    loading path file (d :: ds) reg sps o s s'.

Lemma loading_housed path file ds reg sps o s s' loaded :
  loading path file ds reg sps o s s' -> housed reg s -> housed (load_loop ds path file reg sps loaded o).1.2 s'.
Proof.
  intros Hl. revert loaded.
  induction Hl as [reg sps o s|[name mode] ds reg sps o s s' Hp Hl IH|[name mode] ds reg sps o s Hp Hf
    |[name mode] ds reg sps o s s' e Hp Hf He Hen Hl IH|[name mode] ds reg sps o s s' e x o1 Hp Hf He Hen Hst Hl IH];
    intros loaded Hh; cbn [load_loop]; unfold passed_over, found_entry in *; cbn [fst snd] in *; try rewrite Hp; [done|by apply IH| | |].
  - by rewrite (proj2 (Z.leb_le _ _) Hf).
  - rewrite (proj2 (Z.leb_gt _ _) Hf), He, Hen. apply IH. apply (housed_more reg s (Down e) Hh).
    rewrite <- He in Hen |- *. cbn [e_enabled with_enabled] in Hen. rewrite Hen. apply hub_found.
  - rewrite (proj2 (Z.leb_gt _ _) Hf), He, Hen. apply starts_spec in Hst as (Hla & b & Hsp).
    unfold spawn_result in *. rewrite Hsp. apply IH. apply housed_more; [done|].
    rewrite <- He in Hen, Hla. cbn [e_enabled with_enabled] in Hen. rewrite Hen in Hla. by eapply hub_loaded.
Qed.

(** A directory: its path, its listing if it can be opened, and the processes that are
    created. *)
Record plugin_directory := mk_directory {
  pd_path : cstr;
  pd_listing : option (list dirent);
  pd_spawns : list spawn_result;
}.

Inductive loads : list plugin_directory -> nsr_plugin_manager -> list slot -> nsr_plugin_manager -> list slot -> Prop :=
| loads_done m s : loads [] m s m s
| loads_dir d ds m s s1 m' s' :
    loading (pd_path d) (pm_file m) (default [] (pd_listing d))
      (mk_registry (entries (pm_registry m)) (config_path (pm_registry m)) (strncpy 511 (pd_path d))) (pd_spawns d) (pm_os m) s s1 ->
    loads ds (plugin_mgr_load_dir m (pd_path d) (pd_listing d) (pd_spawns d)).2 s1 m' s' -> loads (d :: ds) m s m' s'.

Lemma loads_housed ds m s m' s' : loads ds m s m' s' -> housed (pm_registry m) s -> housed (pm_registry m') s'.
Proof.
  induction 1 as [|d ds m s s1 m' s' Hl Hls IH]; [done|]. intros (Hh & Hi & Hc & _). apply IH.
  set (r := mk_registry _ _ _) in Hl. assert (Hr : housed r s).
  { split; [done|]. split; [done|]. split; [done|]. cbn. unfold strncpy. rewrite length_take. lia. }
  unfold plugin_mgr_load_dir, nsr_plugins_load_dir. destruct (pd_listing d) as [l|].
  - change (default [] (Some l)) with l in Hl. pose proof (loading_housed _ _ _ _ _ _ _ _ 0 Hl Hr) as Hr'. fold r.
    destruct (load_loop l _ _ r _ 0 _) as [[n reg1] o1]. exact Hr'.
  - change (default [] (@None (list dirent))) with (@nil dirent) in Hl. inversion Hl; subst. exact Hr.
Qed.

(** The directories of the environment with what is in them. *)
Definition user_directories (env : environment) (contents : cstr -> option (list dirent)) (spawns : cstr -> list spawn_result)
    : list plugin_directory :=
  map (fun path => mk_directory path (contents path) (spawns path)) (nsr_plugins_load_user_dir env).

Lemma init_housed config : housed (nsr_plugins_init config) [].
Proof. split; [done|]. split; [constructor|]. split; cbn; [unfold strncpy; rewrite length_take|]; lia. Qed.

(** ** Switches *)

(** What a switch makes of the registry and its processes: nothing when the plugin is
    switched that way already; it is stopped; it is started. *)
Inductive switched (m : nsr_plugin_manager) (idx : Z) (s : list slot) : bool -> list slot -> Prop :=
| switch_idle b :
    (forall e, aget (entries (pm_registry m)) idx = Some e -> e_enabled e = b) -> switched m idx s b s
| switch_off x :
    0 <= idx -> s !! Z.to_nat idx = Some x -> e_enabled (s_host x) = true ->
    switched m idx s false (<[Z.to_nat idx := Down (plugin_stop (with_enabled (s_host x) false) (pm_os m)).1]> s)
| switch_on e x o' :
    0 <= idx -> s !! Z.to_nat idx = Some (Down e) -> e_enabled e = false ->
    starts (pm_registry m) (default None (head (pm_spawns m))) (pm_os m) (with_enabled e true) x o' ->
    switched m idx s true (<[Z.to_nat idx := x]> s).

Lemma switched_hosts m idx b s s' :
  hosts s = entries (pm_registry m) -> switched m idx s b s' ->
  pm_registry (plugin_mgr_set_enabled m idx b) = with_entries (pm_registry m) (hosts s').
Proof.
  intros Hh Hs. unfold plugin_mgr_set_enabled, nsr_plugins_set_enabled. destruct Hs as [b Hb|x Hi Hx He|e x o' Hi Hx He Hst].
  - rewrite Hh. destruct (aget (entries (pm_registry m)) idx) as [e|]; [rewrite (Hb e eq_refl), Bool.eqb_reflx|]; by destruct (pm_registry m).
  - unfold aget. rewrite (proj2 (Z.leb_le 0 idx) Hi), <- Hh, hosts_lookup, Hx. cbn [fmap option_fmap option_map]. rewrite He.
    cbn [Bool.eqb]. rewrite hosts_insert. by destruct (plugin_stop _ _).
  - apply starts_spec in Hst as (_ & b & Hsp).
    unfold aget. rewrite (proj2 (Z.leb_le 0 idx) Hi), <- Hh, hosts_lookup, Hx. cbn [fmap option_fmap option_map s_host]. rewrite He.
    cbn [Bool.eqb]. by rewrite Hsp, hosts_insert.
Qed.

Lemma switched_housed m idx b s s' :
  housed (pm_registry m) s -> switched m idx s b s' -> housed (pm_registry (plugin_mgr_set_enabled m idx b)) s'.
Proof.
  intros Hm Hs. rewrite (switched_hosts m idx b s s' (proj1 Hm) Hs). apply (housed_step _ s); [done| |done].
  destruct Hs as [b Hb|x Hi Hx He|e x o' Hi Hx He Hst]; [apply rtc_refl|apply rtc_once..].
  - by apply hub_off.
  - apply starts_spec in Hst as [Hl _]. by eapply hub_on.
Qed.

(** ** Runs of calls *)

(** The calls [cs] in order, with the plugins going on by themselves: each call of the
    registry is, for some pieces of work on plugins that run, these pieces, which can be
    done at least when nothing is read, and whatever comes of them ([play]) or of a
    switch, the rest is carried on. *)
Fixpoint carried (Q : nsr_plugin_manager -> list slot -> Prop) (cs : list mgr_call) (m : nsr_plugin_manager)
    (s : list slot) : Prop :=
  match cs with
  | [] => Q m s
  | MgrSwitch idx b :: cs' =>
      let m' := plugin_mgr_set_enabled m idx b in
      forall s1 s2, switched m idx s b s1 -> play (E := E) s1 (pm_os m') [] s2 (pm_os m') -> carried Q cs' m' s2
  | c :: cs' =>
      exists hc ms, registry_call c = Some hc /\
        do_moves ms (hosts s) (pm_os m) = call_do hc (hosts s) (pm_os m) /\
        (forall i op, (i, op) ∈ ms -> exists p0 k, s !! i = Some (Up p0 k)) /\
        (reads (pm_os m) = [] -> exists s' o', play (E := E) s (pm_os m) ms s' o') /\
        forall s' o', play (E := E) s (pm_os m) ms s' o' -> carried Q cs' (mgr_do m c) s'
  end.

Lemma call_housed c hc m s :
  housed (pm_registry m) s -> mgr_call_ok c -> registry_call c = Some hc ->
  exists ms, do_moves ms (hosts s) (pm_os m) = call_do hc (hosts s) (pm_os m) /\
    (forall i op, (i, op) ∈ ms -> exists p0 k, s !! i = Some (Up p0 k)) /\
    (reads (pm_os m) = [] -> exists s' o', play (E := E) s (pm_os m) ms s' o') /\
    forall s' o', play (E := E) s (pm_os m) ms s' o' -> housed (pm_registry (mgr_do m c)) s'.
Proof.
  intros Hm Hok Ec. destruct (call_pieces (E := E) hc s (pm_os m) (proj1 (proj2 Hm)) (registry_call_fits c hc Hok Ec)) as (ms & Ems & Hms & Hops).
  exists ms. split; [done|]. split; [done|]. split; [intros Hr; by apply quiet_plays|]. intros s' o' Hp.
  destruct (play_hosts (config_path (pm_registry m)) (plugin_dir (pm_registry m)) s _ ms s' o' Hp) as [Hmv Hsteps].
  rewrite Ems, (proj1 Hm), (registry_call_do m c hc Ec) in Hmv. injection Hmv as Hmv _.
  rewrite (registry_call_reg m c hc Ec), Hmv. by eapply housed_step.
Qed.

Lemma calls_carried (Q : nsr_plugin_manager -> list slot -> Prop) cs m s :
  housed (pm_registry m) s -> Forall mgr_call_ok cs ->
  (forall s', housed (pm_registry (foldl mgr_do m cs)) s' -> Q (foldl mgr_do m cs) s') -> carried Q cs m s.
Proof.
  intros Hm Hcs. revert m s Hm. induction Hcs as [|c cs Hc Hcs IH]; intros m s Hm HQ; [by apply HQ|].
  assert (Hcall : forall hc, registry_call c = Some hc -> exists hc ms, registry_call c = Some hc /\
        do_moves ms (hosts s) (pm_os m) = call_do hc (hosts s) (pm_os m) /\
        (forall i op, (i, op) ∈ ms -> exists p0 k, s !! i = Some (Up p0 k)) /\
        (reads (pm_os m) = [] -> exists s' o', play (E := E) s (pm_os m) ms s' o') /\
        forall s' o', play (E := E) s (pm_os m) ms s' o' -> carried Q cs (mgr_do m c) s').
  { intros hc Ec. destruct (call_housed c hc m s Hm Hc Ec) as (ms & Hw & Hrun & Hquiet & Hplay).
    exists hc, ms. split; [done|]. split; [done|]. split; [done|]. split; [done|]. intros s' o' Hp. apply IH; [by apply (Hplay s' o')|done]. }
  destruct c; try (by eapply Hcall). cbn [carried]. intros s1 s2 Hs Hp. apply IH; [|done].
  pose proof (switched_housed _ _ _ _ _ Hm Hs) as Hh. cbn [mgr_do vt_set_enabled nsr_plugin_manager_vtable].
  destruct (play_hosts (config_path (pm_registry (plugin_mgr_set_enabled m idx enabled)))
    (plugin_dir (pm_registry (plugin_mgr_set_enabled m idx enabled))) _ _ _ _ _ Hp) as [Hmv Hst]. injection Hmv as Hmv.
  rewrite <- (with_own_entries (pm_registry (plugin_mgr_set_enabled m idx enabled))), <- (proj1 Hh), Hmv. by eapply housed_step.
Qed.

End Program.

(** ** Runs of the program *)

Section Runs.
  Context `{Inet} (ntop : bool -> list Z -> cstr) (main_clock : nat -> Z).
  Context `{Ncurses} (uptime_text : Z -> Z -> option (option cstr)) (silent : bool).
  Context (ntop_text : forall v6 bytes, text_ok (ntop v6 bytes)).
  Context `{!InetLaws} (getaddrinfo : cstr -> family -> option (family * list Z)).
  Context (getaddrinfo_text : forall a f g addr, getaddrinfo a f = Some (g, addr) -> g <> AF_UNSPEC -> address_ok g addr).
  Context {P E : Type} `{MessagePluginLaws P E}.


End Runs.

(** ** A run with the GeoIP plugin and one that is off *)

#[local] Existing Instances ncurses_codes letter_inet letter_inet_laws.

Definition geo_home : environment := mk_env (Some (str "/h")) None 1000 (fun _ => None).
Definition geo_contents (path : cstr) : option (list dirent) := Some [(str "sniffer", Some 33261); (str "geoip", Some 33261)].
Definition geo_settings : option cstr := Some (str "NSR_PLUGIN_geoip=1" ++ [newline]).
Definition geo_spawns (path : cstr) : list spawn_result := [Some (5, 6, 7)].
Definition geo_dir : nsr_plugin_registry_t := mk_registry [] (nsr_config_path geo_home) (str "/h/.nsr/plugins").

(** The plugin answers [init]; then it takes what is written to it and is alive when
    asked, and nothing is read. *)
Definition geo_os : os :=
  mk_os (replicate 2 (Some (0, 0))) [PollReady] [ReadData demo_hello] (replicate 20 true) (concat (replicate 11 [Wrote 4000; Wrote 1])).

Definition geo_first : nsr_plugin_manager := plugin_mgr_init (nsr_config_path geo_home) geo_os geo_settings true [].
Definition geo_manager : nsr_plugin_manager :=
  (plugin_mgr_load_dir geo_first (str "/h/.nsr/plugins") (geo_contents []) [Some (5, 6, 7)]).2.
Definition sniffer_found : nsr_plugin_entry_t := found_entry (str "/h/.nsr/plugins") geo_settings (str "sniffer").
Definition geo_found : nsr_plugin_entry_t := found_entry (str "/h/.nsr/plugins") geo_settings (str "geoip").
Definition geo_spawned := plugin_spawn geo_found (config_path geo_dir) (plugin_dir geo_dir) (Some (5, 6, 7)) geo_os.
Definition geo_init : message := init_message (config_path geo_dir) (plugin_dir geo_dir).

Definition geo_slots : list (slot (P := c_plugin)) :=
  [Down sniffer_found; geo_slot geo_spawned.1.2 (length (input_of geo_init)) demo_hello (length demo_hello)].

Lemma geo_starts :
  starts (P := c_plugin) (E := c_world) geo_dir (Some (5, 6, 7)) geo_os geo_found
    (geo_slot geo_spawned.1.2 (length (input_of geo_init)) demo_hello (length demo_hello)) geo_spawned.2.
Proof.
  apply (starts_up (E := c_world) _ _ _ _ (5, 6, 7) hub_world hub_geo hub_geo demo_hello geo_spawned.1.2 geo_spawned.2 demo_hello);
    [reflexivity|vm_compute; reflexivity..| |done].
  exists [ReadData demo_hello]. split; vm_compute; reflexivity.
Qed.

Lemma geo_loads :
  loads (P := c_plugin) (E := c_world) (user_directories geo_home geo_contents geo_spawns) geo_first [] geo_manager geo_slots.
Proof.
  apply (loads_dir (mk_directory (str "/h/.nsr/plugins") (geo_contents []) [Some (5, 6, 7)]) [] geo_first [] geo_slots); [|apply loads_done].
  apply (loading_off _ _ _ _ _ _ _ _ _ sniffer_found); [vm_compute; reflexivity..|].
  apply (loading_on _ _ _ _ _ _ _ _ _ geo_found (geo_slot geo_spawned.1.2 (length (input_of geo_init)) demo_hello (length demo_hello)) geo_spawned.2);
    [vm_compute; reflexivity..|eapply starts_paths; [| |exact geo_starts]; vm_compute; reflexivity|].
  apply loading_done.
Qed.

(** Two turns with a key: eight calls, and the plugin is up at the end. *)
Definition geo_story : list action := [demo_turn None (ord "x"); demo_turn None ERR].

Lemma geo_story_ok : Forall action_ok geo_story.
Proof. repeat (apply Forall_cons_2; [apply demo_turn_ok|]). apply Forall_nil_2. Qed.

#[local] Abbreviation geo_start := (whole_start (main_start default_settings two_sessions [15; 16] [] (geo_manager, [] : list mgr_call))
  (fun _ => 3) (fun _ => slow_clock)).
#[local] Abbreviation geo_run := (run sample_ntop (fun _ => 0) no_uptime false geo_start geo_story).

Lemma result_satisfies {A} (r : option A) (R : A -> bool) : R <$> r = Some true -> exists w, r = Some w /\ R w = true.
Proof. intros (w & E & HR)%fmap_Some. by exists w. Qed.

Lemma geo_story_end :
  exists w, geo_run = Some w /\ bool_decide ((length (mgr (w_main w)).2, map active (entries (pm_registry (mgr (w_main w)).1))) = (8%nat, [false; true])) = true.
Proof. apply result_satisfies. vm_compute. reflexivity. Qed.

