(* ===== verification/Singular.v ===== *)
(** * The singular processes (src/io/singular_broker.c, singular_sender.c, singular_receiver.c)

    An earlier split of the prober into three processes that share nothing but
    messages through pipes: the broker asks for probes, the sender makes packets of
    them, the receiver reports answers.  They are in the source tree but not in the
    list of files the Makefile links.  The set-up is on the descriptor tables of
    Spawn.v.  A pipe carries whole messages, as one [write] of the structure; the
    checksum function of the network library is a parameter. *)

From stdpp Require Import gmap.
From S2P Require Import Prelude Telemetry Icmp Spawn.

(** ** Messages *)

Record nsr_msg_t := mk_msg {
  m_magic : Z;
  m_ttl : Z;
  m_seq : Z;
  m_type : Z;
  m_ts_us : Z;
}.

Definition NSR_MSG_MAGIC : Z := 6001414046728601938.

Definition SEND_REQ : Z := 0.
Definition RECV_EVT : Z := 1.

(** ** Broker *)

(** The command of a turn and the next [seq].  [seq % 30 + 1] and [seq++] stand in one
    initialiser, in no fixed order; [late] says that the TTL sees the new value. *)
Definition probe_command (seq : Z) (late : bool) (now_us : Z) : nsr_msg_t * Z :=
  let seq' := u16 (seq + 1) in
  (mk_msg NSR_MSG_MAGIC (u8 ((if late then seq' else seq) mod 30 + 1)) seq SEND_REQ now_us, seq').

(** What is printed for an event: round-trip time, sequence number, TTL. *)
Definition broker_event (event : nsr_msg_t) (now_us : Z) : option (Z * Z * Z) :=
  if (m_magic event =? NSR_MSG_MAGIC) && (m_type event =? RECV_EVT)
  then Some (u64 (now_us - m_ts_us event), m_seq event, m_ttl event)
  else None.

(** The commands of the turns of the broker, given the order chosen and the time of
    each. *)
Fixpoint broker_commands (seq : Z) (turns : list (bool * Z)) : list nsr_msg_t :=
  match turns with
  | [] => []
  | (late, now_us) :: turns' =>
      let '(cmd, seq) := probe_command seq late now_us in cmd :: broker_commands seq turns'
  end.

(** ** Sender *)

(** The header before the checksum is known, and with it. *)
Record echo_request := mk_echo {
  eh_type : Z;
  eh_id : Z;
  eh_sequence : Z;
  eh_checksum : Z;
}.

(** The TTL set on the socket and the packet sent. *)
Definition sender_packet (ttak_net_icmp_calculate_checksum : echo_request -> Z) (pid : Z) (cmd : nsr_msg_t)
    : option (Z * echo_request) :=
  if (m_magic cmd =? NSR_MSG_MAGIC) && (m_type cmd =? SEND_REQ) then
    let id := htons (u16 pid) in
    let h := mk_echo ICMP_ECHO id (htons (m_seq cmd)) 0 in
    Some (m_ttl cmd, mk_echo ICMP_ECHO id (htons (m_seq cmd)) (ttak_net_icmp_calculate_checksum h))
  else None.

(** ** Receiver *)

(** [buf] is the array of 2048 bytes, of which [recv] has filled the first [n]; the
    rest is what an earlier packet left.  [None] is a read outside the array. *)
Definition receiver_event (buf : bytes) (n now_us : Z) : option (option nsr_msg_t) :=
  if n <=? 0 then Some None
  else
    b0 ← rd8 buf 0;
    let icmp := Z.land b0 15 * 4 in
    ty ← rd8 buf icmp;
    if ty =? ICMP_ECHOREPLY then
      seq ← rd16 buf (icmp + 6); Some (Some (mk_msg NSR_MSG_MAGIC 0 seq RECV_EVT now_us))
    else if ty =? ICMP_TIME_EXCEEDED then
      let inner_ip := icmp + 8 in
      i0 ← rd8 buf inner_ip;
      seq ← rd16 buf (inner_ip + Z.land i0 15 * 4 + 6); Some (Some (mk_msg NSR_MSG_MAGIC 0 seq RECV_EVT now_us))
    else Some None.

(** The array after a packet was received. *)
Definition recv_into (buf pkt : bytes) : bytes := pkt ++ drop (length pkt) buf.

(** ** The processes *)

(** What the system does when the processes are set up: the two [pipe] calls. *)
Record singular_tables := mk_singular {
  st_broker : fdtable;
  st_sender : fdtable;
  st_receiver : fdtable;
  cmd_pipe : nat * nat;    (** the end the sender reads, the end the broker writes *)
  evt_pipe : nat * nat;    (** the end the broker reads, the end the receiver writes *)
}.

(** The part of [nsr_singular_broker_main] before its loop; [p] and [S p] are the
    identities of the pipes.  [None]: the broker returns. *)
Definition singular_setup (t : fdtable) (p : nat) (pipe1_ok pipe2_ok : bool) : option singular_tables :=
  if negb pipe1_ok then None
  else
    let '(s0, s1, t) := sys_pipe t p in
    if negb pipe2_ok then None
    else
      let '(r0, r1, t) := sys_pipe t (S p) in
      Some (mk_singular
        (sys_close (sys_close t s0) r1)
        (sys_close (sys_close (sys_close t s1) r0) r1)
        (sys_close (sys_close (sys_close t s0) s1) r0)
        (s0, s1) (r0, r1)).

(** The packets the sender sends for what it reads from the pipe; [None] is a [read]
    that does not give a whole message.  Without a socket it returns at once. *)
Definition nsr_singular_sender_main (csum : echo_request -> Z) (pid : Z) (socket_ok : bool) (cmds : list (option nsr_msg_t))
    : list (Z * echo_request) :=
  if socket_ok then omap (fun c => c ← c; sender_packet csum pid c) cmds else [].

(** The events the receiver writes; each datagram comes with the time of its
    reception, and the array keeps what a longer datagram has left.  [None] is an
    access outside the array. *)
Fixpoint receiver_loop (buf : bytes) (pkts : list (bytes * Z)) : option (list nsr_msg_t) :=
  match pkts with
  | [] => Some []
  | (pkt, now_us) :: pkts' =>
      let buf := recv_into buf (take 2048 pkt) in
      ev ← receiver_event buf (Z.of_nat (length (take 2048 pkt))) now_us;
      evs ← receiver_loop buf pkts';
      Some (match ev with Some e => e :: evs | None => evs end)
  end.

Definition nsr_singular_receiver_main (socket_ok : bool) (buf : bytes) (pkts : list (bytes * Z)) : option (list nsr_msg_t) :=
  if socket_ok then receiver_loop buf pkts else Some [].

(** ** Properties *)

(** The set-up: of each pipe one process holds the read end and another the write end,
    and no third process holds either, so that a reader sees the end of its pipe when
    the writer is gone; all other descriptors are as they were. *)
Theorem singular_wiring t p s :
  singular_setup t p true true = Some s ->
  let '(s0, s1) := cmd_pipe s in let '(r0, r1) := evt_pipe s in
  st_broker s = <[r0 := PipeR (S p)]> (<[s1 := PipeW p]> t) /\
  st_sender s = <[s0 := PipeR p]> t /\ st_receiver s = <[r1 := PipeW (S p)]> t /\
  t !! s0 = None /\ t !! s1 = None /\ t !! r0 = None /\ t !! r1 = None.
Proof.
  unfold singular_setup. cbn [negb]. pose proof (pipe_spec t p) as H1. destruct (sys_pipe t p) as [[s0 s1] t1].
  destruct H1 as (Hs0 & Hs1 & Hne & -> & _).
  pose proof (pipe_spec (<[s1 := PipeW p]> (<[s0 := PipeR p]> t)) (S p)) as H2.
  destruct (sys_pipe _ (S p)) as [[r0 r1] t2]. destruct H2 as (Hr0 & Hr1 & Hne2 & -> & _). intros [= <-]. cbn.
  apply lookup_insert_None in Hr0 as [Hr0 ?], Hr1 as [Hr1 ?]. apply lookup_insert_None in Hr0 as [Hr0 ?], Hr1 as [Hr1 ?].
  split_and!; try done; apply map_eq; intros k; fd_cases.
Qed.

Lemma singular_wiring_witness :
  exists s, singular_setup std_table 0 true true = Some s /\ cmd_pipe s = (3%nat, 4%nat) /\ st_sender s !! 3%nat = Some (PipeR 0).
Proof.
  eexists. split; [reflexivity|]. split; [vm_compute; reflexivity|].
  pose proof (singular_wiring std_table 0 _ eq_refl) as (_ & -> & _). vm_compute. reflexivity.
Defined.


Lemma low_nibble b : 0 <= Z.land b 15 <= 15.
Proof. pose proof (land_mask b 4 ltac:(lia)) as E. change (2 ^ 4 - 1) with 15 in E. rewrite E. pose proof (Z.mod_pos_bound b (2 ^ 4)). lia. Qed.

Lemma htons_involutive x : is_word x -> htons (htons x) = x.
Proof.
  unfold is_word, htons. intros H. pose proof (Z.div_mod x 256). pose proof (Z.mod_pos_bound x 256).
  rewrite (Z.add_comm (x mod 256 * 256)), Z_mod_plus_full, Z.div_add by lia.
  rewrite (Z.mod_small (x / 256)), (Z.div_small (x / 256)) by lia. lia.
Qed.

(** The lengths in the packet are not compared with its size, but the largest offset
    they can give is below 140: no read leaves the array. *)
Theorem receiver_in_bounds buf n now_us : length buf = 2048%nat -> is_Some (receiver_event buf n now_us).
Proof.
  intros Hl. unfold receiver_event. split_if; [by eexists|]. assert (Hz : Z.of_nat (length buf) = 2048) by lia.
  destruct (rd8_some buf 0) as [b0 ->]; [lia|]. cbn [mbind option_bind]. pose proof (low_nibble b0).
  destruct (rd8_some buf (Z.land b0 15 * 4)) as [ty ->]; [lia|]. cbn [mbind option_bind]. split_if.
  - destruct (rd16_some buf (Z.land b0 15 * 4 + 6)) as [q ->]; [lia..|]. by eexists.
  - split_if; [|by eexists]. destruct (rd8_some buf (Z.land b0 15 * 4 + 8)) as [i0 ->]; [lia|]. cbn [mbind option_bind].
    pose proof (low_nibble i0).
    destruct (rd16_some buf (Z.land b0 15 * 4 + 8 + Z.land i0 15 * 4 + 6)) as [q ->]; [lia..|]. by eexists.
Qed.

Lemma receiver_in_bounds_witness : is_Some (receiver_event (replicate 2048 255) 1 5).
Proof. apply (receiver_in_bounds (replicate 2048 255) 1 5). reflexivity. Defined.

Lemma rd8_into buf pkt off v : rd8 pkt off = Some v -> rd8 (recv_into buf pkt) off = Some v.
Proof.
  intros Hv. unfold rd8, recv_into in *. rewrite aget_app_l; [done|].
  unfold aget in Hv. split_if_in Hv; [|done]. apply lookup_lt_Some in Hv. bool_facts. lia.
Qed.

Lemma rd16_into buf pkt off v : rd16 pkt off = Some v -> rd16 (recv_into buf pkt) off = Some v.
Proof.
  unfold rd16. intros H. apply bind_Some in H as (hi & Hhi & H). apply bind_Some in H as (lo & Hlo & H).
  pose proof (rd8_into buf pkt off hi Hhi) as E1. pose proof (rd8_into buf pkt (off + 1) lo Hlo) as E2.
  unfold rd8 in E1, E2. by rewrite E1, E2.
Qed.

(** The fields the gatekeeper takes from a packet it recognises. *)
Lemma classify_v4_fields pkt type rid rseq :
  classify_v4 pkt = Some (Concerns type rid rseq) -> type = NSR_OBS_REPLY \/ type = NSR_OBS_EXCEEDED ->
  exists b0, rd8 pkt 0 = Some b0 /\
    (rd8 pkt (Z.land b0 15 * 4) = Some ICMP_ECHOREPLY /\ rd16 pkt (Z.land b0 15 * 4 + 6) = Some rseq \/
     rd8 pkt (Z.land b0 15 * 4) = Some ICMP_TIME_EXCEEDED /\ exists i0, rd8 pkt (Z.land b0 15 * 4 + 8) = Some i0 /\
       rd16 pkt (Z.land b0 15 * 4 + 8 + Z.land i0 15 * 4 + 6) = Some rseq).
Proof.
  intros H Ht. unfold classify_v4 in H. split_if_in H; [done|].
  apply bind_Some in H as (b0 & Hb0 & H). exists b0. split; [done|]. do 2 (split_if_in H; [done|]).
  apply bind_Some in H as (ty & Hty & H). rewrite Hty. destruct (ty =? ICMP_ECHOREPLY) eqn:E1.
  { bool_facts. subst ty. left. split; [done|]. apply bind_Some in H as (r & _ & H).
    apply bind_Some in H as (q & Hq & H). congruence. }
  right. destruct ((ty =? ICMP_TIME_EXCEEDED) || _) eqn:E2.
  - split_if_in H; [done|]. apply bind_Some in H as (i0 & Hi0 & H). split_if_in H; [done|].
    apply bind_Some in H as (r & _ & H). apply bind_Some in H as (q & Hq & H). injection H as Hty' _ Hqq. subst q.
    destruct (ty =? ICMP_DEST_UNREACH) eqn:E3; [by destruct Ht; subst type|]. rewrite orb_false_r in E2. bool_facts. subst ty.
    split; [done|]. by exists i0.
  - injection H as Hty' _ _. by destruct Ht; subst type.
Qed.

(** Every answer that the gatekeeper recognises as a reply or as an exceeded TTL is
    reported by the receiver, with the same sequence number, whatever is left in its
    buffer. *)
Lemma receiver_reports old pkt type rid rseq now_us :
  classify_v4 pkt = Some (Concerns type rid rseq) -> type = NSR_OBS_REPLY \/ type = NSR_OBS_EXCEEDED ->
  receiver_event (recv_into old pkt) (Z.of_nat (length pkt)) now_us
    = Some (Some (mk_msg NSR_MSG_MAGIC 0 rseq RECV_EVT now_us)).
Proof.
  intros Hc Ht. destruct (classify_v4_fields pkt type rid rseq Hc Ht) as (b0 & Hb0 & Hcase). unfold receiver_event.
  assert (Hn : (Z.of_nat (length pkt) <=? 0) = false).
  { unfold rd8, aget in Hb0. split_if_in Hb0; [|done]. apply lookup_lt_Some in Hb0. apply Z.leb_gt. lia. }
  rewrite Hn, (rd8_into _ _ _ _ Hb0). cbn [mbind option_bind].
  destruct Hcase as [[Hty Hq]|(Hty & i0 & Hi0 & Hq)]; rewrite (rd8_into _ _ _ _ Hty); cbn [mbind option_bind].
  - by rewrite (rd16_into _ _ _ _ Hq).
  - change (ICMP_TIME_EXCEEDED =? ICMP_ECHOREPLY) with false. rewrite Z.eqb_refl.
    rewrite (rd8_into _ _ _ _ Hi0). cbn [mbind option_bind]. by rewrite (rd16_into _ _ _ _ Hq).
Qed.

(** The round trip through the three processes.  A probe with sequence number [seq]
    is asked for at [t0], its answer is received at [t1] and read by the broker at
    [t2]: the broker prints the sequence number, but the time it prints is the delay
    between receiver and broker, whatever [t0] was, and the TTL is 0. *)
Theorem broker_prints_pipe_delay csum pid seq late t0 t1 t2 old pkt type :
  is_word seq -> type = NSR_OBS_REPLY \/ type = NSR_OBS_EXCEEDED -> 0 <= pid ->
  reply_packet false type (u16 pid) seq pkt ->
  let cmd := (probe_command seq late t0).1 in
  (exists ttl h, sender_packet csum pid cmd = Some (ttl, h) /\ 1 <= ttl <= 30 /\ htons (eh_sequence h) = seq) /\
  exists event, receiver_event (recv_into old pkt) (Z.of_nat (length pkt)) t1 = Some (Some event) /\
    broker_event event t2 = Some (u64 (t2 - t1), seq, 0).
Proof.
  intros Hs Ht Hp Hr. cbn zeta. split.
  - eexists _, _. split; [reflexivity|]. cbn [eh_sequence m_ttl m_seq fst probe_command]. split.
    + set (x := if late then _ else _). pose proof (Z.mod_pos_bound x 30). rewrite u8_small by lia. lia.
    + by apply htons_involutive.
  - pose proof (reply_classified _ _ _ _ _ Hr) as Hc. unfold classify in Hc. split_if_in Hc; [|done].
    rewrite (receiver_reports old pkt type (u16 pid) seq t1 Hc Ht). eexists. split; [done|]. reflexivity.
Qed.

(** Nothing in a packet is checked against its length or the identifier of the
    sender: after one answer, a datagram of a single byte is reported as that answer
    again. *)
Theorem receiver_repeats_stale_answer :
  let buf := recv_into (replicate 2048 0) sample_time_exceeded in
  option_map (option_map m_seq) (receiver_event buf (Z.of_nat (length sample_time_exceeded)) 5) = Some (Some 9) /\
  option_map (option_map m_seq) (receiver_event (recv_into buf [69]) 1 6) = Some (Some 9).
Proof. vm_compute. auto. Qed.

(** The broker goes through the sequence numbers one by one, and every TTL it asks for
    is between 1 and 30. *)
Theorem broker_schedule seq turns :
  is_word seq ->
  Forall (fun c => m_magic c = NSR_MSG_MAGIC /\ m_type c = SEND_REQ /\ 1 <= m_ttl c <= 30)
    (broker_commands seq turns) /\
  map m_seq (broker_commands seq turns) = map (fun k => u16 (seq + Z.of_nat k)) (List.seq 0 (length turns)).
Proof.
  revert seq. induction turns as [|[late now] turns IH]; intros seq Hs; [by split|].
  cbn [broker_commands probe_command length List.seq map]. destruct (IH (u16 (seq + 1))) as [H1 H2]; [apply u16_range|]. split.
  - constructor; [|done]. cbn [m_magic m_type m_ttl]. split_and!; [done..| |];
      set (x := if late then _ else _); pose proof (Z.mod_pos_bound x 30); rewrite u8_small by lia; lia.
  - rewrite H2. cbn [m_seq]. f_equal; [by rewrite Z.add_0_r, u16_small|].
    rewrite <- fmap_S_seq. rewrite <- list_fmap_compose. apply map_ext. intros k. cbn. unfold u16, wrap.
    rewrite Zplus_mod_idemp_l. f_equal. lia.
Qed.

(** Broker and sender together: each command that arrives whole becomes one packet, in
    order, with the sequence number and the TTL that the broker chose. *)
Theorem commands_become_packets csum pid seq turns :
  is_word seq ->
  let cmds := broker_commands seq turns in
  Forall2 (fun c '(ttl, h) => ttl = m_ttl c /\ 1 <= ttl <= 30 /\ htons (eh_sequence h) = m_seq c /\ eh_id h = htons (u16 pid))
    cmds (nsr_singular_sender_main csum pid true (map Some cmds)).
Proof.
  intros Hs. cbn zeta. pose proof (broker_schedule seq turns Hs) as [Hok _].
  assert (Hw : Forall (fun c => is_word (m_seq c)) (broker_commands seq turns)).
  { clear Hok. revert seq Hs. induction turns as [|[late now] turns IH]; intros seq Hs; [constructor|].
    cbn [broker_commands probe_command]. constructor; [exact Hs|]. apply IH, u16_range. }
  unfold nsr_singular_sender_main. induction Hok as [|c cs (Hm & Hty & Ht) Hok IH]; [constructor|].
  inversion_clear Hw as [|? ? Hc Hcs]. cbn [map omap list_omap mbind option_bind].
  unfold sender_packet at 1. rewrite Hm, Hty, !Z.eqb_refl. cbn [andb]. constructor; [|by apply IH].
  cbn [eh_sequence eh_id]. by rewrite htons_involutive.
Qed.

Lemma commands_become_packets_witness :
  length (nsr_singular_sender_main (fun _ => 0) 7 true (map Some (broker_commands 65534 [(false, 1); (true, 2); (false, 3)]))) = 3%nat.
Proof.
  symmetry. apply (Forall2_length _ _ _ (commands_become_packets (fun _ => 0) 7 65534 [(false, 1); (true, 2); (false, 3)] ltac:(unfold is_word; lia))).
Defined.

(** The receiver never leaves its array, whatever datagrams arrive. *)
Theorem receiver_runs buf pkts : length buf = 2048%nat -> is_Some (receiver_loop buf pkts).
Proof.
  revert buf. induction pkts as [|[pkt now] pkts IH]; intros buf Hl; cbn [receiver_loop]; [by eexists|].
  set (buf' := recv_into buf (take 2048 pkt)). assert (Hl' : length buf' = 2048%nat).
  { unfold buf', recv_into. rewrite length_app, length_drop, length_take. lia. }
  destruct (receiver_in_bounds buf' (Z.of_nat (length (take 2048 pkt))) now Hl') as [ev ->]. cbn [mbind option_bind].
  destruct (IH buf' Hl') as [evs ->]. by eexists.
Qed.

Lemma receiver_runs_witness : is_Some (receiver_loop (replicate 2048 0) [([69], 5)]).
Proof. apply (receiver_runs (replicate 2048 0) [([69], 5)]). reflexivity. Defined.
