(* ===== verification/OldTracer.v ===== *)
(** * The earlier tracers (src/io/tracer.c, src/io/supervisor.c)

    Two designs that came before the rings: probe slots in the library's abstract
    memory, driven by ticks and timeouts, and a table of hop records in shared memory,
    walked by a worker.  The files are in the source tree but not in the list the
    Makefile links; sending is left open in both.  Abstract memory is an interface
    with the law that a read returns what was written; the clock is an argument of
    each step. *)

From S2P Require Import Prelude Telemetry Icmp.

(** ** The checksum of tracer.c *)

Definition fold_acc (acc : Z) : Z := if 65535 <? acc then acc - 65535 else acc.

(** The words are read as the little-endian host stores them. *)
Fixpoint sum_words (acc : Z) (data : bytes) : Z :=
  match data with
  | b0 :: b1 :: data' => sum_words (fold_acc (acc + (b0 + 256 * b1))) data'
  | [b0] => fold_acc (acc + b0)
  | [] => acc
  end.

Definition nsr_checksum (data : bytes) : Z := u16 (Z.lnot (sum_words 65535 data)).

(** The words of a packet on this host, an odd byte padded with zero. *)
Fixpoint host_words (data : bytes) : list Z :=
  match data with
  | b0 :: b1 :: data' => (b0 + 256 * b1) :: host_words data'
  | [b0] => [b0]
  | [] => []
  end.

Lemma host_words_ok data : Forall is_byte data -> Forall is_word (host_words data).
Proof.
  revert data. fix IH 1. intros [|b0 [|b1 data]] H; cbn [host_words]; [constructor|..].
  - inversion_clear H as [|? ? Hb]. constructor; [|constructor]. unfold is_byte, is_word in *. lia.
  - inversion_clear H as [|? ? Hb H']. inversion_clear H' as [|? ? Hb' H'']. constructor; [|by apply IH].
    unfold is_byte, is_word in *. lia.
Qed.

Lemma fold_acc_spec acc w :
  0 < acc <= 65535 -> is_word w ->
  0 < fold_acc (acc + w) <= 65535 /\ fold_acc (acc + w) mod 65535 = (acc + w) mod 65535.
Proof.
  unfold fold_acc, is_word. intros Ha Hw. split_if; bool_facts; [|lia]. split; [lia|].
  replace (acc + w) with (acc + w - 65535 + 1 * 65535) at 2 by lia. by rewrite Z_mod_plus_full.
Qed.

Lemma sum_words_spec data acc :
  0 < acc <= 65535 -> Forall is_byte data ->
  0 < sum_words acc data <= 65535 /\
  sum_words acc data mod 65535 = (acc + foldr Z.add 0 (host_words data)) mod 65535.
Proof.
  revert data acc. fix IH 1. intros [|b0 [|b1 data]] acc Ha H; cbn [sum_words host_words foldr].
  - by rewrite Z.add_0_r.
  - inversion_clear H as [|? ? Hb]. rewrite Z.add_0_r. apply fold_acc_spec; [done|]. unfold is_byte, is_word in *. lia.
  - inversion_clear H as [|? ? Hb H']. inversion_clear H' as [|? ? Hb' H''].
    destruct (fold_acc_spec acc (b0 + 256 * b1) Ha) as [H1 H2]; [unfold is_byte, is_word in *; lia|].
    destruct (IH data (fold_acc (acc + (b0 + 256 * b1))) H1 H'') as [H3 H4]. split; [done|].
    rewrite H4, Z.add_mod, H2, <- Z.add_mod by lia. f_equal. lia.
Qed.

Lemma ones_sum_some_positive ws : Forall is_word ws -> Exists (Z.lt 0) ws -> 0 < ones_sum ws.
Proof.
  intros Hw He. unfold ones_sum. assert (H0 : is_word 0) by (unfold is_word; lia).
  enough (Hall : forall acc, is_word acc -> 0 < foldl ones_add acc ws) by by apply Hall. clear H0.
  induction ws as [|w ws IH]; intros acc Ha; [by inversion He|]. apply Forall_cons in Hw as [Hw Hws]. cbn [foldl].
  inversion_clear He as [? ? Hp|? ? He']; [|by apply IH, ones_add_word].
  apply ones_sum_pos; [|done]. unfold ones_add, is_word in *.
  pose proof (Z.div_mod (acc + w) 65536). pose proof (Z.mod_pos_bound (acc + w) 65536). lia.
Qed.

(** [nsr_checksum] is the checksum of RFC 1071.  For any data of bytes that are not all
    zero, of even or odd length, the words of the data and the checksum add up to
    [0xFFFF] in one's complement; a receiver that recomputes the sum accepts it. *)
Theorem nsr_checksum_verifies data :
  Forall is_byte data -> Exists (Z.lt 0) (host_words data) ->
  is_word (nsr_checksum data) /\ ones_sum (nsr_checksum data :: host_words data) = 65535.
Proof.
  intros Hb He. destruct (sum_words_spec data 65535 ltac:(lia) Hb) as [Hr Hm].
  assert (Hc : nsr_checksum data = 65535 - sum_words 65535 data).
  { unfold nsr_checksum. rewrite lnot16, Z.mod_small by lia. done. }
  assert (Hw : is_word (nsr_checksum data)) by (rewrite Hc; unfold is_word; lia). split; [done|].
  set (ws := nsr_checksum data :: host_words data).
  assert (Hws : Forall is_word ws) by (constructor; [done|by apply host_words_ok]).
  pose proof (words_sum ws Hws) as Hs. unfold is_word in Hs.
  pose proof (ones_sum_some_positive ws Hws ltac:(by right)) as Hp.
  pose proof (ones_sum_mod ws 0) as Hmod. fold (ones_sum ws) in Hmod. rewrite Z.add_0_l in Hmod.
  assert (H0 : ones_sum ws mod 65535 = 0).
  { rewrite Hmod. subst ws. cbn [foldr]. rewrite Hc, Z.add_comm, <- Z.add_mod_idemp_l by lia.
    replace (foldr Z.add 0 (host_words data) mod 65535) with (sum_words 65535 data mod 65535).
    - rewrite Z.add_mod_idemp_l by lia. replace (sum_words 65535 data + _) with (1 * 65535) by lia. apply Z_mod_mult.
    - rewrite Hm. replace (65535 + foldr Z.add 0 (host_words data)) with (foldr Z.add 0 (host_words data) + 1 * 65535) by lia.
      by rewrite Z_mod_plus_full. }
  apply Z.mod_divide in H0 as [k Hk]; lia.
Qed.

Lemma nsr_checksum_verifies_witness :
  ones_sum (nsr_checksum [8; 0; 0; 0; 18; 52; 7] :: host_words [8; 0; 0; 0; 18; 52; 7]) = 65535.
Proof.
  apply (nsr_checksum_verifies [8; 0; 0; 0; 18; 52; 7]); [repeat constructor; lia|]. left. reflexivity.
Defined.

(** ** Probe slots (tracer.c) *)

Inductive nsr_probe_state_t := NSR_PROBE_IDLE | NSR_PROBE_SENT | NSR_PROBE_RECEIVED | NSR_PROBE_TIMEOUT.

#[export] Instance probe_state_eq_dec : EqDecision nsr_probe_state_t.
Proof. solve_decision. Defined.

(** [ttl], [rtt] and [last_ip] are never written. *)
Record nsr_probe_data_t := mk_probe {
  pd_generation : Z;
  pd_seq : Z;
  pd_sent_at : Z;
  pd_state : nsr_probe_state_t;
}.

(** A block of the library's abstract memory that holds one slot. *)
Class AbstractMem (mem : Type) := {
  ttak_abstract_alloc : mem;
  ttak_abstract_read : mem -> nsr_probe_data_t;
  ttak_abstract_write : mem -> nsr_probe_data_t -> mem;
}.

Class AbstractMemLaws (mem : Type) `{AbstractMem mem} := {
  abstract_read_write m d : ttak_abstract_read (ttak_abstract_write m d) = d;
}.

Section Tracer.
  Context {mem : Type} `{AbstractMemLaws mem}.

Record nsr_probe_handle_t := mk_handle {
  abs_mem : mem;
  ph_generation : Z;
}.

Record nsr_context_t := mk_context {
  cx_hops : list nsr_probe_handle_t;
  sent_count : Z;
}.

Definition init_hop (i : nat) : nsr_probe_handle_t :=
  mk_handle (ttak_abstract_write ttak_abstract_alloc (mk_probe 1 (Z.of_nat i) 0 NSR_PROBE_IDLE)) 1.

(** [created]: the owner could be created; the context is zeroed before.  [None] is
    TTAK_ERR_NOMEM. *)
Definition nsr_init (created : bool) : option nsr_context_t :=
  if created then
    Some (mk_context (map init_hop (seq 0 64)) 0)
  else None.

(** [None] is an index outside the 64 handles. *)
Definition nsr_logic_tick (ctx : nsr_context_t) (ttl now : Z) : option nsr_context_t :=
  h ← aget (cx_hops ctx) ttl;
  let data := ttak_abstract_read (abs_mem h) in
  if bool_decide (pd_state data = NSR_PROBE_SENT) then Some ctx
  else
    let data := mk_probe (u32 (pd_generation data + 1)) (pd_seq data) now NSR_PROBE_SENT in
    Some (mk_context (<[Z.to_nat ttl := mk_handle (ttak_abstract_write (abs_mem h) data) (ph_generation h)]> (cx_hops ctx))
            (u64 (sent_count ctx + 1))).

(** [args] is the handle of hop [i]. *)
Definition nsr_logic_on_timeout (ctx : nsr_context_t) (i : Z) : option nsr_context_t :=
  h ← aget (cx_hops ctx) i;
  let data := ttak_abstract_read (abs_mem h) in
  if (pd_generation data =? ph_generation h) && bool_decide (pd_state data = NSR_PROBE_SENT) then
    let data := mk_probe (pd_generation data) (pd_seq data) (pd_sent_at data) NSR_PROBE_TIMEOUT in
    Some (mk_context (<[Z.to_nat i := mk_handle (ttak_abstract_write (abs_mem h) data) (ph_generation h)]> (cx_hops ctx))
            (sent_count ctx))
  else Some ctx.

Inductive tracer_call :=
| Tick (ttl now : Z)
| OnTimeout (i : Z).

Definition tracer_step (ctx : nsr_context_t) (c : tracer_call) : option nsr_context_t :=
  match c with
  | Tick ttl now => nsr_logic_tick ctx ttl now
  | OnTimeout i => nsr_logic_on_timeout ctx i
  end.

Fixpoint run_tracer (ctx : nsr_context_t) (cs : list tracer_call) : option nsr_context_t :=
  match cs with
  | [] => Some ctx
  | c :: cs' => ctx ← tracer_step ctx c; run_tracer ctx cs'
  end.

Definition tracer_call_ok (c : tracer_call) : Prop :=
  match c with Tick i _ | OnTimeout i => 0 <= i < 64 end.

(** The time of the first tick for [i]. *)
Fixpoint first_tick (cs : list tracer_call) (i : Z) : option Z :=
  match cs with
  | [] => None
  | Tick ttl now :: cs' => if ttl =? i then Some now else first_tick cs' i
  | OnTimeout _ :: cs' => first_tick cs' i
  end.

(** A slot that was first probed at [sent], if at all. *)
Definition slot_content (i : nat) (sent : option Z) : nsr_probe_data_t :=
  match sent with
  | Some now => mk_probe 2 (Z.of_nat i) now NSR_PROBE_SENT
  | None => mk_probe 1 (Z.of_nat i) 0 NSR_PROBE_IDLE
  end.

Definition slots_are (ctx : nsr_context_t) (sent : nat -> option Z) : Prop :=
  length (cx_hops ctx) = 64%nat /\
  forall i h, cx_hops ctx !! i = Some h -> ph_generation h = 1 /\ ttak_abstract_read (abs_mem h) = slot_content i (sent i).

Lemma aget_pos {A} (l : list A) i : 0 <= i -> aget l i = l !! Z.to_nat i.
Proof. intros Hi. unfold aget. by rewrite (proj2 (Z.leb_le _ _) Hi). Qed.

Lemma init_slots ctx : nsr_init true = Some ctx -> slots_are ctx (fun _ => None).
Proof.
  unfold nsr_init. generalize (eq_refl (seq 0 64)). generalize (seq 0 64) at 2 3. intros l Hl [= <-]. subst l.
  split; [done|]. intros i h Hi. change (cx_hops _) with (init_hop <$> seq 0 64) in Hi.
  apply list_lookup_fmap_Some in Hi as (k & -> & Hk). apply lookup_seq in Hk as [-> _].
  unfold init_hop. cbn [ph_generation abs_mem]. by rewrite abstract_read_write.
Qed.

Definition or_else {A} (a b : option A) : option A := match a with Some _ => a | None => b end.

Lemma slots_step ctx c sent :
  slots_are ctx sent -> tracer_call_ok c ->
  exists ctx', tracer_step ctx c = Some ctx' /\
    slots_are ctx' (fun i => or_else (sent i) (first_tick [c] (Z.of_nat i))).
Proof.
  intros [Hlen Hs] Hok. destruct c as [i now|i]; cbn [tracer_step tracer_call_ok first_tick] in *;
    unfold nsr_logic_tick, nsr_logic_on_timeout; destruct (aget_Some (cx_hops ctx) i) as [h Hh]; [lia| |lia|];
    rewrite Hh; cbn [mbind option_bind]; rewrite aget_pos in Hh by lia; destruct (Hs _ _ Hh) as [Hg Hr]; rewrite Hr, ?Hg.
  - destruct (sent (Z.to_nat i)) as [t|] eqn:Es; cbn [slot_content pd_state pd_generation pd_seq].
    + eexists. split; [reflexivity|]. split; [done|]. intros j h' Hj. destruct (Hs _ _ Hj) as [Hg' Hr']. split; [done|].
      rewrite Hr'. destruct (sent j) eqn:Ej; [done|]. cbn [or_else]. rewrite (proj2 (Z.eqb_neq _ _)); [done|].
      intros ->. rewrite Nat2Z.id in Es. congruence.
    + eexists. split; [reflexivity|]. split; [cbn [cx_hops]; by rewrite length_insert|]. cbn [cx_hops]. intros j h' Hj.
      apply list_lookup_insert_Some in Hj as [(<- & <- & _)|[Hne Hj]].
      * cbn [ph_generation abs_mem]. rewrite abstract_read_write, Es, Z2Nat.id, Z.eqb_refl by lia. cbn [or_else slot_content]. by rewrite Z2Nat.id by lia.
      * destruct (Hs _ _ Hj) as [Hg' Hr']. split; [done|]. rewrite Hr'. f_equal. destruct (sent j); [done|]. cbn [or_else].
        rewrite (proj2 (Z.eqb_neq _ _)); [done|]. intros ->. by rewrite Nat2Z.id in Hne.
  - assert (Hno : (pd_generation (slot_content (Z.to_nat i) (sent (Z.to_nat i))) =? 1)
      && bool_decide (pd_state (slot_content (Z.to_nat i) (sent (Z.to_nat i))) = NSR_PROBE_SENT) = false).
    { by destruct (sent (Z.to_nat i)). }
    rewrite Hno. eexists. split; [reflexivity|]. split; [done|]. intros j h' Hj. destruct (Hs _ _ Hj) as [Hg' Hr'].
    split; [done|]. rewrite Hr'. by destruct (sent j).
Qed.

Lemma slots_run ctx cs sent :
  slots_are ctx sent -> Forall tracer_call_ok cs ->
  exists ctx', run_tracer ctx cs = Some ctx' /\ slots_are ctx' (fun i => or_else (sent i) (first_tick cs (Z.of_nat i))).
Proof.
  intros Hs Hok. revert ctx sent Hs. induction Hok as [|c cs Hc Hok IH]; intros ctx sent Hs; cbn [run_tracer].
  - exists ctx. split; [done|]. destruct Hs as [Hl Hs]. split; [done|]. intros i h Hi. cbn [first_tick].
    destruct (Hs i h Hi) as [? ->]. by destruct (sent i).
  - destruct (slots_step ctx c sent Hs Hc) as (ctx1 & -> & Hs1). cbn [mbind option_bind].
    destruct (IH ctx1 _ Hs1) as (ctx2 & -> & [Hl2 Hs2]). exists ctx2. split; [done|]. split; [done|].
    intros i h Hi. destruct (Hs2 i h Hi) as [? ->]. split; [done|]. f_equal. destruct (sent i); [done|]. cbn [or_else].
    destruct c as [ttl now|k]; cbn [first_tick or_else]; [|done]. by destruct (ttl =? Z.of_nat i).
Qed.

(** A probe of the slot design is never lost and never repeated.  A tick increments
    the generation in the slot but not the one in the handle, with which
    [nsr_logic_on_timeout] compares it: whatever ticks and timeouts follow on a fresh
    context, a slot that was ticked keeps the time of its first tick and stays
    [NSR_PROBE_SENT], and the others stay idle. *)
Theorem timeout_never_fires ctx cs :
  nsr_init true = Some ctx -> Forall tracer_call_ok cs ->
  exists ctx', run_tracer ctx cs = Some ctx' /\
    forall i h, cx_hops ctx' !! i = Some h ->
      ttak_abstract_read (abs_mem h) = slot_content i (first_tick cs (Z.of_nat i)).
Proof.
  intros Hi Hok. destruct (slots_run ctx cs _ (init_slots ctx Hi) Hok) as (ctx' & E & _ & Hs).
  exists ctx'. split; [done|]. intros i h Hh. by apply Hs.
Qed.

End Tracer.

Arguments nsr_probe_handle_t mem : clear implicits.
Arguments nsr_context_t mem : clear implicits.

(** Memory that is the record itself. *)
#[export] Instance plain_mem : AbstractMem nsr_probe_data_t := {
  ttak_abstract_alloc := mk_probe 0 0 0 NSR_PROBE_IDLE;
  ttak_abstract_read m := m;
  ttak_abstract_write _ d := d;
}.

#[export] Instance plain_mem_laws : AbstractMemLaws nsr_probe_data_t.
Proof. constructor. done. Qed.

Lemma timeout_never_fires_witness :
  exists ctx : nsr_context_t nsr_probe_data_t,
    (ctx ← nsr_init true; run_tracer ctx [Tick 3 10; OnTimeout 3; Tick 3 20; OnTimeout 5]) = Some ctx /\
    forall h, cx_hops ctx !! 3%nat = Some h -> ttak_abstract_read (abs_mem h) = mk_probe 2 3 10 NSR_PROBE_SENT.
Proof.
  destruct (nsr_init (mem := nsr_probe_data_t) true) as [ctx|] eqn:E; [|discriminate E].
  destruct (timeout_never_fires ctx [Tick 3 10; OnTimeout 3; Tick 3 20; OnTimeout 5] E) as (ctx' & Hr & Hs).
  { repeat constructor; lia. }
  exists ctx'. split; [exact Hr|]. intros h Hh. exact (Hs 3%nat h Hh).
Defined.

(** ** Hop records in shared memory (supervisor.c) *)

Record nsr_hop_record_t := mk_hop_record {
  hr_generation : Z;
  hr_ttl : Z;
  hr_seq : Z;
  hr_state : Z;
  hr_sent_at_us : Z;
  hr_rtt_us : Z;
}.

Record nsr_shared_state_t := mk_shared {
  sh_magic : Z;
  sh_version : Z;
  global_generation : Z;
  sh_hops : list nsr_hop_record_t;
}.

Definition zero_record : nsr_hop_record_t := mk_hop_record 0 0 0 0 0 0.

(** The state the supervisor leaves to the worker. *)
Definition supervisor_state : nsr_shared_state_t := mk_shared 1381191201 1 0 (replicate 64 zero_record).

(** [mapped]: [ttak_shm_map] succeeds. *)
Definition nsr_state_get_hop (mapped : bool) (s : nsr_shared_state_t) (ttl : Z) : option nsr_hop_record_t :=
  if 64 <=? ttl then None else if mapped then aget (sh_hops s) ttl else None.

Definition nsr_state_update_hop (mapped : bool) (s : nsr_shared_state_t) (ttl : Z) (h : nsr_hop_record_t)
    : bool * nsr_shared_state_t :=
  if 64 <=? ttl then (false, s)
  else if mapped then
    (true, mk_shared (sh_magic s) (sh_version s) (u32 (global_generation s + 1)) (<[Z.to_nat ttl := h]> (sh_hops s)))
  else (false, s).

(** The body of the loop over the TTLs. *)
Definition worker_hop (mapped : bool) (s : nsr_shared_state_t) (ttl now_us : Z) : nsr_shared_state_t :=
  match nsr_state_get_hop mapped s ttl with
  | Some h =>
      if negb (hr_state h =? 1) then
        (nsr_state_update_hop mapped s ttl
           (mk_hop_record (u32 (hr_generation h + 1)) (hr_ttl h) (hr_seq h) 1 now_us (hr_rtt_us h))).2
      else s
  | None => s
  end.

(** [for (ttl = 1; ttl <= 15; ttl++)]; [now_us ttl] is the time at the TTL. *)
Definition worker_pass (mapped : bool) (s : nsr_shared_state_t) (now_us : Z -> Z) : nsr_shared_state_t :=
  foldl (fun s ttl => worker_hop mapped s ttl (now_us ttl)) s (map Z.of_nat (seq 1 15)).

Definition worker_passes (s : nsr_shared_state_t) (passes : list (Z -> Z)) : nsr_shared_state_t :=
  foldl (worker_pass true) s passes.

(** A record that was read back is the one that was written, and no other changes. *)
Theorem hop_table_is_register mapped s ttl h :
  length (sh_hops s) = 64%nat -> 0 <= ttl ->
  let '(ok, s') := nsr_state_update_hop mapped s ttl h in
  ok = (mapped && (ttl <? 64)) /\
  if ok then
    nsr_state_get_hop true s' ttl = Some h /\ global_generation s' = u32 (global_generation s + 1) /\
    forall ttl', 0 <= ttl' -> ttl' <> ttl -> nsr_state_get_hop true s' ttl' = nsr_state_get_hop true s ttl'
  else s' = s.
Proof.
  intros Hl Ht. unfold nsr_state_update_hop, nsr_state_get_hop. destruct (64 <=? ttl) eqn:E; bool_facts.
  { rewrite (proj2 (Z.ltb_ge _ _)) by lia. by rewrite andb_false_r. }
  rewrite (proj2 (Z.ltb_lt ttl 64)) by lia. destruct mapped; [|done]. cbn [andb sh_hops global_generation].
  split_and!; [done|..|done|].
  - rewrite aget_pos by done. apply list_lookup_insert_eq. lia.
  - intros ttl' H1 H2. split_if; [done|]. rewrite !aget_pos by done. apply list_lookup_insert_ne. lia.
Qed.

Definition probed_at (now_us : Z -> Z) (ttl : nat) : nsr_hop_record_t := mk_hop_record 1 0 0 1 (now_us (Z.of_nat ttl)) 0.

(** The state after the first pass. *)
Definition probed_state (now_us : Z -> Z) : nsr_shared_state_t :=
  mk_shared 1381191201 1 15 (zero_record :: map (probed_at now_us) (seq 1 15) ++ replicate 48 zero_record).

Lemma first_pass now_us : worker_pass true supervisor_state now_us = probed_state now_us.
Proof. reflexivity. Qed.

Lemma later_pass now_us later : worker_pass true (probed_state now_us) later = probed_state now_us.
Proof. reflexivity. Qed.

(** The worker probes each of its 15 hops once.  Nothing resets the state of a record:
    however many passes are made, each hop keeps the time of the first pass, and the
    table is changed 15 times in all. *)
Theorem worker_probes_once now_us passes :
  worker_passes supervisor_state (now_us :: passes) = probed_state now_us.
Proof.
  cbn [worker_passes foldl]. rewrite first_pass. induction passes as [|later passes IH]; [done|].
  cbn [foldl]. by rewrite later_pass.
Qed.
