(* ===== verification/Bench.v ===== *)
(** * The benchmark programs (src/bench_nsr_e2e.c, src/bench_nsr.c)

    The end-to-end benchmark starts one gatekeeper and one logic process, keeps the
    last snapshot it finds on their ring and, after the time that was asked for,
    prints the sums of its counters.  The two processes are those of System.v, with
    the interval and the target of the command line; neither is ever restarted.  The
    texts, the elapsed time and the processor affinity are left out. *)

From stdpp Require Import relations gmap.
From S2P Require Import Supervisor PluginConfig.
From S2P Require Import Prelude Telemetry ShmRing HopAlias Logic Icmp Gatekeeper GateSetup System Topology Accounting.

(** ** The command line *)

Record bench_args_t := mk_bench_args {
  ba_target : cstr;
  ba_duration : Z;
  ba_interval : Z;
}.

Definition bench_interval (interval_ms : Z) : Z :=
  if interval_ms <? 10 then 10 else if 1000 <? interval_ms then 1000 else interval_ms.

(** [None]: the usage is printed and the program fails. *)
Definition bench_arguments (argv : list cstr) : option bench_args_t :=
  match argv with
  | _ :: target :: rest =>
      let duration := match rest with d :: _ => atoi d | [] => 10 end in
      let interval_ms := match rest with _ :: i :: _ => atoi i | _ => 50 end in
      Some (mk_bench_args target (u32 duration) (bench_interval interval_ms))
  | _ => None
  end.

Definition bench_config (a : bench_args_t) : nsr_config_t :=
  mk_config (ba_interval a) (strncpy 47 (ba_target a)) [].

(** ** The run *)

(** [bn_gk_pid], [bn_logic_pid]: what [fork] returned. *)
Record bench_t := mk_bench {
  bn_gk_pid : Z;
  bn_logic_pid : Z;
  bn_pipe : pipeline;
  bn_last : nsr_telemetry_state_t;
  bn_running : bool;
}.

Section Bench.
  Context (clock : nat -> Z) (inet_ntop : bool -> list Z -> cstr) `{Inet}.

(** The rings and the configuration are zeroed; [fd]: the socket of the gatekeeper. *)
Definition bench_start (a : bench_args_t) (gk_pid logic_pid : Z) : bench_t :=
  mk_bench gk_pid logic_pid
    (mk_pipeline (logic_init clock (bench_config a)) (started_gk gk_pid) (mk_rings empty_ring empty_ring empty_large))
    zero_telemetry true.

(** One round of the inner loop: [None] when there is no snapshot. *)
Definition bench_refresh (b : bench_t) : option (option bench_t) :=
  let '(mk_pipeline st g rg) := bn_pipe b in
  r ← nsr_shm_ring_large_pop (l2t rg);
  match r with
  | (Some new_state, l2t') =>
      Some (Some (mk_bench (bn_gk_pid b) (bn_logic_pid b) (mk_pipeline st g (mk_rings (g2l rg) (l2g rg) l2t'))
        new_state (bn_running b)))
  | (None, _) => Some None
  end.

(** SIGINT and SIGALRM. *)
Definition bench_signal (b : bench_t) : bench_t :=
  mk_bench (bn_gk_pid b) (bn_logic_pid b) (bn_pipe b) (bn_last b) false.

Definition bench_kills (b : bench_t) : list (Z * signal) := [(bn_gk_pid b, SIGTERM); (bn_logic_pid b, SIGTERM)].

(** [total_sent] and [total_recv], which are unsigned. *)
Definition bench_totals (b : bench_t) : Z * Z :=
  foldl (fun '(total_sent, total_recv) h => (u32 (total_sent + sent h), u32 (total_recv + recv h))) (0, 0) (hops (bn_last b)).

(** The three processes in any order, as long as no counter is near its limit; a
    process runs when its [fork] returned a process, the gatekeeper when it got
    through its start. *)
Inductive bench_step (a : bench_args_t) (fd : Z) : bench_t -> bench_t -> Prop :=
| bench_engine gp lp st g rg st' rg' last on :
    0 < lp -> room (mk_pipeline st g rg) -> logic_iteration clock inet_ntop st (ba_interval a) rg = Done (st', rg') ->
    bench_step a fd (mk_bench gp lp (mk_pipeline st g rg) last on) (mk_bench gp lp (mk_pipeline st' g rg') last on)
| bench_keeper gp lp st g rg now accepted batches msgs g' l2g' g2l' is_v6 dest g0 last on :
    0 < gp -> room (mk_pipeline st g rg) -> gk_start (ba_target a) gp fd = Some (is_v6, dest, g0) -> Forall (batch_ok is_v6) batches ->
    gk_iteration g is_v6 now accepted batches (l2g rg) (g2l rg) = GkDone (msgs, g', l2g', g2l') ->
    bench_step a fd (mk_bench gp lp (mk_pipeline st g rg) last on)
      (mk_bench gp lp (mk_pipeline st g' (mk_rings g2l' l2g' (l2t rg))) last on)
| bench_polls b b' : room (bn_pipe b) -> bench_refresh b = Some (Some b') -> bench_step a fd b b'
| bench_signalled b : bench_step a fd b (bench_signal b).

Context (clock_range : forall n, 0 <= clock n < 2 ^ 64) (ntop_ok : forall v6 bytes, text_ok (inet_ntop v6 bytes)).

Definition fair (tel : nsr_telemetry_state_t) : Prop := Forall (fun h => 0 <= recv h <= sent h) (hops tel).

(** The accounting of the two processes holds, and the last snapshot is sound. *)
Definition bench_inv (b : bench_t) : Prop := account (bn_pipe b) /\ fair (bn_last b).

Lemma bench_step_inv a fd b b' : bench_step a fd b b' -> bench_inv b -> bench_inv b'.
Proof.
  intros Hs [Hac Hl]. destruct Hs as [gp lp st g rg st' rg' last on Hp Hr Hit|gp lp st g rg now acc bs msgs g' l2g' g2l' v6 dest g0 last on Hp Hr Hst Hb Hit
    |b b' Hr Href|b]; cbn [bn_pipe bn_last] in *.
  - split; [|done]. eapply (counted_step_account clock inet_ntop clock_range ntop_ok false); [|exact Hac].
    apply counted_runs; [done|]. by eapply engine_runs.
  - split; [|done]. eapply (counted_step_account clock inet_ntop clock_range ntop_ok v6); [|exact Hac].
    apply counted_runs; [done|]. by eapply keeper_runs.
  - destruct b as [gp lp [st g rg] last on]. unfold bench_refresh in Href. cbn [bn_pipe bn_last bn_gk_pid bn_logic_pid bn_running] in *.
    destruct (nsr_shm_ring_large_pop (l2t rg)) as [[[tel|] l2t']|] eqn:Ep; cbn in Href; [|done..]. injection Href as <-.
    split; cbn [bn_pipe bn_last].
    + eapply (counted_step_account clock inet_ntop clock_range ntop_ok false); [|exact Hac].
      apply counted_runs; [done|]. by eapply renderer_pops.
    + destruct Hac as [(_ & _ & _ & _ & H3 & _) _ _ Hsn]. cbn [rings] in *.
      destruct (large_pop_spec (l2t rg) H3) as (o & r' & Hp & _ & Ho & _). rewrite Ep in Hp. injection Hp as <- _.
      destruct (lcontents (l2t rg)) as [|t ts]; [done|]. injection Ho as ->. by inversion_clear Hsn as [|? ? [_ ?] _].
  - done.
Qed.

Definition sum_of (f : nsr_hop_info_t -> Z) (hs : list nsr_hop_info_t) : Z := foldr Z.add 0 (map f hs).

Lemma totals_sums s r hs :
  foldl (fun '(ts, tr) h => (u32 (ts + sent h), u32 (tr + recv h))) (u32 s, u32 r) hs = (u32 (s + sum_of sent hs), u32 (r + sum_of recv hs)).
Proof.
  revert s r. induction hs as [|h hs IH]; intros s r; cbn [foldl sum_of map foldr]; [by rewrite !Z.add_0_r|].
  assert (Hu : forall x y, u32 (u32 x + y) = u32 (x + y)) by (intros; unfold u32, wrap; by rewrite Zplus_mod_idemp_l).
  rewrite !Hu, IH. unfold sum_of. by rewrite !Z.add_assoc.
Qed.

Lemma sum_fair hs : Forall (fun h => 0 <= recv h <= sent h) hs -> 0 <= sum_of recv hs <= sum_of sent hs.
Proof. unfold sum_of. induction 1; cbn [map foldr]; lia. Qed.

(** The result the benchmark prints is consistent: at any time, however the
    processes interleave and whatever the network delivers, the observations it
    counts are at most the probes it counts, when these fit their counter. *)
Theorem bench_result_is_sound a fd gk_pid logic_pid b :
  text_ok (ba_target a) -> rtc (bench_step a fd) (bench_start a gk_pid logic_pid) b ->
  sum_of sent (hops (bn_last b)) < 2 ^ 32 ->
  bench_totals b = (sum_of sent (hops (bn_last b)), sum_of recv (hops (bn_last b))) /\ (bench_totals b).2 <= (bench_totals b).1.
Proof.
  intros Ht Hr Hsum. assert (Hinv : bench_inv b).
  { apply (rtc_ind_r bench_inv (bench_start a gk_pid logic_pid)) in Hr; [done| |intros y z _ Hs; by apply (bench_step_inv a fd)].
    split; [|repeat constructor; done]. destruct Ht as (Hne & Hnul & Hlen).
    assert (Hcfg : text_ok (cf_target_ip (bench_config a))).
    { cbn. unfold strncpy. by rewrite take_ge by lia. }
    pose proof (account_init clock inet_ntop clock_range ntop_ok (bench_config a) (u16 gk_pid) Hcfg) as Hac. exact Hac. }
  destruct Hinv as [_ Hf]. pose proof (sum_fair _ Hf) as Hs. unfold bench_totals.
  change (0, 0) with (u32 0, u32 0). rewrite totals_sums. unfold u32, wrap. rewrite !Z.mod_small by lia. cbn. split; [done|lia].
Qed.

End Bench.

(** The interval is in the range of the program; the target is that of the logic
    process, cut to its array. *)
Lemma bench_arguments_ok argv a :
  bench_arguments argv = Some a -> 10 <= ba_interval a <= 1000 /\ 0 <= ba_duration a < 2 ^ 32 /\
  (length (cf_target_ip (bench_config a)) <= 47)%nat.
Proof.
  destruct argv as [|p [|t rest]]; [done..|]. intros [= <-]. cbn [ba_interval ba_duration bench_config cf_target_ip ba_target].
  split; [unfold bench_interval; split_ifs; lia|]. split; [apply u32_range|]. unfold strncpy. rewrite length_take. lia.
Qed.

(** ** The micro-benchmark *)

(** The loop over [count] probes. *)
Definition integrity_sum (count : nat) : Z :=
  foldl (fun sum i => u64 (sum + compute_integrity_fast (Z.of_nat i mod 64) (u16 (Z.of_nat i)))) 0 (seq 0 count).

(** ** A run: probes are sent, and the snapshot is taken from the ring *)

Definition demo_args : bench_args_t := mk_bench_args (str "192.0.2.7") 5 10.

Definition engine_then_poll (b : bench_t) : option bench_t :=
  let '(mk_bench gp lp (mk_pipeline st g rg) last on) := b in
  match logic_iteration sample_clock sample_ntop st 10 rg with
  | Done (st', rg') => r ← bench_refresh (mk_bench gp lp (mk_pipeline st' g rg') last on); r
  | _ => None
  end.

Definition enough_room (b : bench_t) : bool :=
  let '(mk_bench gp lp (mk_pipeline st g rg) last on) := b in
  match logic_iteration sample_clock sample_ntop st 10 rg with
  | Done (st', rg') => roomb (mk_pipeline st g rg) && roomb (mk_pipeline st' g rg')
  | _ => false
  end.

Lemma engine_then_poll_steps `{Inet} a fd gp lp p last on b' :
  0 < lp -> ba_interval a = 10 -> enough_room (mk_bench gp lp p last on) = true -> engine_then_poll (mk_bench gp lp p last on) = Some b' ->
  rtc (bench_step sample_clock sample_ntop a fd) (mk_bench gp lp p last on) b'.
Proof.
  intros Hp Hi Hroom Hb. destruct p as [st g rg]. unfold engine_then_poll in Hb. unfold enough_room in Hroom.
  destruct (logic_iteration sample_clock sample_ntop st 10 rg) as [[st' rg']|?|] eqn:E; [|done..].
  apply andb_true_iff in Hroom as [R1 R2]. apply bind_Some in Hb as (r & Hr & ->).
  eapply rtc_l; [eapply bench_engine; [done|by apply roomb_room|by rewrite Hi]|].
  eapply rtc_l; [eapply bench_polls; [by apply roomb_room|exact Hr]|]. apply rtc_refl.
Qed.

(** A run that can be computed, with a check of its result. *)
Lemma one_run (F : bench_t -> option bench_t) (R : bench_t -> bench_t -> bool) b :
  (b' ← F b; Some (R b b')) = Some true -> exists b', F b = Some b' /\ R b b' = true.
Proof. intros H. apply bind_Some in H as (b' & E & [= H]). by exists b'. Qed.

Definition demo_check (b b' : bench_t) : bool := enough_room b && bool_decide (bench_totals b' = (28, 0)).

Lemma demo_bench_runs :
  exists b', engine_then_poll (bench_start sample_clock demo_args 7 8) = Some b' /\
    demo_check (bench_start sample_clock demo_args 7 8) b' = true.
Proof. apply one_run. vm_compute. reflexivity. Qed.

Lemma bench_result_is_sound_witness `{Inet} :
  exists b, bench_totals b = (28, 0) /\ rtc (bench_step sample_clock sample_ntop demo_args 5) (bench_start sample_clock demo_args 7 8) b /\
    (sum_of sent (hops (bn_last b)) < 2 ^ 32 -> (bench_totals b).2 <= (bench_totals b).1).
Proof.
  destruct demo_bench_runs as (b & E & HR). apply andb_true_iff in HR as [R T]. exists b.
  pose proof (bool_decide_eq_true_1 _ T) as Ht.
  assert (Hrun : rtc (bench_step sample_clock sample_ntop demo_args 5) (bench_start sample_clock demo_args 7 8) b).
  { apply engine_then_poll_steps; [lia|done|exact R|exact E]. }
  split; [exact Ht|]. split; [exact Hrun|]. intros Hs.
  apply (bench_result_is_sound sample_clock sample_ntop sample_clock_range sample_ntop_text demo_args 5 7 8 b); [|exact Hrun|exact Hs].
  split; [discriminate|]. split; [|cbn; lia]. apply (bool_decide_unpack _). vm_compute. exact I.
Defined.
